(** * The demuxer packet cache of mpv (demux/demux.c)

    A shallow embedding of the packet queues, the read-ahead step, the
    pruner, the in-cache seek and the reader-state query of
    [demux/demux.c], with the properties of the cache proved about it.

    Conventions of the embedding:
    - a C [double] is a rational number of [Q]: arithmetic is exact, there
      is no rounding, no infinity and no NaN;
    - a [size_t] is a [Z] kept in [0, 2^64) by [to_size_t]; an [int] or
      [int64_t] that the code only compares or stores is a plain [Z];
    - a packet queue ([queue_head] .. [queue_tail], linked by [next]) is a
      list of packets; a pointer into the queue ([reader_head], a seek
      target) is the distance of the packet from [queue_head], [None] being
      the NULL pointer; freeing the head moves every packet one step up;
    - fields of [struct demux_stream] carry the prefix [ds_], those of
      [struct demux_internal] the prefix [in_], those of
      [struct demux_packet] the prefix [dp_]; the fields of the demuxer
      structs [d_thread] and [d_user] that the cache uses carry these
      names as prefix;
    - a guarded assignment, [if (c) x = v;], is the assignment of
      [if c then v else x];
    - what the code does to the outside (locking, signalling, the wakeup
      callback, log lines at warning and verbose level) is recorded,
      newest first, in [in_trace]. *)

From Stdlib Require Import ZArith QArith Bool String List Lia Lqa.
Import ListNotations.
Local Open Scope Z_scope.

(** ** Numbers *)

Definition size_t_modulus : Z := 2 ^ 64.

(** Conversion to [size_t]: reduction modulo 2^64. *)
Definition to_size_t (z : Z) : Z := z mod size_t_modulus.

(** common/common.h: [#define MP_NOPTS_VALUE (-0x1p+63)]. *)
Definition MP_NOPTS_VALUE : Q := inject_Z (- 2 ^ 63).

Definition Qlt_bool (a b : Q) : bool := negb (Qle_bool b a).

(** common/common.h: [MPMAX(a, b) (((a) > (b)) ? (a) : (b))] and
    [MPMIN(a, b) (((a) > (b)) ? (b) : (a))]. *)
Definition MPMAX (a b : Q) : Q := if Qlt_bool b a then a else b.
Definition MPMIN (a b : Q) : Q := if Qlt_bool b a then b else a.

(** Return [a], or if that is NOPTS, return [def]. *)
Definition PTS_OR_DEF (a def : Q) : Q :=
  if Qeq_bool a MP_NOPTS_VALUE then def else a.

(** If one of the values is NOPTS, always pick the other one. *)
Definition MP_PTS_MIN (a b : Q) : Q := MPMIN (PTS_OR_DEF a b) (PTS_OR_DEF b a).
Definition MP_PTS_MAX (a b : Q) : Q := MPMAX (PTS_OR_DEF a b) (PTS_OR_DEF b a).

Definition MP_ADD_PTS (a b : Q) : Q :=
  if Qeq_bool a MP_NOPTS_VALUE then a else (a + b)%Q.

(** demux/demux.h: the seek flags are single bits. *)
Definition SEEK_FACTOR : Z := Z.shiftl 1 1.
Definition SEEK_FORWARD : Z := Z.shiftl 1 2.
Definition SEEK_HR : Z := Z.shiftl 1 4.

Definition has_flag (flags f : Z) : bool := negb (Z.land flags f =? 0).
Definition clear_flag (flags f : Z) : Z := Z.land flags (Z.lnot f).

(** ** Data *)

Inductive stream_type : Type :=
  | STREAM_VIDEO
  | STREAM_AUDIO
  | STREAM_SUB.

Definition stream_type_eqb (a b : stream_type) : bool :=
  match a, b with
  | STREAM_VIDEO, STREAM_VIDEO | STREAM_AUDIO, STREAM_AUDIO
  | STREAM_SUB, STREAM_SUB => true
  | _, _ => false
  end.

Inductive log_level : Type := MSGL_WARN | MSGL_V.

Inductive event : Type :=
  | EvLock
  | EvUnlock
  | EvCondSignal
  | EvWakeupCb
  | EvLog (lev : log_level) (msg : string).

(** [struct demux_packet]. [dp_total_size] stands for what
    [demux_packet_estimate_total_size] (demux/packet.c) computes from the
    packet; the list link [next] is the list structure of the queue. *)
Record demux_packet : Type := mk_demux_packet {
  dp_len : Z;
  dp_pts : Q;
  dp_dts : Q;
  dp_pos : Z;
  dp_keyframe : bool;
  dp_segmented : bool;
  dp_start : Q;
  dp_end : Q;
  dp_stream : Z;
  dp_total_size : Z
}.

Definition set_dp_pts (v : Q) (dp : demux_packet) : demux_packet :=
  {| dp_len := dp_len dp; dp_pts := v; dp_dts := dp_dts dp; dp_pos := dp_pos
     dp; dp_keyframe := dp_keyframe dp; dp_segmented := dp_segmented dp;
     dp_start := dp_start dp; dp_end := dp_end dp; dp_stream := dp_stream dp;
     dp_total_size := dp_total_size dp |}.

Definition set_dp_dts (v : Q) (dp : demux_packet) : demux_packet :=
  {| dp_len := dp_len dp; dp_pts := dp_pts dp; dp_dts := v; dp_pos := dp_pos
     dp; dp_keyframe := dp_keyframe dp; dp_segmented := dp_segmented dp;
     dp_start := dp_start dp; dp_end := dp_end dp; dp_stream := dp_stream dp;
     dp_total_size := dp_total_size dp |}.

Definition set_dp_start (v : Q) (dp : demux_packet) : demux_packet :=
  {| dp_len := dp_len dp; dp_pts := dp_pts dp; dp_dts := dp_dts dp; dp_pos :=
     dp_pos dp; dp_keyframe := dp_keyframe dp; dp_segmented := dp_segmented dp;
     dp_start := v; dp_end := dp_end dp; dp_stream := dp_stream dp;
     dp_total_size := dp_total_size dp |}.

Definition set_dp_end (v : Q) (dp : demux_packet) : demux_packet :=
  {| dp_len := dp_len dp; dp_pts := dp_pts dp; dp_dts := dp_dts dp; dp_pos :=
     dp_pos dp; dp_keyframe := dp_keyframe dp; dp_segmented := dp_segmented dp;
     dp_start := dp_start dp; dp_end := v; dp_stream := dp_stream dp;
     dp_total_size := dp_total_size dp |}.

Definition set_dp_stream (v : Z) (dp : demux_packet) : demux_packet :=
  {| dp_len := dp_len dp; dp_pts := dp_pts dp; dp_dts := dp_dts dp; dp_pos :=
     dp_pos dp; dp_keyframe := dp_keyframe dp; dp_segmented := dp_segmented dp;
     dp_start := dp_start dp; dp_end := dp_end dp; dp_stream := v;
     dp_total_size := dp_total_size dp |}.


(** [struct demux_stream], with the two fields of its [sh_stream] that the
    cache reads: [ds_type] and [ds_attached_picture]. [ds_queue] is the
    list from [queue_head] to [queue_tail]. *)
Record demux_stream : Type := mk_demux_stream {
  ds_type : stream_type;
  ds_attached_picture : option demux_packet;
  ds_selected : bool;
  ds_active : bool;
  ds_eof : bool;
  ds_need_refresh : bool;
  ds_refreshing : bool;
  ds_correct_dts : bool;
  ds_correct_pos : bool;
  ds_fw_packs : Z;
  ds_fw_bytes : Z;
  ds_bw_bytes : Z;
  ds_last_pos : Z;
  ds_last_dts : Q;
  ds_last_ts : Q;
  ds_back_pts : Q;
  ds_queue : list demux_packet;
  ds_base_ts : Q;
  ds_last_br_ts : Q;
  ds_last_br_bytes : Z;
  ds_bitrate : Q;
  ds_reader_head : option nat;
  ds_skip_to_keyframe : bool;
  ds_attached_picture_added : bool;
  ds_ignore_eof : bool
}.

Definition set_ds_selected (v : bool) (ds : demux_stream) : demux_stream :=
  {| ds_type := ds_type ds; ds_attached_picture := ds_attached_picture ds;
     ds_selected := v; ds_active := ds_active ds; ds_eof := ds_eof ds;
     ds_need_refresh := ds_need_refresh ds; ds_refreshing := ds_refreshing ds;
     ds_correct_dts := ds_correct_dts ds; ds_correct_pos := ds_correct_pos ds;
     ds_fw_packs := ds_fw_packs ds; ds_fw_bytes := ds_fw_bytes ds; ds_bw_bytes
     := ds_bw_bytes ds; ds_last_pos := ds_last_pos ds; ds_last_dts :=
     ds_last_dts ds; ds_last_ts := ds_last_ts ds; ds_back_pts := ds_back_pts
     ds; ds_queue := ds_queue ds; ds_base_ts := ds_base_ts ds; ds_last_br_ts :=
     ds_last_br_ts ds; ds_last_br_bytes := ds_last_br_bytes ds; ds_bitrate :=
     ds_bitrate ds; ds_reader_head := ds_reader_head ds; ds_skip_to_keyframe :=
     ds_skip_to_keyframe ds; ds_attached_picture_added :=
     ds_attached_picture_added ds; ds_ignore_eof := ds_ignore_eof ds |}.

Definition set_ds_active (v : bool) (ds : demux_stream) : demux_stream :=
  {| ds_type := ds_type ds; ds_attached_picture := ds_attached_picture ds;
     ds_selected := ds_selected ds; ds_active := v; ds_eof := ds_eof ds;
     ds_need_refresh := ds_need_refresh ds; ds_refreshing := ds_refreshing ds;
     ds_correct_dts := ds_correct_dts ds; ds_correct_pos := ds_correct_pos ds;
     ds_fw_packs := ds_fw_packs ds; ds_fw_bytes := ds_fw_bytes ds; ds_bw_bytes
     := ds_bw_bytes ds; ds_last_pos := ds_last_pos ds; ds_last_dts :=
     ds_last_dts ds; ds_last_ts := ds_last_ts ds; ds_back_pts := ds_back_pts
     ds; ds_queue := ds_queue ds; ds_base_ts := ds_base_ts ds; ds_last_br_ts :=
     ds_last_br_ts ds; ds_last_br_bytes := ds_last_br_bytes ds; ds_bitrate :=
     ds_bitrate ds; ds_reader_head := ds_reader_head ds; ds_skip_to_keyframe :=
     ds_skip_to_keyframe ds; ds_attached_picture_added :=
     ds_attached_picture_added ds; ds_ignore_eof := ds_ignore_eof ds |}.

Definition set_ds_eof (v : bool) (ds : demux_stream) : demux_stream :=
  {| ds_type := ds_type ds; ds_attached_picture := ds_attached_picture ds;
     ds_selected := ds_selected ds; ds_active := ds_active ds; ds_eof := v;
     ds_need_refresh := ds_need_refresh ds; ds_refreshing := ds_refreshing ds;
     ds_correct_dts := ds_correct_dts ds; ds_correct_pos := ds_correct_pos ds;
     ds_fw_packs := ds_fw_packs ds; ds_fw_bytes := ds_fw_bytes ds; ds_bw_bytes
     := ds_bw_bytes ds; ds_last_pos := ds_last_pos ds; ds_last_dts :=
     ds_last_dts ds; ds_last_ts := ds_last_ts ds; ds_back_pts := ds_back_pts
     ds; ds_queue := ds_queue ds; ds_base_ts := ds_base_ts ds; ds_last_br_ts :=
     ds_last_br_ts ds; ds_last_br_bytes := ds_last_br_bytes ds; ds_bitrate :=
     ds_bitrate ds; ds_reader_head := ds_reader_head ds; ds_skip_to_keyframe :=
     ds_skip_to_keyframe ds; ds_attached_picture_added :=
     ds_attached_picture_added ds; ds_ignore_eof := ds_ignore_eof ds |}.

Definition set_ds_need_refresh (v : bool) (ds : demux_stream) : demux_stream :=
  {| ds_type := ds_type ds; ds_attached_picture := ds_attached_picture ds;
     ds_selected := ds_selected ds; ds_active := ds_active ds; ds_eof := ds_eof
     ds; ds_need_refresh := v; ds_refreshing := ds_refreshing ds;
     ds_correct_dts := ds_correct_dts ds; ds_correct_pos := ds_correct_pos ds;
     ds_fw_packs := ds_fw_packs ds; ds_fw_bytes := ds_fw_bytes ds; ds_bw_bytes
     := ds_bw_bytes ds; ds_last_pos := ds_last_pos ds; ds_last_dts :=
     ds_last_dts ds; ds_last_ts := ds_last_ts ds; ds_back_pts := ds_back_pts
     ds; ds_queue := ds_queue ds; ds_base_ts := ds_base_ts ds; ds_last_br_ts :=
     ds_last_br_ts ds; ds_last_br_bytes := ds_last_br_bytes ds; ds_bitrate :=
     ds_bitrate ds; ds_reader_head := ds_reader_head ds; ds_skip_to_keyframe :=
     ds_skip_to_keyframe ds; ds_attached_picture_added :=
     ds_attached_picture_added ds; ds_ignore_eof := ds_ignore_eof ds |}.

Definition set_ds_refreshing (v : bool) (ds : demux_stream) : demux_stream :=
  {| ds_type := ds_type ds; ds_attached_picture := ds_attached_picture ds;
     ds_selected := ds_selected ds; ds_active := ds_active ds; ds_eof := ds_eof
     ds; ds_need_refresh := ds_need_refresh ds; ds_refreshing := v;
     ds_correct_dts := ds_correct_dts ds; ds_correct_pos := ds_correct_pos ds;
     ds_fw_packs := ds_fw_packs ds; ds_fw_bytes := ds_fw_bytes ds; ds_bw_bytes
     := ds_bw_bytes ds; ds_last_pos := ds_last_pos ds; ds_last_dts :=
     ds_last_dts ds; ds_last_ts := ds_last_ts ds; ds_back_pts := ds_back_pts
     ds; ds_queue := ds_queue ds; ds_base_ts := ds_base_ts ds; ds_last_br_ts :=
     ds_last_br_ts ds; ds_last_br_bytes := ds_last_br_bytes ds; ds_bitrate :=
     ds_bitrate ds; ds_reader_head := ds_reader_head ds; ds_skip_to_keyframe :=
     ds_skip_to_keyframe ds; ds_attached_picture_added :=
     ds_attached_picture_added ds; ds_ignore_eof := ds_ignore_eof ds |}.

Definition set_ds_correct_dts (v : bool) (ds : demux_stream) : demux_stream :=
  {| ds_type := ds_type ds; ds_attached_picture := ds_attached_picture ds;
     ds_selected := ds_selected ds; ds_active := ds_active ds; ds_eof := ds_eof
     ds; ds_need_refresh := ds_need_refresh ds; ds_refreshing := ds_refreshing
     ds; ds_correct_dts := v; ds_correct_pos := ds_correct_pos ds; ds_fw_packs
     := ds_fw_packs ds; ds_fw_bytes := ds_fw_bytes ds; ds_bw_bytes :=
     ds_bw_bytes ds; ds_last_pos := ds_last_pos ds; ds_last_dts := ds_last_dts
     ds; ds_last_ts := ds_last_ts ds; ds_back_pts := ds_back_pts ds; ds_queue
     := ds_queue ds; ds_base_ts := ds_base_ts ds; ds_last_br_ts :=
     ds_last_br_ts ds; ds_last_br_bytes := ds_last_br_bytes ds; ds_bitrate :=
     ds_bitrate ds; ds_reader_head := ds_reader_head ds; ds_skip_to_keyframe :=
     ds_skip_to_keyframe ds; ds_attached_picture_added :=
     ds_attached_picture_added ds; ds_ignore_eof := ds_ignore_eof ds |}.

Definition set_ds_correct_pos (v : bool) (ds : demux_stream) : demux_stream :=
  {| ds_type := ds_type ds; ds_attached_picture := ds_attached_picture ds;
     ds_selected := ds_selected ds; ds_active := ds_active ds; ds_eof := ds_eof
     ds; ds_need_refresh := ds_need_refresh ds; ds_refreshing := ds_refreshing
     ds; ds_correct_dts := ds_correct_dts ds; ds_correct_pos := v; ds_fw_packs
     := ds_fw_packs ds; ds_fw_bytes := ds_fw_bytes ds; ds_bw_bytes :=
     ds_bw_bytes ds; ds_last_pos := ds_last_pos ds; ds_last_dts := ds_last_dts
     ds; ds_last_ts := ds_last_ts ds; ds_back_pts := ds_back_pts ds; ds_queue
     := ds_queue ds; ds_base_ts := ds_base_ts ds; ds_last_br_ts :=
     ds_last_br_ts ds; ds_last_br_bytes := ds_last_br_bytes ds; ds_bitrate :=
     ds_bitrate ds; ds_reader_head := ds_reader_head ds; ds_skip_to_keyframe :=
     ds_skip_to_keyframe ds; ds_attached_picture_added :=
     ds_attached_picture_added ds; ds_ignore_eof := ds_ignore_eof ds |}.

Definition set_ds_fw_packs (v : Z) (ds : demux_stream) : demux_stream :=
  {| ds_type := ds_type ds; ds_attached_picture := ds_attached_picture ds;
     ds_selected := ds_selected ds; ds_active := ds_active ds; ds_eof := ds_eof
     ds; ds_need_refresh := ds_need_refresh ds; ds_refreshing := ds_refreshing
     ds; ds_correct_dts := ds_correct_dts ds; ds_correct_pos := ds_correct_pos
     ds; ds_fw_packs := v; ds_fw_bytes := ds_fw_bytes ds; ds_bw_bytes :=
     ds_bw_bytes ds; ds_last_pos := ds_last_pos ds; ds_last_dts := ds_last_dts
     ds; ds_last_ts := ds_last_ts ds; ds_back_pts := ds_back_pts ds; ds_queue
     := ds_queue ds; ds_base_ts := ds_base_ts ds; ds_last_br_ts :=
     ds_last_br_ts ds; ds_last_br_bytes := ds_last_br_bytes ds; ds_bitrate :=
     ds_bitrate ds; ds_reader_head := ds_reader_head ds; ds_skip_to_keyframe :=
     ds_skip_to_keyframe ds; ds_attached_picture_added :=
     ds_attached_picture_added ds; ds_ignore_eof := ds_ignore_eof ds |}.

Definition set_ds_fw_bytes (v : Z) (ds : demux_stream) : demux_stream :=
  {| ds_type := ds_type ds; ds_attached_picture := ds_attached_picture ds;
     ds_selected := ds_selected ds; ds_active := ds_active ds; ds_eof := ds_eof
     ds; ds_need_refresh := ds_need_refresh ds; ds_refreshing := ds_refreshing
     ds; ds_correct_dts := ds_correct_dts ds; ds_correct_pos := ds_correct_pos
     ds; ds_fw_packs := ds_fw_packs ds; ds_fw_bytes := v; ds_bw_bytes :=
     ds_bw_bytes ds; ds_last_pos := ds_last_pos ds; ds_last_dts := ds_last_dts
     ds; ds_last_ts := ds_last_ts ds; ds_back_pts := ds_back_pts ds; ds_queue
     := ds_queue ds; ds_base_ts := ds_base_ts ds; ds_last_br_ts :=
     ds_last_br_ts ds; ds_last_br_bytes := ds_last_br_bytes ds; ds_bitrate :=
     ds_bitrate ds; ds_reader_head := ds_reader_head ds; ds_skip_to_keyframe :=
     ds_skip_to_keyframe ds; ds_attached_picture_added :=
     ds_attached_picture_added ds; ds_ignore_eof := ds_ignore_eof ds |}.

Definition set_ds_bw_bytes (v : Z) (ds : demux_stream) : demux_stream :=
  {| ds_type := ds_type ds; ds_attached_picture := ds_attached_picture ds;
     ds_selected := ds_selected ds; ds_active := ds_active ds; ds_eof := ds_eof
     ds; ds_need_refresh := ds_need_refresh ds; ds_refreshing := ds_refreshing
     ds; ds_correct_dts := ds_correct_dts ds; ds_correct_pos := ds_correct_pos
     ds; ds_fw_packs := ds_fw_packs ds; ds_fw_bytes := ds_fw_bytes ds;
     ds_bw_bytes := v; ds_last_pos := ds_last_pos ds; ds_last_dts :=
     ds_last_dts ds; ds_last_ts := ds_last_ts ds; ds_back_pts := ds_back_pts
     ds; ds_queue := ds_queue ds; ds_base_ts := ds_base_ts ds; ds_last_br_ts :=
     ds_last_br_ts ds; ds_last_br_bytes := ds_last_br_bytes ds; ds_bitrate :=
     ds_bitrate ds; ds_reader_head := ds_reader_head ds; ds_skip_to_keyframe :=
     ds_skip_to_keyframe ds; ds_attached_picture_added :=
     ds_attached_picture_added ds; ds_ignore_eof := ds_ignore_eof ds |}.

Definition set_ds_last_pos (v : Z) (ds : demux_stream) : demux_stream :=
  {| ds_type := ds_type ds; ds_attached_picture := ds_attached_picture ds;
     ds_selected := ds_selected ds; ds_active := ds_active ds; ds_eof := ds_eof
     ds; ds_need_refresh := ds_need_refresh ds; ds_refreshing := ds_refreshing
     ds; ds_correct_dts := ds_correct_dts ds; ds_correct_pos := ds_correct_pos
     ds; ds_fw_packs := ds_fw_packs ds; ds_fw_bytes := ds_fw_bytes ds;
     ds_bw_bytes := ds_bw_bytes ds; ds_last_pos := v; ds_last_dts :=
     ds_last_dts ds; ds_last_ts := ds_last_ts ds; ds_back_pts := ds_back_pts
     ds; ds_queue := ds_queue ds; ds_base_ts := ds_base_ts ds; ds_last_br_ts :=
     ds_last_br_ts ds; ds_last_br_bytes := ds_last_br_bytes ds; ds_bitrate :=
     ds_bitrate ds; ds_reader_head := ds_reader_head ds; ds_skip_to_keyframe :=
     ds_skip_to_keyframe ds; ds_attached_picture_added :=
     ds_attached_picture_added ds; ds_ignore_eof := ds_ignore_eof ds |}.

Definition set_ds_last_dts (v : Q) (ds : demux_stream) : demux_stream :=
  {| ds_type := ds_type ds; ds_attached_picture := ds_attached_picture ds;
     ds_selected := ds_selected ds; ds_active := ds_active ds; ds_eof := ds_eof
     ds; ds_need_refresh := ds_need_refresh ds; ds_refreshing := ds_refreshing
     ds; ds_correct_dts := ds_correct_dts ds; ds_correct_pos := ds_correct_pos
     ds; ds_fw_packs := ds_fw_packs ds; ds_fw_bytes := ds_fw_bytes ds;
     ds_bw_bytes := ds_bw_bytes ds; ds_last_pos := ds_last_pos ds; ds_last_dts
     := v; ds_last_ts := ds_last_ts ds; ds_back_pts := ds_back_pts ds; ds_queue
     := ds_queue ds; ds_base_ts := ds_base_ts ds; ds_last_br_ts :=
     ds_last_br_ts ds; ds_last_br_bytes := ds_last_br_bytes ds; ds_bitrate :=
     ds_bitrate ds; ds_reader_head := ds_reader_head ds; ds_skip_to_keyframe :=
     ds_skip_to_keyframe ds; ds_attached_picture_added :=
     ds_attached_picture_added ds; ds_ignore_eof := ds_ignore_eof ds |}.

Definition set_ds_last_ts (v : Q) (ds : demux_stream) : demux_stream :=
  {| ds_type := ds_type ds; ds_attached_picture := ds_attached_picture ds;
     ds_selected := ds_selected ds; ds_active := ds_active ds; ds_eof := ds_eof
     ds; ds_need_refresh := ds_need_refresh ds; ds_refreshing := ds_refreshing
     ds; ds_correct_dts := ds_correct_dts ds; ds_correct_pos := ds_correct_pos
     ds; ds_fw_packs := ds_fw_packs ds; ds_fw_bytes := ds_fw_bytes ds;
     ds_bw_bytes := ds_bw_bytes ds; ds_last_pos := ds_last_pos ds; ds_last_dts
     := ds_last_dts ds; ds_last_ts := v; ds_back_pts := ds_back_pts ds;
     ds_queue := ds_queue ds; ds_base_ts := ds_base_ts ds; ds_last_br_ts :=
     ds_last_br_ts ds; ds_last_br_bytes := ds_last_br_bytes ds; ds_bitrate :=
     ds_bitrate ds; ds_reader_head := ds_reader_head ds; ds_skip_to_keyframe :=
     ds_skip_to_keyframe ds; ds_attached_picture_added :=
     ds_attached_picture_added ds; ds_ignore_eof := ds_ignore_eof ds |}.

Definition set_ds_back_pts (v : Q) (ds : demux_stream) : demux_stream :=
  {| ds_type := ds_type ds; ds_attached_picture := ds_attached_picture ds;
     ds_selected := ds_selected ds; ds_active := ds_active ds; ds_eof := ds_eof
     ds; ds_need_refresh := ds_need_refresh ds; ds_refreshing := ds_refreshing
     ds; ds_correct_dts := ds_correct_dts ds; ds_correct_pos := ds_correct_pos
     ds; ds_fw_packs := ds_fw_packs ds; ds_fw_bytes := ds_fw_bytes ds;
     ds_bw_bytes := ds_bw_bytes ds; ds_last_pos := ds_last_pos ds; ds_last_dts
     := ds_last_dts ds; ds_last_ts := ds_last_ts ds; ds_back_pts := v; ds_queue
     := ds_queue ds; ds_base_ts := ds_base_ts ds; ds_last_br_ts :=
     ds_last_br_ts ds; ds_last_br_bytes := ds_last_br_bytes ds; ds_bitrate :=
     ds_bitrate ds; ds_reader_head := ds_reader_head ds; ds_skip_to_keyframe :=
     ds_skip_to_keyframe ds; ds_attached_picture_added :=
     ds_attached_picture_added ds; ds_ignore_eof := ds_ignore_eof ds |}.

Definition set_ds_queue (v : list demux_packet) (ds : demux_stream) : demux_stream :=
  {| ds_type := ds_type ds; ds_attached_picture := ds_attached_picture ds;
     ds_selected := ds_selected ds; ds_active := ds_active ds; ds_eof := ds_eof
     ds; ds_need_refresh := ds_need_refresh ds; ds_refreshing := ds_refreshing
     ds; ds_correct_dts := ds_correct_dts ds; ds_correct_pos := ds_correct_pos
     ds; ds_fw_packs := ds_fw_packs ds; ds_fw_bytes := ds_fw_bytes ds;
     ds_bw_bytes := ds_bw_bytes ds; ds_last_pos := ds_last_pos ds; ds_last_dts
     := ds_last_dts ds; ds_last_ts := ds_last_ts ds; ds_back_pts := ds_back_pts
     ds; ds_queue := v; ds_base_ts := ds_base_ts ds; ds_last_br_ts :=
     ds_last_br_ts ds; ds_last_br_bytes := ds_last_br_bytes ds; ds_bitrate :=
     ds_bitrate ds; ds_reader_head := ds_reader_head ds; ds_skip_to_keyframe :=
     ds_skip_to_keyframe ds; ds_attached_picture_added :=
     ds_attached_picture_added ds; ds_ignore_eof := ds_ignore_eof ds |}.

Definition set_ds_base_ts (v : Q) (ds : demux_stream) : demux_stream :=
  {| ds_type := ds_type ds; ds_attached_picture := ds_attached_picture ds;
     ds_selected := ds_selected ds; ds_active := ds_active ds; ds_eof := ds_eof
     ds; ds_need_refresh := ds_need_refresh ds; ds_refreshing := ds_refreshing
     ds; ds_correct_dts := ds_correct_dts ds; ds_correct_pos := ds_correct_pos
     ds; ds_fw_packs := ds_fw_packs ds; ds_fw_bytes := ds_fw_bytes ds;
     ds_bw_bytes := ds_bw_bytes ds; ds_last_pos := ds_last_pos ds; ds_last_dts
     := ds_last_dts ds; ds_last_ts := ds_last_ts ds; ds_back_pts := ds_back_pts
     ds; ds_queue := ds_queue ds; ds_base_ts := v; ds_last_br_ts :=
     ds_last_br_ts ds; ds_last_br_bytes := ds_last_br_bytes ds; ds_bitrate :=
     ds_bitrate ds; ds_reader_head := ds_reader_head ds; ds_skip_to_keyframe :=
     ds_skip_to_keyframe ds; ds_attached_picture_added :=
     ds_attached_picture_added ds; ds_ignore_eof := ds_ignore_eof ds |}.

Definition set_ds_last_br_ts (v : Q) (ds : demux_stream) : demux_stream :=
  {| ds_type := ds_type ds; ds_attached_picture := ds_attached_picture ds;
     ds_selected := ds_selected ds; ds_active := ds_active ds; ds_eof := ds_eof
     ds; ds_need_refresh := ds_need_refresh ds; ds_refreshing := ds_refreshing
     ds; ds_correct_dts := ds_correct_dts ds; ds_correct_pos := ds_correct_pos
     ds; ds_fw_packs := ds_fw_packs ds; ds_fw_bytes := ds_fw_bytes ds;
     ds_bw_bytes := ds_bw_bytes ds; ds_last_pos := ds_last_pos ds; ds_last_dts
     := ds_last_dts ds; ds_last_ts := ds_last_ts ds; ds_back_pts := ds_back_pts
     ds; ds_queue := ds_queue ds; ds_base_ts := ds_base_ts ds; ds_last_br_ts :=
     v; ds_last_br_bytes := ds_last_br_bytes ds; ds_bitrate := ds_bitrate ds;
     ds_reader_head := ds_reader_head ds; ds_skip_to_keyframe :=
     ds_skip_to_keyframe ds; ds_attached_picture_added :=
     ds_attached_picture_added ds; ds_ignore_eof := ds_ignore_eof ds |}.

Definition set_ds_last_br_bytes (v : Z) (ds : demux_stream) : demux_stream :=
  {| ds_type := ds_type ds; ds_attached_picture := ds_attached_picture ds;
     ds_selected := ds_selected ds; ds_active := ds_active ds; ds_eof := ds_eof
     ds; ds_need_refresh := ds_need_refresh ds; ds_refreshing := ds_refreshing
     ds; ds_correct_dts := ds_correct_dts ds; ds_correct_pos := ds_correct_pos
     ds; ds_fw_packs := ds_fw_packs ds; ds_fw_bytes := ds_fw_bytes ds;
     ds_bw_bytes := ds_bw_bytes ds; ds_last_pos := ds_last_pos ds; ds_last_dts
     := ds_last_dts ds; ds_last_ts := ds_last_ts ds; ds_back_pts := ds_back_pts
     ds; ds_queue := ds_queue ds; ds_base_ts := ds_base_ts ds; ds_last_br_ts :=
     ds_last_br_ts ds; ds_last_br_bytes := v; ds_bitrate := ds_bitrate ds;
     ds_reader_head := ds_reader_head ds; ds_skip_to_keyframe :=
     ds_skip_to_keyframe ds; ds_attached_picture_added :=
     ds_attached_picture_added ds; ds_ignore_eof := ds_ignore_eof ds |}.

Definition set_ds_bitrate (v : Q) (ds : demux_stream) : demux_stream :=
  {| ds_type := ds_type ds; ds_attached_picture := ds_attached_picture ds;
     ds_selected := ds_selected ds; ds_active := ds_active ds; ds_eof := ds_eof
     ds; ds_need_refresh := ds_need_refresh ds; ds_refreshing := ds_refreshing
     ds; ds_correct_dts := ds_correct_dts ds; ds_correct_pos := ds_correct_pos
     ds; ds_fw_packs := ds_fw_packs ds; ds_fw_bytes := ds_fw_bytes ds;
     ds_bw_bytes := ds_bw_bytes ds; ds_last_pos := ds_last_pos ds; ds_last_dts
     := ds_last_dts ds; ds_last_ts := ds_last_ts ds; ds_back_pts := ds_back_pts
     ds; ds_queue := ds_queue ds; ds_base_ts := ds_base_ts ds; ds_last_br_ts :=
     ds_last_br_ts ds; ds_last_br_bytes := ds_last_br_bytes ds; ds_bitrate :=
     v; ds_reader_head := ds_reader_head ds; ds_skip_to_keyframe :=
     ds_skip_to_keyframe ds; ds_attached_picture_added :=
     ds_attached_picture_added ds; ds_ignore_eof := ds_ignore_eof ds |}.

Definition set_ds_reader_head (v : option nat) (ds : demux_stream) : demux_stream :=
  {| ds_type := ds_type ds; ds_attached_picture := ds_attached_picture ds;
     ds_selected := ds_selected ds; ds_active := ds_active ds; ds_eof := ds_eof
     ds; ds_need_refresh := ds_need_refresh ds; ds_refreshing := ds_refreshing
     ds; ds_correct_dts := ds_correct_dts ds; ds_correct_pos := ds_correct_pos
     ds; ds_fw_packs := ds_fw_packs ds; ds_fw_bytes := ds_fw_bytes ds;
     ds_bw_bytes := ds_bw_bytes ds; ds_last_pos := ds_last_pos ds; ds_last_dts
     := ds_last_dts ds; ds_last_ts := ds_last_ts ds; ds_back_pts := ds_back_pts
     ds; ds_queue := ds_queue ds; ds_base_ts := ds_base_ts ds; ds_last_br_ts :=
     ds_last_br_ts ds; ds_last_br_bytes := ds_last_br_bytes ds; ds_bitrate :=
     ds_bitrate ds; ds_reader_head := v; ds_skip_to_keyframe :=
     ds_skip_to_keyframe ds; ds_attached_picture_added :=
     ds_attached_picture_added ds; ds_ignore_eof := ds_ignore_eof ds |}.

Definition set_ds_skip_to_keyframe (v : bool) (ds : demux_stream) : demux_stream :=
  {| ds_type := ds_type ds; ds_attached_picture := ds_attached_picture ds;
     ds_selected := ds_selected ds; ds_active := ds_active ds; ds_eof := ds_eof
     ds; ds_need_refresh := ds_need_refresh ds; ds_refreshing := ds_refreshing
     ds; ds_correct_dts := ds_correct_dts ds; ds_correct_pos := ds_correct_pos
     ds; ds_fw_packs := ds_fw_packs ds; ds_fw_bytes := ds_fw_bytes ds;
     ds_bw_bytes := ds_bw_bytes ds; ds_last_pos := ds_last_pos ds; ds_last_dts
     := ds_last_dts ds; ds_last_ts := ds_last_ts ds; ds_back_pts := ds_back_pts
     ds; ds_queue := ds_queue ds; ds_base_ts := ds_base_ts ds; ds_last_br_ts :=
     ds_last_br_ts ds; ds_last_br_bytes := ds_last_br_bytes ds; ds_bitrate :=
     ds_bitrate ds; ds_reader_head := ds_reader_head ds; ds_skip_to_keyframe :=
     v; ds_attached_picture_added := ds_attached_picture_added ds;
     ds_ignore_eof := ds_ignore_eof ds |}.

Definition set_ds_attached_picture_added (v : bool) (ds : demux_stream) : demux_stream :=
  {| ds_type := ds_type ds; ds_attached_picture := ds_attached_picture ds;
     ds_selected := ds_selected ds; ds_active := ds_active ds; ds_eof := ds_eof
     ds; ds_need_refresh := ds_need_refresh ds; ds_refreshing := ds_refreshing
     ds; ds_correct_dts := ds_correct_dts ds; ds_correct_pos := ds_correct_pos
     ds; ds_fw_packs := ds_fw_packs ds; ds_fw_bytes := ds_fw_bytes ds;
     ds_bw_bytes := ds_bw_bytes ds; ds_last_pos := ds_last_pos ds; ds_last_dts
     := ds_last_dts ds; ds_last_ts := ds_last_ts ds; ds_back_pts := ds_back_pts
     ds; ds_queue := ds_queue ds; ds_base_ts := ds_base_ts ds; ds_last_br_ts :=
     ds_last_br_ts ds; ds_last_br_bytes := ds_last_br_bytes ds; ds_bitrate :=
     ds_bitrate ds; ds_reader_head := ds_reader_head ds; ds_skip_to_keyframe :=
     ds_skip_to_keyframe ds; ds_attached_picture_added := v; ds_ignore_eof :=
     ds_ignore_eof ds |}.


(** [struct demux_internal], with the fields of [d_thread] and [d_user]
    that the cache reads or writes. *)
Record demux_internal : Type := mk_demux_internal {
  in_streams : list demux_stream;
  in_wakeup_cb : bool;
  in_threading : bool;
  in_warned_queue_overflow : bool;
  in_last_eof : bool;
  in_eof : bool;
  in_idle : bool;
  in_min_secs : Q;
  in_max_bytes : Z;
  in_max_bytes_bw : Z;
  in_seekable_cache : bool;
  in_initial_state : bool;
  in_tracks_switched : bool;
  in_seeking : bool;
  in_seek_flags : Z;
  in_seek_pts : Q;
  in_ref_pts : Q;
  in_ts_offset : Q;
  d_thread_seekable : bool;
  d_thread_partially_seekable : bool;
  d_user_seekable : bool;
  d_user_filepos : Z;
  in_trace : list event
}.

Definition set_in_streams (v : list demux_stream) (d : demux_internal) : demux_internal :=
  {| in_streams := v; in_wakeup_cb := in_wakeup_cb d; in_threading :=
     in_threading d; in_warned_queue_overflow := in_warned_queue_overflow d;
     in_last_eof := in_last_eof d; in_eof := in_eof d; in_idle := in_idle d;
     in_min_secs := in_min_secs d; in_max_bytes := in_max_bytes d;
     in_max_bytes_bw := in_max_bytes_bw d; in_seekable_cache :=
     in_seekable_cache d; in_initial_state := in_initial_state d;
     in_tracks_switched := in_tracks_switched d; in_seeking := in_seeking d;
     in_seek_flags := in_seek_flags d; in_seek_pts := in_seek_pts d; in_ref_pts
     := in_ref_pts d; in_ts_offset := in_ts_offset d; d_thread_seekable :=
     d_thread_seekable d; d_thread_partially_seekable :=
     d_thread_partially_seekable d; d_user_seekable := d_user_seekable d;
     d_user_filepos := d_user_filepos d; in_trace := in_trace d |}.

Definition set_in_warned_queue_overflow (v : bool) (d : demux_internal) : demux_internal :=
  {| in_streams := in_streams d; in_wakeup_cb := in_wakeup_cb d; in_threading
     := in_threading d; in_warned_queue_overflow := v; in_last_eof :=
     in_last_eof d; in_eof := in_eof d; in_idle := in_idle d; in_min_secs :=
     in_min_secs d; in_max_bytes := in_max_bytes d; in_max_bytes_bw :=
     in_max_bytes_bw d; in_seekable_cache := in_seekable_cache d;
     in_initial_state := in_initial_state d; in_tracks_switched :=
     in_tracks_switched d; in_seeking := in_seeking d; in_seek_flags :=
     in_seek_flags d; in_seek_pts := in_seek_pts d; in_ref_pts := in_ref_pts d;
     in_ts_offset := in_ts_offset d; d_thread_seekable := d_thread_seekable d;
     d_thread_partially_seekable := d_thread_partially_seekable d;
     d_user_seekable := d_user_seekable d; d_user_filepos := d_user_filepos d;
     in_trace := in_trace d |}.

Definition set_in_last_eof (v : bool) (d : demux_internal) : demux_internal :=
  {| in_streams := in_streams d; in_wakeup_cb := in_wakeup_cb d; in_threading
     := in_threading d; in_warned_queue_overflow := in_warned_queue_overflow d;
     in_last_eof := v; in_eof := in_eof d; in_idle := in_idle d; in_min_secs :=
     in_min_secs d; in_max_bytes := in_max_bytes d; in_max_bytes_bw :=
     in_max_bytes_bw d; in_seekable_cache := in_seekable_cache d;
     in_initial_state := in_initial_state d; in_tracks_switched :=
     in_tracks_switched d; in_seeking := in_seeking d; in_seek_flags :=
     in_seek_flags d; in_seek_pts := in_seek_pts d; in_ref_pts := in_ref_pts d;
     in_ts_offset := in_ts_offset d; d_thread_seekable := d_thread_seekable d;
     d_thread_partially_seekable := d_thread_partially_seekable d;
     d_user_seekable := d_user_seekable d; d_user_filepos := d_user_filepos d;
     in_trace := in_trace d |}.

Definition set_in_eof (v : bool) (d : demux_internal) : demux_internal :=
  {| in_streams := in_streams d; in_wakeup_cb := in_wakeup_cb d; in_threading
     := in_threading d; in_warned_queue_overflow := in_warned_queue_overflow d;
     in_last_eof := in_last_eof d; in_eof := v; in_idle := in_idle d;
     in_min_secs := in_min_secs d; in_max_bytes := in_max_bytes d;
     in_max_bytes_bw := in_max_bytes_bw d; in_seekable_cache :=
     in_seekable_cache d; in_initial_state := in_initial_state d;
     in_tracks_switched := in_tracks_switched d; in_seeking := in_seeking d;
     in_seek_flags := in_seek_flags d; in_seek_pts := in_seek_pts d; in_ref_pts
     := in_ref_pts d; in_ts_offset := in_ts_offset d; d_thread_seekable :=
     d_thread_seekable d; d_thread_partially_seekable :=
     d_thread_partially_seekable d; d_user_seekable := d_user_seekable d;
     d_user_filepos := d_user_filepos d; in_trace := in_trace d |}.

Definition set_in_idle (v : bool) (d : demux_internal) : demux_internal :=
  {| in_streams := in_streams d; in_wakeup_cb := in_wakeup_cb d; in_threading
     := in_threading d; in_warned_queue_overflow := in_warned_queue_overflow d;
     in_last_eof := in_last_eof d; in_eof := in_eof d; in_idle := v;
     in_min_secs := in_min_secs d; in_max_bytes := in_max_bytes d;
     in_max_bytes_bw := in_max_bytes_bw d; in_seekable_cache :=
     in_seekable_cache d; in_initial_state := in_initial_state d;
     in_tracks_switched := in_tracks_switched d; in_seeking := in_seeking d;
     in_seek_flags := in_seek_flags d; in_seek_pts := in_seek_pts d; in_ref_pts
     := in_ref_pts d; in_ts_offset := in_ts_offset d; d_thread_seekable :=
     d_thread_seekable d; d_thread_partially_seekable :=
     d_thread_partially_seekable d; d_user_seekable := d_user_seekable d;
     d_user_filepos := d_user_filepos d; in_trace := in_trace d |}.

Definition set_in_initial_state (v : bool) (d : demux_internal) : demux_internal :=
  {| in_streams := in_streams d; in_wakeup_cb := in_wakeup_cb d; in_threading
     := in_threading d; in_warned_queue_overflow := in_warned_queue_overflow d;
     in_last_eof := in_last_eof d; in_eof := in_eof d; in_idle := in_idle d;
     in_min_secs := in_min_secs d; in_max_bytes := in_max_bytes d;
     in_max_bytes_bw := in_max_bytes_bw d; in_seekable_cache :=
     in_seekable_cache d; in_initial_state := v; in_tracks_switched :=
     in_tracks_switched d; in_seeking := in_seeking d; in_seek_flags :=
     in_seek_flags d; in_seek_pts := in_seek_pts d; in_ref_pts := in_ref_pts d;
     in_ts_offset := in_ts_offset d; d_thread_seekable := d_thread_seekable d;
     d_thread_partially_seekable := d_thread_partially_seekable d;
     d_user_seekable := d_user_seekable d; d_user_filepos := d_user_filepos d;
     in_trace := in_trace d |}.

Definition set_in_seeking (v : bool) (d : demux_internal) : demux_internal :=
  {| in_streams := in_streams d; in_wakeup_cb := in_wakeup_cb d; in_threading
     := in_threading d; in_warned_queue_overflow := in_warned_queue_overflow d;
     in_last_eof := in_last_eof d; in_eof := in_eof d; in_idle := in_idle d;
     in_min_secs := in_min_secs d; in_max_bytes := in_max_bytes d;
     in_max_bytes_bw := in_max_bytes_bw d; in_seekable_cache :=
     in_seekable_cache d; in_initial_state := in_initial_state d;
     in_tracks_switched := in_tracks_switched d; in_seeking := v; in_seek_flags
     := in_seek_flags d; in_seek_pts := in_seek_pts d; in_ref_pts := in_ref_pts
     d; in_ts_offset := in_ts_offset d; d_thread_seekable := d_thread_seekable
     d; d_thread_partially_seekable := d_thread_partially_seekable d;
     d_user_seekable := d_user_seekable d; d_user_filepos := d_user_filepos d;
     in_trace := in_trace d |}.

Definition set_in_seek_flags (v : Z) (d : demux_internal) : demux_internal :=
  {| in_streams := in_streams d; in_wakeup_cb := in_wakeup_cb d; in_threading
     := in_threading d; in_warned_queue_overflow := in_warned_queue_overflow d;
     in_last_eof := in_last_eof d; in_eof := in_eof d; in_idle := in_idle d;
     in_min_secs := in_min_secs d; in_max_bytes := in_max_bytes d;
     in_max_bytes_bw := in_max_bytes_bw d; in_seekable_cache :=
     in_seekable_cache d; in_initial_state := in_initial_state d;
     in_tracks_switched := in_tracks_switched d; in_seeking := in_seeking d;
     in_seek_flags := v; in_seek_pts := in_seek_pts d; in_ref_pts := in_ref_pts
     d; in_ts_offset := in_ts_offset d; d_thread_seekable := d_thread_seekable
     d; d_thread_partially_seekable := d_thread_partially_seekable d;
     d_user_seekable := d_user_seekable d; d_user_filepos := d_user_filepos d;
     in_trace := in_trace d |}.

Definition set_in_seek_pts (v : Q) (d : demux_internal) : demux_internal :=
  {| in_streams := in_streams d; in_wakeup_cb := in_wakeup_cb d; in_threading
     := in_threading d; in_warned_queue_overflow := in_warned_queue_overflow d;
     in_last_eof := in_last_eof d; in_eof := in_eof d; in_idle := in_idle d;
     in_min_secs := in_min_secs d; in_max_bytes := in_max_bytes d;
     in_max_bytes_bw := in_max_bytes_bw d; in_seekable_cache :=
     in_seekable_cache d; in_initial_state := in_initial_state d;
     in_tracks_switched := in_tracks_switched d; in_seeking := in_seeking d;
     in_seek_flags := in_seek_flags d; in_seek_pts := v; in_ref_pts :=
     in_ref_pts d; in_ts_offset := in_ts_offset d; d_thread_seekable :=
     d_thread_seekable d; d_thread_partially_seekable :=
     d_thread_partially_seekable d; d_user_seekable := d_user_seekable d;
     d_user_filepos := d_user_filepos d; in_trace := in_trace d |}.

Definition set_d_user_filepos (v : Z) (d : demux_internal) : demux_internal :=
  {| in_streams := in_streams d; in_wakeup_cb := in_wakeup_cb d; in_threading
     := in_threading d; in_warned_queue_overflow := in_warned_queue_overflow d;
     in_last_eof := in_last_eof d; in_eof := in_eof d; in_idle := in_idle d;
     in_min_secs := in_min_secs d; in_max_bytes := in_max_bytes d;
     in_max_bytes_bw := in_max_bytes_bw d; in_seekable_cache :=
     in_seekable_cache d; in_initial_state := in_initial_state d;
     in_tracks_switched := in_tracks_switched d; in_seeking := in_seeking d;
     in_seek_flags := in_seek_flags d; in_seek_pts := in_seek_pts d; in_ref_pts
     := in_ref_pts d; in_ts_offset := in_ts_offset d; d_thread_seekable :=
     d_thread_seekable d; d_thread_partially_seekable :=
     d_thread_partially_seekable d; d_user_seekable := d_user_seekable d;
     d_user_filepos := v; in_trace := in_trace d |}.

Definition set_in_trace (v : list event) (d : demux_internal) : demux_internal :=
  {| in_streams := in_streams d; in_wakeup_cb := in_wakeup_cb d; in_threading
     := in_threading d; in_warned_queue_overflow := in_warned_queue_overflow d;
     in_last_eof := in_last_eof d; in_eof := in_eof d; in_idle := in_idle d;
     in_min_secs := in_min_secs d; in_max_bytes := in_max_bytes d;
     in_max_bytes_bw := in_max_bytes_bw d; in_seekable_cache :=
     in_seekable_cache d; in_initial_state := in_initial_state d;
     in_tracks_switched := in_tracks_switched d; in_seeking := in_seeking d;
     in_seek_flags := in_seek_flags d; in_seek_pts := in_seek_pts d; in_ref_pts
     := in_ref_pts d; in_ts_offset := in_ts_offset d; d_thread_seekable :=
     d_thread_seekable d; d_thread_partially_seekable :=
     d_thread_partially_seekable d; d_user_seekable := d_user_seekable d;
     d_user_filepos := d_user_filepos d; in_trace := v |}.

(** The format-specific demuxer behind the cache ([d_thread->desc]) and the
    cancel token of its stream. Its entry points run with the lock
    released and reach the cache only through its public functions, so
    each is a function on the cache state; a missing entry point is
    [None]. *)
Record demuxer_desc : Type := mk_demuxer_desc {
  desc_seek : option (Q -> Z -> demux_internal -> demux_internal);
  desc_fill_buffer : option (demux_internal -> Z * demux_internal);
  demux_cancel_test : bool
}.

(** Outcome of code that contains an [assert] or a loop run on fuel. *)
Inductive outcome (A : Type) : Type :=
  | Done (a : A)
  | AssertFail
  | OutOfFuel.
Arguments Done {A} a.
Arguments AssertFail {A}.
Arguments OutOfFuel {A}.

(** ** Small helpers *)

Definition emit (e : event) (d : demux_internal) : demux_internal :=
  set_in_trace (e :: in_trace d) d.

Fixpoint list_set {A : Type} (n : nat) (x : A) (l : list A) : list A :=
  match l, n with
  | [], _ => []
  | _ :: t, O => x :: t
  | h :: t, S n' => h :: list_set n' x t
  end.

(** [in->streams[n]->ds = ds]. *)
Definition set_stream (n : nat) (ds : demux_stream) (d : demux_internal)
  : demux_internal :=
  set_in_streams (list_set n ds (in_streams d)) d.

Definition is_some {A : Type} (o : option A) : bool :=
  match o with Some _ => true | None => false end.

Definition is_nil {A : Type} (l : list A) : bool :=
  match l with [] => true | _ :: _ => false end.

(** Modelled from the spec: [demux_packet_estimate_total_size] is defined in
    demux/packet.c, outside the file at hand; the spec describes it as the
    estimated total_size of the packet (len plus per-packet overhead used
    for budgeting). It is a [size_t] that depends on the packet alone. *)
Definition demux_packet_estimate_total_size (dp : demux_packet) : Z :=
  to_size_t (dp_total_size dp).

(** ** Clearing state *)

Definition ds_clear_reader_state (ds : demux_stream) : demux_stream :=
  let ds := set_ds_reader_head None ds in
  let ds := set_ds_last_br_ts MP_NOPTS_VALUE ds in
  let ds := set_ds_base_ts MP_NOPTS_VALUE ds in
  let ds := set_ds_last_br_bytes 0 ds in
  let ds := set_ds_bitrate (-1) ds in
  let ds := set_ds_skip_to_keyframe false ds in
  set_ds_attached_picture_added false ds.

Definition ds_clear_demux_state (ds : demux_stream) : demux_stream :=
  let ds := ds_clear_reader_state ds in
  let ds := set_ds_queue [] ds in
  let ds := set_ds_fw_packs 0 ds in
  let ds := set_ds_fw_bytes 0 ds in
  let ds := set_ds_bw_bytes 0 ds in
  let ds := set_ds_eof false ds in
  let ds := set_ds_active false ds in
  let ds := set_ds_refreshing false ds in
  let ds := set_ds_need_refresh false ds in
  let ds := set_ds_correct_pos true ds in
  let ds := set_ds_correct_dts true ds in
  let ds := set_ds_last_pos (-1) ds in
  let ds := set_ds_last_dts MP_NOPTS_VALUE ds in
  let ds := set_ds_last_ts MP_NOPTS_VALUE ds in
  set_ds_back_pts MP_NOPTS_VALUE ds.

(** called locked, from user thread only *)
Definition clear_reader_state (d : demux_internal) : demux_internal :=
  let d := set_in_streams (map ds_clear_reader_state (in_streams d)) d in
  let d := set_in_warned_queue_overflow false d in
  set_d_user_filepos (-1) d.

Definition clear_demux_state (d : demux_internal) : demux_internal :=
  let d := clear_reader_state d in
  let d := set_in_streams (map ds_clear_demux_state (in_streams d)) d in
  let d := set_in_eof false d in
  let d := set_in_last_eof false d in
  set_in_idle true d.

(** ** Refresh seek *)

(** First loop of [get_refresh_seek_pts]: the accumulators [start_ts],
    [needed], [normal_seek], [refresh_possible], and the streams with
    [need_refresh] cleared on the selected ones. *)
Fixpoint refresh_scan (streams : list demux_stream) (start_ts : Q)
    (needed normal_seek refresh_possible : bool)
  : (Q * bool * bool * bool) * list demux_stream :=
  match streams with
  | [] => ((start_ts, needed, normal_seek, refresh_possible), [])
  | ds :: rest =>
      if negb (ds_selected ds) then
        let (acc, rest') :=
          refresh_scan rest start_ts needed normal_seek refresh_possible in
        (acc, ds :: rest')
      else
        let start_ts :=
          if stream_type_eqb (ds_type ds) STREAM_VIDEO
             || stream_type_eqb (ds_type ds) STREAM_AUDIO
          then MP_PTS_MIN start_ts (ds_base_ts ds) else start_ts in
        let needed := needed || ds_need_refresh ds in
        let normal_seek := normal_seek && ds_need_refresh ds in
        let refresh_possible :=
          refresh_possible && (ds_correct_dts ds || ds_correct_pos ds) in
        let (acc, rest') :=
          refresh_scan rest start_ts needed normal_seek refresh_possible in
        (acc, set_ds_need_refresh false ds :: rest')
  end.

(** Body of the second loop of [get_refresh_seek_pts]. *)
Definition mark_refreshing (ds : demux_stream) : demux_stream :=
  set_ds_refreshing
    (if negb (ds_last_pos ds =? -1)
        || negb (Qeq_bool (ds_last_dts ds) MP_NOPTS_VALUE)
     then ds_refreshing ds || ds_selected ds else ds_refreshing ds) ds.

(** Returns MP_NOPTS_VALUE if no seek should happen. *)
Definition get_refresh_seek_pts (desc : demuxer_desc) (d : demux_internal)
  : Q * demux_internal :=
  let '((start_ts, needed, normal_seek, refresh_possible), streams) :=
    refresh_scan (in_streams d) (in_ref_pts d) false true true in
  let d := set_in_streams streams d in
  if negb needed || Qeq_bool start_ts MP_NOPTS_VALUE
     || negb (is_some (desc_seek desc))
     || negb (d_thread_seekable d) || d_thread_partially_seekable d
  then (MP_NOPTS_VALUE, d)
  else if normal_seek then (start_ts, d)
  else if negb refresh_possible then
    (MP_NOPTS_VALUE, emit (EvLog MSGL_V "can't issue refresh seek") d)
  else
    (start_ts - 1, set_in_streams (map mark_refreshing (in_streams d)) d)%Q.

(** ** Keyframe ranges *)

(** The loop of [recompute_keyframe_target_pts], from the packet at the
    head of [dp] along the [next] links. *)
Fixpoint keyframe_target_loop (dp : list demux_packet)
    (in_keyframe_range : bool) (res : Q) : Q :=
  match dp with
  | [] => res
  | p :: next =>
      if dp_keyframe p && in_keyframe_range then res
      else
        let in_keyframe_range := in_keyframe_range || dp_keyframe p in
        let res :=
          if in_keyframe_range then
            let ts := PTS_OR_DEF (dp_pts p) (dp_dts p) in
            let ts :=
              if dp_segmented p
                 && (Qlt_bool ts (dp_start p) || Qlt_bool (dp_end p) ts)
              then MP_NOPTS_VALUE else ts in
            MP_PTS_MIN res ts
          else res in
        keyframe_target_loop next in_keyframe_range res
  end.

(** Get the PTS in the keyframe range starting at or following [dp]. *)
Definition recompute_keyframe_target_pts (dp : list demux_packet) : Q :=
  keyframe_target_loop dp false MP_NOPTS_VALUE.

(** ** Appending a packet *)

(** The timestamp that [demux_add_packet] feeds to [last_ts]. *)
Definition packet_queue_ts (dp : demux_packet) : Q :=
  let ts := if Qeq_bool (dp_dts dp) MP_NOPTS_VALUE
            then dp_pts dp else dp_dts dp in
  if dp_segmented dp then MP_PTS_MIN ts (dp_end dp) else ts.

(** The refresh test at the head of [demux_add_packet]: the new value of
    [refreshing] for a stream that is refreshing. *)
Definition refresh_continues (ds : demux_stream) (dp : demux_packet) : bool :=
  if ds_correct_dts ds then Qlt_bool (dp_dts dp) (ds_last_dts ds)
  else if ds_correct_pos ds then dp_pos dp <? ds_last_pos ds
  else false.

(** The part of [demux_add_packet] that queues a packet which is not
    dropped: everything it does to the stream. *)
Definition append_packet (stream : nat) (dp : demux_packet)
    (ds : demux_stream) : demux_stream :=
  let ds :=
    set_ds_correct_pos
      (ds_correct_pos ds
       && ((0 <=? dp_pos dp) && (ds_last_pos ds <? dp_pos dp))) ds in
  let ds :=
    set_ds_correct_dts
      (ds_correct_dts ds
       && (negb (Qeq_bool (dp_dts dp) MP_NOPTS_VALUE)
           && Qlt_bool (ds_last_dts ds) (dp_dts dp))) ds in
  let ds := set_ds_last_pos (dp_pos dp) ds in
  let ds := set_ds_last_dts (dp_dts dp) ds in
  let dp := set_dp_stream (Z.of_nat stream) dp in
  (* (keep in mind that even if the reader went out of data, the queue is
     not necessarily empty due to the backbuffer) *)
  let first :=
    negb (is_some (ds_reader_head ds))
    && (negb (ds_skip_to_keyframe ds) || dp_keyframe dp) in
  let ds :=
    set_ds_reader_head
      (if first then Some (length (ds_queue ds)) else ds_reader_head ds) ds in
  let ds :=
    set_ds_skip_to_keyframe
      (if first then false else ds_skip_to_keyframe ds) ds in
  let bytes := demux_packet_estimate_total_size dp in
  let forward := is_some (ds_reader_head ds) in
  let ds :=
    set_ds_fw_packs
      (if forward then to_size_t (ds_fw_packs ds + 1) else ds_fw_packs ds)
      ds in
  let ds :=
    set_ds_fw_bytes
      (if forward then to_size_t (ds_fw_bytes ds + bytes)
       else ds_fw_bytes ds) ds in
  let ds :=
    set_ds_bw_bytes
      (if forward then ds_bw_bytes ds
       else to_size_t (ds_bw_bytes ds + bytes)) ds in
  let queue := ds_queue ds in
  let ds := set_ds_queue (queue ++ [dp]) ds in
  (* (In theory it'd be more efficient to make this incremental.) *)
  let ds :=
    set_ds_back_pts
      (if Qeq_bool (ds_back_pts ds) MP_NOPTS_VALUE && dp_keyframe dp
       then recompute_keyframe_target_pts (ds_queue ds)
       else ds_back_pts ds) ds in
  let ds :=
    set_ds_eof (if negb (ds_ignore_eof ds) then false else ds_eof ds) ds in
  (* For video, PTS determination is not trivial, but for other media
     types distinguishing PTS and DTS is not useful. The packet is in the
     queue by now: the write lands there. *)
  let dp :=
    set_dp_pts
      (if negb (stream_type_eqb (ds_type ds) STREAM_VIDEO)
          && Qeq_bool (dp_pts dp) MP_NOPTS_VALUE
       then dp_dts dp else dp_pts dp) dp in
  let ds := set_ds_queue (queue ++ [dp]) ds in
  let ts := packet_queue_ts dp in
  let ds :=
    set_ds_last_ts
      (if negb (Qeq_bool ts MP_NOPTS_VALUE)
          && (Qlt_bool (ds_last_ts ds) ts
              || Qlt_bool (ts + 10) (ds_last_ts ds))
       then ts else ds_last_ts ds) ds in
  set_ds_base_ts
    (if Qeq_bool (ds_base_ts ds) MP_NOPTS_VALUE
     then ds_last_ts ds else ds_base_ts ds) ds.

(** The resume test at the head of [demux_add_packet]. *)
Definition refresh_test (dp : demux_packet) (ds : demux_stream)
  : demux_stream :=
  (* Resume reading once the old position was reached (i.e. we start
     returning packets where we left off before the refresh).
     If it's the same position, drop, but continue normally next time. *)
  set_ds_refreshing
    (if ds_refreshing ds then refresh_continues ds dp else ds_refreshing ds)
    ds.

(** [demux_add_packet(stream, dp)], [stream] being the index of the stream
    in [in->streams]. An index without a stream is the NULL stream. The
    clearing of [in->eof] and [in->last_eof], which the code does in the
    middle of its writes to the stream, comes after them here. *)
Definition demux_add_packet (stream : nat) (dp : demux_packet)
    (d : demux_internal) : demux_internal :=
  match nth_error (in_streams d) stream with
  | None => d
  | Some ds =>
      let d := emit EvLock d in
      let drop := ds_refreshing ds in
      let ds := refresh_test dp ds in
      if negb (ds_selected ds) || ds_need_refresh ds || in_seeking d || drop
      then emit EvUnlock (set_stream stream ds d)
      else
        let ds := append_packet stream dp ds in
        let d :=
          set_in_eof (if negb (ds_ignore_eof ds) then false else in_eof d)
            d in
        let d :=
          set_in_last_eof
            (if negb (ds_ignore_eof ds) then false else in_last_eof d) d in
        let d := set_stream stream ds d in
        (* Wake up if this was the first packet after start/possible
           underrun. *)
        let wake :=
          in_wakeup_cb d
          && match ds_reader_head ds with
             | Some i => (S i =? length (ds_queue ds))%nat
             | None => false
             end in
        let d :=
          set_in_trace
            (if wake then EvWakeupCb :: in_trace d else in_trace d) d in
        emit EvUnlock (emit EvCondSignal d)
  end.

(** ** The read-ahead step *)

(** First loop of [read_packet]: [active], [read_more] and [bytes]. *)
Fixpoint read_scan (min_secs : Q) (streams : list demux_stream)
    (active read_more : bool) (bytes : Z) : bool * bool * Z :=
  match streams with
  | [] => (active, read_more, bytes)
  | ds :: rest =>
      let active := active || ds_active ds in
      let read_more :=
        read_more
        || ((ds_active ds && negb (is_some (ds_reader_head ds)))
            || ds_refreshing ds) in
      let bytes := to_size_t (bytes + ds_fw_bytes ds) in
      let read_more :=
        if ds_active ds && negb (Qeq_bool (ds_last_ts ds) MP_NOPTS_VALUE)
           && Qlt_bool 0 min_secs && Qle_bool (ds_base_ts ds) (ds_last_ts ds)
        then read_more
             || Qlt_bool (ds_last_ts ds - ds_base_ts ds) min_secs
        else read_more in
      read_scan min_secs rest active read_more bytes
  end.

(** The warning lines of a queue overflow, one per selected stream. *)
Fixpoint overflow_warn_loop (streams : list demux_stream)
    (trace : list event) : list event :=
  match streams with
  | [] => trace
  | ds :: rest =>
      overflow_warn_loop rest
        (if ds_selected ds
         then EvLog MSGL_WARN "  %s/%d: %zd packets, %zd bytes" :: trace
         else trace)
  end.

(** The loop that marks the streams without [reader_head] as EOF. *)
Fixpoint overflow_eof_loop (wakeup_cb : bool) (streams : list demux_stream)
    (trace : list event) : list demux_stream * list event :=
  match streams with
  | [] => ([], trace)
  | ds :: rest =>
      let eof := negb (is_some (ds_reader_head ds)) in
      let trace :=
        if eof && negb (ds_eof ds) && wakeup_cb
        then EvWakeupCb :: trace else trace in
      let (rest', trace') := overflow_eof_loop wakeup_cb rest trace in
      (set_ds_eof (ds_eof ds || eof) ds :: rest', trace')
  end.

(** must be called not locked; the stream information it caches is not
    part of the model. *)
Definition update_cache (d : demux_internal) : demux_internal :=
  emit EvUnlock (emit EvLock d).

(** What [read_packet] does when the forward bytes have reached
    [max_bytes], up to its [return false]. *)
Definition queue_overflow (d : demux_internal) : demux_internal :=
  let d :=
    if negb (in_warned_queue_overflow d) then
      let d := set_in_warned_queue_overflow true d in
      let d :=
        emit (EvLog MSGL_WARN
                "Too many packets in the demuxer packet queues:") d in
      set_in_trace (overflow_warn_loop (in_streams d) (in_trace d)) d
    else d in
  let (streams, trace) :=
    overflow_eof_loop (in_wakeup_cb d) (in_streams d) (in_trace d) in
  let d := set_in_trace trace (set_in_streams streams d) in
  emit EvCondSignal d.

(** Returns true if there was "progress" (lock was released temporarily). *)
Definition read_packet (desc : demuxer_desc) (d : demux_internal)
  : bool * demux_internal :=
  let d := set_in_eof false d in
  let d := set_in_idle true d in
  let '(active, read_more, bytes) :=
    read_scan (in_min_secs d) (in_streams d) false false 0 in
  if to_size_t (in_max_bytes d) <=? bytes then (false, queue_overflow d)
  else
    let (seek_pts, d) := get_refresh_seek_pts desc d in
    let refresh_seek := negb (Qeq_bool seek_pts MP_NOPTS_VALUE) in
    let read_more := read_more || refresh_seek in
    if negb read_more then (false, d)
    else
      (* Actually read a packet. Drop the lock while doing so. *)
      let d := set_in_idle false d in
      let d := set_in_initial_state false d in
      let d := emit EvUnlock d in
      let d :=
        if refresh_seek then
          let d := emit (EvLog MSGL_V "refresh seek to %f") d in
          match desc_seek desc with
          | Some seek => seek seek_pts SEEK_HR d
          | None => d
          end
        else d in
      let (eof, d) :=
        match desc_fill_buffer desc with
        | Some fill_buffer =>
            if negb (demux_cancel_test desc)
            then let (r, d) := fill_buffer d in (r <=? 0, d)
            else (true, d)
        | None => (true, d)
        end in
      let d := update_cache d in
      let d := emit EvLock d in
      let d :=
        if negb (in_seeking d) then
          let d :=
            if eof then
              let d :=
                set_in_streams (map (set_ds_eof true) (in_streams d)) d in
              (* If we had EOF previously, then don't wakeup *)
              if negb (in_last_eof d) then
                let d := if in_wakeup_cb d then emit EvWakeupCb d else d in
                emit (EvLog MSGL_V "EOF reached.") (emit EvCondSignal d)
              else d
            else d in
          set_in_last_eof eof (set_in_eof eof d)
        else d in
      (true, d).

(** ** The pruner *)

(** [p == &queue[i]] for a pointer [p] into a queue. *)
Definition ptr_is (i : nat) (p : option nat) : bool :=
  match p with
  | Some j => (j =? i)%nat
  | None => false
  end.

(** The pointer after the head of its queue has been unlinked. *)
Definition ptr_pred (p : option nat) : option nat :=
  match p with
  | Some j => Some (Nat.pred j)
  | None => None
  end.

Fixpoint sum_bw_bytes (streams : list demux_stream) (buffered : Z) : Z :=
  match streams with
  | [] => buffered
  | ds :: rest => sum_bw_bytes rest (to_size_t (buffered + ds_bw_bytes ds))
  end.

(** The scan for the stream whose head packet is the oldest; [n] is the
    index of the head of [streams]. *)
Fixpoint find_earliest (streams : list demux_stream) (n : Z)
    (earliest_ts : Q) (earliest_stream : Z) : Q * Z :=
  match streams with
  | [] => (earliest_ts, earliest_stream)
  | ds :: rest =>
      let (earliest_ts, earliest_stream) :=
        match ds_queue ds with
        | dp :: _ =>
            if negb (ptr_is 0 (ds_reader_head ds)) then
              let ts := PTS_OR_DEF (dp_dts dp) (dp_pts dp) in
              if Qeq_bool earliest_ts MP_NOPTS_VALUE
                 || (negb (Qeq_bool ts MP_NOPTS_VALUE)
                     && Qlt_bool ts earliest_ts)
              then (ts, n)
              else (earliest_ts, earliest_stream)
            else (earliest_ts, earliest_stream)
        | [] => (earliest_ts, earliest_stream)
        end in
      find_earliest rest (n + 1) earliest_ts earliest_stream
  end.

(** The search for the next seek target; [dp] is the queue from the packet
    at index [i] on. *)
Fixpoint next_seek_target_loop (dp : list demux_packet) (i : nat)
    (next_seek_target : option nat) (back_pts : Q) : option nat * Q :=
  match dp with
  | [] => (next_seek_target, back_pts)
  | p :: next =>
      (* (Has to be _after_ queue_head to drop at least 1 packet.) *)
      if dp_keyframe p && negb (i =? 0)%nat then
        let back_pts := recompute_keyframe_target_pts dp in
        if negb (Qeq_bool back_pts MP_NOPTS_VALUE)
        then (Some i, back_pts)
        else next_seek_target_loop next (S i) (Some i) back_pts
      else next_seek_target_loop next (S i) next_seek_target back_pts
  end.

(** The loop that frees packets from the head of the queue. *)
Fixpoint prune_drop_loop (queue : list demux_packet)
    (reader_head next_seek_target : option nat) (bw_bytes buffered : Z)
  : list demux_packet * option nat * Z * Z :=
  match queue with
  | [] => ([], reader_head, bw_bytes, buffered)
  | dp :: next =>
      if negb (ptr_is 0 reader_head) && negb (ptr_is 0 next_seek_target) then
        let bytes := demux_packet_estimate_total_size dp in
        prune_drop_loop next (ptr_pred reader_head)
          (ptr_pred next_seek_target)
          (to_size_t (bw_bytes - bytes)) (to_size_t (buffered - bytes))
      else (queue, reader_head, bw_bytes, buffered)
  end.

(** One round of the outer loop of [prune_old_packets] on the stream it
    picked. *)
Definition prune_stream (ds : demux_stream) (buffered : Z)
  : demux_stream * Z :=
  let ds := set_ds_back_pts MP_NOPTS_VALUE ds in
  let (next_seek_target, back_pts) :=
    next_seek_target_loop (ds_queue ds) 0 None (ds_back_pts ds) in
  let ds := set_ds_back_pts back_pts ds in
  let '(queue, reader_head, bw_bytes, buffered) :=
    prune_drop_loop (ds_queue ds) (ds_reader_head ds) next_seek_target
      (ds_bw_bytes ds) buffered in
  (set_ds_bw_bytes bw_bytes
     (set_ds_reader_head reader_head (set_ds_queue queue ds)), buffered).

Fixpoint prune_loop (fuel : nat) (d : demux_internal) (buffered : Z)
  : outcome demux_internal :=
  if to_size_t (in_max_bytes_bw d) <? buffered then
    match fuel with
    | O => OutOfFuel
    | S fuel =>
        let (_, earliest_stream) :=
          find_earliest (in_streams d) 0 MP_NOPTS_VALUE (-1) in
        (* incorrect accounting of "buffered"? *)
        if earliest_stream <? 0 then AssertFail
        else
          match nth_error (in_streams d) (Z.to_nat earliest_stream) with
          | None => AssertFail
          | Some ds =>
              let (ds, buffered) := prune_stream ds buffered in
              prune_loop fuel
                (set_stream (Z.to_nat earliest_stream) ds d) buffered
          end
    end
  else Done d.

Definition queued_packets (streams : list demux_stream) : nat :=
  fold_right (fun ds n => (length (ds_queue ds) + n)%nat) O streams.

(** Every round frees a packet, so one round per queued packet is enough
    fuel. *)
Definition prune_old_packets (d : demux_internal) : outcome demux_internal :=
  prune_loop (S (queued_packets (in_streams d))) d
    (sum_bw_bytes (in_streams d) 0).

(** ** Dequeueing *)

(** The bitrate estimator of [dequeue_packet] for a packet with the
    timestamp [ts]: it runs at keyframes with a known timestamp, starts a
    new window when there is none or time went back, and closes a window
    of at least 500ms. *)
Definition update_bitrate (keyframe : bool) (ts : Q) (ds : demux_stream)
  : demux_stream :=
  let at_keyframe := keyframe && negb (Qeq_bool ts MP_NOPTS_VALUE) in
  let d := (ts - ds_last_br_ts ds)%Q in
  let restart :=
    at_keyframe
    && (Qeq_bool (ds_last_br_ts ds) MP_NOPTS_VALUE || Qlt_bool d 0) in
  let window := at_keyframe && negb restart && Qle_bool (1 # 2) d in
  let ds :=
    set_ds_bitrate
      (if restart then (-1)%Q
       else if window then (inject_Z (ds_last_br_bytes ds) / d)%Q
       else ds_bitrate ds) ds in
  let ds :=
    set_ds_last_br_ts (if restart || window then ts else ds_last_br_ts ds)
      ds in
  set_ds_last_br_bytes
    (if restart || window then 0 else ds_last_br_bytes ds) ds.

(** [dequeue_packet] past the attached picture, for a stream whose
    [reader_head] is the packet [pkt] at index [i]: what it does to the
    stream. *)
Definition dequeue_head (i : nat) (pkt : demux_packet) (ds : demux_stream)
  : demux_stream :=
  let ds :=
    set_ds_reader_head
      (if (S i <? length (ds_queue ds))%nat then Some (S i) else None) ds in
  (* Update cached packet queue state. *)
  let ds := set_ds_fw_packs (to_size_t (ds_fw_packs ds - 1)) ds in
  let bytes := demux_packet_estimate_total_size pkt in
  let ds := set_ds_fw_bytes (to_size_t (ds_fw_bytes ds - bytes)) ds in
  let ds := set_ds_bw_bytes (to_size_t (ds_bw_bytes ds + bytes)) ds in
  let ts := PTS_OR_DEF (dp_dts pkt) (dp_pts pkt) in
  let ds :=
    set_ds_base_ts
      (if negb (Qeq_bool ts MP_NOPTS_VALUE) then ts else ds_base_ts ds) ds in
  (* Update bitrate - only at keyframe points, because we use the
     (possibly) reordered packet timestamps instead of realtime. *)
  let ds := update_bitrate (dp_keyframe pkt) ts ds in
  set_ds_last_br_bytes (to_size_t (ds_last_br_bytes ds + dp_len pkt)) ds.

(** The copy of [pkt] that [dequeue_packet] returns. *)
Definition returned_packet (ts_offset : Q) (pkt : demux_packet)
  : demux_packet :=
  let pkt := set_dp_pts (MP_ADD_PTS (dp_pts pkt) ts_offset) pkt in
  let pkt := set_dp_dts (MP_ADD_PTS (dp_dts pkt) ts_offset) pkt in
  let pkt := set_dp_start (MP_ADD_PTS (dp_start pkt) ts_offset) pkt in
  set_dp_end (MP_ADD_PTS (dp_end pkt) ts_offset) pkt.

(** [dequeue_packet(ds)] for the stream with index [stream]; the packet
    returned is the copy handed to the caller. *)
Definition dequeue_packet (stream : nat) (d : demux_internal)
  : outcome (option demux_packet * demux_internal) :=
  match nth_error (in_streams d) stream with
  | None => Done (None, d)
  | Some ds =>
      match ds_attached_picture ds with
      | Some picture =>
          let added := ds_attached_picture_added ds in
          let ds := set_ds_eof true ds in
          let ds := set_ds_attached_picture_added true ds in
          let d := set_stream stream ds d in
          if added then Done (None, d)
          else Done (Some (set_dp_stream (Z.of_nat stream) picture), d)
      | None =>
          match ds_reader_head ds with
          | None => Done (None, d)
          | Some i =>
              match nth_error (ds_queue ds) i with
              | None => Done (None, d)
              | Some pkt =>
                  let d := set_stream stream (dequeue_head i pkt ds) d in
                  (* This implies this function is actually called from
                     "the" user thread. *)
                  let d :=
                    set_d_user_filepos
                      (if d_user_filepos d <=? dp_pos pkt
                       then dp_pos pkt else d_user_filepos d) d in
                  let pkt := returned_packet (in_ts_offset d) pkt in
                  match prune_old_packets d with
                  | Done d => Done (Some pkt, d)
                  | AssertFail => AssertFail
                  | OutOfFuel => OutOfFuel
                  end
              end
          end
      end
  end.

(** ** Seeking in the cache *)

(** The loop of [recompute_buffers]; [dp] is the queue from index [i] on. *)
Fixpoint recompute_buffers_loop (dp : list demux_packet) (i : nat)
    (reader_head : option nat) (in_backbuffer : bool)
    (fw_packs fw_bytes bw_bytes : Z) : Z * Z * Z :=
  match dp with
  | [] => (fw_packs, fw_bytes, bw_bytes)
  | p :: next =>
      let in_backbuffer := in_backbuffer && negb (ptr_is i reader_head) in
      let bytes := demux_packet_estimate_total_size p in
      if in_backbuffer then
        recompute_buffers_loop next (S i) reader_head in_backbuffer
          fw_packs fw_bytes (to_size_t (bw_bytes + bytes))
      else
        recompute_buffers_loop next (S i) reader_head in_backbuffer
          (to_size_t (fw_packs + 1)) (to_size_t (fw_bytes + bytes)) bw_bytes
  end.

Definition recompute_buffers (ds : demux_stream) : demux_stream :=
  let '(fw_packs, fw_bytes, bw_bytes) :=
    recompute_buffers_loop (ds_queue ds) 0 (ds_reader_head ds) true 0 0 0 in
  set_ds_bw_bytes bw_bytes
    (set_ds_fw_bytes fw_bytes (set_ds_fw_packs fw_packs ds)).

(** The loop of [find_seek_target]; [dp] is the queue from index [i] on. *)
Fixpoint find_seek_target_loop (pts : Q) (flags : Z)
    (dp : list demux_packet) (i : nat) (target : option nat)
    (target_diff : Q) : option nat :=
  match dp with
  | [] => target
  | p :: next =>
      if negb (dp_keyframe p) then
        find_seek_target_loop pts flags next (S i) target target_diff
      else
        let range_pts := recompute_keyframe_target_pts dp in
        if Qeq_bool range_pts MP_NOPTS_VALUE then
          find_seek_target_loop pts flags next (S i) target target_diff
        else
          let diff := (range_pts - pts)%Q in
          let diff := if has_flag flags SEEK_FORWARD then (- diff)%Q
                      else diff in
          if has_flag flags SEEK_FORWARD && Qlt_bool 0 diff then
            find_seek_target_loop pts flags next (S i) target target_diff
          else if negb (Qeq_bool target_diff MP_NOPTS_VALUE)
                  && (if Qle_bool diff 0
                      then Qle_bool target_diff 0 && Qle_bool diff target_diff
                      else Qle_bool target_diff diff) then
            find_seek_target_loop pts flags next (S i) target target_diff
          else
            find_seek_target_loop pts flags next (S i) (Some i) diff
  end.

Definition find_seek_target (ds : demux_stream) (pts : Q) (flags : Z)
  : option nat :=
  find_seek_target_loop pts flags (ds_queue ds) 0 None MP_NOPTS_VALUE.

(** ** The reader state *)

Record demux_seek_range : Type := mk_demux_seek_range {
  range_start : Q;
  range_end : Q
}.

(** [struct demux_ctrl_reader_state]; [r_seek_ranges] holds the
    [num_seek_ranges] first entries of [seek_ranges]. *)
Record demux_ctrl_reader_state : Type := mk_demux_ctrl_reader_state {
  r_eof : bool;
  r_underrun : bool;
  r_idle : bool;
  r_ts_duration : Q;
  r_ts_reader : Q;
  r_ts_end : Q;
  r_seek_ranges : list demux_seek_range
}.

(** The accumulators of the loop of DEMUXER_CTRL_GET_READER_STATE. *)
Record reader_scan : Type := mk_reader_scan {
  rs_underrun : bool;
  rs_ts_reader : Q;
  rs_ts_min : Q;
  rs_ts_max : Q;
  rs_seek_ok : bool;
  rs_any_packets : bool
}.

(** Whether the loop of DEMUXER_CTRL_GET_READER_STATE looks at the queue. *)
Definition contributes (ds : demux_stream) : bool :=
  ds_active ds && negb (is_nil (ds_queue ds) && ds_eof ds)
  && negb (ds_ignore_eof ds).

Definition reader_scan_step (a : reader_scan) (ds : demux_stream)
  : reader_scan :=
  if contributes ds then
    {| rs_underrun :=
         rs_underrun a
         || (negb (is_some (ds_reader_head ds)) && negb (ds_eof ds));
       rs_ts_reader := MP_PTS_MAX (rs_ts_reader a) (ds_base_ts ds);
       rs_ts_min := MP_PTS_MAX (rs_ts_min a) (ds_back_pts ds);
       rs_ts_max := MP_PTS_MAX (rs_ts_max a) (ds_last_ts ds);
       rs_seek_ok :=
         if Qeq_bool (ds_back_pts ds) MP_NOPTS_VALUE
            || Qeq_bool (ds_last_ts ds) MP_NOPTS_VALUE
         then false else rs_seek_ok a;
       rs_any_packets := rs_any_packets a || negb (is_nil (ds_queue ds)) |}
  else a.

(** The case DEMUXER_CTRL_GET_READER_STATE of [cached_demux_control]; it
    always answers CONTROL_OK. *)
Definition cached_demux_control_reader_state (d : demux_internal)
  : demux_ctrl_reader_state :=
  let a :=
    fold_left reader_scan_step (in_streams d)
      {| rs_underrun := false; rs_ts_reader := MP_NOPTS_VALUE;
         rs_ts_min := MP_NOPTS_VALUE; rs_ts_max := MP_NOPTS_VALUE;
         rs_seek_ok := in_seekable_cache d && negb (in_seeking d);
         rs_any_packets := false |} in
  let eof := in_last_eof d in
  let idle := (in_idle d && negb (rs_underrun a)) || eof in
  let underrun := rs_underrun a && negb idle in
  let ts_min := MP_ADD_PTS (rs_ts_min a) (in_ts_offset d) in
  let ts_max := MP_ADD_PTS (rs_ts_max a) (in_ts_offset d) in
  let ts_reader := MP_ADD_PTS (rs_ts_reader a) (in_ts_offset d) in
  let ts_duration := (-1)%Q in
  let ts_duration :=
    if negb (Qeq_bool ts_reader MP_NOPTS_VALUE) && Qle_bool ts_reader ts_max
    then (ts_max - ts_reader)%Q else ts_duration in
  let ts_duration :=
    if in_seeking d || negb (rs_any_packets a) then 0%Q else ts_duration in
  {| r_eof := eof;
     r_underrun := underrun;
     r_idle := idle;
     r_ts_duration := ts_duration;
     r_ts_reader := ts_reader;
     r_ts_end := ts_max;
     r_seek_ranges :=
       if rs_seek_ok a && negb (Qeq_bool ts_min MP_NOPTS_VALUE)
          && Qlt_bool ts_min ts_max
       then [ {| range_start := ts_min; range_end := ts_max |} ]
       else [] |}.

(** The loop of [try_seek_cache] that moves the seek target to the
    keyframe found in the first selected video stream: the new target,
    if there is one. *)
Fixpoint adjust_seek_target (streams : list demux_stream) (pts : Q)
    (flags : Z) : option Q :=
  match streams with
  | [] => None
  | ds :: rest =>
      if ds_selected ds && stream_type_eqb (ds_type ds) STREAM_VIDEO then
        match find_seek_target ds pts flags with
        | Some target =>
            let target_pts :=
              recompute_keyframe_target_pts (skipn target (ds_queue ds)) in
            if negb (Qeq_bool target_pts MP_NOPTS_VALUE)
            then Some target_pts else None
        | None => None
        end
      else adjust_seek_target rest pts flags
  end.

(** What [try_seek_cache] does to one stream in its last loop. *)
Definition seek_stream (pts : Q) (flags : Z) (ds : demux_stream)
  : demux_stream :=
  let target := find_seek_target ds pts flags in
  let ds := set_ds_reader_head target ds in
  let ds := set_ds_skip_to_keyframe (negb (is_some target)) ds in
  recompute_buffers ds.

Fixpoint seek_streams_loop (pts : Q) (flags : Z)
    (streams : list demux_stream) (trace : list event)
  : list demux_stream * list event :=
  match streams with
  | [] => ([], trace)
  | ds :: rest =>
      let ds := seek_stream pts flags ds in
      let trace := EvLog MSGL_V "seeking stream %d (%s) to " :: trace in
      let trace :=
        if is_some (ds_reader_head ds)
        then EvLog MSGL_V "packet %f/%f" :: trace
        else EvLog MSGL_V "nothing" :: trace in
      let (rest', trace') := seek_streams_loop pts flags rest trace in
      (ds :: rest', trace')
  end.

(** The target and the flags that the last loop of [try_seek_cache] works
    with. *)
Definition effective_seek (d : demux_internal) (pts : Q) (flags : Z)
  : Q * Z :=
  if negb (has_flag flags SEEK_HR) then
    match adjust_seek_target (in_streams d) pts flags with
    | Some target_pts => (target_pts, clear_flag flags SEEK_FORWARD)
    | None => (pts, flags)
    end
  else (pts, flags).

(** must be called locked *)
Definition try_seek_cache (d : demux_internal) (pts : Q) (flags : Z)
  : bool * demux_internal :=
  if has_flag flags SEEK_FACTOR || negb (in_seekable_cache d) then (false, d)
  else if in_seeking d then (false, d) (* no idea how this could interact *)
  else
    let rstate := cached_demux_control_reader_state d in
    let r :=
      match r_seek_ranges rstate with
      | r :: _ => r
      | [] => {| range_start := MP_NOPTS_VALUE; range_end := MP_NOPTS_VALUE |}
      end in
    let r_start := MP_ADD_PTS (range_start r) (- in_ts_offset d) in
    let r_end := MP_ADD_PTS (range_end r) (- in_ts_offset d) in
    let d := emit (EvLog MSGL_V "in-cache seek range = %f <-> %f (%f)") d in
    if Qlt_bool pts r_start || Qlt_bool r_end pts then (false, d)
    else
      let d := clear_reader_state d in
      let (pts', flags') := effective_seek d pts flags in
      let d :=
        if negb (has_flag flags SEEK_HR)
           && is_some (adjust_seek_target (in_streams d) pts flags)
        then emit (EvLog MSGL_V "adjust seek target %f -> %f") d else d in
      let (streams, trace) :=
        seek_streams_loop pts' flags' (in_streams d) (in_trace d) in
      (true, set_in_trace trace (set_in_streams streams d)).

(** ** Real seeks *)

Definition execute_seek (desc : demuxer_desc) (d : demux_internal)
  : demux_internal :=
  let flags := in_seek_flags d in
  let pts := in_seek_pts d in
  let d := set_in_seeking false d in
  let d := set_in_initial_state false d in
  let d := emit EvUnlock d in
  let d := emit (EvLog MSGL_V "execute seek (to %f flags %d)") d in
  let d :=
    match desc_seek desc with
    | Some seek => seek pts flags d
    | None => d
    end in
  let d := emit (EvLog MSGL_V "seek done") d in
  emit EvLock d.

Definition demux_seek (desc : demuxer_desc) (d : demux_internal)
    (seek_pts : Q) (flags : Z) : Z * demux_internal :=
  if negb (d_user_seekable d) then
    (0, emit (EvLog MSGL_WARN "Cannot seek in this file.") d)
  else if Qeq_bool seek_pts MP_NOPTS_VALUE then (0, d)
  else
    let d := emit EvLock d in
    let d := emit (EvLog MSGL_V "queuing seek to %f%s") d in
    let seek_pts :=
      if negb (has_flag flags SEEK_FACTOR)
      then MP_ADD_PTS seek_pts (- in_ts_offset d) else seek_pts in
    let (hit, d) := try_seek_cache d seek_pts flags in
    let d :=
      if hit then emit (EvLog MSGL_V "in-cache seek worked!") d
      else
        let d := clear_demux_state d in
        let d := set_in_seeking true d in
        let d := set_in_seek_flags flags d in
        let d := set_in_seek_pts seek_pts d in
        if negb (in_threading d) then execute_seek desc d else d in
    (1, emit EvUnlock (emit EvCondSignal d)).

(** ** Adding a stream *)

(** The [struct demux_stream] that [demux_add_sh_stream_locked] sets up:
    the type, [selected = in->autoselect], and zero in every other field. *)
Definition new_demux_stream (type : stream_type) (autoselect : bool)
  : demux_stream :=
  {| ds_type := type; ds_attached_picture := None;
     ds_selected := autoselect; ds_active := false; ds_eof := false;
     ds_need_refresh := false; ds_refreshing := false;
     ds_correct_dts := false; ds_correct_pos := false;
     ds_fw_packs := 0; ds_fw_bytes := 0; ds_bw_bytes := 0;
     ds_last_pos := 0; ds_last_dts := 0; ds_last_ts := 0; ds_back_pts := 0;
     ds_queue := []; ds_base_ts := 0; ds_last_br_ts := 0;
     ds_last_br_bytes := 0; ds_bitrate := 0; ds_reader_head := None;
     ds_skip_to_keyframe := false; ds_attached_picture_added := false;
     ds_ignore_eof := false |}.

(** * Properties of the cache *)

(** ** Concrete caches used as examples *)

(** A selected stream with a freshly cleared queue. *)
Definition example_stream (type : stream_type) : demux_stream :=
  ds_clear_demux_state (new_demux_stream type true).

(** A threaded, seekable cache with the default options, apart from the
    back-buffer limit. *)
Definition example_cache (streams : list demux_stream) (max_bytes_bw : Z)
  : demux_internal :=
  {| in_streams := streams; in_wakeup_cb := true; in_threading := true;
     in_warned_queue_overflow := false; in_last_eof := false;
     in_eof := false; in_idle := true; in_min_secs := 1;
     in_max_bytes := 400 * 1024 * 1024; in_max_bytes_bw := max_bytes_bw;
     in_seekable_cache := true; in_initial_state := true;
     in_tracks_switched := false; in_seeking := false; in_seek_flags := 0;
     in_seek_pts := 0; in_ref_pts := MP_NOPTS_VALUE; in_ts_offset := 0;
     d_thread_seekable := true; d_thread_partially_seekable := false;
     d_user_seekable := true; d_user_filepos := -1; in_trace := [] |}.

(** A packet of [size] bytes at file position [pos] with PTS = DTS = [ts]. *)
Definition example_packet (ts : Q) (keyframe : bool) (size pos : Z)
  : demux_packet :=
  {| dp_len := size; dp_pts := ts; dp_dts := ts; dp_pos := pos;
     dp_keyframe := keyframe; dp_segmented := false;
     dp_start := MP_NOPTS_VALUE; dp_end := MP_NOPTS_VALUE; dp_stream := 0;
     dp_total_size := size |}.

(** A demuxer that can seek and that has nothing to deliver. *)
Definition example_desc : demuxer_desc :=
  {| desc_seek := Some (fun _ _ d => d); desc_fill_buffer := None;
     demux_cancel_test := false |}.

(** Scenario S3 of the spec: video has been read up to DTS 5, then audio
    is switched on and the refresh seek is computed. *)
Definition refresh_example : demux_internal :=
  Eval vm_compute in
  let d := example_cache [example_stream STREAM_VIDEO] 0 in
  let d := demux_add_packet 0 (example_packet 5 true 100 50) d in
  let d :=
    set_in_streams
      (in_streams d ++ [set_ds_need_refresh true (example_stream STREAM_AUDIO)])
      d in
  snd (get_refresh_seek_pts example_desc d).

(** The video stream of [refresh_example]. *)
Definition refresh_example_video : demux_stream :=
  Eval vm_compute in nth 0 (in_streams refresh_example)
                       (example_stream STREAM_VIDEO).

(** The stream with index [n]. *)
Definition stream_at (d : demux_internal) (n : nat) : option demux_stream :=
  nth_error (in_streams d) n.

(** ** Appending *)

(** The packet as [demux_add_packet] leaves it in the queue of a stream of
    type [type]: with its stream index, and with the DTS for PTS where a
    stream that is not video has no PTS. *)
Definition queued_packet (stream : nat) (type : stream_type)
    (dp : demux_packet) : demux_packet :=
  let dp := set_dp_stream (Z.of_nat stream) dp in
  set_dp_pts
    (if negb (stream_type_eqb type STREAM_VIDEO)
        && Qeq_bool (dp_pts dp) MP_NOPTS_VALUE
     then dp_dts dp else dp_pts dp) dp.

(** What the spec says of a packet that arrives during a refresh, at one
    call for a stream with [correct_dts]: the packet is dropped if and
    only if it lies strictly before the resume point. *)
Definition dropped_iff_before_resume (d : demux_internal) (stream : nat)
    (dp : demux_packet) : Prop :=
  forall ds ds',
    stream_at d stream = Some ds ->
    stream_at (demux_add_packet stream dp d) stream = Some ds' ->
    ds_refreshing ds = true ->
    ds_correct_dts ds = true ->
    (ds_queue ds' = ds_queue ds <-> (dp_dts dp < ds_last_dts ds)%Q).

(** A video stream whose last packet has the timestamp 20. *)
Definition reset_example : demux_internal :=
  Eval vm_compute in
  demux_add_packet 0 (example_packet 20 true 100 10)
    (example_cache [example_stream STREAM_VIDEO] 0).

(** The stream of [reset_example]. *)
Definition reset_example_video : demux_stream :=
  Eval vm_compute in nth 0 (in_streams reset_example)
                       (example_stream STREAM_VIDEO).

(** What the spec says of the timestamp reset, at one call: a packet that
    is queued with a timestamp 10 seconds or more below [last_ts] replaces
    [last_ts]. *)
Definition reset_at_ten_seconds (d : demux_internal) (stream : nat)
    (dp : demux_packet) : Prop :=
  forall ds ds' dp',
    stream_at d stream = Some ds ->
    stream_at (demux_add_packet stream dp d) stream = Some ds' ->
    ds_queue ds' = ds_queue ds ++ [dp'] ->
    ~ (packet_queue_ts dp' == MP_NOPTS_VALUE)%Q ->
    (packet_queue_ts dp' + 10 <= ds_last_ts ds)%Q ->
    ds_last_ts ds' = packet_queue_ts dp'.

(** ** The reader state *)

(** The queue is looked at by DEMUXER_CTRL_GET_READER_STATE and holds a
    packet. *)
Definition holds_packet (ds : demux_stream) : bool :=
  contributes ds && negb (is_nil (ds_queue ds)).

(** What the spec says of [ts_duration] when [ts_reader] and [ts_max] are
    known (and no seek is queued, and some contributing queue holds a
    packet): it is [max(0, ts_max - ts_reader)]. *)
Definition duration_is_clamped_difference (d : demux_internal) : Prop :=
  let r := cached_demux_control_reader_state d in
  in_seeking d = false ->
  existsb holds_packet (in_streams d) = true ->
  ~ (r_ts_reader r == MP_NOPTS_VALUE)%Q ->
  ~ (r_ts_end r == MP_NOPTS_VALUE)%Q ->
  (r_ts_duration r
   == if Qle_bool 0 (r_ts_end r - r_ts_reader r)
      then r_ts_end r - r_ts_reader r else 0)%Q.

(** An active video stream that got a packet at 20 seconds and then, after
    a timestamp reset, one at 5 seconds. *)
Definition duration_example : demux_internal :=
  Eval vm_compute in
  demux_add_packet 0 (example_packet 5 true 100 20)
    (demux_add_packet 0 (example_packet 20 true 100 10)
       (example_cache [set_ds_active true (example_stream STREAM_VIDEO)] 0)).

(** ** Read-ahead *)

(** [bytes] of [read_packet]: the forward bytes of all streams, summed in
    a [size_t]. *)
Definition forward_bytes (streams : list demux_stream) : Z :=
  to_size_t (fold_right (fun ds a => ds_fw_bytes ds + a) 0 streams).

(** The stream after the forward cap was hit: EOF if it has no
    [reader_head]. *)
Definition eof_if_empty (ds : demux_stream) : demux_stream :=
  set_ds_eof (ds_eof ds || negb (is_some (ds_reader_head ds))) ds.

Definition is_overflow_event (e : event) : Prop :=
  e = EvCondSignal \/ e = EvWakeupCb \/ exists msg, e = EvLog MSGL_WARN msg.

Definition overflow_header : event :=
  EvLog MSGL_WARN "Too many packets in the demuxer packet queues:".

(** Scenario S6 of the spec: four video packets of 100 bytes against a
    forward cap of 300 bytes, and an audio stream without packets. *)
Definition overflow_example : demux_internal :=
  Eval vm_compute in
  let d :=
    example_cache [example_stream STREAM_VIDEO; example_stream STREAM_AUDIO]
      0 in
  let d :=
    {| in_streams := in_streams d; in_wakeup_cb := in_wakeup_cb d;
       in_threading := in_threading d;
       in_warned_queue_overflow := in_warned_queue_overflow d;
       in_last_eof := in_last_eof d; in_eof := in_eof d;
       in_idle := in_idle d; in_min_secs := in_min_secs d;
       in_max_bytes := 300; in_max_bytes_bw := in_max_bytes_bw d;
       in_seekable_cache := in_seekable_cache d;
       in_initial_state := in_initial_state d;
       in_tracks_switched := in_tracks_switched d;
       in_seeking := in_seeking d; in_seek_flags := in_seek_flags d;
       in_seek_pts := in_seek_pts d; in_ref_pts := in_ref_pts d;
       in_ts_offset := in_ts_offset d;
       d_thread_seekable := d_thread_seekable d;
       d_thread_partially_seekable := d_thread_partially_seekable d;
       d_user_seekable := d_user_seekable d;
       d_user_filepos := d_user_filepos d; in_trace := [] |} in
  demux_add_packet 0 (example_packet 3 false 100 40)
    (demux_add_packet 0 (example_packet 2 false 100 30)
       (demux_add_packet 0 (example_packet 1 false 100 20)
          (demux_add_packet 0 (example_packet 0 true 100 10) d))).

(** ** Refresh seeks *)

(** Some selected stream was enabled mid-stream. *)
Definition refresh_needed (streams : list demux_stream) : bool :=
  existsb (fun ds => ds_selected ds && ds_need_refresh ds) streams.

(** All selected streams were enabled mid-stream. *)
Definition refresh_normal_seek (streams : list demux_stream) : bool :=
  forallb (fun ds => negb (ds_selected ds) || ds_need_refresh ds) streams.

(** Every selected stream has [correct_dts] or [correct_pos]. *)
Definition refresh_possible (streams : list demux_stream) : bool :=
  forallb (fun ds => negb (ds_selected ds)
                     || (ds_correct_dts ds || ds_correct_pos ds)) streams.

(** [ref_pts], lowered to the [base_ts] of the selected video and audio
    streams. *)
Definition refresh_start_ts (d : demux_internal) : Q :=
  fold_left
    (fun ts ds =>
       if ds_selected ds
          && (stream_type_eqb (ds_type ds) STREAM_VIDEO
              || stream_type_eqb (ds_type ds) STREAM_AUDIO)
       then MP_PTS_MIN ts (ds_base_ts ds) else ts)
    (in_streams d) (in_ref_pts d).

(** The stream after the first loop of [get_refresh_seek_pts]. *)
Definition clear_need_refresh (ds : demux_stream) : demux_stream :=
  if ds_selected ds then set_ds_need_refresh false ds else ds.

(** The stream has seen packets. *)
Definition seen_packets (ds : demux_stream) : bool :=
  negb (ds_last_pos ds =? -1)
  || negb (Qeq_bool (ds_last_dts ds) MP_NOPTS_VALUE).

(** The demuxer can do a refresh seek at all. *)
Definition can_seek (desc : demuxer_desc) (d : demux_internal) : bool :=
  is_some (desc_seek desc) && d_thread_seekable d
  && negb (d_thread_partially_seekable d).

(** [refresh_example] before the refresh seek was computed. *)
Definition switch_example : demux_internal :=
  Eval vm_compute in
  let d := example_cache [example_stream STREAM_VIDEO] 0 in
  let d := demux_add_packet 0 (example_packet 5 true 100 50) d in
  set_in_streams
    (in_streams d ++ [set_ds_need_refresh true (example_stream STREAM_AUDIO)])
    d.

(** ** Byte accounting *)

(** The estimated sizes of the packets of [l], summed. *)
Definition sum_sizes (l : list demux_packet) : Z :=
  fold_right (fun dp a => demux_packet_estimate_total_size dp + a) 0 l.

(** The forward buffer: the packets from [reader_head] to the tail. *)
Definition forward (ds : demux_stream) : list demux_packet :=
  match ds_reader_head ds with
  | Some i => skipn i (ds_queue ds)
  | None => []
  end.

(** The back buffer: the packets before [reader_head]. *)
Definition backbuffer (ds : demux_stream) : list demux_packet :=
  match ds_reader_head ds with
  | Some i => firstn i (ds_queue ds)
  | None => ds_queue ds
  end.

(** [reader_head] is NULL or points into the queue. *)
Definition head_in_queue (ds : demux_stream) : Prop :=
  match ds_reader_head ds with
  | Some i => (i < length (ds_queue ds))%nat
  | None => True
  end.

(** The invariant of a queue: the three counters hold, as [size_t], the
    number and the sizes of the packets of the two buffers. *)
Definition queue_ok (ds : demux_stream) : Prop :=
  head_in_queue ds
  /\ ds_fw_packs ds = to_size_t (Z.of_nat (length (forward ds)))
  /\ ds_fw_bytes ds = to_size_t (sum_sizes (forward ds))
  /\ ds_bw_bytes ds = to_size_t (sum_sizes (backbuffer ds)).

Definition cache_ok (d : demux_internal) : Prop :=
  Forall queue_ok (in_streams d).

(** The queue is one whose packet count and total size a [size_t] can
    hold. *)
Definition fits (ds : demux_stream) : Prop :=
  sum_sizes (ds_queue ds) < size_t_modulus
  /\ Z.of_nat (length (ds_queue ds)) < size_t_modulus.

(** The accounting that the spec asks for. *)
Definition accounting (ds : demux_stream) : Prop :=
  ds_fw_bytes ds + ds_bw_bytes ds = sum_sizes (ds_queue ds)
  /\ ds_fw_packs ds = Z.of_nat (length (forward ds)).

(** The operations that modify a queue. *)
Inductive queue_op : Type :=
  | OpAddPacket (stream : nat) (dp : demux_packet)
  | OpDequeue (stream : nat)
  | OpPrune
  | OpSeekCache (pts : Q) (flags : Z).

Definition run_op (op : queue_op) (d : demux_internal)
  : outcome demux_internal :=
  match op with
  | OpAddPacket stream dp => Done (demux_add_packet stream dp d)
  | OpDequeue stream =>
      match dequeue_packet stream d with
      | Done (_, d') => Done d'
      | AssertFail => AssertFail
      | OutOfFuel => OutOfFuel
      end
  | OpPrune => prune_old_packets d
  | OpSeekCache pts flags => Done (snd (try_seek_cache d pts flags))
  end.

(** [ds'] is [ds] after pruning: packets were freed at the head of the
    queue, all of them in the back buffer; the forward buffer is as it
    was. *)
Definition pruned (ds ds' : demux_stream) : Prop :=
  exists dropped,
    ds_queue ds = dropped ++ ds_queue ds'
    /\ backbuffer ds = dropped ++ backbuffer ds'
    /\ forward ds' = forward ds
    /\ is_some (ds_reader_head ds') = is_some (ds_reader_head ds).

(** The sizes of all back buffers, summed. *)
Definition total_back (streams : list demux_stream) : Z :=
  fold_right (fun ds a => sum_sizes (backbuffer ds) + a) 0 streams.

(** The stream can be pruned: its queue has a head that is not
    [reader_head]. *)
Definition prunable (ds : demux_stream) : bool :=
  negb (is_nil (ds_queue ds)) && negb (ptr_is 0 (ds_reader_head ds)).

(** Scenario S2 of the spec: three keyframes of 100 bytes, a back-buffer
    limit of 150 bytes. *)
Definition prune_example : demux_internal :=
  Eval vm_compute in
  demux_add_packet 0 (example_packet 2 true 100 30)
    (demux_add_packet 0 (example_packet 1 true 100 20)
       (demux_add_packet 0 (example_packet 0 true 100 10)
          (example_cache [example_stream STREAM_VIDEO] 150))).

(** The packet that [dequeue_packet] takes from the queue of the stream
    with index [n], if it takes one. *)
Definition dequeued (n : nat) (d : demux_internal) : option demux_packet :=
  match stream_at d n with
  | Some ds =>
      match ds_attached_picture ds, ds_reader_head ds with
      | None, Some i => nth_error (ds_queue ds) i
      | _, _ => None
      end
  | None => None
  end.

(** A run of [dequeue_packet] calls on the streams [ns]. *)
Fixpoint dequeue_packets (ns : list nat) (d : demux_internal)
  : outcome demux_internal :=
  match ns with
  | [] => Done d
  | n :: rest =>
      match dequeue_packet n d with
      | Done (_, d') => dequeue_packets rest d'
      | AssertFail => AssertFail
      | OutOfFuel => OutOfFuel
      end
  end.

(** The number of back-buffer packets that [recompute_buffers_loop] has
    before it, at index [i] of a queue with [len] packets left. *)
Definition back_count (i len : nat) (reader_head : option nat)
    (in_backbuffer : bool) : nat :=
  if in_backbuffer then
    match reader_head with
    | Some j => if (i <=? j)%nat then (j - i)%nat else len
    | None => len
    end
  else 0%nat.

(** ** Seek targets *)

(** The PTS of the keyframe range that starts at index [k] of [queue]. *)
Definition range_pts (queue : list demux_packet) (k : nat) : Q :=
  recompute_keyframe_target_pts (skipn k queue).

(** [diff] of [find_seek_target] for a keyframe range at [r]. *)
Definition seek_diff (pts : Q) (flags : Z) (r : Q) : Q :=
  if has_flag flags SEEK_FORWARD then (- (r - pts))%Q else (r - pts)%Q.

(** The packet at index [k] is one that [find_seek_target] considers: a
    keyframe whose range has a PTS and, for a forward seek, does not lie
    before the target. *)
Definition seek_candidate (queue : list demux_packet) (pts : Q) (flags : Z)
    (k : nat) : Prop :=
  exists p,
    nth_error queue k = Some p
    /\ dp_keyframe p = true
    /\ ~ (range_pts queue k == MP_NOPTS_VALUE)%Q
    /\ (has_flag flags SEEK_FORWARD = true ->
        (pts <= range_pts queue k)%Q).

(** No candidate has a [diff] that equals the value of MP_NOPTS_VALUE,
    which [find_seek_target] takes for "no target yet". *)
Definition no_sentinel_diff (queue : list demux_packet) (pts : Q)
    (flags : Z) : Prop :=
  forall k, seek_candidate queue pts flags k ->
            ~ (seek_diff pts flags (range_pts queue k) == MP_NOPTS_VALUE)%Q.

(** The invariant of the loop of [find_seek_target] before index [i]. *)
Definition seek_inv (queue : list demux_packet) (pts : Q) (flags : Z)
    (i : nat) (target : option nat) (target_diff : Q) : Prop :=
  match target with
  | None =>
      target_diff = MP_NOPTS_VALUE
      /\ forall k, (k < i)%nat -> ~ seek_candidate queue pts flags k
  | Some j =>
      (j < i)%nat
      /\ seek_candidate queue pts flags j
      /\ target_diff = seek_diff pts flags (range_pts queue j)
      /\ (no_sentinel_diff queue pts flags -> (0 < target_diff)%Q ->
          forall k, (k < i)%nat -> seek_candidate queue pts flags k ->
                    (0 < seek_diff pts flags (range_pts queue k))%Q)
  end.

(** What the spec says of the streams after an in-cache seek. *)
Definition seek_target_claim (d : demux_internal) (pts : Q) (flags : Z)
  : Prop :=
  fst (try_seek_cache d pts flags) = true ->
  forall n ds',
    stream_at (snd (try_seek_cache d pts flags)) n = Some ds' ->
    (ds_reader_head ds' = None /\ ds_skip_to_keyframe ds' = true)
    \/ (exists i p,
          ds_reader_head ds' = Some i
          /\ nth_error (ds_queue ds') i = Some p
          /\ dp_keyframe p = true
          /\ if has_flag flags SEEK_FORWARD
             then (pts <= range_pts (ds_queue ds') i)%Q
             else (range_pts (ds_queue ds') i <= pts)%Q).

(** An active video stream with keyframes at 0 and 10 seconds and a
    subtitle stream, read on the side, whose only packet is at 8
    seconds. *)
Definition seek_example : demux_internal :=
  Eval vm_compute in
  demux_add_packet 1 (example_packet 8 true 100 25)
    (demux_add_packet 0 (example_packet 10 true 100 30)
       (demux_add_packet 0 (example_packet 0 true 100 10)
          (example_cache
             [set_ds_active true (example_stream STREAM_VIDEO);
              example_stream STREAM_SUB] 1000))).

(** [prune_example] with its first two packets read: the back buffer is
    over its limit. *)
Definition prune_example_read : demux_internal :=
  Eval vm_compute in
  match dequeue_packet 0 prune_example with
  | Done (_, d) =>
      set_stream 0
        (dequeue_head 1 (example_packet 1 true 100 20)
           (nth 0 (in_streams d) (example_stream STREAM_VIDEO))) d
  | _ => prune_example
  end.

(** * More of the cache: readers, flushing, selection *)

(** Return whether a packet is queued. Never blocks, never forces any
    reads. [stream] is the index of the stream; an index without a stream
    is the NULL stream. *)
Definition demux_has_packet (stream : nat) (d : demux_internal)
  : bool * demux_internal :=
  match nth_error (in_streams d) stream with
  | None => (false, d)
  | Some ds =>
      let d := emit EvLock d in
      let has_packet := is_some (ds_reader_head ds) in
      (has_packet, emit EvUnlock d)
  end.

(** clear the packet queues *)
Definition demux_flush (d : demux_internal) : demux_internal :=
  emit EvUnlock (clear_demux_state (emit EvLock d)).

(** A run of [k] calls of [dequeue_packet] on one stream, with what they
    returned, first call first. *)
Fixpoint dequeue_run (stream : nat) (k : nat) (d : demux_internal)
  : outcome (list (option demux_packet) * demux_internal) :=
  match k with
  | O => Done ([], d)
  | S k' =>
      match dequeue_packet stream d with
      | Done (pkt, d') =>
          match dequeue_run stream k' d' with
          | Done (pkts, d'') => Done (pkt :: pkts, d'')
          | AssertFail => AssertFail
          | OutOfFuel => OutOfFuel
          end
      | AssertFail => AssertFail
      | OutOfFuel => OutOfFuel
      end
  end.

(** [ds'] is [ds] but for the four fields that the pruner writes. *)
Definition pruner_frame (ds ds' : demux_stream) : Prop :=
  ds' = set_ds_bw_bytes (ds_bw_bytes ds')
          (set_ds_reader_head (ds_reader_head ds')
             (set_ds_queue (ds_queue ds')
                (set_ds_back_pts (ds_back_pts ds') ds))).

(** The target that [demux_seek] queues: the position in the timestamps of
    the file, unless it is a fraction of the file (SEEK_FACTOR). *)
Definition seek_target (d : demux_internal) (seek_pts : Q) (flags : Z) : Q :=
  if negb (has_flag flags SEEK_FACTOR)
  then MP_ADD_PTS seek_pts (- in_ts_offset d) else seek_pts.

(** The demuxer side of a stream: its packets and what
    [ds_clear_demux_state] resets beyond the reader state and the byte
    counters. *)
Definition demux_state (ds : demux_stream)
  : list demux_packet * (bool * bool * bool * bool * bool * bool * bool)
    * (Z * Q * Q * Q) :=
  (ds_queue ds,
   (ds_selected ds, ds_active ds, ds_eof ds, ds_need_refresh ds,
    ds_refreshing ds, ds_correct_dts ds, ds_correct_pos ds),
   (ds_last_pos ds, ds_last_dts ds, ds_last_ts ds, ds_back_pts ds)).

(** The accumulators of the loop of DEMUXER_CTRL_GET_READER_STATE before
    the first stream. *)
Definition reader_scan_init (d : demux_internal) : reader_scan :=
  {| rs_underrun := false; rs_ts_reader := MP_NOPTS_VALUE;
     rs_ts_min := MP_NOPTS_VALUE; rs_ts_max := MP_NOPTS_VALUE;
     rs_seek_ok := in_seekable_cache d && negb (in_seeking d);
     rs_any_packets := false |}.

(** A stream that DEMUXER_CTRL_GET_READER_STATE looks at knows the start
    of its back buffer and its last timestamp. *)
Definition known_range (ds : demux_stream) : bool :=
  negb (contributes ds)
  || negb (Qeq_bool (ds_back_pts ds) MP_NOPTS_VALUE
           || Qeq_bool (ds_last_ts ds) MP_NOPTS_VALUE).

(** [r.start] and [r.end] of [try_seek_cache]: the first seek range of the
    reader state (NOPTS on both ends if there is none), in the timestamps
    of the file. *)
Definition cache_range_start (d : demux_internal) : Q :=
  MP_ADD_PTS
    (range_start
       match r_seek_ranges (cached_demux_control_reader_state d) with
       | r :: _ => r
       | [] => {| range_start := MP_NOPTS_VALUE;
                  range_end := MP_NOPTS_VALUE |}
       end)
    (- in_ts_offset d).

Definition cache_range_end (d : demux_internal) : Q :=
  MP_ADD_PTS
    (range_end
       match r_seek_ranges (cached_demux_control_reader_state d) with
       | r :: _ => r
       | [] => {| range_start := MP_NOPTS_VALUE;
                  range_end := MP_NOPTS_VALUE |}
       end)
    (- in_ts_offset d).

(** [ds] as the stream of a [sh] whose [attached_picture] is [picture]. *)
Definition with_attached_picture (picture : demux_packet)
    (ds : demux_stream) : demux_stream :=
  {| ds_type := ds_type ds; ds_attached_picture := Some picture;
     ds_selected := ds_selected ds; ds_active := ds_active ds;
     ds_eof := ds_eof ds; ds_need_refresh := ds_need_refresh ds;
     ds_refreshing := ds_refreshing ds; ds_correct_dts := ds_correct_dts ds;
     ds_correct_pos := ds_correct_pos ds; ds_fw_packs := ds_fw_packs ds;
     ds_fw_bytes := ds_fw_bytes ds; ds_bw_bytes := ds_bw_bytes ds;
     ds_last_pos := ds_last_pos ds; ds_last_dts := ds_last_dts ds;
     ds_last_ts := ds_last_ts ds; ds_back_pts := ds_back_pts ds;
     ds_queue := ds_queue ds; ds_base_ts := ds_base_ts ds;
     ds_last_br_ts := ds_last_br_ts ds;
     ds_last_br_bytes := ds_last_br_bytes ds; ds_bitrate := ds_bitrate ds;
     ds_reader_head := ds_reader_head ds;
     ds_skip_to_keyframe := ds_skip_to_keyframe ds;
     ds_attached_picture_added := ds_attached_picture_added ds;
     ds_ignore_eof := ds_ignore_eof ds |}.

(** An audio stream and the cover art of the file, a video stream whose
    only picture is attached. *)
Definition cover_art_example : demux_internal :=
  Eval vm_compute in
  example_cache
    [example_stream STREAM_AUDIO;
     with_attached_picture (example_packet 0 true 5000 0)
       (example_stream STREAM_VIDEO)] 0.

(** The stream asks [read_packet] for more packets: it is active and has
    nothing to read, or it is refreshing, or it is active and what it has
    buffered ahead of the reader spans less than [min_secs]. *)
Definition wants_data (min_secs : Q) (ds : demux_stream) : bool :=
  (ds_active ds && negb (is_some (ds_reader_head ds)))
  || ds_refreshing ds
  || (ds_active ds && negb (Qeq_bool (ds_last_ts ds) MP_NOPTS_VALUE)
      && Qlt_bool 0 min_secs && Qle_bool (ds_base_ts ds) (ds_last_ts ds)
      && Qlt_bool (ds_last_ts ds - ds_base_ts ds) min_secs).

(** An active stream with nothing queued, and a demuxer that has nothing
    to deliver. *)
Definition underrun_example : demux_internal :=
  Eval vm_compute in
  example_cache [set_ds_active true (example_stream STREAM_VIDEO)] 0.

(** ** Reading a packet *)

(** Whether to avoid actively demuxing new packets to find a new packet on
    the given stream. Attached pictures (cover art) should never actively
    read. Subtitles are only lazily read if there's at least 1 other
    actively read stream. *)
Definition use_lazy_packet_reading (ds : demux_stream) (d : demux_internal)
  : bool :=
  if is_some (ds_attached_picture ds) then true
  else if negb (stream_type_eqb (ds_type ds) STREAM_SUB) then false
  else
    existsb
      (fun s =>
         negb (stream_type_eqb (ds_type s) STREAM_SUB) && ds_selected s
         && negb (ds_eof s) && negb (is_some (ds_attached_picture s)))
      (in_streams d).

(** The loop of [demux_read_packet] that waits for a packet on the stream
    with index [stream]. With a demuxer thread the reader waits on the
    condition; [cond_wait] is what the thread does to the cache
    meanwhile. Without one the reader calls [read_packet] itself. The loop
    runs on fuel: whether it ends is up to the demuxer. *)
Fixpoint read_wait_loop (desc : demuxer_desc)
    (cond_wait : demux_internal -> demux_internal) (fuel : nat)
    (stream : nat) (d : demux_internal) : outcome demux_internal :=
  match nth_error (in_streams d) stream with
  | None => Done d
  | Some ds =>
      if ds_selected ds && negb (is_some (ds_reader_head ds)) then
        match fuel with
        | O => OutOfFuel
        | S fuel =>
            let d := set_stream stream (set_ds_active true ds) d in
            (* Note: the following code marks EOF if it can't continue *)
            let d :=
              if in_threading d then
                let d :=
                  emit (EvLog MSGL_V "waiting for demux thread (%s)") d in
                cond_wait (emit EvCondSignal d)
              else snd (read_packet desc d) in
            match nth_error (in_streams d) stream with
            | None => Done d
            | Some ds =>
                if ds_eof ds then Done d
                else read_wait_loop desc cond_wait fuel stream d
            end
        end
      else Done d
  end.

(** Read a packet from the given stream. Might block. Returns NULL on
    EOF. *)
Definition demux_read_packet (desc : demuxer_desc)
    (cond_wait : demux_internal -> demux_internal) (fuel : nat)
    (stream : nat) (d : demux_internal)
  : outcome (option demux_packet * demux_internal) :=
  match nth_error (in_streams d) stream with
  | None => Done (None, d)
  | Some ds =>
      let d := emit EvLock d in
      let waited :=
        if negb (use_lazy_packet_reading ds d) then
          let d := set_in_eof false d in (* force retry *)
          read_wait_loop desc cond_wait fuel stream d
        else Done d in
      match waited with
      | Done d =>
          match dequeue_packet stream d with
          | Done (pkt, d) =>
              (* possibly read more *)
              Done (pkt, emit EvUnlock (emit EvCondSignal d))
          | AssertFail => AssertFail
          | OutOfFuel => OutOfFuel
          end
      | AssertFail => AssertFail
      | OutOfFuel => OutOfFuel
      end
  end.

(** Poll the demuxer queue, and if there's a packet, return it. Otherwise,
    just make the demuxer thread read packets for this stream. Returns
    [< 0]: EOF was reached, [== 0]: no new packet yet, but maybe later,
    [> 0]: new packet read; with it, [*out_pkt]. *)
Definition demux_read_packet_async (desc : demuxer_desc)
    (cond_wait : demux_internal -> demux_internal) (fuel : nat)
    (stream : nat) (d : demux_internal)
  : outcome (Z * option demux_packet * demux_internal) :=
  match nth_error (in_streams d) stream with
  | None => Done (-1, None, d)
  | Some _ =>
      if in_threading d then
        let d := emit EvLock d in
        match dequeue_packet stream d with
        | Done (out_pkt, d) =>
            match nth_error (in_streams d) stream with
            | None => Done (-1, out_pkt, emit EvUnlock d)
            | Some ds =>
                if use_lazy_packet_reading ds d then
                  Done (if is_some out_pkt then 1 else -1, out_pkt,
                        emit EvUnlock d)
                else
                  let r :=
                    if is_some out_pkt then 1
                    else if ds_eof ds || negb (ds_selected ds) then -1
                         else 0 in
                  (* enable readahead *)
                  let d :=
                    set_stream stream (set_ds_active (ds_selected ds) ds) d in
                  let d := set_in_eof false d in (* force retry *)
                  (* possibly read more *)
                  let d := emit EvCondSignal d in
                  Done (r, out_pkt, emit EvUnlock d)
            end
        | AssertFail => AssertFail
        | OutOfFuel => OutOfFuel
        end
      else
        match demux_read_packet desc cond_wait fuel stream d with
        | Done (out_pkt, d) =>
            Done (if is_some out_pkt then 1 else -1, out_pkt, d)
        | AssertFail => AssertFail
        | OutOfFuel => OutOfFuel
        end
  end.

(** [d] without a demuxer thread: the reader itself runs the demuxer. *)
Definition without_thread (d : demux_internal) : demux_internal :=
  {| in_streams := in_streams d; in_wakeup_cb := in_wakeup_cb d;
     in_threading := false;
     in_warned_queue_overflow := in_warned_queue_overflow d;
     in_last_eof := in_last_eof d; in_eof := in_eof d;
     in_idle := in_idle d; in_min_secs := in_min_secs d;
     in_max_bytes := in_max_bytes d; in_max_bytes_bw := in_max_bytes_bw d;
     in_seekable_cache := in_seekable_cache d;
     in_initial_state := in_initial_state d;
     in_tracks_switched := in_tracks_switched d;
     in_seeking := in_seeking d; in_seek_flags := in_seek_flags d;
     in_seek_pts := in_seek_pts d; in_ref_pts := in_ref_pts d;
     in_ts_offset := in_ts_offset d;
     d_thread_seekable := d_thread_seekable d;
     d_thread_partially_seekable := d_thread_partially_seekable d;
     d_user_seekable := d_user_seekable d;
     d_user_filepos := d_user_filepos d; in_trace := in_trace d |}.

(** A selected video stream with nothing queued, read without a demuxer
    thread. *)
Definition unthreaded_example : demux_internal :=
  Eval vm_compute in
  without_thread (example_cache [example_stream STREAM_VIDEO] 0).

(** ** Switching tracks *)

Definition set_in_tracks_switched (v : bool) (d : demux_internal)
  : demux_internal :=
  {| in_streams := in_streams d; in_wakeup_cb := in_wakeup_cb d;
     in_threading := in_threading d;
     in_warned_queue_overflow := in_warned_queue_overflow d;
     in_last_eof := in_last_eof d; in_eof := in_eof d;
     in_idle := in_idle d; in_min_secs := in_min_secs d;
     in_max_bytes := in_max_bytes d; in_max_bytes_bw := in_max_bytes_bw d;
     in_seekable_cache := in_seekable_cache d;
     in_initial_state := in_initial_state d;
     in_tracks_switched := v;
     in_seeking := in_seeking d; in_seek_flags := in_seek_flags d;
     in_seek_pts := in_seek_pts d; in_ref_pts := in_ref_pts d;
     in_ts_offset := in_ts_offset d;
     d_thread_seekable := d_thread_seekable d;
     d_thread_partially_seekable := d_thread_partially_seekable d;
     d_user_seekable := d_user_seekable d;
     d_user_filepos := d_user_filepos d; in_trace := in_trace d |}.

Definition set_in_ref_pts (v : Q) (d : demux_internal) : demux_internal :=
  {| in_streams := in_streams d; in_wakeup_cb := in_wakeup_cb d;
     in_threading := in_threading d;
     in_warned_queue_overflow := in_warned_queue_overflow d;
     in_last_eof := in_last_eof d; in_eof := in_eof d;
     in_idle := in_idle d; in_min_secs := in_min_secs d;
     in_max_bytes := in_max_bytes d; in_max_bytes_bw := in_max_bytes_bw d;
     in_seekable_cache := in_seekable_cache d;
     in_initial_state := in_initial_state d;
     in_tracks_switched := in_tracks_switched d;
     in_seeking := in_seeking d; in_seek_flags := in_seek_flags d;
     in_seek_pts := in_seek_pts d; in_ref_pts := v;
     in_ts_offset := in_ts_offset d;
     d_thread_seekable := d_thread_seekable d;
     d_thread_partially_seekable := d_thread_partially_seekable d;
     d_user_seekable := d_user_seekable d;
     d_user_filepos := d_user_filepos d; in_trace := in_trace d |}.

(** What [execute_trackswitch] calls with the lock released: the control
    entry point of the demuxer, at DEMUXER_CTRL_SWITCHED_TRACKS ([None] if
    the demuxer has none), and [stream_control] of its stream, at
    STREAM_CTRL_SET_READAHEAD with its argument. Like the entry points of
    [demuxer_desc] they are functions on the cache state. *)
Record demuxer_control : Type := mk_demuxer_control {
  desc_control_switched_tracks : option (demux_internal -> demux_internal);
  stream_control_set_readahead : bool -> demux_internal -> demux_internal
}.

Definition execute_trackswitch (ctrl : demuxer_control) (d : demux_internal)
  : demux_internal :=
  let d := set_in_tracks_switched false d in
  let any_selected := existsb ds_selected (in_streams d) in
  let d := emit EvUnlock d in
  let d :=
    match desc_control_switched_tracks ctrl with
    | Some control => control d
    | None => d
    end in
  let d := stream_control_set_readahead ctrl any_selected d in
  emit EvLock d.

(** Set whether the given stream should return packets. [ref_pts] is used
    only if the stream is enabled. Then it serves as approximate start pts
    for this stream (in the worst case it is ignored). An index without a
    stream is left alone. *)
Definition demuxer_select_track (ctrl : demuxer_control) (stream : nat)
    (ref_pts : Q) (selected : bool) (d : demux_internal) : demux_internal :=
  match nth_error (in_streams d) stream with
  | None => d
  | Some ds =>
      let d := emit EvLock d in
      (* don't flush buffers if stream is already selected / unselected *)
      let d :=
        if negb (Bool.eqb (ds_selected ds) selected) then
          let ds := set_ds_selected selected ds in
          let ds := ds_clear_demux_state ds in
          let d := set_in_tracks_switched true d in
          let ds :=
            set_ds_need_refresh (selected && negb (in_initial_state d)) ds in
          let d := set_stream stream ds d in
          let d :=
            set_in_ref_pts
              (if ds_need_refresh ds
               then MP_ADD_PTS ref_pts (- in_ts_offset d) else in_ref_pts d)
              d in
          if in_threading d then emit EvCondSignal d
          else execute_trackswitch ctrl d
        else d in
      emit EvUnlock d
  end.

(** The stream that [demuxer_select_track] leaves when it changes the
    selection to [selected], in a cache with the given [initial_state]. *)
Definition switched_stream (selected initial_state : bool)
    (ds : demux_stream) : demux_stream :=
  set_ds_need_refresh (selected && negb initial_state)
    (ds_clear_demux_state (set_ds_selected selected ds)).

(** A demuxer that has nothing to do on a track switch. *)
Definition example_control : demuxer_control :=
  {| desc_control_switched_tracks := None;
     stream_control_set_readahead := fun _ d => d |}.

(** The demuxer adds the packets [dps] to the stream with index
    [stream]. *)
Definition add_packets (stream : nat) (dps : list demux_packet)
    (d : demux_internal) : demux_internal :=
  fold_left (fun d dp => demux_add_packet stream dp d) dps d.

(** A cache past its initial state whose only stream is not selected. *)
Definition unselected_example : demux_internal :=
  Eval vm_compute in
  set_in_initial_state false
    (example_cache [set_ds_selected false (example_stream STREAM_VIDEO)] 0).

(** ** Keyframe ranges *)

(** The timestamp that [recompute_keyframe_target_pts] takes from a
    packet: its PTS, else its DTS, and none if the packet is segmented and
    that timestamp lies outside the segment. *)
Definition range_ts (p : demux_packet) : Q :=
  let ts := PTS_OR_DEF (dp_pts p) (dp_dts p) in
  if dp_segmented p && (Qlt_bool ts (dp_start p) || Qlt_bool (dp_end p) ts)
  then MP_NOPTS_VALUE else ts.

(** The packets before the first keyframe of [dp]. *)
Fixpoint until_keyframe (dp : list demux_packet) : list demux_packet :=
  match dp with
  | [] => []
  | p :: next => if dp_keyframe p then [] else p :: until_keyframe next
  end.

(** The keyframe range starting at or following the head of [dp]: the
    first keyframe and the packets up to the next one. *)
Fixpoint first_keyframe_range (dp : list demux_packet)
  : list demux_packet :=
  match dp with
  | [] => []
  | p :: next =>
      if dp_keyframe p then p :: until_keyframe next
      else first_keyframe_range next
  end.

(** The invariant of the loop of [find_seek_target] before index [i], for
    a target that has no [diff] equal to the value of MP_NOPTS_VALUE: the
    target chosen so far is, of the packets the loop considers, the one
    nearest to the position at or before it, or else the nearest after
    it. *)
Definition seek_best (queue : list demux_packet) (pts : Q) (flags : Z)
    (i : nat) (target : option nat) (target_diff : Q) : Prop :=
  match target with
  | None =>
      target_diff = MP_NOPTS_VALUE
      /\ forall k, (k < i)%nat -> ~ seek_candidate queue pts flags k
  | Some j =>
      (j < i)%nat
      /\ seek_candidate queue pts flags j
      /\ target_diff = seek_diff pts flags (range_pts queue j)
      /\ forall k, (k < i)%nat -> seek_candidate queue pts flags k ->
           ((target_diff <= 0)%Q ->
            (seek_diff pts flags (range_pts queue k) <= target_diff)%Q
            \/ (0 < seek_diff pts flags (range_pts queue k))%Q)
           /\ ((0 < target_diff)%Q ->
               (target_diff <= seek_diff pts flags (range_pts queue k))%Q)
  end.

(** ** Bitrates *)

(** [rates[type] = v]. *)
Definition set_rate (rates : stream_type -> Q) (type : stream_type) (v : Q)
  : stream_type -> Q :=
  fun t => if stream_type_eqb t type then v else rates t.

(** The body of the second loop of DEMUXER_CTRL_GET_BITRATE_STATS. *)
Definition bitrate_stats_step (rates : stream_type -> Q) (ds : demux_stream)
  : stream_type -> Q :=
  if ds_selected ds && Qle_bool 0 (ds_bitrate ds) then
    set_rate rates (ds_type ds)
      (MPMAX 0 (rates (ds_type ds)) + ds_bitrate ds)%Q
  else rates.

(** The case DEMUXER_CTRL_GET_BITRATE_STATS of [cached_demux_control]: the
    array [rates], indexed by stream type; it always answers
    CONTROL_OK. *)
Definition cached_demux_control_bitrate_stats (d : demux_internal)
  : stream_type -> Q :=
  fold_left bitrate_stats_step (in_streams d) (fun _ => (-1)%Q).

(** The stream counts for the bitrate of the streams of type [type]. *)
Definition rated (type : stream_type) (ds : demux_stream) : bool :=
  stream_type_eqb (ds_type ds) type && ds_selected ds
  && Qle_bool 0 (ds_bitrate ds).

(** The bitrates of [streams], summed. *)
Definition sum_bitrates (streams : list demux_stream) : Q :=
  fold_right (fun ds a => (ds_bitrate ds + a)%Q) 0%Q streams.

(** ** Chapters *)

(** demux/demux.h: [struct demux_chapter]; of its metadata, the title. *)
Record demux_chapter : Type := mk_demux_chapter {
  ch_original_index : Z;
  ch_pts : Q;
  ch_title : string;
  ch_demuxer_id : Z
}.

(** The order that [demuxer_sort_chapters] hands to [qsort]. *)
Definition chapter_compare (c1 c2 : demux_chapter) : Z :=
  if Qlt_bool (ch_pts c2) (ch_pts c1) then 1
  else if Qlt_bool (ch_pts c1) (ch_pts c2) then -1
  else if ch_original_index c2 <? ch_original_index c1 then 1
       else -1. (* never equal *)

(** [demuxer_add_chapter] on the chapters of the demuxer: the index it
    returns and the chapters with the new one appended. [num_chapters] is
    the length of the list. *)
Definition demuxer_add_chapter (chapters : list demux_chapter)
    (name : string) (pts : Q) (demuxer_id : Z) : Z * list demux_chapter :=
  let new :=
    {| ch_original_index := Z.of_nat (length chapters);
       ch_pts := pts;
       ch_title := name;
       ch_demuxer_id := demuxer_id |} in
  let chapters := chapters ++ [new] in
  (Z.of_nat (length chapters) - 1, chapters).

(** The chapters after [demuxer_add_chapter] was called, starting with no
    chapter, for each (name, pts, demuxer_id) of [added] in turn. *)
Definition add_chapters (added : list (string * Q * Z))
  : list demux_chapter :=
  fold_left
    (fun chapters '(name, pts, demuxer_id) =>
       snd (demuxer_add_chapter chapters name pts demuxer_id))
    added [].

(** ** Replaygain *)

(** What [strtod] makes of a string, taken to a [float]: no conversion was
    performed ([rest == str]), or the value is not finite, or a value. *)
Inductive strtod_result : Type :=
  | NoConversion
  | NotFinite
  | Value (v : Q).

(** audio/chmap.h: [struct replaygain_data]. *)
Record replaygain_data : Type := mk_replaygain_data {
  track_gain : Q;
  track_peak : Q;
  album_gain : Q;
  album_peak : Q
}.

(** demux/stheader.h: [struct sh_stream], its type, the three indexes,
    the tags and [codec->replaygain_data]. *)
Record sh_stream (mp_tags : Type) : Type := mk_sh_stream {
  sh_type : stream_type;
  sh_index : Z;
  sh_ff_index : Z;
  sh_demuxer_id : Z;
  sh_tags : mp_tags;
  sh_replaygain_data : option replaygain_data
}.
Arguments mk_sh_stream {mp_tags}.
Arguments sh_type {mp_tags}.
Arguments sh_index {mp_tags}.
Arguments sh_ff_index {mp_tags}.
Arguments sh_demuxer_id {mp_tags}.
Arguments sh_tags {mp_tags}.
Arguments sh_replaygain_data {mp_tags}.

(** The decoding of replaygain tags, over the tag library
    ([mp_tags_get_str] of common/tags.c) and [strtod]. The functions
    return their [int] with the value of [*out] and the log. *)
Section Replaygain.

Variable mp_tags : Type.
Variable mp_tags_get_str : mp_tags -> string -> option string.
Variable strtod : string -> strtod_result.

Definition decode_float (str : string) (out : Q) : Z * Q :=
  match strtod str with
  | NoConversion | NotFinite => (-1, out)
  | Value dec_val => (0, dec_val)
  end.

Definition decode_gain (log : list string) (tags : mp_tags) (tag : string)
    (out : Q) : Z * Q * list string :=
  match mp_tags_get_str tags tag with
  | None => (-1, out, log)
  | Some tag_val =>
      let (r, dec_val) := decode_float tag_val 0 in
      if r <? 0 then (-1, out, "Invalid replaygain value"%string :: log)
      else (0, dec_val, log)
  end.

Definition decode_peak (log : list string) (tags : mp_tags) (tag : string)
    (out : Q) : Z * Q * list string :=
  let out := 1%Q in
  match mp_tags_get_str tags tag with
  | None => (0, out, log)
  | Some tag_val =>
      let (r, dec_val) := decode_float tag_val 0 in
      if (r <? 0) || Qle_bool dec_val 0 then (-1, out, log)
      else (0, dec_val, log)
  end.

Definition decode_rgain (log : list string) (tags : mp_tags)
  : option replaygain_data * list string :=
  let rg := {| track_gain := 0; track_peak := 0; album_gain := 0;
               album_peak := 0 |} in
  let '(r, v, log) :=
    decode_gain log tags "REPLAYGAIN_TRACK_GAIN" (track_gain rg) in
  let rg := {| track_gain := v; track_peak := track_peak rg;
               album_gain := album_gain rg; album_peak := album_peak rg |} in
  let '(track, rg, log) :=
    if 0 <=? r then
      let '(r, v, log) :=
        decode_peak log tags "REPLAYGAIN_TRACK_PEAK" (track_peak rg) in
      (0 <=? r,
       {| track_gain := track_gain rg; track_peak := v;
          album_gain := album_gain rg; album_peak := album_peak rg |}, log)
    else (false, rg, log) in
  if track then
    let '(r, v, log) :=
      decode_gain log tags "REPLAYGAIN_ALBUM_GAIN" (album_gain rg) in
    let rg := {| track_gain := track_gain rg; track_peak := track_peak rg;
                 album_gain := v; album_peak := album_peak rg |} in
    let '(no_album, rg, log) :=
      if r <? 0 then (true, rg, log)
      else
        let '(r, v, log) :=
          decode_peak log tags "REPLAYGAIN_ALBUM_PEAK" (album_peak rg) in
        (r <? 0,
         {| track_gain := track_gain rg; track_peak := track_peak rg;
            album_gain := album_gain rg; album_peak := v |}, log) in
    let rg :=
      if no_album then
        {| track_gain := track_gain rg; track_peak := track_peak rg;
           album_gain := track_gain rg; album_peak := track_peak rg |}
      else rg in
    (Some rg, log)
  else
    let '(r, v, log) :=
      decode_gain log tags "REPLAYGAIN_GAIN" (track_gain rg) in
    let rg := {| track_gain := v; track_peak := track_peak rg;
                 album_gain := album_gain rg;
                 album_peak := album_peak rg |} in
    let '(old, rg, log) :=
      if 0 <=? r then
        let '(r, v, log) :=
          decode_peak log tags "REPLAYGAIN_PEAK" (track_peak rg) in
        (0 <=? r,
         {| track_gain := track_gain rg; track_peak := v;
            album_gain := album_gain rg; album_peak := album_peak rg |},
         log)
      else (false, rg, log) in
    if old then
      (Some {| track_gain := track_gain rg; track_peak := track_peak rg;
               album_gain := track_gain rg; album_peak := track_peak rg |},
       log)
    else (None, log).

(** The body of the loop of [demux_update_replaygain] for one stream;
    [metadata] is [demuxer->metadata]. *)
Definition update_replaygain (metadata : mp_tags)
    (acc : list (sh_stream mp_tags) * list string)
    (sh : sh_stream mp_tags)
  : list (sh_stream mp_tags) * list string :=
  let (done, log) := acc in
  if stream_type_eqb (sh_type sh) STREAM_AUDIO
     && negb (is_some (sh_replaygain_data sh))
  then
    let (rg, log) := decode_rgain log (sh_tags sh) in
    let (rg, log) :=
      match rg with
      | None => decode_rgain log metadata
      | Some _ => (rg, log)
      end in
    (done
     ++ [match rg with
         | Some _ =>
             {| sh_type := sh_type sh; sh_index := sh_index sh;
                sh_ff_index := sh_ff_index sh;
                sh_demuxer_id := sh_demuxer_id sh; sh_tags := sh_tags sh;
                sh_replaygain_data := rg |}
         | None => sh
         end], log)
  else (done ++ [sh], log).

Definition demux_update_replaygain (metadata : mp_tags)
    (streams : list (sh_stream mp_tags)) (log : list string)
  : list (sh_stream mp_tags) * list string :=
  fold_left (update_replaygain metadata) streams ([], log).

(** The gain that the tag [tag] of [tags] gives. *)
Definition tag_gain (tags : mp_tags) (tag : string) : option Q :=
  match mp_tags_get_str tags tag with
  | Some tag_val =>
      match strtod tag_val with
      | Value v => Some v
      | _ => None
      end
  | None => None
  end.

(** The peak that the tag [tag] of [tags] gives: 1 if there is no such
    tag, and none if the tag does not hold a positive number. *)
Definition tag_peak (tags : mp_tags) (tag : string) : option Q :=
  match mp_tags_get_str tags tag with
  | Some tag_val =>
      match strtod tag_val with
      | Value v => if Qle_bool v 0 then None else Some v
      | _ => None
      end
  | None => Some 1%Q
  end.

End Replaygain.

(** Tags as a list of names and values, and a [strtod] that knows three
    numbers. *)
Definition example_tags_get_str (tags : list (string * string))
    (tag : string) : option string :=
  match find (fun kv => String.eqb (fst kv) tag) tags with
  | Some kv => Some (snd kv)
  | None => None
  end.

Definition example_strtod (str : string) : strtod_result :=
  if String.eqb str "-6.5 dB" then Value (- (13 # 2))
  else if String.eqb str "0.9" then Value (9 # 10)
  else if String.eqb str "inf" then NotFinite
  else NoConversion.

(** ** The streams of the demuxer *)

(** [in->streams] with what [demux_add_sh_stream_locked] needs beside it:
    [in->events] and [in->autoselect]. The [demux_stream] of the stream
    with index [n] is the one with index [n] in [in_streams]. *)
Record stream_table (mp_tags : Type) : Type := mk_stream_table {
  tab_streams : list (sh_stream mp_tags);
  tab_events : Z;
  tab_autoselect : bool
}.
Arguments mk_stream_table {mp_tags}.
Arguments tab_streams {mp_tags}.
Arguments tab_events {mp_tags}.
Arguments tab_autoselect {mp_tags}.

Section Streams.

Variable mp_tags : Type.
(** [talloc_zero(sh, struct mp_tags)]. *)
Variable no_tags : mp_tags.
(** demux/demux.h: the event flag. *)
Variable DEMUX_EVENT_STREAMS : Z.

(** Allocate a new sh_stream of the given type. *)
Definition demux_alloc_sh_stream (type : stream_type) : sh_stream mp_tags :=
  {| sh_type := type;
     sh_index := -1;
     sh_ff_index := -1; (* may be overwritten by demuxer *)
     sh_demuxer_id := -1; (* ... same *)
     sh_tags := no_tags;
     sh_replaygain_data := None |}.

(** The loop of [demux_add_sh_stream_locked] that counts the streams of
    the type of the new one. *)
Fixpoint count_type (type : stream_type) (streams : list (sh_stream mp_tags))
    (demuxer_id : Z) : Z :=
  match streams with
  | [] => demuxer_id
  | s :: rest =>
      count_type type rest
        (if stream_type_eqb (sh_type s) type then demuxer_id + 1
         else demuxer_id)
  end.

(** Add a new sh_stream to the demuxer. The stream must not be added
    yet. *)
Definition demux_add_sh_stream_locked
    (in_ : stream_table mp_tags * demux_internal) (sh : sh_stream mp_tags)
  : stream_table mp_tags * demux_internal :=
  let (tab, d) := in_ in
  let ds := new_demux_stream (sh_type sh) (tab_autoselect tab) in
  let index := Z.of_nat (length (tab_streams tab)) in
  let ff_index := if sh_ff_index sh <? 0 then index else sh_ff_index sh in
  let demuxer_id :=
    if sh_demuxer_id sh <? 0
    then count_type (sh_type sh) (tab_streams tab) 0
    else sh_demuxer_id sh in
  let sh :=
    {| sh_type := sh_type sh; sh_index := index; sh_ff_index := ff_index;
       sh_demuxer_id := demuxer_id; sh_tags := sh_tags sh;
       sh_replaygain_data := sh_replaygain_data sh |} in
  let tab :=
    {| tab_streams := tab_streams tab ++ [sh];
       tab_events := Z.lor (tab_events tab) DEMUX_EVENT_STREAMS;
       tab_autoselect := tab_autoselect tab |} in
  let d := set_in_streams (in_streams d ++ [ds]) d in
  (tab, if in_wakeup_cb d then emit EvWakeupCb d else d).

(** For demuxer implementations only. *)
Definition demux_add_sh_stream (in_ : stream_table mp_tags * demux_internal)
    (sh : sh_stream mp_tags) : stream_table mp_tags * demux_internal :=
  let (tab, d) := in_ in
  let (tab, d) := demux_add_sh_stream_locked (tab, emit EvLock d) sh in
  (tab, emit EvUnlock d).

(** The search of [demuxer_stream_by_demuxer_id] in the streams. *)
Definition demuxer_stream_by_demuxer_id (tab : stream_table mp_tags)
    (t : stream_type) (id : Z) : option (sh_stream mp_tags) :=
  find (fun s => stream_type_eqb (sh_type s) t && (sh_demuxer_id s =? id))
    (tab_streams tab).

(** A demuxer adds streams of the types [types], each as
    [demux_alloc_sh_stream] made it. *)
Definition add_streams (types : list stream_type)
    (in_ : stream_table mp_tags * demux_internal)
  : stream_table mp_tags * demux_internal :=
  fold_left
    (fun in_ type => demux_add_sh_stream in_ (demux_alloc_sh_stream type))
    types in_.

(** The number of streams of the type [type]. *)
Definition streams_of_type (type : stream_type)
    (streams : list (sh_stream mp_tags)) : Z :=
  Z.of_nat (length (filter (fun s => stream_type_eqb (sh_type s) type)
                      streams)).

End Streams.

(** The streams are numbered as [demux_add_sh_stream_locked] numbers the
    streams that come without numbers: by position, and among the streams
    of their type. *)
Definition table_ok {mp_tags : Type} (streams : list (sh_stream mp_tags))
  : Prop :=
  forall i s,
    nth_error streams i = Some s ->
    sh_index s = Z.of_nat i /\ sh_ff_index s = Z.of_nat i
    /\ sh_demuxer_id s
       = streams_of_type mp_tags (sh_type s) (firstn i streams).

(** ** The bitrate of a stream *)





(** The cache as [read_packet] leaves it when it reads, the demuxer has
    nothing to give, and no seek was queued meanwhile. *)
Definition read_eof_state (d : demux_internal) : demux_internal :=
  let d := set_in_idle true (set_in_eof false d) in
  let d :=
    emit EvUnlock (set_in_initial_state false (set_in_idle false d)) in
  let d := emit EvLock (update_cache d) in
  let d := set_in_streams (map (set_ds_eof true) (in_streams d)) d in
  let d :=
    if negb (in_last_eof d) then
      let d := if in_wakeup_cb d then emit EvWakeupCb d else d in
      emit (EvLog MSGL_V "EOF reached.") (emit EvCondSignal d)
    else d in
  set_in_last_eof true (set_in_eof true d).

(** [seek_example] after a seek to 20 seconds, which the cache cannot
    serve: the seek is queued for the demuxer thread. *)
Definition queued_seek_example : demux_internal :=
  Eval vm_compute in snd (demux_seek example_desc seek_example 20 SEEK_HR).

(** ** Reading any packet *)

(** The loop of [demux_read_any_packet] over the streams: [k] streams are
    left, the next one has index [n]. *)
Fixpoint read_any_scan (k n : nat) (d : demux_internal)
  : outcome (option demux_packet * demux_internal) :=
  match k with
  | O => Done (None, d)
  | S k =>
      match nth_error (in_streams d) n with
      | None => Done (None, d)
      | Some ds =>
          (* force read_packet() to read *)
          let d := set_stream n (set_ds_active (ds_selected ds) ds) d in
          match dequeue_packet n d with
          | Done (Some pkt, d) => Done (Some pkt, d)
          | Done (None, d) => read_any_scan k (S n) d
          | AssertFail => AssertFail
          | OutOfFuel => OutOfFuel
          end
      end
  end.

(** The outer loop of [demux_read_any_packet]. It runs on fuel: whether it
    ends is up to the demuxer. *)
Fixpoint read_any_loop (desc : demuxer_desc) (fuel : nat)
    (d : demux_internal) : outcome (option demux_packet * demux_internal) :=
  match read_any_scan (length (in_streams d)) 0 d with
  | Done (Some pkt, d) => Done (Some pkt, d)
  | Done (None, d) =>
      (* retry after calling this *)
      let d := emit EvLock d in (* lock only because read_packet unlocks *)
      let (read_more, d) := read_packet desc d in
      let read_more := read_more && negb (in_eof d) in
      let d := emit EvUnlock d in
      if read_more then
        match fuel with
        | O => OutOfFuel
        | S fuel => read_any_loop desc fuel d
        end
      else Done (None, d)
  | AssertFail => AssertFail
  | OutOfFuel => OutOfFuel
  end.

(** Read and return any packet we find. NULL means EOF. *)
Definition demux_read_any_packet (desc : demuxer_desc) (fuel : nat)
    (d : demux_internal) : outcome (option demux_packet * demux_internal) :=
  if in_threading d then AssertFail (* doesn't work with threading *)
  else read_any_loop desc fuel d.

(** Two selected streams read without a demuxer thread: the video stream
    has nothing queued, the audio stream has one packet at 8 seconds. *)
Definition read_any_example : demux_internal :=
  Eval vm_compute in
  without_thread
    (demux_add_packet 1 (example_packet 8 true 100 25)
       (example_cache
          [example_stream STREAM_VIDEO; example_stream STREAM_AUDIO] 1000)).

(** ** Basic facts *)

Lemma Qlt_bool_iff (a b : Q) : Qlt_bool a b = true <-> (a < b)%Q.
Proof.
  unfold Qlt_bool. rewrite negb_true_iff.
  split; intros H.
  - apply Qnot_le_lt. intros Hle. apply Qle_bool_iff in Hle. congruence.
  - destruct (Qle_bool b a) eqn:E; [|reflexivity].
    apply Qle_bool_iff in E. apply Qle_not_lt in E. contradiction.
Qed.

Lemma Qlt_bool_false_iff (a b : Q) : Qlt_bool a b = false <-> (b <= a)%Q.
Proof.
  unfold Qlt_bool. rewrite negb_false_iff. apply Qle_bool_iff.
Qed.

Lemma Qle_bool_false_iff (a b : Q) : Qle_bool a b = false <-> (b < a)%Q.
Proof.
  rewrite <- Qlt_bool_iff. unfold Qlt_bool.
  destruct (Qle_bool a b); simpl; intuition congruence.
Qed.

Lemma Qeq_bool_false_iff (a b : Q) : Qeq_bool a b = false <-> ~ (a == b)%Q.
Proof.
  split.
  - intros H Heq. apply Qeq_bool_iff in Heq. congruence.
  - intros H. destruct (Qeq_bool a b) eqn:E; [|reflexivity].
    apply Qeq_bool_iff in E. contradiction.
Qed.

(** Turn the boolean tests on rationals in the context into propositions. *)
Ltac qprop :=
  repeat match goal with
  | H : Qlt_bool _ _ = true |- _ => apply Qlt_bool_iff in H
  | H : Qlt_bool _ _ = false |- _ => apply Qlt_bool_false_iff in H
  | H : Qle_bool _ _ = true |- _ => apply Qle_bool_iff in H
  | H : Qle_bool _ _ = false |- _ => apply Qle_bool_false_iff in H
  | H : Qeq_bool _ _ = true |- _ => apply Qeq_bool_iff in H
  | H : Qeq_bool _ _ = false |- _ => apply Qeq_bool_false_iff in H
  end.

Lemma to_size_t_range (z : Z) : 0 <= to_size_t z < size_t_modulus.
Proof. unfold to_size_t. apply Z.mod_pos_bound. reflexivity. Qed.

Lemma to_size_t_small (z : Z) : 0 <= z < size_t_modulus -> to_size_t z = z.
Proof. intros H. unfold to_size_t. apply Z.mod_small. exact H. Qed.

Lemma to_size_t_idem (z : Z) : to_size_t (to_size_t z) = to_size_t z.
Proof. unfold to_size_t. apply Z.mod_mod. discriminate. Qed.

Lemma to_size_t_add_l (a b : Z) : to_size_t (to_size_t a + b) = to_size_t (a + b).
Proof. unfold to_size_t. apply Zplus_mod_idemp_l. Qed.

Lemma to_size_t_add_r (a b : Z) : to_size_t (a + to_size_t b) = to_size_t (a + b).
Proof. unfold to_size_t. apply Zplus_mod_idemp_r. Qed.

Lemma to_size_t_sub_l (a b : Z) : to_size_t (to_size_t a - b) = to_size_t (a - b).
Proof. unfold to_size_t. apply Zminus_mod_idemp_l. Qed.

Lemma to_size_t_sub_r (a b : Z) : to_size_t (a - to_size_t b) = to_size_t (a - b).
Proof. unfold to_size_t. apply Zminus_mod_idemp_r. Qed.

Lemma length_list_set {A : Type} (n : nat) (x : A) (l : list A) :
  length (list_set n x l) = length l.
Proof.
  revert n. induction l as [|h t IH]; intros [|n]; simpl; auto.
Qed.

Lemma nth_error_list_set_eq {A : Type} (n : nat) (x y : A) (l : list A) :
  nth_error l n = Some y -> nth_error (list_set n x l) n = Some x.
Proof.
  revert n. induction l as [|h t IH]; intros [|n]; simpl; try discriminate; auto.
Qed.

Lemma nth_error_list_set_neq {A : Type} (n m : nat) (x : A) (l : list A) :
  n <> m -> nth_error (list_set n x l) m = nth_error l m.
Proof.
  revert n m. induction l as [|h t IH]; intros [|n] [|m] Hnm; simpl;
    try reflexivity; try contradiction.
  apply IH. congruence.
Qed.

Lemma list_set_same {A : Type} (n : nat) (x : A) (l : list A) :
  nth_error l n = Some x -> list_set n x l = l.
Proof.
  revert n. induction l as [|h t IH]; intros [|n]; simpl; try discriminate.
  - intros [= ->]. reflexivity.
  - intros H. f_equal. auto.
Qed.

(** Unfold the accessors and the field updates of the three records; on a
    record that is a constructor this computes the fields. *)
Ltac record_cbv :=
  cbv beta iota zeta delta
    [
       dp_len dp_pts dp_dts dp_pos dp_keyframe dp_segmented dp_start
       dp_end dp_stream dp_total_size ds_type ds_attached_picture
       ds_selected ds_active ds_eof ds_need_refresh ds_refreshing
       ds_correct_dts ds_correct_pos ds_fw_packs ds_fw_bytes ds_bw_bytes
       ds_last_pos ds_last_dts ds_last_ts ds_back_pts ds_queue
       ds_base_ts ds_last_br_ts ds_last_br_bytes ds_bitrate
       ds_reader_head ds_skip_to_keyframe ds_attached_picture_added
       ds_ignore_eof in_streams in_wakeup_cb in_threading
       in_warned_queue_overflow in_last_eof in_eof in_idle in_min_secs
       in_max_bytes in_max_bytes_bw in_seekable_cache in_initial_state
       in_tracks_switched in_seeking in_seek_flags in_seek_pts
       in_ref_pts in_ts_offset d_thread_seekable
       d_thread_partially_seekable d_user_seekable d_user_filepos
       in_trace set_dp_pts set_dp_dts set_dp_start set_dp_end
       set_dp_stream set_ds_selected set_ds_active set_ds_eof
       set_ds_need_refresh set_ds_refreshing set_ds_correct_dts
       set_ds_correct_pos set_ds_fw_packs set_ds_fw_bytes
       set_ds_bw_bytes set_ds_last_pos set_ds_last_dts set_ds_last_ts
       set_ds_back_pts set_ds_queue set_ds_base_ts set_ds_last_br_ts
       set_ds_last_br_bytes set_ds_bitrate set_ds_reader_head
       set_ds_skip_to_keyframe set_ds_attached_picture_added
       set_in_streams set_in_warned_queue_overflow set_in_last_eof
       set_in_eof set_in_idle set_in_initial_state set_in_seeking
       set_in_seek_flags set_in_seek_pts set_d_user_filepos set_in_trace
       emit set_stream ].

(** ** The scenarios of the spec, run on the model *)

(** S2: with a back-buffer limit of 150 bytes, the second dequeue prunes
    the first of three 100-byte keyframes. *)
Example scenario_backbuffer_prune :
  match dequeue_packets [0; 0]%nat prune_example with
  | Done d =>
      map (fun ds => (ds_bw_bytes ds, ds_back_pts ds, ds_fw_packs ds,
                      map dp_pts (ds_queue ds))) (in_streams d)
  | _ => []
  end = [(100, 1%Q, 1, [1%Q; 2%Q])].
Proof. vm_compute. reflexivity. Qed.

(** S3: the refresh seek goes one second back from the reader and marks
    the video stream, which has seen packets, as refreshing. *)
Example scenario_refresh_seek :
  fst (get_refresh_seek_pts example_desc switch_example) = 4%Q
  /\ map ds_refreshing (in_streams refresh_example) = [true; false].
Proof. split; vm_compute; reflexivity. Qed.

(** S4 and S5: a seek to 3 seconds is served from the cache, one to 20
    seconds is not. *)
Example scenario_cache_seek :
  fst (try_seek_cache seek_example 3 SEEK_HR) = true
  /\ fst (try_seek_cache seek_example 20 SEEK_HR) = false
  /\ in_seeking (snd (demux_seek example_desc seek_example 20 SEEK_HR))
     = true.
Proof. repeat split; vm_compute; reflexivity. Qed.

(** ** Seeking to no position *)

(** C9: [demux_seek] with [seek_pts == MP_NOPTS_VALUE] returns 0. On a
    seekable demuxer the cache comes back as it was, trace included: no
    queue is cleared, no seek is queued, the lock is not taken and nobody
    is signalled. (On a demuxer that is not seekable the function has
    returned 0 before, after a warning.) *)
Theorem demux_seek_nopts (desc : demuxer_desc) (d : demux_internal)
    (seek_pts : Q) (flags : Z) :
  (seek_pts == MP_NOPTS_VALUE)%Q ->
  demux_seek desc d seek_pts flags
  = (0, if d_user_seekable d then d
        else emit (EvLog MSGL_WARN "Cannot seek in this file.") d).
Proof.
  intros H. apply Qeq_bool_iff in H.
  unfold demux_seek. rewrite H. destruct (d_user_seekable d); reflexivity.
Qed.

Lemma demux_seek_nopts_witness :
  demux_seek example_desc seek_example MP_NOPTS_VALUE SEEK_HR
  = (0, seek_example).
Proof.
  apply (demux_seek_nopts example_desc seek_example MP_NOPTS_VALUE SEEK_HR).
  reflexivity.
Defined.

Ltac split_ifs :=
  repeat match goal with
         | |- context [if ?c then _ else _] => destruct c eqn:?; cbv beta iota
         end.

Lemma append_packet_queue (stream : nat) (dp : demux_packet)
    (ds : demux_stream) :
  ds_queue (append_packet stream dp ds)
  = ds_queue ds ++ [queued_packet stream (ds_type ds) dp].
Proof.
  destruct ds, dp. reflexivity.
Qed.

(** ** Packets that arrive during a refresh *)

Lemma stream_at_add_packet_dropped (stream : nat) (dp : demux_packet)
    (d : demux_internal) (ds : demux_stream) :
  stream_at d stream = Some ds ->
  negb (ds_selected ds) || ds_need_refresh ds || in_seeking d
  || ds_refreshing ds = true ->
  in_streams (demux_add_packet stream dp d)
  = list_set stream (refresh_test dp ds) (in_streams d).
Proof.
  unfold stream_at, demux_add_packet. intros -> Hdrop. cbv zeta.
  change (negb (ds_selected (refresh_test dp ds))
          || ds_need_refresh (refresh_test dp ds)
          || in_seeking (emit EvLock d) || ds_refreshing ds)
    with (negb (ds_selected ds) || ds_need_refresh ds || in_seeking d
          || ds_refreshing ds).
  rewrite Hdrop. reflexivity.
Qed.

Lemma stream_at_add_packet_queued (stream : nat) (dp : demux_packet)
    (d : demux_internal) (ds : demux_stream) :
  stream_at d stream = Some ds ->
  negb (ds_selected ds) || ds_need_refresh ds || in_seeking d
  || ds_refreshing ds = false ->
  in_streams (demux_add_packet stream dp d)
  = list_set stream (append_packet stream dp ds) (in_streams d).
Proof.
  unfold stream_at, demux_add_packet. intros -> Hdrop. cbv zeta.
  change (negb (ds_selected (refresh_test dp ds))
          || ds_need_refresh (refresh_test dp ds)
          || in_seeking (emit EvLock d) || ds_refreshing ds)
    with (negb (ds_selected ds) || ds_need_refresh ds || in_seeking d
          || ds_refreshing ds).
  rewrite Hdrop.
  apply orb_false_iff in Hdrop. destruct Hdrop as [_ Hr].
  assert (E : refresh_test dp ds = ds).
  { destruct ds. simpl in Hr. subst. reflexivity. }
  rewrite E. reflexivity.
Qed.

Lemma add_packet_other_stream (stream n : nat) (dp : demux_packet)
    (d : demux_internal) :
  n <> stream ->
  stream_at (demux_add_packet stream dp d) n = stream_at d n.
Proof.
  intros Hn. unfold stream_at.
  destruct (nth_error (in_streams d) stream) as [ds|] eqn:E.
  - destruct (negb (ds_selected ds) || ds_need_refresh ds || in_seeking d
              || ds_refreshing ds) eqn:C.
    + rewrite (stream_at_add_packet_dropped _ _ _ _ E C).
      apply nth_error_list_set_neq. congruence.
    + rewrite (stream_at_add_packet_queued _ _ _ _ E C).
      apply nth_error_list_set_neq. congruence.
  - unfold demux_add_packet. rewrite E. reflexivity.
Qed.

(** C1, as the code has it: a packet that arrives while [refreshing] is
    set is always dropped, also at or after the resume point. It decides
    whether the refresh goes on: with [correct_dts], [refreshing] stays
    set iff [dp.dts < last_dts]; else with [correct_pos], iff
    [dp.pos < last_pos]; else it is cleared. A packet for a selected
    stream that is not refreshing (and has no [need_refresh], with no seek
    queued) is appended. *)
Theorem add_packet_while_refreshing (stream : nat) (dp : demux_packet)
    (d : demux_internal) (ds : demux_stream) :
  stream_at d stream = Some ds ->
  exists ds',
    stream_at (demux_add_packet stream dp d) stream = Some ds'
    /\ (ds_refreshing ds = true ->
        ds_queue ds' = ds_queue ds
        /\ (ds_correct_dts ds = true ->
            (ds_refreshing ds' = true <-> (dp_dts dp < ds_last_dts ds)%Q))
        /\ (ds_correct_dts ds = false -> ds_correct_pos ds = true ->
            (ds_refreshing ds' = true <-> dp_pos dp < ds_last_pos ds))
        /\ (ds_correct_dts ds = false -> ds_correct_pos ds = false ->
            ds_refreshing ds' = false))
    /\ (ds_refreshing ds = false -> ds_selected ds = true ->
        ds_need_refresh ds = false -> in_seeking d = false ->
        ds_queue ds'
        = ds_queue ds ++ [queued_packet stream (ds_type ds) dp]).
Proof.
  intros Hds.
  destruct (ds_refreshing ds) eqn:Hr.
  - exists (refresh_test dp ds).
    assert (Hdrop : negb (ds_selected ds) || ds_need_refresh ds
                    || in_seeking d || ds_refreshing ds = true)
      by (rewrite Hr; apply orb_true_r).
    unfold stream_at.
    rewrite (stream_at_add_packet_dropped _ dp _ _ Hds Hdrop).
    split; [eapply nth_error_list_set_eq; exact Hds|].
    split; [|discriminate].
    intros _.
    change (ds_queue (refresh_test dp ds)) with (ds_queue ds).
    change (ds_refreshing (refresh_test dp ds))
      with (if ds_refreshing ds then refresh_continues ds dp
            else ds_refreshing ds).
    rewrite Hr. unfold refresh_continues.
    split; [reflexivity|]. split; [|split].
    + intros Hc. rewrite Hc. apply Qlt_bool_iff.
    + intros Hc Hp. rewrite Hc, Hp. apply Z.ltb_lt.
    + intros Hc Hp. rewrite Hc, Hp. reflexivity.
  - destruct (negb (ds_selected ds) || ds_need_refresh ds || in_seeking d)
      eqn:C.
    + exists (refresh_test dp ds).
      assert (Hdrop : negb (ds_selected ds) || ds_need_refresh ds
                      || in_seeking d || ds_refreshing ds = true)
        by (rewrite C; reflexivity).
      unfold stream_at.
      rewrite (stream_at_add_packet_dropped _ dp _ _ Hds Hdrop).
      split; [eapply nth_error_list_set_eq; exact Hds|].
      split; [discriminate|].
      intros _ Hs Hn Hk. rewrite Hs, Hn, Hk in C. discriminate.
    + exists (append_packet stream dp ds).
      assert (Hq : negb (ds_selected ds) || ds_need_refresh ds
                   || in_seeking d || ds_refreshing ds = false)
        by (rewrite C, Hr; reflexivity).
      unfold stream_at.
      rewrite (stream_at_add_packet_queued _ dp _ _ Hds Hq).
      split; [eapply nth_error_list_set_eq; exact Hds|].
      split; [discriminate|].
      intros _ _ _ _. apply append_packet_queue.
Qed.

Lemma add_packet_while_refreshing_witness :
  exists ds',
    stream_at (demux_add_packet 0 (example_packet 5 true 100 50)
                 refresh_example) 0 = Some ds'
    /\ ds_queue ds' = ds_queue refresh_example_video
    /\ ds_refreshing ds' = false.
Proof.
  assert (E : stream_at refresh_example 0 = Some refresh_example_video)
    by (vm_compute; reflexivity).
  destruct (add_packet_while_refreshing 0 (example_packet 5 true 100 50)
              refresh_example refresh_example_video E)
    as [ds' [H1 [H2 _]]].
  exists ds'. split; [exact H1|].
  destruct (H2 eq_refl) as [Hq [Hd _]].
  split; [exact Hq|].
  destruct (ds_refreshing ds'); [|reflexivity].
  exfalso. pose proof (proj1 (Hd eq_refl) eq_refl) as C.
  vm_compute in C. discriminate.
Defined.

Lemma refreshing_drops_packet_at_resume_point :
  ~ dropped_iff_before_resume refresh_example 0 (example_packet 5 true 100 50).
Proof.
  intros H.
  assert (E : stream_at refresh_example 0 = Some refresh_example_video)
    by (vm_compute; reflexivity).
  eassert (E' : stream_at (demux_add_packet 0 (example_packet 5 true 100 50)
                             refresh_example) 0 = Some _)
    by (vm_compute; reflexivity).
  destruct (H _ _ E E' eq_refl eq_refl) as [H1 _].
  specialize (H1 eq_refl). vm_compute in H1. discriminate.
Qed.

(** ** The timestamp of the last packet *)

Lemma append_packet_last_ts (stream : nat) (dp : demux_packet)
    (ds : demux_stream) :
  ds_last_ts (append_packet stream dp ds)
  = let ts := packet_queue_ts (queued_packet stream (ds_type ds) dp) in
    if negb (Qeq_bool ts MP_NOPTS_VALUE)
       && (Qlt_bool (ds_last_ts ds) ts || Qlt_bool (ts + 10) (ds_last_ts ds))
    then ts else ds_last_ts ds.
Proof.
  destruct ds, dp. reflexivity.
Qed.

Lemma app_singleton_inv {A : Type} (l : list A) (x y : A) :
  l ++ [x] = l ++ [y] -> x = y.
Proof.
  intros H. apply app_inv_head in H. congruence.
Qed.

Lemma list_neq_app_singleton {A : Type} (l : list A) (x : A) :
  l <> l ++ [x].
Proof.
  intros H. apply (f_equal (@length A)) in H.
  rewrite length_app in H. simpl in H. lia.
Qed.

(** C8, as the code has it: a call of [demux_add_packet] leaves [last_ts]
    of every stream as it was, unless it queues a packet whose timestamp
    [ts] (DTS, else PTS, clamped to the end of its segment) is known and
    lies above [last_ts] or more than 10 seconds below it; in both cases
    [last_ts] becomes [ts]. So [last_ts] never decreases but for a reset,
    and a packet queued more than 10 seconds below [last_ts] always resets
    it. *)
Theorem last_ts_step (stream : nat) (dp : demux_packet) (d : demux_internal)
    (n : nat) (ds ds' : demux_stream) :
  stream_at d n = Some ds ->
  stream_at (demux_add_packet stream dp d) n = Some ds' ->
  (ds_last_ts ds' = ds_last_ts ds
   \/ exists dp',
        ds_queue ds' = ds_queue ds ++ [dp']
        /\ ds_last_ts ds' = packet_queue_ts dp'
        /\ ~ (packet_queue_ts dp' == MP_NOPTS_VALUE)%Q
        /\ ((ds_last_ts ds < packet_queue_ts dp')%Q
            \/ (packet_queue_ts dp' + 10 < ds_last_ts ds)%Q))
  /\ (forall dp',
        ds_queue ds' = ds_queue ds ++ [dp'] ->
        ~ (packet_queue_ts dp' == MP_NOPTS_VALUE)%Q ->
        (packet_queue_ts dp' + 10 < ds_last_ts ds)%Q ->
        ds_last_ts ds' = packet_queue_ts dp').
Proof.
  intros Hds Hds'.
  destruct (Nat.eq_dec n stream) as [->|Hn].
  2:{ rewrite add_packet_other_stream in Hds' by exact Hn.
      assert (ds' = ds) by congruence. subst ds'.
      split; [left; reflexivity|].
      intros dp' Hq. exfalso. exact (list_neq_app_singleton _ _ Hq). }
  destruct (negb (ds_selected ds) || ds_need_refresh ds || in_seeking d
            || ds_refreshing ds) eqn:C.
  - unfold stream_at in Hds'.
    rewrite (stream_at_add_packet_dropped _ dp _ _ Hds C) in Hds'.
    rewrite (nth_error_list_set_eq _ _ _ _ Hds) in Hds'.
    assert (ds' = refresh_test dp ds) by congruence. subst ds'.
    split.
    + left. reflexivity.
    + intros dp' Hq'. exfalso. exact (list_neq_app_singleton _ _ Hq').
  - unfold stream_at in Hds'.
    rewrite (stream_at_add_packet_queued _ dp _ _ Hds C) in Hds'.
    rewrite (nth_error_list_set_eq _ _ _ _ Hds) in Hds'.
    assert (ds' = append_packet stream dp ds) by congruence. subst ds'.
    rewrite append_packet_last_ts, append_packet_queue. cbv zeta.
    set (dq := queued_packet stream (ds_type ds) dp).
    split.
    + destruct (negb (Qeq_bool (packet_queue_ts dq) MP_NOPTS_VALUE)
                && (Qlt_bool (ds_last_ts ds) (packet_queue_ts dq)
                    || Qlt_bool (packet_queue_ts dq + 10) (ds_last_ts ds)))
        eqn:T; [|left; reflexivity].
      right. exists dq.
      apply andb_true_iff in T. destruct T as [T1 T2].
      apply negb_true_iff in T1. apply orb_true_iff in T2.
      qprop. repeat split; try assumption.
      destruct T2 as [T2|T2]; qprop; auto.
    + intros dp' Hq Hts Hlow. apply app_singleton_inv in Hq. subst dp'.
      apply Qeq_bool_false_iff in Hts. apply Qlt_bool_iff in Hlow.
      rewrite Hts, Hlow. simpl. rewrite orb_true_r. reflexivity.
Qed.

Lemma last_ts_step_witness :
  exists ds',
    stream_at (demux_add_packet 0 (example_packet 5 true 100 5)
                 reset_example) 0 = Some ds'
    /\ (ds_last_ts ds' == 5)%Q.
Proof.
  assert (E : stream_at reset_example 0 = Some reset_example_video)
    by (vm_compute; reflexivity).
  eassert (E' : stream_at (demux_add_packet 0 (example_packet 5 true 100 5)
                             reset_example) 0 = Some _)
    by (vm_compute; reflexivity).
  eexists. split; [exact E'|].
  destruct (last_ts_step 0 (example_packet 5 true 100 5) reset_example 0
              _ _ E E') as [_ H].
  rewrite (H (queued_packet 0 STREAM_VIDEO (example_packet 5 true 100 5))).
  - reflexivity.
  - reflexivity.
  - intros C. vm_compute in C. discriminate.
  - vm_compute. reflexivity.
Defined.

Lemma last_ts_kept_at_ten_seconds :
  ~ reset_at_ten_seconds reset_example 0 (example_packet 10 true 100 20).
Proof.
  intros H.
  assert (E : stream_at reset_example 0 = Some reset_example_video)
    by (vm_compute; reflexivity).
  eassert (E' : stream_at (demux_add_packet 0 (example_packet 10 true 100 20)
                             reset_example) 0 = Some _)
    by (vm_compute; reflexivity).
  specialize (H _ _ (queued_packet 0 STREAM_VIDEO
                       (example_packet 10 true 100 20)) E E' eq_refl).
  assert (N : ~ (packet_queue_ts
                    (queued_packet 0 STREAM_VIDEO
                       (example_packet 10 true 100 20))
                  == MP_NOPTS_VALUE)%Q)
    by (intros C; vm_compute in C; discriminate).
  assert (L : (packet_queue_ts
                 (queued_packet 0 STREAM_VIDEO
                    (example_packet 10 true 100 20)) + 10
               <= ds_last_ts reset_example_video)%Q)
    by (vm_compute; discriminate).
  specialize (H N L). vm_compute in H. discriminate H.
Qed.

(** ** The reported duration *)

Lemma reader_scan_any_packets (streams : list demux_stream)
    (a : reader_scan) :
  rs_any_packets (fold_left reader_scan_step streams a)
  = rs_any_packets a || existsb holds_packet streams.
Proof.
  revert a. induction streams as [|ds rest IH]; intros a.
  - simpl. symmetry. apply orb_false_r.
  - simpl. rewrite IH. unfold reader_scan_step, holds_packet.
    destruct (contributes ds); simpl.
    + rewrite orb_assoc. reflexivity.
    + reflexivity.
Qed.

(** C7, as the code has it: [ts_duration] is 0 whenever a seek is queued or
    no contributing queue holds a packet. Otherwise it is
    [ts_max - ts_reader], which is not negative, when [ts_reader] is known
    and [ts_reader <= ts_max], and it is -1 (unknown) when [ts_reader] is
    unknown or lies above [ts_max]. *)
Theorem reader_state_ts_duration (d : demux_internal) :
  let r := cached_demux_control_reader_state d in
  (in_seeking d = true \/ existsb holds_packet (in_streams d) = false ->
   r_ts_duration r = 0%Q)
  /\ (in_seeking d = false -> existsb holds_packet (in_streams d) = true ->
      (~ (r_ts_reader r == MP_NOPTS_VALUE)%Q ->
       (r_ts_reader r <= r_ts_end r)%Q ->
       r_ts_duration r = (r_ts_end r - r_ts_reader r)%Q
       /\ (0 <= r_ts_duration r)%Q)
      /\ ((r_ts_reader r == MP_NOPTS_VALUE)%Q
          \/ (r_ts_end r < r_ts_reader r)%Q ->
          r_ts_duration r = (-1)%Q)).
Proof.
  unfold cached_demux_control_reader_state. cbv zeta.
  cbn [r_ts_duration r_ts_reader r_ts_end].
  rewrite reader_scan_any_packets. cbn [rs_any_packets orb].
  set (a := fold_left reader_scan_step (in_streams d) _).
  set (ts_reader := MP_ADD_PTS (rs_ts_reader a) (in_ts_offset d)).
  set (ts_max := MP_ADD_PTS (rs_ts_max a) (in_ts_offset d)).
  split.
  - intros [Hs|Hp].
    + rewrite Hs. reflexivity.
    + rewrite Hp. rewrite orb_true_r. reflexivity.
  - intros Hs Hp. rewrite Hs, Hp. cbn [negb orb].
    split.
    + intros Hn Hle.
      apply Qeq_bool_false_iff in Hn. rewrite Hn.
      pose proof Hle as Hle'. apply Qle_bool_iff in Hle'. rewrite Hle'.
      cbn [negb andb]. split; [reflexivity|lra].
    + intros [Hn|Hlt].
      * apply Qeq_bool_iff in Hn. rewrite Hn. reflexivity.
      * apply Qle_bool_false_iff in Hlt. rewrite Hlt.
        rewrite andb_false_r. reflexivity.
Qed.

Lemma reader_state_ts_duration_witness :
  r_ts_duration (cached_demux_control_reader_state duration_example)
  = (-1)%Q.
Proof.
  destruct (reader_state_ts_duration duration_example) as [_ H].
  destruct (H eq_refl eq_refl) as [_ H'].
  apply H'. right. vm_compute. reflexivity.
Defined.

Lemma duration_unknown_when_reader_is_ahead :
  ~ duration_is_clamped_difference duration_example.
Proof.
  intros H.
  assert (C : (r_ts_duration
                 (cached_demux_control_reader_state duration_example)
               == 0)%Q).
  { rewrite (H eq_refl eq_refl).
    - vm_compute. reflexivity.
    - intros C. vm_compute in C. discriminate.
    - intros C. vm_compute in C. discriminate. }
  vm_compute in C. discriminate.
Qed.

(** ** The forward cap *)

Lemma read_scan_bytes (min_secs : Q) (streams : list demux_stream)
    (active read_more : bool) (bytes : Z) :
  snd (read_scan min_secs streams active read_more (to_size_t bytes))
  = to_size_t (bytes + fold_right (fun ds a => ds_fw_bytes ds + a) 0 streams).
Proof.
  revert active read_more bytes.
  induction streams as [|ds rest IH]; intros active read_more bytes.
  - simpl. rewrite Z.add_0_r. reflexivity.
  - cbn [read_scan fold_right]. cbv zeta.
    rewrite to_size_t_add_l.
    match goal with
    | |- snd (read_scan _ _ ?a ?r _) = _ => rewrite (IH a r)
    end.
    f_equal. lia.
Qed.

Lemma overflow_eof_loop_spec (wakeup_cb : bool)
    (streams : list demux_stream) (trace : list event) :
  fst (overflow_eof_loop wakeup_cb streams trace) = map eof_if_empty streams
  /\ exists evs,
       snd (overflow_eof_loop wakeup_cb streams trace) = evs ++ trace
       /\ Forall (fun e => e = EvWakeupCb) evs.
Proof.
  revert trace. induction streams as [|ds rest IH]; intros trace.
  - split; [reflexivity|]. exists []. split; [reflexivity|constructor].
  - cbn [overflow_eof_loop]. cbv zeta.
    match goal with
    | |- context [overflow_eof_loop wakeup_cb rest ?t] =>
        destruct (IH t) as [IH1 [evs [IH2 IH3]]];
        destruct (overflow_eof_loop wakeup_cb rest t) as [rest' trace']
    end.
    cbn [fst snd] in *. subst rest' trace'.
    split; [reflexivity|].
    destruct (negb (is_some (ds_reader_head ds)) && negb (ds_eof ds)
              && wakeup_cb).
    + exists (evs ++ [EvWakeupCb]). rewrite <- app_assoc.
      split; [reflexivity|].
      apply Forall_app. split; [exact IH3|]. constructor; [reflexivity|constructor].
    + exists evs. split; [reflexivity|exact IH3].
Qed.

Lemma overflow_warn_loop_spec (streams : list demux_stream)
    (trace : list event) :
  exists evs,
    overflow_warn_loop streams trace = evs ++ trace
    /\ Forall (fun e => exists msg, e = EvLog MSGL_WARN msg) evs.
Proof.
  revert trace. induction streams as [|ds rest IH]; intros trace.
  - exists []. split; [reflexivity|constructor].
  - cbn [overflow_warn_loop]. destruct (ds_selected ds).
    + destruct (IH (EvLog MSGL_WARN "  %s/%d: %zd packets, %zd bytes" :: trace))
        as [evs [E F]].
      exists (evs ++ [EvLog MSGL_WARN "  %s/%d: %zd packets, %zd bytes"]).
      rewrite <- app_assoc. split; [exact E|].
      apply Forall_app. split; [exact F|].
      constructor; [eexists; reflexivity|constructor].
    + apply IH.
Qed.

Lemma read_packet_overflow_eq (desc : demuxer_desc) (d : demux_internal) :
  to_size_t (in_max_bytes d) <= forward_bytes (in_streams d) ->
  read_packet desc d
  = (false, queue_overflow (set_in_idle true (set_in_eof false d))).
Proof.
  intros Hcap.
  pose proof (read_scan_bytes (in_min_secs d) (in_streams d) false false 0)
    as Hb.
  change (to_size_t 0) with 0 in Hb. rewrite Z.add_0_l in Hb.
  fold (forward_bytes (in_streams d)) in Hb.
  cbv delta [read_packet]. cbv beta zeta.
  change (in_min_secs (set_in_idle true (set_in_eof false d)))
    with (in_min_secs d).
  change (in_streams (set_in_idle true (set_in_eof false d)))
    with (in_streams d).
  change (in_max_bytes (set_in_idle true (set_in_eof false d)))
    with (in_max_bytes d).
  destruct (read_scan (in_min_secs d) (in_streams d) false false 0)
    as [[active read_more] bytes].
  cbn [snd] in Hb. subst bytes.
  apply Z.leb_le in Hcap. rewrite Hcap. reflexivity.
Qed.

(** C5: when the forward bytes of all streams, summed, reach [max_bytes],
    [read_packet] returns false and reads nothing: the result does not
    depend on the demuxer, and all it does to the outside is to warn, to
    call the wakeup callback and, last, to signal the condition. Every
    stream without [reader_head] comes out with [eof] set and nothing else
    changed. The warning is logged if and only if
    [warned_queue_overflow] was not set, and it is set afterwards. *)
Theorem read_packet_overflow (desc : demuxer_desc) (d : demux_internal) :
  to_size_t (in_max_bytes d) <= forward_bytes (in_streams d) ->
  fst (read_packet desc d) = false
  /\ in_streams (snd (read_packet desc d)) = map eof_if_empty (in_streams d)
  /\ in_warned_queue_overflow (snd (read_packet desc d)) = true
  /\ (exists evs,
        in_trace (snd (read_packet desc d))
        = EvCondSignal :: evs ++ in_trace d
        /\ Forall is_overflow_event evs
        /\ (in_warned_queue_overflow d = true ->
            forall msg, ~ In (EvLog MSGL_WARN msg) evs)
        /\ (in_warned_queue_overflow d = false -> In overflow_header evs))
  /\ (forall desc', read_packet desc' d = read_packet desc d).
Proof.
  intros Hcap.
  split; [rewrite (read_packet_overflow_eq desc d Hcap); reflexivity|].
  split; [|split; [|split]].
  4:{ intros desc'. rewrite !read_packet_overflow_eq by exact Hcap.
      reflexivity. }
  all: rewrite (read_packet_overflow_eq desc d Hcap); cbn [snd];
    destruct d as [streams wakeup_cb threading warned last_eof eof idle
                   min_secs max_bytes max_bytes_bw seekable_cache
                   initial_state tracks_switched seeking seek_flags seek_pts
                   ref_pts ts_offset thread_seekable partially user_seekable
                   filepos trace];
    cbv delta [queue_overflow]; record_cbv;
    destruct (overflow_warn_loop_spec streams (overflow_header :: trace))
      as [wevs [Ew Fw]];
    fold overflow_header; rewrite Ew; clear Ew;
    destruct warned; cbn [negb];
    match goal with
    | |- context [overflow_eof_loop ?w ?s ?t] =>
        destruct (overflow_eof_loop_spec w s t) as [E1 [evs [E2 F]]];
        destruct (overflow_eof_loop w s t) as [streams' trace']
    end;
    cbn [fst snd] in *; subst streams' trace'.
  - reflexivity.
  - reflexivity.
  - reflexivity.
  - reflexivity.
  - exists evs. repeat split.
    + eapply Forall_impl; [|exact F]. intros e ->. right; left; reflexivity.
    + intros _ msg Hin.
      rewrite Forall_forall in F. apply F in Hin. discriminate.
    + discriminate.
  - exists (evs ++ wevs ++ [overflow_header]). repeat split.
    + rewrite <- !app_assoc. reflexivity.
    + apply Forall_app. split.
      * eapply Forall_impl; [|exact F]. intros e ->. right; left; reflexivity.
      * apply Forall_app. split.
        -- eapply Forall_impl; [|exact Fw]. intros e H. right; right. exact H.
        -- constructor; [|constructor].
           right; right. eexists. reflexivity.
    + discriminate.
    + intros _. apply in_or_app. right. apply in_or_app. right.
      left. reflexivity.
Qed.

Lemma read_packet_overflow_witness :
  fst (read_packet example_desc overflow_example) = false
  /\ map ds_eof (in_streams (snd (read_packet example_desc overflow_example)))
     = [false; true].
Proof.
  assert (H : to_size_t (in_max_bytes overflow_example)
              <= forward_bytes (in_streams overflow_example))
    by (vm_compute; discriminate).
  destruct (read_packet_overflow example_desc overflow_example H)
    as [H1 [H2 _]].
  split; [exact H1|]. rewrite H2. vm_compute. reflexivity.
Defined.

(** ** The refresh seek *)

Lemma refresh_scan_spec (streams : list demux_stream) (start_ts : Q)
    (needed normal_seek possible : bool) :
  refresh_scan streams start_ts needed normal_seek possible
  = ((fold_left
        (fun ts ds =>
           if ds_selected ds
              && (stream_type_eqb (ds_type ds) STREAM_VIDEO
                  || stream_type_eqb (ds_type ds) STREAM_AUDIO)
           then MP_PTS_MIN ts (ds_base_ts ds) else ts) streams start_ts,
      needed || refresh_needed streams,
      normal_seek && refresh_normal_seek streams,
      possible && refresh_possible streams),
     map clear_need_refresh streams).
Proof.
  revert start_ts needed normal_seek possible.
  induction streams as [|ds rest IH];
    intros start_ts needed normal_seek possible.
  - cbn. rewrite orb_false_r, !andb_true_r. reflexivity.
  - cbn [refresh_scan]. cbv zeta. rewrite !IH.
    unfold clear_need_refresh.
    cbn [fold_left map refresh_needed refresh_normal_seek refresh_possible
         existsb forallb].
    destruct (ds_selected ds); cbn [negb andb orb].
    + rewrite !orb_assoc, !andb_assoc. reflexivity.
    + reflexivity.
Qed.

Lemma map_refreshing_clear (streams : list demux_stream) :
  map ds_refreshing (map clear_need_refresh streams)
  = map ds_refreshing streams.
Proof.
  rewrite map_map. apply map_ext. intros ds.
  unfold clear_need_refresh. destruct (ds_selected ds); reflexivity.
Qed.

Lemma map_refreshing_mark (streams : list demux_stream) :
  map ds_refreshing (map mark_refreshing (map clear_need_refresh streams))
  = map (fun ds => ds_refreshing ds || (ds_selected ds && seen_packets ds))
      streams.
Proof.
  rewrite !map_map. apply map_ext. intros ds.
  unfold clear_need_refresh, mark_refreshing.
  destruct ds as [t pic sel act eof nr refr cd cp fp fb bb lp ld lt bp q
                  bt lbt lbb br rh sk apa ie].
  destruct sel; cbn; unfold seen_packets; cbn;
    destruct (negb (lp =? -1) || negb (Qeq_bool ld MP_NOPTS_VALUE));
    destruct refr; reflexivity.
Qed.

(** C6: [get_refresh_seek_pts] returns NOPTS when no selected stream has
    [need_refresh], when [start_ts] is NOPTS, or when the demuxer cannot
    seek (no seek entry point, not seekable, or only partially seekable).
    Otherwise, when all selected streams have [need_refresh], it returns
    [start_ts]; else, when every selected stream has [correct_dts] or
    [correct_pos], it sets [refreshing] on the selected streams that have
    seen packets and returns [start_ts - 1]; else it returns NOPTS. Only
    in the third case does [refreshing] change. *)
Theorem refresh_seek_pts_cases (desc : demuxer_desc) (d : demux_internal) :
  let pts := fst (get_refresh_seek_pts desc d) in
  let d' := snd (get_refresh_seek_pts desc d) in
  let start_ts := refresh_start_ts d in
  let streams := in_streams d in
  let unchanged := map ds_refreshing (in_streams d')
                   = map ds_refreshing streams in
  (refresh_needed streams = false \/ (start_ts == MP_NOPTS_VALUE)%Q
   \/ can_seek desc d = false ->
   pts = MP_NOPTS_VALUE /\ unchanged)
  /\ (refresh_needed streams = true -> ~ (start_ts == MP_NOPTS_VALUE)%Q ->
      can_seek desc d = true ->
      (refresh_normal_seek streams = true -> pts = start_ts /\ unchanged)
      /\ (refresh_normal_seek streams = false ->
          refresh_possible streams = true ->
          pts = (start_ts - 1)%Q
          /\ map ds_refreshing (in_streams d')
             = map (fun ds =>
                      ds_refreshing ds
                      || (ds_selected ds && seen_packets ds)) streams)
      /\ (refresh_normal_seek streams = false ->
          refresh_possible streams = false ->
          pts = MP_NOPTS_VALUE /\ unchanged)).
Proof.
  cbv zeta. unfold get_refresh_seek_pts, refresh_start_ts, can_seek.
  rewrite refresh_scan_spec. cbv iota beta. cbn [orb andb].
  change (d_thread_seekable (set_in_streams _ d)) with (d_thread_seekable d).
  change (d_thread_partially_seekable (set_in_streams _ d))
    with (d_thread_partially_seekable d).
  set (start_ts := fold_left _ (in_streams d) (in_ref_pts d)).
  set (guard := negb (refresh_needed (in_streams d))
                || Qeq_bool start_ts MP_NOPTS_VALUE
                || negb (is_some (desc_seek desc))
                || negb (d_thread_seekable d)
                || d_thread_partially_seekable d).
  split.
  - intros H.
    assert (G : guard = true).
    { unfold guard. destruct H as [H|[H|H]].
      - rewrite H. reflexivity.
      - apply Qeq_bool_iff in H. rewrite H. rewrite orb_true_r. reflexivity.
      - destruct (is_some (desc_seek desc)), (d_thread_seekable d),
          (d_thread_partially_seekable d); try discriminate;
          cbn; rewrite ?orb_true_r; reflexivity. }
    rewrite G. cbn [fst snd]. split; [reflexivity|].
    apply map_refreshing_clear.
  - intros Hn Hs Hc.
    assert (G : guard = false).
    { unfold guard. rewrite Hn. apply Qeq_bool_false_iff in Hs. rewrite Hs.
      destruct (is_some (desc_seek desc)), (d_thread_seekable d),
        (d_thread_partially_seekable d); try discriminate; reflexivity. }
    rewrite G. split; [|split].
    + intros Hnorm. rewrite Hnorm. cbn [fst snd]. split; [reflexivity|].
      apply map_refreshing_clear.
    + intros Hnorm Hposs. rewrite Hnorm, Hposs. cbn [negb fst snd].
      split; [reflexivity|]. apply map_refreshing_mark.
    + intros Hnorm Hposs. rewrite Hnorm, Hposs. cbn [negb fst snd].
      split; [reflexivity|]. apply map_refreshing_clear.
Qed.

Lemma refresh_seek_pts_cases_witness :
  (fst (get_refresh_seek_pts example_desc switch_example) == 4)%Q
  /\ map ds_refreshing
       (in_streams (snd (get_refresh_seek_pts example_desc switch_example)))
     = [true; false].
Proof.
  destruct (refresh_seek_pts_cases example_desc switch_example) as [_ H].
  destruct H as [_ [H _]].
  - reflexivity.
  - intros C. vm_compute in C. discriminate.
  - reflexivity.
  - destruct (H eq_refl eq_refl) as [H1 H2].
    rewrite H1, H2. split; vm_compute; reflexivity.
Defined.

(** ** The accounting invariant *)

Lemma estimate_range (dp : demux_packet) :
  0 <= demux_packet_estimate_total_size dp < size_t_modulus.
Proof. apply to_size_t_range. Qed.

Lemma sum_sizes_nonneg (l : list demux_packet) : 0 <= sum_sizes l.
Proof.
  induction l as [|dp l IH]; simpl; [lia|].
  pose proof (estimate_range dp). lia.
Qed.

Lemma sum_sizes_app (l1 l2 : list demux_packet) :
  sum_sizes (l1 ++ l2) = sum_sizes l1 + sum_sizes l2.
Proof.
  induction l1 as [|dp l1 IH]; simpl; [reflexivity|]. rewrite IH. lia.
Qed.

Lemma estimate_queued_packet (stream : nat) (type : stream_type)
    (dp : demux_packet) :
  demux_packet_estimate_total_size (queued_packet stream type dp)
  = demux_packet_estimate_total_size dp.
Proof. destruct dp. reflexivity. Qed.

Lemma queue_split (ds : demux_stream) :
  head_in_queue ds -> ds_queue ds = backbuffer ds ++ forward ds.
Proof.
  unfold head_in_queue, backbuffer, forward.
  destruct (ds_reader_head ds) as [i|]; intros _.
  - symmetry. apply firstn_skipn.
  - symmetry. apply app_nil_r.
Qed.

Lemma queue_ok_accounting (ds : demux_stream) :
  queue_ok ds -> fits ds -> accounting ds.
Proof.
  intros [Hh [Hp [Hf Hb]]] [Fs Fl]. unfold accounting.
  pose proof (queue_split ds Hh) as Hq.
  pose proof (sum_sizes_nonneg (forward ds)).
  pose proof (sum_sizes_nonneg (backbuffer ds)).
  assert (Hs : sum_sizes (ds_queue ds)
               = sum_sizes (backbuffer ds) + sum_sizes (forward ds))
    by (rewrite Hq at 1; apply sum_sizes_app).
  assert (Hl : (length (forward ds) <= length (ds_queue ds))%nat).
  { rewrite Hq. rewrite length_app. lia. }
  rewrite Hp, Hf, Hb.
  rewrite !to_size_t_small by lia. lia.
Qed.

Lemma append_packet_fields (stream : nat) (dp : demux_packet)
    (ds : demux_stream) :
  let first :=
    negb (is_some (ds_reader_head ds))
    && (negb (ds_skip_to_keyframe ds) || dp_keyframe dp) in
  let head := if first then Some (length (ds_queue ds))
              else ds_reader_head ds in
  let bytes := demux_packet_estimate_total_size dp in
  ds_reader_head (append_packet stream dp ds) = head
  /\ ds_fw_packs (append_packet stream dp ds)
     = (if is_some head then to_size_t (ds_fw_packs ds + 1)
        else ds_fw_packs ds)
  /\ ds_fw_bytes (append_packet stream dp ds)
     = (if is_some head then to_size_t (ds_fw_bytes ds + bytes)
        else ds_fw_bytes ds)
  /\ ds_bw_bytes (append_packet stream dp ds)
     = (if is_some head then ds_bw_bytes ds
        else to_size_t (ds_bw_bytes ds + bytes)).
Proof.
  destruct ds, dp. repeat split; reflexivity.
Qed.

Lemma sum_sizes_one (dp : demux_packet) :
  sum_sizes [dp] = demux_packet_estimate_total_size dp.
Proof. unfold sum_sizes. cbn [fold_right]. lia. Qed.

Lemma queue_ok_append (stream : nat) (dp : demux_packet)
    (ds : demux_stream) :
  queue_ok ds -> queue_ok (append_packet stream dp ds).
Proof.
  intros [Hh [Hp [Hf Hb]]].
  destruct (append_packet_fields stream dp ds) as [Eh [Ep [Ef Eb]]].
  unfold queue_ok, head_in_queue, forward, backbuffer in *.
  rewrite Eh, Ep, Ef, Eb, append_packet_queue. clear Eh Ep Ef Eb.
  set (dq := queued_packet stream (ds_type ds) dp).
  assert (Edq : demux_packet_estimate_total_size dp
                = demux_packet_estimate_total_size dq)
    by (symmetry; apply estimate_queued_packet).
  rewrite Edq. clear Edq.
  rewrite Hp, Hf, Hb. rewrite !to_size_t_add_l.
  destruct (ds_reader_head ds) as [i|]; cbn [is_some negb andb].
  - rewrite length_app. cbn [length].
    rewrite skipn_app, firstn_app.
    replace (i - length (ds_queue ds))%nat with 0%nat by lia.
    cbn [skipn firstn]. rewrite app_nil_r, length_app, sum_sizes_app.
    rewrite sum_sizes_one. cbn [length].
    repeat split; try lia; f_equal; lia.
  - destruct (negb (ds_skip_to_keyframe ds) || dp_keyframe dp);
      cbn [is_some].
    + rewrite length_app. cbn [length].
      rewrite skipn_app, firstn_app, skipn_all, firstn_all.
      replace (length (ds_queue ds) - length (ds_queue ds))%nat
        with 0%nat by lia.
      cbn [skipn firstn app length]. rewrite app_nil_r.
      rewrite sum_sizes_one. cbn [sum_sizes fold_right].
      repeat split; try lia; f_equal; lia.
    + rewrite sum_sizes_app, sum_sizes_one. cbn [length sum_sizes fold_right].
      repeat split; try lia; f_equal; lia.
Qed.

Lemma queue_ok_new_stream (type : stream_type) (autoselect : bool) :
  queue_ok (new_demux_stream type autoselect).
Proof. repeat split. Qed.

Lemma queue_ok_clear_demux_state (ds : demux_stream) :
  queue_ok (ds_clear_demux_state ds).
Proof. repeat split. Qed.

Lemma cache_ok_clear_demux_state (d : demux_internal) :
  cache_ok (clear_demux_state d).
Proof.
  unfold cache_ok.
  change (in_streams (clear_demux_state d))
    with (map ds_clear_demux_state
            (map ds_clear_reader_state (in_streams d))).
  rewrite map_map. apply Forall_forall. intros ds' Hin.
  apply in_map_iff in Hin. destruct Hin as [ds [<- _]].
  apply queue_ok_clear_demux_state.
Qed.

Lemma queue_ok_refresh_test (dp : demux_packet) (ds : demux_stream) :
  queue_ok ds -> queue_ok (refresh_test dp ds).
Proof. intros H. exact H. Qed.

Lemma Forall_list_set {A : Type} (P : A -> Prop) (n : nat) (x : A)
    (l : list A) :
  Forall P l -> P x -> Forall P (list_set n x l).
Proof.
  intros Hl Hx. revert n.
  induction Hl as [|h t Hh Ht IH]; intros [|n]; simpl;
    constructor; auto.
Qed.

Lemma Forall_nth_error {A : Type} (P : A -> Prop) (n : nat) (x : A)
    (l : list A) :
  Forall P l -> nth_error l n = Some x -> P x.
Proof.
  intros Hl Hn. rewrite Forall_forall in Hl. apply Hl.
  eapply nth_error_In. exact Hn.
Qed.

Lemma cache_ok_add_packet (stream : nat) (dp : demux_packet)
    (d : demux_internal) :
  cache_ok d -> cache_ok (demux_add_packet stream dp d).
Proof.
  intros Hok. unfold cache_ok in *.
  destruct (nth_error (in_streams d) stream) as [ds|] eqn:E.
  - pose proof (Forall_nth_error _ _ _ _ Hok E) as Hds.
    destruct (negb (ds_selected ds) || ds_need_refresh ds || in_seeking d
              || ds_refreshing ds) eqn:C.
    + rewrite (stream_at_add_packet_dropped _ dp _ _ E C).
      apply Forall_list_set; [exact Hok|].
      apply queue_ok_refresh_test. exact Hds.
    + rewrite (stream_at_add_packet_queued _ dp _ _ E C).
      apply Forall_list_set; [exact Hok|].
      apply queue_ok_append. exact Hds.
  - unfold demux_add_packet. rewrite E. exact Hok.
Qed.

(** ** The pruner *)

Lemma to_size_t_sub_sub (a b c : Z) :
  to_size_t (to_size_t a - b - c) = to_size_t (a - (b + c)).
Proof.
  replace (to_size_t a - b - c) with (to_size_t a - (b + c)) by lia.
  apply to_size_t_sub_l.
Qed.

Lemma prune_drop_loop_spec (queue : list demux_packet) :
  forall (rh nst : option nat) (bw b : Z),
  exists dropped rest,
    queue = dropped ++ rest
    /\ prune_drop_loop queue rh nst (to_size_t bw) (to_size_t b)
       = (rest, option_map (fun i => (i - length dropped)%nat) rh,
          to_size_t (bw - sum_sizes dropped),
          to_size_t (b - sum_sizes dropped))
    /\ match rh with
       | Some i => (length dropped <= i)%nat
       | None => True
       end
    /\ (queue <> [] -> ptr_is 0 rh = false -> ptr_is 0 nst = false ->
        dropped <> []).
Proof.
  induction queue as [|dp next IH]; intros rh nst bw b.
  - exists [], []. cbn [prune_drop_loop app length sum_sizes fold_right].
    rewrite !Z.sub_0_r. repeat split.
    + destruct rh as [i|]; cbn [option_map]; [|reflexivity].
      rewrite Nat.sub_0_r. reflexivity.
    + destruct rh; [lia|exact I].
    + intros H. contradiction.
  - cbn [prune_drop_loop].
    destruct (negb (ptr_is 0 rh) && negb (ptr_is 0 nst)) eqn:C.
    + apply andb_true_iff in C. destruct C as [C1 C2].
      apply negb_true_iff in C1.
      destruct (IH (ptr_pred rh) (ptr_pred nst)
                  (to_size_t bw - demux_packet_estimate_total_size dp)
                  (to_size_t b - demux_packet_estimate_total_size dp))
        as [dropped [rest [Eq [El [Hr _]]]]].
      exists (dp :: dropped), rest.
      split; [cbn [app]; rewrite Eq; reflexivity|].
      split.
      * rewrite El. cbn [sum_sizes fold_right length].
        fold (sum_sizes dropped). rewrite !to_size_t_sub_sub.
        f_equal. f_equal. f_equal.
        destruct rh as [i|]; cbn [ptr_pred option_map]; [|reflexivity].
        f_equal. lia.
      * split.
        -- destruct rh as [i|]; [|exact I].
           cbn [ptr_pred] in Hr. cbn [ptr_is] in C1.
           apply Nat.eqb_neq in C1. cbn [length]. lia.
        -- intros _ _ _. discriminate.
    + exists [], (dp :: next).
      cbn [app length sum_sizes fold_right]. rewrite !Z.sub_0_r.
      repeat split.
      * destruct rh as [i|]; cbn [option_map]; [|reflexivity].
        rewrite Nat.sub_0_r. reflexivity.
      * destruct rh; [lia|exact I].
      * intros _ H1 H2. rewrite H1, H2 in C. discriminate.
Qed.

Lemma next_seek_target_not_head (dp : list demux_packet) :
  forall (i : nat) (nst : option nat) (back_pts : Q),
    ptr_is 0 nst = false ->
    ptr_is 0 (fst (next_seek_target_loop dp i nst back_pts)) = false.
Proof.
  induction dp as [|p next IH]; intros i nst back_pts H.
  - exact H.
  - cbn [next_seek_target_loop].
    destruct (dp_keyframe p && negb (i =? 0)%nat) eqn:C.
    + apply andb_true_iff in C. destruct C as [_ C].
      apply negb_true_iff in C.
      destruct (negb (Qeq_bool (recompute_keyframe_target_pts (p :: next))
                        MP_NOPTS_VALUE)).
      * cbn [fst ptr_is]. exact C.
      * apply IH. cbn [ptr_is]. exact C.
    + apply IH. exact H.
Qed.

Lemma pruned_refl (ds : demux_stream) : pruned ds ds.
Proof. exists []. repeat split. Qed.

Lemma pruned_trans (ds1 ds2 ds3 : demux_stream) :
  pruned ds1 ds2 -> pruned ds2 ds3 -> pruned ds1 ds3.
Proof.
  intros [l1 [Q1 [B1 [F1 S1]]]] [l2 [Q2 [B2 [F2 S2]]]].
  exists (l1 ++ l2). rewrite <- !app_assoc.
  repeat split; congruence.
Qed.

Lemma prune_stream_fields (ds : demux_stream) (buffered : Z) :
  let nst :=
    fst (next_seek_target_loop (ds_queue ds) 0 None MP_NOPTS_VALUE) in
  let r := prune_drop_loop (ds_queue ds) (ds_reader_head ds) nst
             (ds_bw_bytes ds) buffered in
  let ds' := fst (prune_stream ds buffered) in
  ds_queue ds' = fst (fst (fst r))
  /\ ds_reader_head ds' = snd (fst (fst r))
  /\ ds_bw_bytes ds' = snd (fst r)
  /\ snd (prune_stream ds buffered) = snd r
  /\ ds_fw_packs ds' = ds_fw_packs ds
  /\ ds_fw_bytes ds' = ds_fw_bytes ds.
Proof.
  cbv zeta. unfold prune_stream.
  change (ds_queue (set_ds_back_pts MP_NOPTS_VALUE ds)) with (ds_queue ds).
  change (ds_back_pts (set_ds_back_pts MP_NOPTS_VALUE ds))
    with MP_NOPTS_VALUE.
  destruct (next_seek_target_loop (ds_queue ds) 0 None MP_NOPTS_VALUE)
    as [nst back_pts].
  cbn [fst].
  change (ds_queue (set_ds_back_pts back_pts
                      (set_ds_back_pts MP_NOPTS_VALUE ds)))
    with (ds_queue ds).
  change (ds_reader_head (set_ds_back_pts back_pts
                            (set_ds_back_pts MP_NOPTS_VALUE ds)))
    with (ds_reader_head ds).
  change (ds_bw_bytes (set_ds_back_pts back_pts
                         (set_ds_back_pts MP_NOPTS_VALUE ds)))
    with (ds_bw_bytes ds).
  destruct (prune_drop_loop (ds_queue ds) (ds_reader_head ds) nst
              (ds_bw_bytes ds) buffered) as [[[q rh] bw] b].
  repeat split.
Qed.

Lemma prune_stream_spec (ds : demux_stream) (b : Z) :
  queue_ok ds ->
  exists dropped,
    ds_queue ds = dropped ++ ds_queue (fst (prune_stream ds (to_size_t b)))
    /\ backbuffer ds
       = dropped ++ backbuffer (fst (prune_stream ds (to_size_t b)))
    /\ forward (fst (prune_stream ds (to_size_t b))) = forward ds
    /\ is_some (ds_reader_head (fst (prune_stream ds (to_size_t b))))
       = is_some (ds_reader_head ds)
    /\ queue_ok (fst (prune_stream ds (to_size_t b)))
    /\ snd (prune_stream ds (to_size_t b))
       = to_size_t (b - sum_sizes dropped)
    /\ (prunable ds = true -> dropped <> []).
Proof.
  intros [Hh [Hp [Hf Hb]]].
  destruct (prune_stream_fields ds (to_size_t b))
    as [Eq [Eh [Eb [Es [Ep Ef]]]]].
  set (ds' := fst (prune_stream ds (to_size_t b))) in *.
  set (nst := fst (next_seek_target_loop (ds_queue ds) 0 None
                     MP_NOPTS_VALUE)) in *.
  assert (Hn : ptr_is 0 nst = false)
    by (apply next_seek_target_not_head; reflexivity).
  rewrite Hb in Eq, Eh, Eb, Es.
  destruct (prune_drop_loop_spec (ds_queue ds) (ds_reader_head ds) nst
              (sum_sizes (backbuffer ds)) b)
    as [dropped [rest [Hq [El [Hr Hprog]]]]].
  rewrite El in Eq, Eh, Eb, Es. cbn [fst snd] in Eq, Eh, Eb, Es.
  exists dropped.
  assert (Hback : backbuffer ds = dropped ++ backbuffer ds').
  { unfold backbuffer, head_in_queue in *. rewrite Eh, Eq.
    destruct (ds_reader_head ds) as [i|]; cbn [option_map].
    - rewrite Hq. rewrite firstn_app.
      rewrite firstn_all2 by lia. reflexivity.
    - exact Hq. }
  assert (Hfwd : forward ds' = forward ds).
  { unfold forward. rewrite Eh, Eq.
    destruct (ds_reader_head ds) as [i|]; cbn [option_map]; [|reflexivity].
    rewrite Hq. rewrite skipn_app.
    rewrite (skipn_all2 dropped) by lia. reflexivity. }
  split; [rewrite Eq; exact Hq|].
  split; [exact Hback|].
  split; [exact Hfwd|].
  split; [rewrite Eh; destruct (ds_reader_head ds); reflexivity|].
  split.
  - unfold queue_ok. rewrite Hfwd, Ep, Ef, Eb.
    repeat split; try assumption.
    + unfold head_in_queue in *. rewrite Eh, Eq.
      destruct (ds_reader_head ds) as [i|]; cbn [option_map]; [|exact I].
      rewrite Hq in Hh. rewrite length_app in Hh. lia.
    + f_equal. rewrite Hback, sum_sizes_app. lia.
  - split; [exact Es|].
    intros Hpr. unfold prunable in Hpr.
    apply andb_true_iff in Hpr. destruct Hpr as [P1 P2].
    apply negb_true_iff in P1, P2.
    apply Hprog; try assumption.
    intros C. rewrite C in P1. discriminate.
Qed.

Lemma sum_bw_bytes_ok (streams : list demux_stream) (b : Z) :
  Forall queue_ok streams ->
  sum_bw_bytes streams (to_size_t b) = to_size_t (b + total_back streams).
Proof.
  intros H. revert b. induction H as [|ds rest Hds _ IH]; intros b.
  - cbn. rewrite Z.add_0_r. reflexivity.
  - cbn [sum_bw_bytes total_back fold_right].
    destruct Hds as [_ [_ [_ Hb]]]. rewrite Hb.
    rewrite to_size_t_add_l, to_size_t_add_r.
    rewrite <- (to_size_t_idem (b + _)). rewrite IH.
    fold (total_back rest). rewrite to_size_t_add_l. f_equal. lia.
Qed.

Lemma not_prunable_back (ds : demux_stream) :
  prunable ds = false -> backbuffer ds = [].
Proof.
  unfold prunable, backbuffer. intros H.
  destruct (ds_queue ds) as [|dp q].
  - destruct (ds_reader_head ds) as [i|]; [apply firstn_nil|reflexivity].
  - cbn [is_nil negb andb] in H. apply negb_false_iff in H.
    destruct (ds_reader_head ds) as [i|]; [|discriminate].
    cbn [ptr_is] in H. apply Nat.eqb_eq in H. subst i. reflexivity.
Qed.

Lemma total_back_not_prunable (streams : list demux_stream) :
  Forall (fun ds => prunable ds = false) streams -> total_back streams = 0.
Proof.
  intros H. induction H as [|ds rest Hds _ IH]; [reflexivity|].
  cbn [total_back fold_right]. fold (total_back rest).
  rewrite (not_prunable_back ds Hds), IH. reflexivity.
Qed.

Lemma find_earliest_spec (streams : list demux_stream) :
  forall (n : Z) (ts : Q) (es : Z),
    0 <= n ->
    (es < 0 -> (ts == MP_NOPTS_VALUE)%Q) ->
    (snd (find_earliest streams n ts es) = es
     /\ (es < 0 -> Forall (fun ds => prunable ds = false) streams))
    \/ (exists k ds,
          snd (find_earliest streams n ts es) = n + Z.of_nat k
          /\ nth_error streams k = Some ds
          /\ prunable ds = true).
Proof.
  induction streams as [|ds rest IH]; intros n ts es Hn Hes.
  - left. split; [reflexivity|]. intros _. constructor.
  - cbn [find_earliest].
    assert (Hstep :
      forall ts1 es1,
        (es1 = es /\ (es < 0 -> prunable ds = false)
         \/ es1 = n /\ prunable ds = true) ->
        (es1 < 0 -> (ts1 == MP_NOPTS_VALUE)%Q) ->
        (snd (find_earliest rest (n + 1) ts1 es1) = es
         /\ (es < 0 -> Forall (fun ds => prunable ds = false) (ds :: rest)))
        \/ (exists k ds0,
              snd (find_earliest rest (n + 1) ts1 es1) = n + Z.of_nat k
              /\ nth_error (ds :: rest) k = Some ds0
              /\ prunable ds0 = true)).
    { intros ts1 es1 Hc Hi.
      destruct (IH (n + 1) ts1 es1 ltac:(lia) Hi)
        as [[E F]|[k [ds0 [E [N P]]]]].
      - destruct Hc as [[-> Hp]|[-> Hp]].
        + left. split; [exact E|]. intros L. constructor; auto.
        + right. exists 0%nat, ds. rewrite E. repeat split; [lia|exact Hp].
      - right. exists (S k), ds0. rewrite E. repeat split; [lia|exact N|exact P]. }
    unfold prunable in Hstep.
    destruct (ds_queue ds) as [|dp q] eqn:Q.
    + apply Hstep; [|exact Hes]. left. split; [reflexivity|]. reflexivity.
    + cbn [is_nil negb andb] in Hstep.
      destruct (negb (ptr_is 0 (ds_reader_head ds))) eqn:Pz.
      * destruct (Qeq_bool ts MP_NOPTS_VALUE
                  || negb (Qeq_bool (PTS_OR_DEF (dp_dts dp) (dp_pts dp))
                             MP_NOPTS_VALUE)
                     && Qlt_bool (PTS_OR_DEF (dp_dts dp) (dp_pts dp)) ts)
          eqn:C.
        -- apply Hstep; [right; split; reflexivity|]. intros L. lia.
        -- apply Hstep; [|exact Hes]. left. split; [reflexivity|].
           intros L. apply Hes in L. apply Qeq_bool_iff in L.
           rewrite L in C. discriminate.
      * apply Hstep; [|exact Hes]. left. split; reflexivity.
Qed.

Lemma queued_packets_list_set (streams : list demux_stream) (k : nat)
    (ds ds' : demux_stream) :
  nth_error streams k = Some ds ->
  (queued_packets (list_set k ds' streams) + length (ds_queue ds)
   = queued_packets streams + length (ds_queue ds'))%nat.
Proof.
  revert k. induction streams as [|h t IH]; intros [|k] H;
    try discriminate.
  - injection H as ->. cbn [list_set queued_packets fold_right]. lia.
  - cbn [list_set queued_packets fold_right].
    specialize (IH k H). unfold queued_packets in IH. lia.
Qed.

Lemma total_back_list_set (streams : list demux_stream) (k : nat)
    (ds ds' : demux_stream) :
  nth_error streams k = Some ds ->
  total_back (list_set k ds' streams) + sum_sizes (backbuffer ds)
  = total_back streams + sum_sizes (backbuffer ds').
Proof.
  revert k. induction streams as [|h t IH]; intros [|k] H;
    try discriminate.
  - injection H as ->. cbn [list_set total_back fold_right]. lia.
  - cbn [list_set total_back fold_right].
    specialize (IH k H). unfold total_back in IH. lia.
Qed.

Lemma Forall2_pruned_refl (streams : list demux_stream) :
  Forall2 pruned streams streams.
Proof.
  induction streams; constructor; auto using pruned_refl.
Qed.

Lemma Forall2_pruned_trans (l1 l2 l3 : list demux_stream) :
  Forall2 pruned l1 l2 -> Forall2 pruned l2 l3 -> Forall2 pruned l1 l3.
Proof.
  intros H. revert l3. induction H as [|a b l1 l2 Hab _ IH]; intros l3 H3.
  - inversion H3. constructor.
  - inversion H3 as [|b' c l2' l3' Hbc Hrest]; subst.
    constructor; [eapply pruned_trans; eassumption|]. apply IH. exact Hrest.
Qed.

Lemma Forall2_pruned_list_set (streams : list demux_stream) (k : nat)
    (ds ds' : demux_stream) :
  nth_error streams k = Some ds -> pruned ds ds' ->
  Forall2 pruned streams (list_set k ds' streams).
Proof.
  revert k. induction streams as [|h t IH]; intros [|k] H Hp;
    try discriminate.
  - injection H as ->. cbn [list_set].
    constructor; [exact Hp|apply Forall2_pruned_refl].
  - cbn [list_set]. constructor; [apply pruned_refl|]. eapply IH; eassumption.
Qed.

(** The loop of the pruner never fails its assertion and never runs out
    of fuel on a cache whose accounting is right; it only drops packets
    from back buffers and it leaves everything but the streams alone. *)
Lemma prune_loop_spec (fuel : nat) :
  forall (d : demux_internal) (buffered : Z),
    cache_ok d ->
    buffered = to_size_t (total_back (in_streams d)) ->
    (queued_packets (in_streams d) < fuel)%nat ->
    exists d',
      prune_loop fuel d buffered = Done d'
      /\ cache_ok d'
      /\ Forall2 pruned (in_streams d) (in_streams d')
      /\ d' = set_in_streams (in_streams d') d.
Proof.
  induction fuel as [|fuel IH]; intros d buffered Hok Hb Hfuel; [lia|].
  cbn [prune_loop].
  destruct (to_size_t (in_max_bytes_bw d) <? buffered) eqn:C.
  2:{ exists d. repeat split; [exact Hok|apply Forall2_pruned_refl|].
      destruct d; reflexivity. }
  apply Z.ltb_lt in C.
  pose proof (to_size_t_range (in_max_bytes_bw d)) as Hmax.
  destruct (find_earliest_spec (in_streams d) 0 MP_NOPTS_VALUE (-1)
              ltac:(lia) ltac:(intros _; reflexivity))
    as [[E F]|[k [ds [E [N P]]]]].
  - specialize (F ltac:(lia)).
    rewrite (total_back_not_prunable _ F) in Hb.
    change (to_size_t 0) with 0 in Hb. lia.
  - destruct (find_earliest (in_streams d) 0 MP_NOPTS_VALUE (-1))
      as [ets es].
    cbn [snd] in E. subst es.
    replace (0 + Z.of_nat k <? 0) with false
      by (symmetry; apply Z.ltb_ge; lia).
    replace (Z.to_nat (0 + Z.of_nat k)) with k by lia.
    rewrite N.
    pose proof (Forall_nth_error _ _ _ _ Hok N) as Hds.
    rewrite Hb.
    destruct (prune_stream_spec ds (total_back (in_streams d)) Hds)
      as [dropped [Hq [Hbk [Hf [Hs [Hok' [Hbuf Hprog]]]]]]].
    specialize (Hprog P).
    destruct (prune_stream ds (to_size_t (total_back (in_streams d))))
      as [ds' buffered'].
    cbn [fst snd] in *.
    assert (Hpr : pruned ds ds').
    { exists dropped. repeat split; assumption. }
    destruct (IH (set_stream k ds' d) buffered') as [d' [R [Ok' [Pr Fr]]]].
    + unfold cache_ok.
      change (in_streams (set_stream k ds' d))
        with (list_set k ds' (in_streams d)).
      apply Forall_list_set; assumption.
    + change (in_streams (set_stream k ds' d))
        with (list_set k ds' (in_streams d)).
      rewrite Hbuf. f_equal.
      pose proof (total_back_list_set _ _ _ ds' N) as T.
      rewrite Hbk, sum_sizes_app in T. lia.
    + change (in_streams (set_stream k ds' d))
        with (list_set k ds' (in_streams d)).
      pose proof (queued_packets_list_set _ _ _ ds' N) as T.
      rewrite Hq, length_app in T.
      destruct dropped; [contradiction|]. cbn [length] in T. lia.
    + exists d'. split; [exact R|]. split; [exact Ok'|]. split.
      * eapply Forall2_pruned_trans; [|exact Pr].
        change (in_streams (set_stream k ds' d))
          with (list_set k ds' (in_streams d)).
        eapply Forall2_pruned_list_set; eassumption.
      * rewrite Fr at 1. destruct d; reflexivity.
Qed.

Lemma prune_old_packets_spec (d : demux_internal) :
  cache_ok d ->
  exists d',
    prune_old_packets d = Done d'
    /\ cache_ok d'
    /\ Forall2 pruned (in_streams d) (in_streams d')
    /\ d' = set_in_streams (in_streams d') d.
Proof.
  intros Hok. unfold prune_old_packets.
  apply prune_loop_spec; [exact Hok| |lia].
  change 0 with (to_size_t 0) at 1.
  rewrite (sum_bw_bytes_ok _ 0 Hok). f_equal.
Qed.

(** ** Dequeueing keeps the accounts *)

Lemma dequeue_head_fields (i : nat) (pkt : demux_packet)
    (ds : demux_stream) :
  ds_queue (dequeue_head i pkt ds) = ds_queue ds
  /\ ds_reader_head (dequeue_head i pkt ds)
     = (if (S i <? length (ds_queue ds))%nat then Some (S i) else None)
  /\ ds_fw_packs (dequeue_head i pkt ds) = to_size_t (ds_fw_packs ds - 1)
  /\ ds_fw_bytes (dequeue_head i pkt ds)
     = to_size_t (ds_fw_bytes ds - demux_packet_estimate_total_size pkt)
  /\ ds_bw_bytes (dequeue_head i pkt ds)
     = to_size_t (ds_bw_bytes ds + demux_packet_estimate_total_size pkt).
Proof.
  destruct ds, pkt. repeat split; reflexivity.
Qed.

Lemma skipn_nth_error {A : Type} (l : list A) (i : nat) (x : A) :
  nth_error l i = Some x -> skipn i l = x :: skipn (S i) l.
Proof.
  revert i. induction l as [|h t IH]; intros [|i] H; try discriminate.
  - injection H as ->. reflexivity.
  - cbn [skipn]. apply IH. exact H.
Qed.

Lemma firstn_nth_error {A : Type} (l : list A) (i : nat) (x : A) :
  nth_error l i = Some x -> firstn (S i) l = firstn i l ++ [x].
Proof.
  revert i. induction l as [|h t IH]; intros [|i] H; try discriminate.
  - injection H as ->. reflexivity.
  - cbn [firstn app]. f_equal. apply IH. exact H.
Qed.

Lemma queue_ok_dequeue_head (i : nat) (pkt : demux_packet)
    (ds : demux_stream) :
  queue_ok ds -> ds_reader_head ds = Some i ->
  nth_error (ds_queue ds) i = Some pkt ->
  queue_ok (dequeue_head i pkt ds).
Proof.
  intros [Hh [Hp [Hf Hb]]] Hr Hn.
  destruct (dequeue_head_fields i pkt ds) as [Eq [Eh [Ep [Ef Eb]]]].
  unfold queue_ok, head_in_queue, forward, backbuffer in *.
  rewrite Eq, Eh, Ep, Ef, Eb. rewrite Hr in *.
  rewrite Hp, Hf, Hb.
  rewrite (skipn_nth_error _ _ _ Hn).
  cbn [length sum_sizes fold_right]. fold (sum_sizes (skipn (S i) (ds_queue ds))).
  rewrite to_size_t_sub_l, to_size_t_sub_l, to_size_t_add_l.
  destruct (S i <? length (ds_queue ds))%nat eqn:C.
  - apply Nat.ltb_lt in C.
    rewrite (firstn_nth_error _ _ _ Hn), sum_sizes_app, sum_sizes_one.
    repeat split; try assumption; f_equal; lia.
  - apply Nat.ltb_ge in C.
    rewrite skipn_all2 by lia.
    assert (E : ds_queue ds = firstn i (ds_queue ds) ++ [pkt]).
    { rewrite <- (firstn_nth_error _ _ _ Hn). symmetry.
      apply firstn_all2. lia. }
    assert (Es : sum_sizes (ds_queue ds)
                 = sum_sizes (firstn i (ds_queue ds))
                   + demux_packet_estimate_total_size pkt).
    { rewrite E at 1. rewrite sum_sizes_app, sum_sizes_one. reflexivity. }
    rewrite Es. cbn [length sum_sizes fold_right].
    repeat split; f_equal; lia.
Qed.

Lemma dequeue_packet_spec (n : nat) (d : demux_internal) :
  cache_ok d ->
  exists r d',
    dequeue_packet n d = Done (r, d')
    /\ cache_ok d'
    /\ d_user_filepos d'
       = match dequeued n d with
         | Some pkt => if d_user_filepos d <=? dp_pos pkt
                       then dp_pos pkt else d_user_filepos d
         | None => d_user_filepos d
         end.
Proof.
  intros Hok. unfold dequeue_packet, dequeued, stream_at.
  destruct (nth_error (in_streams d) n) as [ds|] eqn:E.
  2:{ exists None, d. repeat split. exact Hok. }
  pose proof (Forall_nth_error _ _ _ _ Hok E) as Hds.
  destruct (ds_attached_picture ds) as [picture|].
  { cbv zeta.
    set (d1 := set_stream n _ d).
    assert (Hok1 : cache_ok d1).
    { unfold cache_ok, d1.
      change (in_streams (set_stream n ?x d)) with (list_set n x (in_streams d)).
      apply Forall_list_set; [exact Hok|]. exact Hds. }
    destruct (ds_attached_picture_added ds);
      eexists; exists d1; repeat split; exact Hok1. }
  destruct (ds_reader_head ds) as [i|] eqn:Hr.
  2:{ exists None, d. repeat split. exact Hok. }
  destruct (nth_error (ds_queue ds) i) as [pkt|] eqn:Hn.
  2:{ exists None, d. repeat split. exact Hok. }
  cbv zeta.
  set (d1 := set_stream n (dequeue_head i pkt ds) d).
  set (d2 := set_d_user_filepos _ d1).
  assert (Hok2 : cache_ok d2).
  { unfold cache_ok.
    change (in_streams d2)
      with (list_set n (dequeue_head i pkt ds) (in_streams d)).
    apply Forall_list_set; [exact Hok|].
    apply queue_ok_dequeue_head; assumption. }
  destruct (prune_old_packets_spec d2 Hok2) as [d3 [R [Ok3 [_ Fr]]]].
  rewrite R. eexists. exists d3. repeat split; [exact Ok3|].
  rewrite Fr. reflexivity.
Qed.

(** ** Seeking in the cache keeps the accounts *)

Lemma triple_eq {A B C : Type} (a a' : A) (b b' : B) (c c' : C) :
  a = a' -> b = b' -> c = c' -> (a, b, c) = (a', b', c').
Proof. intros -> -> ->. reflexivity. Qed.

Lemma recompute_buffers_loop_spec (dp : list demux_packet) :
  forall (i : nat) (rh : option nat) (in_bb : bool) (fp fb bb : Z),
    recompute_buffers_loop dp i rh in_bb
      (to_size_t fp) (to_size_t fb) (to_size_t bb)
    = (let k := back_count i (length dp) rh in_bb in
       (to_size_t (fp + Z.of_nat (length (skipn k dp))),
        to_size_t (fb + sum_sizes (skipn k dp)),
        to_size_t (bb + sum_sizes (firstn k dp)))).
Proof.
  induction dp as [|p next IH]; intros i rh in_bb fp fb bb.
  - cbv zeta. rewrite skipn_nil, firstn_nil.
    cbn [recompute_buffers_loop length sum_sizes fold_right].
    rewrite !Z.add_0_r. reflexivity.
  - cbn [recompute_buffers_loop]. cbv zeta.
    destruct in_bb; cbn [andb].
    + destruct rh as [j|]; cbn [ptr_is negb back_count].
      * destruct (j =? i)%nat eqn:Eji; cbn [negb].
        -- apply Nat.eqb_eq in Eji. subst j.
           rewrite !to_size_t_add_l, IH. cbn [back_count].
           rewrite Nat.leb_refl, Nat.sub_diag.
           cbn [skipn firstn length sum_sizes fold_right].
           fold (sum_sizes next). rewrite Z.add_0_r.
           apply triple_eq; f_equal; lia.
        -- apply Nat.eqb_neq in Eji.
           rewrite !to_size_t_add_l, IH. cbn [back_count length].
           destruct (i <=? j)%nat eqn:Eij.
           ++ apply Nat.leb_le in Eij.
              replace (S i <=? j)%nat with true
                by (symmetry; apply Nat.leb_le; lia).
              replace (j - i)%nat with (S (j - S i)) by lia.
              cbn [skipn firstn sum_sizes fold_right].
              fold (sum_sizes (firstn (j - S i) next)).
              apply triple_eq; f_equal; lia.
           ++ apply Nat.leb_gt in Eij.
              replace (S i <=? j)%nat with false
                by (symmetry; apply Nat.leb_gt; lia).
              cbn [skipn firstn sum_sizes fold_right].
              fold (sum_sizes (firstn (length next) next)).
              apply triple_eq; f_equal; lia.
      * rewrite !to_size_t_add_l, IH. cbn [back_count length].
        cbn [skipn firstn sum_sizes fold_right].
        fold (sum_sizes (firstn (length next) next)).
        apply triple_eq; f_equal; lia.
    + rewrite !to_size_t_add_l, IH. cbn [back_count].
      cbn [skipn firstn length sum_sizes fold_right].
      fold (sum_sizes next). rewrite Z.add_0_r.
      apply triple_eq; f_equal; lia.
Qed.

Lemma recompute_buffers_fields (ds : demux_stream) :
  let r := recompute_buffers_loop (ds_queue ds) 0 (ds_reader_head ds) true
             0 0 0 in
  ds_queue (recompute_buffers ds) = ds_queue ds
  /\ ds_reader_head (recompute_buffers ds) = ds_reader_head ds
  /\ ds_fw_packs (recompute_buffers ds) = fst (fst r)
  /\ ds_fw_bytes (recompute_buffers ds) = snd (fst r)
  /\ ds_bw_bytes (recompute_buffers ds) = snd r.
Proof.
  cbv zeta. unfold recompute_buffers.
  destruct (recompute_buffers_loop (ds_queue ds) 0 (ds_reader_head ds) true
              0 0 0) as [[fp fb] bb].
  repeat split.
Qed.

Lemma queue_ok_recompute_buffers (ds : demux_stream) :
  head_in_queue ds -> queue_ok (recompute_buffers ds).
Proof.
  intros Hh.
  destruct (recompute_buffers_fields ds) as [Eq [Eh [Ep [Ef Eb]]]].
  unfold queue_ok, head_in_queue, forward, backbuffer in *.
  rewrite Eq, Eh, Ep, Ef, Eb. clear Eq Eh Ep Ef Eb.
  change 0 with (to_size_t 0).
  rewrite recompute_buffers_loop_spec. cbv zeta. cbn [fst snd back_count].
  rewrite !Z.add_0_l.
  destruct (ds_reader_head ds) as [j|].
  - cbn [Nat.leb]. rewrite Nat.sub_0_r. repeat split. exact Hh.
  - rewrite skipn_all, firstn_all. repeat split.
Qed.

Lemma seek_streams_loop_fst (pts : Q) (flags : Z)
    (streams : list demux_stream) (trace : list event) :
  fst (seek_streams_loop pts flags streams trace)
  = map (seek_stream pts flags) streams.
Proof.
  revert trace. induction streams as [|ds rest IH]; intros trace.
  - reflexivity.
  - cbn [seek_streams_loop map]. cbv zeta.
    match goal with
    | |- context [seek_streams_loop pts flags rest ?t] =>
        specialize (IH t); destruct (seek_streams_loop pts flags rest t)
    end.
    cbn [fst] in *. rewrite IH. reflexivity.
Qed.

(** The streams after [try_seek_cache]: untouched when it fails, and
    else every queue with its reader state cleared and its reader put
    at the target for the effective seek. *)
Lemma try_seek_cache_streams (d : demux_internal) (pts : Q) (flags : Z) :
  in_streams (snd (try_seek_cache d pts flags))
  = if fst (try_seek_cache d pts flags) then
      map (fun ds =>
             seek_stream
               (fst (effective_seek (clear_reader_state d) pts flags))
               (snd (effective_seek (clear_reader_state d) pts flags))
               (ds_clear_reader_state ds))
        (in_streams d)
    else in_streams d.
Proof.
  remember (try_seek_cache d pts flags) as r eqn:R.
  unfold try_seek_cache in R.
  destruct (has_flag flags SEEK_FACTOR || negb (in_seekable_cache d));
    [subst r; reflexivity|].
  destruct (in_seeking d); [subst r; reflexivity|].
  cbv zeta in R.
  match type of R with
  | context [if ?c then (false, _) else _] => destruct c
  end; [subst r; reflexivity|].
  set (d1 := clear_reader_state (emit _ d)) in R.
  assert (E : effective_seek d1 pts flags
              = effective_seek (clear_reader_state d) pts flags)
    by reflexivity.
  rewrite E in R.
  destruct (effective_seek (clear_reader_state d) pts flags) as [pts' flags'].
  cbn [fst snd].
  match type of R with
  | context [if ?c then emit ?e d1 else d1] =>
      assert (S : in_streams (if c then emit e d1 else d1)
                  = map ds_clear_reader_state (in_streams d))
        by (destruct c; reflexivity);
      generalize dependent (if c then emit e d1 else d1)
  end.
  intros d2 R S.
  pose proof (seek_streams_loop_fst pts' flags' (in_streams d2)
                (in_trace d2)) as L.
  destruct (seek_streams_loop pts' flags' (in_streams d2) (in_trace d2))
    as [streams trace].
  subst r. cbn [fst snd] in *. subst streams.
  change (in_streams (set_in_trace trace
                        (set_in_streams
                           (map (seek_stream pts' flags') (in_streams d2))
                           d2)))
    with (map (seek_stream pts' flags') (in_streams d2)).
  rewrite S, map_map. reflexivity.
Qed.

(** ** The target of a seek in the cache *)

Lemma nth_error_middle {A : Type} (pre : list A) (x : A) (post : list A) :
  nth_error (pre ++ x :: post) (length pre) = Some x.
Proof.
  rewrite nth_error_app2 by lia. rewrite Nat.sub_diag. reflexivity.
Qed.

Lemma skipn_middle {A : Type} (pre post : list A) :
  skipn (length pre) (pre ++ post) = post.
Proof.
  rewrite skipn_app, skipn_all, Nat.sub_diag. reflexivity.
Qed.

Lemma seek_candidate_at (pre : list demux_packet) (p : demux_packet)
    (next : list demux_packet) (pts : Q) (flags : Z) :
  seek_candidate (pre ++ p :: next) pts flags (length pre)
  <-> dp_keyframe p = true
      /\ ~ (recompute_keyframe_target_pts (p :: next) == MP_NOPTS_VALUE)%Q
      /\ (has_flag flags SEEK_FORWARD = true ->
          (pts <= recompute_keyframe_target_pts (p :: next))%Q).
Proof.
  unfold seek_candidate, range_pts.
  rewrite skipn_middle, nth_error_middle.
  split.
  - intros [p' [E H]]. injection E as <-. exact H.
  - intros H. exists p. split; [reflexivity|exact H].
Qed.

(** The loop of [find_seek_target] on one queue, for one target. *)
Section SeekTarget.

Variables (pts : Q) (flags : Z) (queue : list demux_packet).

Lemma seek_inv_skip (i : nat) (target : option nat) (td : Q) :
  seek_inv queue pts flags i target td ->
  ~ seek_candidate queue pts flags i ->
  seek_inv queue pts flags (S i) target td.
Proof.
  unfold seek_inv. destruct target as [j|].
  - intros [Hj [Hc [Ht Hm]]] Hn. repeat split; [lia|exact Hc|exact Ht|].
    intros Hs Hp k Hk Hck.
    destruct (Nat.eq_dec k i) as [->|Hne]; [contradiction|].
    apply Hm; [exact Hs|exact Hp|lia|exact Hck].
  - intros [Ht Hm] Hn. split; [exact Ht|].
    intros k Hk. destruct (Nat.eq_dec k i) as [->|Hne]; [exact Hn|].
    apply Hm. lia.
Qed.

Lemma seek_inv_keep (i j : nat) (td : Q) :
  seek_inv queue pts flags i (Some j) td ->
  ((0 < td)%Q -> (0 < seek_diff pts flags (range_pts queue i))%Q) ->
  seek_inv queue pts flags (S i) (Some j) td.
Proof.
  unfold seek_inv. intros [Hj [Hc [Ht Hm]]] Hi.
  repeat split; [lia|exact Hc|exact Ht|].
  intros Hs Hp k Hk Hck.
  destruct (Nat.eq_dec k i) as [->|Hne]; [apply Hi; exact Hp|].
  apply Hm; [exact Hs|exact Hp|lia|exact Hck].
Qed.

Lemma seek_inv_take (i : nat) :
  seek_candidate queue pts flags i ->
  (no_sentinel_diff queue pts flags ->
   (0 < seek_diff pts flags (range_pts queue i))%Q ->
   forall k, (k < i)%nat -> seek_candidate queue pts flags k ->
             (0 < seek_diff pts flags (range_pts queue k))%Q) ->
  seek_inv queue pts flags (S i) (Some i)
    (seek_diff pts flags (range_pts queue i)).
Proof.
  unfold seek_inv. intros Hc Hm.
  repeat split; [lia|exact Hc|].
  intros Hs Hp k Hk Hck.
  destruct (Nat.eq_dec k i) as [->|Hne]; [exact Hp|].
  apply Hm; [exact Hs|exact Hp|lia|exact Hck].
Qed.

Lemma find_seek_target_loop_inv :
  forall (dp pre : list demux_packet) (target : option nat) (td : Q),
    queue = pre ++ dp ->
    seek_inv queue pts flags (length pre) target td ->
    exists td',
      seek_inv queue pts flags (length queue)
        (find_seek_target_loop pts flags dp (length pre) target td) td'.
Proof.
  induction dp as [|p next IH]; intros pre target td Hq Hinv.
  - exists td. rewrite app_nil_r in Hq. subst queue. exact Hinv.
  - assert (Hq' : queue = (pre ++ [p]) ++ next)
      by (rewrite <- app_assoc; exact Hq).
    assert (Hl : S (length pre) = length (pre ++ [p]))
      by (rewrite length_app; cbn; lia).
    pose proof (seek_candidate_at pre p next pts flags) as Hcand.
    rewrite <- Hq in Hcand.
    assert (Hr : range_pts queue (length pre)
                 = recompute_keyframe_target_pts (p :: next))
      by (unfold range_pts; rewrite Hq, skipn_middle; reflexivity).
    cbn [find_seek_target_loop]. rewrite Hl.
    destruct (dp_keyframe p) eqn:K; cbn [negb].
    2:{ apply IH; [exact Hq'|]. rewrite <- Hl. apply seek_inv_skip; [exact Hinv|].
        intros C. apply Hcand in C. destruct C as [C _]. discriminate. }
    destruct (Qeq_bool (recompute_keyframe_target_pts (p :: next))
                MP_NOPTS_VALUE) eqn:N.
    { apply IH; [exact Hq'|]. rewrite <- Hl. apply seek_inv_skip; [exact Hinv|].
      intros C. apply Hcand in C. destruct C as [_ [C _]].
      apply Qeq_bool_iff in N. contradiction. }
    cbv zeta.
    fold (seek_diff pts flags (recompute_keyframe_target_pts (p :: next))).
    rewrite <- Hr.
    set (diff := seek_diff pts flags (range_pts queue (length pre))).
    destruct (has_flag flags SEEK_FORWARD && Qlt_bool 0 diff) eqn:F.
    { apply IH; [exact Hq'|]. rewrite <- Hl. apply seek_inv_skip; [exact Hinv|].
      intros C. apply Hcand in C. destruct C as [_ [_ C]].
      apply andb_true_iff in F. destruct F as [F1 F2].
      specialize (C F1). apply Qlt_bool_iff in F2.
      unfold diff, seek_diff in F2. rewrite F1, Hr in F2. lra. }
    assert (Hc : seek_candidate queue pts flags (length pre)).
    { apply Hcand. split; [reflexivity|]. split.
      - apply Qeq_bool_false_iff. exact N.
      - intros F1. rewrite F1 in F. cbn [andb] in F.
        apply Qlt_bool_false_iff in F.
        unfold diff, seek_diff in F. rewrite F1, Hr in F. lra. }
    destruct (negb (Qeq_bool td MP_NOPTS_VALUE)
              && (if Qle_bool diff 0
                  then Qle_bool td 0 && Qle_bool diff td
                  else Qle_bool td diff)) eqn:R.
    + apply andb_true_iff in R. destruct R as [R1 R2].
      apply negb_true_iff in R1.
      destruct target as [j|].
      2:{ destruct Hinv as [Ht _]. subst td.
          vm_compute in R1. discriminate. }
      apply IH; [exact Hq'|]. rewrite <- Hl.
      apply seek_inv_keep; [exact Hinv|].
      fold diff. intros Hp.
      destruct (Qle_bool diff 0) eqn:D.
      * apply andb_true_iff in R2. destruct R2 as [R2 _].
        apply Qle_bool_iff in R2. lra.
      * apply Qle_bool_false_iff in D. exact D.
    + apply IH; [exact Hq'|]. rewrite <- Hl.
      apply seek_inv_take; [exact Hc|].
      fold diff. intros Hs Hp k Hk Hck.
      destruct target as [j|].
      2:{ destruct Hinv as [_ Hm]. exfalso. exact (Hm k Hk Hck). }
      destruct Hinv as [Hj [Hcj [Ht Hm]]].
      assert (Hne : Qeq_bool td MP_NOPTS_VALUE = false).
      { apply Qeq_bool_false_iff. rewrite Ht. apply Hs. exact Hcj. }
      rewrite Hne in R. cbn [negb andb] in R.
      assert (D : Qle_bool diff 0 = false)
        by (apply Qle_bool_false_iff; exact Hp).
      rewrite D in R. apply Qle_bool_false_iff in R.
      apply Hm; try assumption. lra.
Qed.

End SeekTarget.

Lemma find_seek_target_spec (ds : demux_stream) (pts : Q) (flags : Z) :
  match find_seek_target ds pts flags with
  | None => True
  | Some j =>
      (j < length (ds_queue ds))%nat
      /\ seek_candidate (ds_queue ds) pts flags j
      /\ (no_sentinel_diff (ds_queue ds) pts flags ->
          (0 < seek_diff pts flags (range_pts (ds_queue ds) j))%Q ->
          forall k, seek_candidate (ds_queue ds) pts flags k ->
                    (0 < seek_diff pts flags (range_pts (ds_queue ds) k))%Q)
  end.
Proof.
  unfold find_seek_target.
  destruct (find_seek_target_loop_inv pts flags (ds_queue ds) (ds_queue ds)
              [] None MP_NOPTS_VALUE eq_refl) as [td' H].
  { split; [reflexivity|]. intros k Hk. cbn in Hk. lia. }
  cbn [length] in H.
  destruct (find_seek_target_loop pts flags (ds_queue ds) 0 None
              MP_NOPTS_VALUE) as [j|]; [|exact I].
  destruct H as [Hj [Hc [Ht Hm]]].
  split; [exact Hj|]. split; [exact Hc|].
  intros Hs Hp k Hck. rewrite <- Ht in Hp.
  apply Hm; try assumption.
  destruct Hck as [p [Hn _]].
  apply nth_error_Some. rewrite Hn. discriminate.
Qed.

Lemma seek_stream_fields (pts : Q) (flags : Z) (ds : demux_stream) :
  ds_queue (seek_stream pts flags ds) = ds_queue ds
  /\ ds_reader_head (seek_stream pts flags ds) = find_seek_target ds pts flags
  /\ ds_skip_to_keyframe (seek_stream pts flags ds)
     = negb (is_some (find_seek_target ds pts flags)).
Proof.
  unfold seek_stream. cbv zeta.
  set (ds2 := set_ds_skip_to_keyframe _ _).
  destruct (recompute_buffers_fields ds2) as [Eq [Eh _]].
  rewrite Eq, Eh. repeat split.
  unfold recompute_buffers.
  destruct (recompute_buffers_loop _ _ _ _ _ _ _) as [[a b] c].
  reflexivity.
Qed.

Lemma queue_ok_seek_stream (pts : Q) (flags : Z) (ds : demux_stream) :
  queue_ok (seek_stream pts flags ds).
Proof.
  unfold seek_stream. cbv zeta. apply queue_ok_recompute_buffers.
  unfold head_in_queue.
  change (ds_reader_head (set_ds_skip_to_keyframe _ (set_ds_reader_head ?t ds)))
    with t.
  change (ds_queue (set_ds_skip_to_keyframe _ (set_ds_reader_head _ ds)))
    with (ds_queue ds).
  pose proof (find_seek_target_spec ds pts flags) as H.
  destruct (find_seek_target ds pts flags); [apply H|exact I].
Qed.

Lemma cache_ok_try_seek_cache (d : demux_internal) (pts : Q) (flags : Z) :
  cache_ok d -> cache_ok (snd (try_seek_cache d pts flags)).
Proof.
  intros Hok. unfold cache_ok. rewrite try_seek_cache_streams.
  destruct (fst (try_seek_cache d pts flags)); [|exact Hok].
  apply Forall_forall. intros ds' Hin. apply in_map_iff in Hin.
  destruct Hin as [ds [<- _]]. apply queue_ok_seek_stream.
Qed.

(** C2: every operation that modifies a queue keeps the invariant of the
    accounting, and under it [fw_bytes + bw_bytes] is the sum of the
    estimated sizes of the queued packets and [fw_packs] the number of
    packets from [reader_head] to the tail, for every queue whose size
    and length a [size_t] can hold. The operations return: the pruner
    that runs in them neither fails its assertion nor runs out of
    fuel. *)
Theorem accounting_preserved (op : queue_op) (d : demux_internal) :
  cache_ok d ->
  exists d',
    run_op op d = Done d'
    /\ cache_ok d'
    /\ forall n ds, stream_at d' n = Some ds -> fits ds -> accounting ds.
Proof.
  intros Hok.
  assert (Hacc : forall d', cache_ok d' ->
            forall n ds, stream_at d' n = Some ds -> fits ds -> accounting ds).
  { intros d' Hok' n ds Hn Hfit. apply queue_ok_accounting; [|exact Hfit].
    eapply Forall_nth_error; [exact Hok'|exact Hn]. }
  destruct op as [stream dp|stream| |pts flags]; cbn [run_op].
  - eexists. split; [reflexivity|].
    pose proof (cache_ok_add_packet stream dp d Hok) as H.
    split; [exact H|apply Hacc; exact H].
  - destruct (dequeue_packet_spec stream d Hok) as [r [d' [E [Hok' _]]]].
    rewrite E. exists d'.
    split; [reflexivity|]. split; [exact Hok'|apply Hacc; exact Hok'].
  - destruct (prune_old_packets_spec d Hok) as [d' [E [Hok' _]]].
    exists d'.
    split; [exact E|]. split; [exact Hok'|apply Hacc; exact Hok'].
  - eexists. split; [reflexivity|].
    pose proof (cache_ok_try_seek_cache d pts flags Hok) as H.
    split; [exact H|apply Hacc; exact H].
Qed.

Lemma accounting_preserved_witness :
  exists d',
    run_op (OpDequeue 0) prune_example = Done d'
    /\ cache_ok d'
    /\ forall n ds, stream_at d' n = Some ds -> fits ds -> accounting ds.
Proof.
  apply accounting_preserved.
  unfold cache_ok. repeat constructor; vm_compute; congruence.
Defined.

(** C4: on a cache whose accounting is right, whenever the loop condition
    of [prune_old_packets] holds there is a stream whose queue head is not
    [reader_head], and the scan finds one, so the assertion holds; the
    pruner returns, and what it frees are packets at the head of back
    buffers: the packets from [reader_head] on stay as they are. *)
Theorem prune_old_packets_safe (d : demux_internal) :
  cache_ok d ->
  (to_size_t (in_max_bytes_bw d) < sum_bw_bytes (in_streams d) 0 ->
   exists k ds,
     snd (find_earliest (in_streams d) 0 MP_NOPTS_VALUE (-1)) = Z.of_nat k
     /\ stream_at d k = Some ds
     /\ prunable ds = true)
  /\ exists d',
       prune_old_packets d = Done d'
       /\ cache_ok d'
       /\ Forall2 pruned (in_streams d) (in_streams d').
Proof.
  intros Hok. split.
  - intros Hc.
    change (sum_bw_bytes (in_streams d) 0)
      with (sum_bw_bytes (in_streams d) (to_size_t 0)) in Hc.
    rewrite (sum_bw_bytes_ok _ 0 Hok), Z.add_0_l in Hc.
    pose proof (to_size_t_range (in_max_bytes_bw d)) as Hmax.
    destruct (find_earliest_spec (in_streams d) 0 MP_NOPTS_VALUE (-1)
                ltac:(lia) ltac:(intros _; reflexivity))
      as [[E F]|[k [ds [E [N P]]]]].
    + specialize (F ltac:(lia)).
      rewrite (total_back_not_prunable _ F) in Hc.
      change (to_size_t 0) with 0 in Hc. lia.
    + exists k, ds. rewrite E. repeat split; [exact N|exact P].
  - destruct (prune_old_packets_spec d Hok) as [d' [E [Hok' [Hp _]]]].
    exists d'. repeat split; assumption.
Qed.

Lemma prune_old_packets_safe_witness :
  exists d',
    prune_old_packets prune_example_read = Done d'
    /\ cache_ok d'
    /\ Forall2 pruned (in_streams prune_example_read) (in_streams d').
Proof.
  apply prune_old_packets_safe.
  unfold cache_ok. repeat constructor; vm_compute; congruence.
Defined.

(** ** The file position *)

(** C10: [dequeue_packet] moves [filepos] to the position of the packet it
    takes from the queue only when that position is not below [filepos],
    and leaves it alone otherwise, so over any run of [dequeue_packet]
    calls, which all return, [filepos] never decreases;
    [clear_reader_state] puts it back to -1. *)
Theorem filepos_monotone (ns : list nat) (d : demux_internal) :
  cache_ok d ->
  exists d',
    dequeue_packets ns d = Done d'
    /\ cache_ok d'
    /\ d_user_filepos d <= d_user_filepos d'
    /\ (forall n, ns = [n] ->
          d_user_filepos d'
          = match dequeued n d with
            | Some pkt => if d_user_filepos d <=? dp_pos pkt
                          then dp_pos pkt else d_user_filepos d
            | None => d_user_filepos d
            end)
    /\ d_user_filepos (clear_reader_state d') = -1.
Proof.
  revert d. induction ns as [|n rest IH]; intros d Hok.
  - exists d. cbn [dequeue_packets]. repeat split; try assumption; try lia.
    intros n H. discriminate.
  - cbn [dequeue_packets].
    destruct (dequeue_packet_spec n d Hok) as [r [d1 [E [Hok1 Hf]]]].
    rewrite E.
    destruct (IH d1 Hok1) as [d' [E' [Hok' [Hm [Hs _]]]]].
    exists d'. split; [exact E'|]. split; [exact Hok'|].
    assert (Hstep : d_user_filepos d <= d_user_filepos d1).
    { rewrite Hf. destruct (dequeued n d) as [pkt|]; [|lia].
      destruct (d_user_filepos d <=? dp_pos pkt) eqn:C; [|lia].
      apply Z.leb_le in C. exact C. }
    split; [lia|]. split; [|reflexivity].
    intros n' H. injection H as -> ->.
    cbn [dequeue_packets] in E'. injection E' as <-. exact Hf.
Qed.

Lemma filepos_monotone_witness :
  exists d',
    dequeue_packets [0; 0; 0]%nat prune_example = Done d'
    /\ d_user_filepos prune_example <= d_user_filepos d'.
Proof.
  assert (H : cache_ok prune_example)
    by (unfold cache_ok; repeat constructor; vm_compute; congruence).
  destruct (filepos_monotone [0; 0; 0]%nat prune_example H)
    as [d' [E [_ [Hm _]]]].
  exists d'. split; assumption.
Defined.

Lemma has_flag_clear_flag (flags f : Z) :
  has_flag (clear_flag flags f) f = false.
Proof.
  unfold has_flag, clear_flag.
  rewrite <- Z.land_assoc, (Z.land_comm (Z.lnot f)), Z.land_lnot_diag,
    Z.land_0_r.
  reflexivity.
Qed.

Lemma adjust_seek_target_spec (streams : list demux_stream) (pts : Q)
    (flags : Z) (target_pts : Q) :
  adjust_seek_target streams pts flags = Some target_pts ->
  exists ds i,
    In ds streams
    /\ ds_selected ds = true /\ ds_type ds = STREAM_VIDEO
    /\ find_seek_target ds pts flags = Some i
    /\ target_pts = range_pts (ds_queue ds) i.
Proof.
  induction streams as [|ds rest IH]; [discriminate|].
  cbn [adjust_seek_target].
  destruct (ds_selected ds && stream_type_eqb (ds_type ds) STREAM_VIDEO)
    eqn:C.
  - apply andb_true_iff in C. destruct C as [C1 C2].
    destruct (find_seek_target ds pts flags) as [i|] eqn:T; [|discriminate].
    cbv zeta.
    destruct (negb (Qeq_bool _ MP_NOPTS_VALUE)); [|discriminate].
    intros [= <-]. exists ds, i. repeat split; try assumption.
    + left. reflexivity.
    + destruct (ds_type ds); try discriminate. reflexivity.
  - intros H. destruct (IH H) as [ds' [i [Hin H']]].
    exists ds', i. split; [right; exact Hin|exact H'].
Qed.

(** C3, as the code has it: after [try_seek_cache] returns true, every
    queue has either no [reader_head] and [skip_to_keyframe] set, or a
    [reader_head] that is a keyframe whose range has a PTS. That PTS is
    bounded with respect to the effective target: [pts] itself under
    SEEK_HR or when the first selected video stream gives no target, and
    else the PTS of the video stream's keyframe, with SEEK_FORWARD
    cleared. While SEEK_FORWARD is in effect the PTS is at or after the
    effective target. Otherwise it is at or before the effective target
    unless no keyframe range of the queue is (the reader is then put on a
    later one), provided no range lies exactly 2^63 seconds before the
    target. *)
Theorem try_seek_cache_targets (d : demux_internal) (pts : Q) (flags : Z) :
  fst (try_seek_cache d pts flags) = true ->
  let d' := snd (try_seek_cache d pts flags) in
  let pts' := fst (effective_seek (clear_reader_state d) pts flags) in
  let flags' := snd (effective_seek (clear_reader_state d) pts flags) in
  (has_flag flags SEEK_HR = true -> pts' = pts /\ flags' = flags)
  /\ ((pts' = pts /\ flags' = flags)
      \/ (has_flag flags' SEEK_FORWARD = false
          /\ exists ds i,
               In ds (in_streams d)
               /\ ds_selected ds = true /\ ds_type ds = STREAM_VIDEO
               /\ find_seek_target ds pts flags = Some i
               /\ pts' = range_pts (ds_queue ds) i))
  /\ forall n ds',
       stream_at d' n = Some ds' ->
       (ds_reader_head ds' = None /\ ds_skip_to_keyframe ds' = true)
       \/ (exists i p,
             ds_reader_head ds' = Some i
             /\ ds_skip_to_keyframe ds' = false
             /\ nth_error (ds_queue ds') i = Some p
             /\ dp_keyframe p = true
             /\ ~ (range_pts (ds_queue ds') i == MP_NOPTS_VALUE)%Q
             /\ (has_flag flags' SEEK_FORWARD = true ->
                 (pts' <= range_pts (ds_queue ds') i)%Q)
             /\ (has_flag flags' SEEK_FORWARD = false ->
                 no_sentinel_diff (ds_queue ds') pts' flags' ->
                 (range_pts (ds_queue ds') i <= pts')%Q
                 \/ forall k,
                      seek_candidate (ds_queue ds') pts' flags' k ->
                      (pts' < range_pts (ds_queue ds') k)%Q)).
Proof.
  intros Hhit. cbv zeta.
  split; [|split].
  - intros Hhr. unfold effective_seek. rewrite Hhr. split; reflexivity.
  - unfold effective_seek.
    destruct (negb (has_flag flags SEEK_HR)); [|left; split; reflexivity].
    destruct (adjust_seek_target (in_streams (clear_reader_state d)) pts flags)
      as [target_pts|] eqn:A; [|left; split; reflexivity].
    right. cbn [fst snd]. split; [apply has_flag_clear_flag|].
    apply adjust_seek_target_spec in A.
    destruct A as [ds0 [i [Hin [Hs [Ht [Hf Hp]]]]]].
    change (in_streams (clear_reader_state d))
      with (map ds_clear_reader_state (in_streams d)) in Hin.
    apply in_map_iff in Hin. destruct Hin as [ds [<- Hin]].
    exists ds, i. repeat split; assumption.
  - intros n ds' Hn. unfold stream_at in Hn.
    rewrite try_seek_cache_streams, Hhit in Hn.
    set (pts' := fst (effective_seek (clear_reader_state d) pts flags)) in *.
    set (flags' := snd (effective_seek (clear_reader_state d) pts flags)) in *.
    rewrite nth_error_map in Hn.
    destruct (nth_error (in_streams d) n) as [ds|]; [|discriminate].
    cbn [option_map] in Hn. injection Hn as <-.
    destruct (seek_stream_fields pts' flags' (ds_clear_reader_state ds))
      as [Eq [Eh Es]].
    rewrite Eq, Eh, Es.
    pose proof (find_seek_target_spec (ds_clear_reader_state ds) pts' flags')
      as H.
    destruct (find_seek_target (ds_clear_reader_state ds) pts' flags')
      as [i|]; [|left; split; reflexivity].
    right. destruct H as [Hi [[p [Hp [Hk [Hr Hfw]]]] Hm]].
    exists i, p. repeat split; try assumption.
    intros Hnf Hs.
    destruct (Qlt_le_dec 0
                (seek_diff pts' flags'
                   (range_pts (ds_queue (ds_clear_reader_state ds)) i)))
      as [Hpos|Hneg].
    + right. intros k Hck. specialize (Hm Hs Hpos k Hck).
      unfold seek_diff in Hm. rewrite Hnf in Hm. lra.
    + left. unfold seek_diff in Hneg. rewrite Hnf in Hneg. lra.
Qed.

Lemma try_seek_cache_targets_witness :
  exists ds' i p,
    stream_at (snd (try_seek_cache seek_example 5 SEEK_HR)) 1 = Some ds'
    /\ ds_reader_head ds' = Some i
    /\ nth_error (ds_queue ds') i = Some p
    /\ dp_keyframe p = true
    /\ ((range_pts (ds_queue ds') i <= 5)%Q
        \/ forall k, seek_candidate (ds_queue ds') 5 SEEK_HR k ->
                     (5 < range_pts (ds_queue ds') k)%Q).
Proof.
  assert (H : fst (try_seek_cache seek_example 5 SEEK_HR) = true)
    by (vm_compute; reflexivity).
  eassert (E : stream_at (snd (try_seek_cache seek_example 5 SEEK_HR)) 1
               = Some _) by (vm_compute; reflexivity).
  destruct (proj2 (proj2 (try_seek_cache_targets seek_example 5 SEEK_HR H))
              1%nat _ E) as [[C _]|[i [p [Hh [_ [Hn [Hk [_ [_ Hb]]]]]]]]].
  - vm_compute in C. discriminate.
  - eexists. exists i, p.
    split; [exact E|]. split; [exact Hh|]. split; [exact Hn|].
    split; [exact Hk|]. apply Hb; [reflexivity|].
    intros k [q [Hq [_ [Hr _]]]] Hd.
    destruct k as [|k]; [|destruct k; discriminate].
    vm_compute in Hd. discriminate.
Defined.

Lemma seek_lands_after_target :
  ~ seek_target_claim seek_example 5 SEEK_HR.
Proof.
  intros H.
  assert (Hhit : fst (try_seek_cache seek_example 5 SEEK_HR) = true)
    by (vm_compute; reflexivity).
  eassert (E : stream_at (snd (try_seek_cache seek_example 5 SEEK_HR)) 1
               = Some _) by (vm_compute; reflexivity).
  destruct (H Hhit 1%nat _ E) as [[C _]|[i [p [Hh [_ [_ Hc]]]]]].
  - vm_compute in C. discriminate.
  - vm_compute in Hh. injection Hh as <-.
    change (has_flag SEEK_HR SEEK_FORWARD) with false in Hc.
    vm_compute in Hc. apply Hc. reflexivity.
Qed.

(** * More of the cache *)

(** ** What the pruner leaves alone *)

Lemma pruner_frame_refl (ds : demux_stream) : pruner_frame ds ds.
Proof. destruct ds. reflexivity. Qed.

Lemma pruner_frame_trans (ds1 ds2 ds3 : demux_stream) :
  pruner_frame ds1 ds2 -> pruner_frame ds2 ds3 -> pruner_frame ds1 ds3.
Proof.
  unfold pruner_frame. intros H1 H2. rewrite H2. rewrite H1 at 1.
  destruct ds1. reflexivity.
Qed.

Lemma prune_stream_frame (ds : demux_stream) (buffered : Z) :
  pruner_frame ds (fst (prune_stream ds buffered)).
Proof.
  unfold pruner_frame, prune_stream.
  change (ds_queue (set_ds_back_pts MP_NOPTS_VALUE ds)) with (ds_queue ds).
  change (ds_back_pts (set_ds_back_pts MP_NOPTS_VALUE ds))
    with MP_NOPTS_VALUE.
  destruct (next_seek_target_loop (ds_queue ds) 0 None MP_NOPTS_VALUE)
    as [nst back_pts].
  change (ds_queue (set_ds_back_pts back_pts
                      (set_ds_back_pts MP_NOPTS_VALUE ds)))
    with (ds_queue ds).
  change (ds_reader_head (set_ds_back_pts back_pts
                            (set_ds_back_pts MP_NOPTS_VALUE ds)))
    with (ds_reader_head ds).
  change (ds_bw_bytes (set_ds_back_pts back_pts
                         (set_ds_back_pts MP_NOPTS_VALUE ds)))
    with (ds_bw_bytes ds).
  destruct (prune_drop_loop (ds_queue ds) (ds_reader_head ds) nst
              (ds_bw_bytes ds) buffered) as [[[q rh] bw] b].
  destruct ds. reflexivity.
Qed.

Lemma Forall2_frame_refl (streams : list demux_stream) :
  Forall2 pruner_frame streams streams.
Proof.
  induction streams; constructor; auto using pruner_frame_refl.
Qed.

Lemma Forall2_frame_trans (l1 l2 l3 : list demux_stream) :
  Forall2 pruner_frame l1 l2 -> Forall2 pruner_frame l2 l3 ->
  Forall2 pruner_frame l1 l3.
Proof.
  intros H. revert l3. induction H as [|a b l1 l2 Hab _ IH]; intros l3 H3.
  - inversion H3. constructor.
  - inversion H3 as [|b' c l2' l3' Hbc Hrest]; subst.
    constructor; [eapply pruner_frame_trans; eassumption|].
    apply IH. exact Hrest.
Qed.

Lemma Forall2_frame_list_set (streams : list demux_stream) (k : nat)
    (ds ds' : demux_stream) :
  nth_error streams k = Some ds -> pruner_frame ds ds' ->
  Forall2 pruner_frame streams (list_set k ds' streams).
Proof.
  revert k. induction streams as [|h t IH]; intros [|k] H Hp;
    try discriminate.
  - injection H as ->. cbn [list_set].
    constructor; [exact Hp|apply Forall2_frame_refl].
  - cbn [list_set]. constructor; [apply pruner_frame_refl|].
    eapply IH; eassumption.
Qed.

Lemma prune_loop_frame (fuel : nat) :
  forall (d d' : demux_internal) (buffered : Z),
    prune_loop fuel d buffered = Done d' ->
    Forall2 pruner_frame (in_streams d) (in_streams d').
Proof.
  induction fuel as [|fuel IH]; intros d d' buffered H.
  - cbn [prune_loop] in H.
    destruct (to_size_t (in_max_bytes_bw d) <? buffered); [discriminate|].
    injection H as <-. apply Forall2_frame_refl.
  - cbn [prune_loop] in H.
    destruct (to_size_t (in_max_bytes_bw d) <? buffered).
    2:{ injection H as <-. apply Forall2_frame_refl. }
    destruct (find_earliest (in_streams d) 0 MP_NOPTS_VALUE (-1))
      as [ets es].
    destruct (es <? 0); [discriminate|].
    destruct (nth_error (in_streams d) (Z.to_nat es)) as [ds|] eqn:N;
      [|discriminate].
    pose proof (prune_stream_frame ds buffered) as F.
    destruct (prune_stream ds buffered) as [ds' buffered'].
    cbn [fst] in F.
    apply IH in H.
    change (in_streams (set_stream (Z.to_nat es) ds' d))
      with (list_set (Z.to_nat es) ds' (in_streams d)) in H.
    eapply Forall2_frame_trans; [|exact H].
    eapply Forall2_frame_list_set; eassumption.
Qed.

(** ** The back-buffer limit *)

Lemma Forall2_nth_error {A B : Type} (R : A -> B -> Prop) (l : list A)
    (l' : list B) (n : nat) (x : A) :
  Forall2 R l l' -> nth_error l n = Some x ->
  exists y, nth_error l' n = Some y /\ R x y.
Proof.
  intros H. revert n. induction H as [|a b l l' Hab _ IH]; intros [|n] E;
    try discriminate.
  - injection E as <-. exists b. split; [reflexivity|exact Hab].
  - apply IH. exact E.
Qed.

Lemma pruned_back_le (ds ds' : demux_stream) :
  pruned ds ds' -> sum_sizes (backbuffer ds') <= sum_sizes (backbuffer ds).
Proof.
  intros [dropped [_ [Hb _]]]. rewrite Hb, sum_sizes_app.
  pose proof (sum_sizes_nonneg dropped). lia.
Qed.

Lemma total_back_pruned (l l' : list demux_stream) :
  Forall2 pruned l l' -> total_back l' <= total_back l.
Proof.
  induction 1 as [|a b l l' Hab _ IH]; [reflexivity|].
  cbn [total_back fold_right]. fold (total_back l). fold (total_back l').
  pose proof (pruned_back_le _ _ Hab). lia.
Qed.

Lemma total_back_nonneg (l : list demux_stream) : 0 <= total_back l.
Proof.
  induction l as [|a l IH]; [reflexivity|].
  cbn [total_back fold_right]. fold (total_back l).
  pose proof (sum_sizes_nonneg (backbuffer a)). lia.
Qed.

Lemma prune_loop_cap (fuel : nat) :
  forall (d d' : demux_internal) (buffered : Z),
    cache_ok d ->
    buffered = to_size_t (total_back (in_streams d)) ->
    prune_loop fuel d buffered = Done d' ->
    to_size_t (total_back (in_streams d')) <= to_size_t (in_max_bytes_bw d).
Proof.
  induction fuel as [|fuel IH]; intros d d' buffered Hok Hb H.
  - cbn [prune_loop] in H.
    destruct (to_size_t (in_max_bytes_bw d) <? buffered) eqn:C;
      [discriminate|].
    injection H as <-. apply Z.ltb_ge in C. lia.
  - cbn [prune_loop] in H.
    destruct (to_size_t (in_max_bytes_bw d) <? buffered) eqn:C.
    2:{ injection H as <-. apply Z.ltb_ge in C. lia. }
    destruct (find_earliest (in_streams d) 0 MP_NOPTS_VALUE (-1))
      as [ets es].
    destruct (es <? 0); [discriminate|].
    destruct (nth_error (in_streams d) (Z.to_nat es)) as [ds|] eqn:N;
      [|discriminate].
    pose proof (Forall_nth_error _ _ _ _ Hok N) as Hds.
    rewrite Hb in H.
    destruct (prune_stream_spec ds (total_back (in_streams d)) Hds)
      as [dropped [Hq [Hbk [Hf [Hs [Hok' [Hbuf _]]]]]]].
    destruct (prune_stream ds (to_size_t (total_back (in_streams d))))
      as [ds' buffered'].
    cbn [fst snd] in *.
    apply IH in H.
    + exact H.
    + unfold cache_ok.
      change (in_streams (set_stream (Z.to_nat es) ds' d))
        with (list_set (Z.to_nat es) ds' (in_streams d)).
      apply Forall_list_set; assumption.
    + change (in_streams (set_stream (Z.to_nat es) ds' d))
        with (list_set (Z.to_nat es) ds' (in_streams d)).
      rewrite Hbuf. f_equal.
      pose proof (total_back_list_set _ _ _ ds' N) as T.
      rewrite Hbk, sum_sizes_app in T. lia.
Qed.

(** X1: after [prune_old_packets] the back buffers of all streams together
    are within [max_bytes_bw] (as the [size_t] sum that the code compares;
    for back buffers whose sizes fit a [size_t], as a plain sum). If they
    were within the limit before, the pruner changes nothing. *)
Theorem prune_old_packets_cap (d : demux_internal) :
  cache_ok d ->
  exists d',
    prune_old_packets d = Done d'
    /\ to_size_t (total_back (in_streams d')) <= to_size_t (in_max_bytes_bw d)
    /\ (total_back (in_streams d) < size_t_modulus ->
        total_back (in_streams d') <= to_size_t (in_max_bytes_bw d))
    /\ (to_size_t (total_back (in_streams d))
        <= to_size_t (in_max_bytes_bw d) -> d' = d).
Proof.
  intros Hok.
  destruct (prune_old_packets_spec d Hok) as [d' [R [Ok' [Pr Fr]]]].
  assert (Hsum : sum_bw_bytes (in_streams d) 0
                 = to_size_t (total_back (in_streams d))).
  { change 0 with (to_size_t 0) at 1.
    rewrite (sum_bw_bytes_ok _ 0 Hok). f_equal. }
  assert (Hcap : to_size_t (total_back (in_streams d'))
                 <= to_size_t (in_max_bytes_bw d)).
  { unfold prune_old_packets in R.
    eapply prune_loop_cap; [exact Hok| |exact R]. exact Hsum. }
  exists d'. split; [exact R|]. split; [exact Hcap|]. split.
  - intros Hfit.
    pose proof (total_back_pruned _ _ Pr) as Hle.
    pose proof (total_back_nonneg (in_streams d')) as H0.
    rewrite to_size_t_small in Hcap by lia. exact Hcap.
  - intros Hin. unfold prune_old_packets in R. rewrite Hsum in R.
    cbn [prune_loop] in R.
    replace (to_size_t (in_max_bytes_bw d)
             <? to_size_t (total_back (in_streams d))) with false in R
      by (symmetry; apply Z.ltb_ge; exact Hin).
    congruence.
Qed.

Lemma prune_old_packets_cap_witness :
  exists d',
    prune_old_packets prune_example_read = Done d'
    /\ total_back (in_streams d') <= 150.
Proof.
  assert (Hok : cache_ok prune_example_read).
  { repeat constructor; vm_compute; try reflexivity; lia. }
  destruct (prune_old_packets_cap prune_example_read Hok)
    as [d' [R [_ [C _]]]].
  exists d'. split; [exact R|].
  apply C. vm_compute. reflexivity.
Defined.

(** ** Reading packets in order *)

Lemma pruner_frame_attached_picture (ds ds' : demux_stream) :
  pruner_frame ds ds' -> ds_attached_picture ds' = ds_attached_picture ds.
Proof. unfold pruner_frame. intros ->. destruct ds. reflexivity. Qed.

Lemma dequeue_head_attached_picture (i : nat) (pkt : demux_packet)
    (ds : demux_stream) :
  ds_attached_picture (dequeue_head i pkt ds) = ds_attached_picture ds.
Proof. destruct ds, pkt. reflexivity. Qed.

Lemma forward_cons_head (ds : demux_stream) (pkt : demux_packet)
    (rest : list demux_packet) :
  forward ds = pkt :: rest ->
  exists i, ds_reader_head ds = Some i
            /\ nth_error (ds_queue ds) i = Some pkt
            /\ rest = skipn (S i) (ds_queue ds).
Proof.
  unfold forward. destruct (ds_reader_head ds) as [i|]; [|discriminate].
  intros H. exists i. split; [reflexivity|].
  assert (N : nth_error (ds_queue ds) i = Some pkt).
  { revert H. generalize (ds_queue ds). clear. intros q. revert q.
    induction i as [|i IH]; intros [|h t] H; try discriminate.
    - injection H as -> _. reflexivity.
    - cbn [skipn] in H. cbn [nth_error]. apply IH. exact H. }
  split; [exact N|].
  rewrite (skipn_nth_error _ _ _ N) in H. congruence.
Qed.

Lemma forward_dequeue_head (i : nat) (pkt : demux_packet)
    (ds : demux_stream) :
  forward (dequeue_head i pkt ds) = skipn (S i) (ds_queue ds).
Proof.
  destruct (dequeue_head_fields i pkt ds) as [Eq [Eh _]].
  unfold forward. rewrite Eh, Eq.
  destruct (S i <? length (ds_queue ds))%nat eqn:C; [reflexivity|].
  apply Nat.ltb_ge in C. symmetry. apply skipn_all2. exact C.
Qed.

(** One call of [dequeue_packet] on a stream whose forward buffer starts
    with [pkt]. *)
Lemma dequeue_packet_forward (n : nat) (d : demux_internal)
    (ds : demux_stream) (pkt : demux_packet) (rest : list demux_packet) :
  cache_ok d ->
  nth_error (in_streams d) n = Some ds ->
  ds_attached_picture ds = None ->
  forward ds = pkt :: rest ->
  exists d' ds',
    dequeue_packet n d
    = Done (Some (returned_packet (in_ts_offset d) pkt), d')
    /\ cache_ok d'
    /\ in_ts_offset d' = in_ts_offset d
    /\ nth_error (in_streams d') n = Some ds'
    /\ ds_attached_picture ds' = None
    /\ forward ds' = rest.
Proof.
  intros Hok E Hpic Hfw.
  destruct (forward_cons_head _ _ _ Hfw) as [i [Hr [Hn Hrest]]].
  pose proof (Forall_nth_error _ _ _ _ Hok E) as Hds.
  unfold dequeue_packet. rewrite E, Hpic, Hr, Hn. cbv zeta.
  set (d1 := set_stream n (dequeue_head i pkt ds) d).
  set (d2 := set_d_user_filepos _ d1).
  change (in_ts_offset d2) with (in_ts_offset d).
  assert (Hs2 : in_streams d2
                = list_set n (dequeue_head i pkt ds) (in_streams d))
    by reflexivity.
  assert (Hok2 : cache_ok d2).
  { unfold cache_ok. rewrite Hs2.
    apply Forall_list_set; [exact Hok|].
    apply queue_ok_dequeue_head; assumption. }
  destruct (prune_old_packets_spec d2 Hok2) as [d3 [R [Ok3 [Pr Fr]]]].
  rewrite R.
  assert (N2 : nth_error (in_streams d2) n = Some (dequeue_head i pkt ds)).
  { rewrite Hs2. eapply nth_error_list_set_eq. exact E. }
  destruct (Forall2_nth_error _ _ _ _ _ Pr N2) as [ds3 [N3 P3]].
  unfold prune_old_packets in R. apply prune_loop_frame in R.
  destruct (Forall2_nth_error _ _ _ _ _ R N2) as [ds3' [N3' F3]].
  rewrite N3 in N3'. injection N3' as <-.
  exists d3, ds3. split; [reflexivity|]. split; [exact Ok3|].
  split; [rewrite Fr; reflexivity|]. split; [exact N3|]. split.
  - rewrite (pruner_frame_attached_picture _ _ F3).
    rewrite dequeue_head_attached_picture. exact Hpic.
  - destruct P3 as [dropped [_ [_ [Hf _]]]].
    rewrite Hf, forward_dequeue_head. symmetry. exact Hrest.
Qed.

(** [dequeue_packet] on a stream with nothing to read. *)
Lemma dequeue_packet_empty (n : nat) (d : demux_internal)
    (ds : demux_stream) :
  cache_ok d ->
  nth_error (in_streams d) n = Some ds ->
  ds_attached_picture ds = None ->
  forward ds = [] ->
  dequeue_packet n d = Done (None, d).
Proof.
  intros Hok E Hpic Hfw.
  pose proof (Forall_nth_error _ _ _ _ Hok E) as [Hh _].
  unfold dequeue_packet. rewrite E, Hpic.
  unfold forward, head_in_queue in *.
  destruct (ds_reader_head ds) as [i|]; [|reflexivity].
  apply (f_equal (@length _)) in Hfw. rewrite length_skipn in Hfw.
  cbn [length] in Hfw. lia.
Qed.

Lemma dequeue_run_forward (n : nat) (k : nat) :
  forall (d : demux_internal) (ds : demux_stream),
    cache_ok d ->
    nth_error (in_streams d) n = Some ds ->
    ds_attached_picture ds = None ->
    (k <= length (forward ds))%nat ->
    exists d' ds',
      dequeue_run n k d
      = Done (map (fun pkt => Some (returned_packet (in_ts_offset d) pkt))
                (firstn k (forward ds)), d')
      /\ cache_ok d'
      /\ in_ts_offset d' = in_ts_offset d
      /\ nth_error (in_streams d') n = Some ds'
      /\ ds_attached_picture ds' = None
      /\ forward ds' = skipn k (forward ds).
Proof.
  induction k as [|k IH]; intros d ds Hok E Hpic Hk.
  - exists d, ds. repeat split; assumption.
  - destruct (forward ds) as [|pkt rest] eqn:Hfw; [cbn [length] in Hk; lia|].
    destruct (dequeue_packet_forward n d ds pkt rest Hok E Hpic Hfw)
      as [d1 [ds1 [R1 [Ok1 [T1 [N1 [P1 F1]]]]]]].
    cbn [length] in Hk.
    destruct (IH d1 ds1 Ok1 N1 P1 ltac:(rewrite F1; lia))
      as [d2 [ds2 [R2 [Ok2 [T2 [N2 [P2 F2]]]]]]].
    exists d2, ds2. cbn [dequeue_run firstn map skipn].
    rewrite R1, R2, T1, F1.
    split; [reflexivity|]. split; [exact Ok2|].
    split; [congruence|]. split; [exact N2|]. split; [exact P2|].
    rewrite F2, F1. reflexivity.
Qed.

(** X2: the reader gets the packets of the forward buffer in queue order,
    each with [ts_offset] added to its timestamps, one per call of
    [dequeue_packet]; the calls leave behind the rest of the forward
    buffer, and once it is used up [dequeue_packet] returns NULL and
    changes nothing. *)
Theorem dequeue_packet_fifo (n k : nat) (d : demux_internal)
    (ds : demux_stream) :
  cache_ok d ->
  stream_at d n = Some ds ->
  ds_attached_picture ds = None ->
  (k <= length (forward ds))%nat ->
  exists d' ds',
    dequeue_run n k d
    = Done (map (fun pkt => Some (returned_packet (in_ts_offset d) pkt))
              (firstn k (forward ds)), d')
    /\ stream_at d' n = Some ds'
    /\ forward ds' = skipn k (forward ds)
    /\ (k = length (forward ds) ->
        fst (demux_has_packet n d') = false
        /\ dequeue_packet n d' = Done (None, d')).
Proof.
  intros Hok E Hpic Hk.
  destruct (dequeue_run_forward n k d ds Hok E Hpic Hk)
    as [d' [ds' [R [Ok' [_ [N' [P' F']]]]]]].
  exists d', ds'. split; [exact R|]. split; [exact N'|].
  split; [exact F'|]. intros ->.
  rewrite skipn_all in F'. split.
  - unfold demux_has_packet. rewrite N'. cbn [fst].
    pose proof (Forall_nth_error _ _ _ _ Ok' N') as [Hh _].
    unfold forward, head_in_queue in *.
    destruct (ds_reader_head ds') as [i|]; [|reflexivity].
    apply (f_equal (@length _)) in F'. rewrite length_skipn in F'.
    cbn [length] in F'. lia.
  - apply (dequeue_packet_empty n d' ds'); assumption.
Qed.

Lemma dequeue_packet_fifo_witness :
  exists d',
    dequeue_run 0 3 prune_example
    = Done ([Some (example_packet 0 true 100 10);
             Some (example_packet 1 true 100 20);
             Some (example_packet 2 true 100 30)], d')
    /\ dequeue_packet 0 d' = Done (None, d').
Proof.
  assert (Hok : cache_ok prune_example).
  { repeat constructor; vm_compute; try reflexivity; lia. }
  eassert (E : stream_at prune_example 0 = Some _)
    by (vm_compute; reflexivity).
  destruct (dequeue_packet_fifo 0 3 prune_example _ Hok E eq_refl
              ltac:(vm_compute; lia))
    as [d' [ds' [R [_ [_ Hend]]]]].
  exists d'. split; [exact R|].
  apply Hend. reflexivity.
Defined.

(** ** Attached pictures *)

Lemma set_stream_same (n : nat) (ds : demux_stream) (d : demux_internal) :
  nth_error (in_streams d) n = Some ds -> set_stream n ds d = d.
Proof.
  intros E. unfold set_stream. rewrite (list_set_same _ _ _ E).
  destruct d. reflexivity.
Qed.

Lemma nth_error_set_stream (n : nat) (ds ds' : demux_stream)
    (d : demux_internal) :
  nth_error (in_streams d) n = Some ds ->
  nth_error (in_streams (set_stream n ds' d)) n = Some ds'.
Proof.
  intros E.
  change (in_streams (set_stream n ds' d))
    with (list_set n ds' (in_streams d)).
  eapply nth_error_list_set_eq. exact E.
Qed.

(** [dequeue_packet] on a stream whose attached picture has been
    returned. *)
Lemma dequeue_packet_picture_added (n : nat) (d : demux_internal)
    (ds : demux_stream) (picture : demux_packet) :
  nth_error (in_streams d) n = Some ds ->
  ds_attached_picture ds = Some picture ->
  ds_attached_picture_added ds = true ->
  ds_eof ds = true ->
  dequeue_packet n d = Done (None, d).
Proof.
  intros E Hpic Hadded Heof. unfold dequeue_packet.
  rewrite E, Hpic, Hadded. cbv zeta.
  replace (set_ds_attached_picture_added true (set_ds_eof true ds)) with ds.
  - rewrite (set_stream_same _ _ _ E). reflexivity.
  - destruct ds. cbn in Hadded, Heof. subst. reflexivity.
Qed.

Lemma dequeue_run_picture_added (n k : nat) (d : demux_internal)
    (ds : demux_stream) (picture : demux_packet) :
  nth_error (in_streams d) n = Some ds ->
  ds_attached_picture ds = Some picture ->
  ds_attached_picture_added ds = true ->
  ds_eof ds = true ->
  dequeue_run n k d = Done (repeat None k, d).
Proof.
  intros E Hpic Hadded Heof. induction k as [|k IH]; [reflexivity|].
  cbn [dequeue_run repeat].
  rewrite (dequeue_packet_picture_added n d ds picture E Hpic Hadded Heof).
  rewrite IH. reflexivity.
Qed.

(** X3: a stream with an attached picture (cover art) returns that
    picture, stamped with the index of the stream, on the first call of
    [dequeue_packet] after the reader state was cleared, and NULL on every
    later call; the stream is at EOF from the first call on, and neither
    its queue nor any other stream is touched. *)
Theorem attached_picture_once (n k : nat) (d : demux_internal)
    (ds : demux_stream) (picture : demux_packet) :
  stream_at d n = Some ds ->
  ds_attached_picture ds = Some picture ->
  ds_attached_picture_added ds = false ->
  dequeue_run n (S k) d
  = Done (Some (set_dp_stream (Z.of_nat n) picture) :: repeat None k,
          set_stream n
            (set_ds_attached_picture_added true (set_ds_eof true ds)) d).
Proof.
  intros E Hpic Hadded. cbn [dequeue_run].
  unfold dequeue_packet at 1. unfold stream_at in E.
  rewrite E, Hpic, Hadded. cbv zeta.
  set (ds1 := set_ds_attached_picture_added true (set_ds_eof true ds)).
  rewrite (dequeue_run_picture_added n k (set_stream n ds1 d) ds1 picture).
  - reflexivity.
  - eapply nth_error_set_stream. exact E.
  - unfold ds1. destruct ds. exact Hpic.
  - unfold ds1. destruct ds. reflexivity.
  - unfold ds1. destruct ds. reflexivity.
Qed.

Lemma attached_picture_once_witness :
  exists d',
    dequeue_run 1 3 cover_art_example
    = Done ([Some (set_dp_stream 1 (example_packet 0 true 5000 0));
             None; None], d')
    /\ option_map ds_eof (stream_at d' 1) = Some true.
Proof.
  eassert (E : stream_at cover_art_example 1 = Some _)
    by (vm_compute; reflexivity).
  eexists. split.
  - exact (attached_picture_once 1 2 cover_art_example _ _ E eq_refl
             eq_refl).
  - vm_compute. reflexivity.
Defined.

(** ** From the producer to the reader *)

Lemma append_packet_frame (stream : nat) (dp : demux_packet)
    (ds : demux_stream) :
  ds_attached_picture (append_packet stream dp ds) = ds_attached_picture ds
  /\ ds_skip_to_keyframe (append_packet stream dp ds)
     = (if negb (is_some (ds_reader_head ds))
           && (negb (ds_skip_to_keyframe ds) || dp_keyframe dp)
        then false else ds_skip_to_keyframe ds)
  /\ ds_selected (append_packet stream dp ds) = ds_selected ds
  /\ ds_type (append_packet stream dp ds) = ds_type ds.
Proof. destruct ds, dp. repeat split; reflexivity. Qed.

(** Where [append_packet] puts the packet: at the end of the forward
    buffer, unless the stream has no [reader_head] and waits for a
    keyframe that the packet is not. *)
Lemma append_packet_buffers (stream : nat) (dp : demux_packet)
    (ds : demux_stream) :
  head_in_queue ds ->
  let q := queued_packet stream (ds_type ds) dp in
  let ds' := append_packet stream dp ds in
  if is_some (ds_reader_head ds) || negb (ds_skip_to_keyframe ds)
     || dp_keyframe dp
  then forward ds' = forward ds ++ [q] /\ backbuffer ds' = backbuffer ds
       /\ is_some (ds_reader_head ds') = true
  else forward ds' = [] /\ backbuffer ds' = backbuffer ds ++ [q]
       /\ ds_reader_head ds' = None.
Proof.
  intros Hh q ds'.
  destruct (append_packet_fields stream dp ds) as [Eh _].
  pose proof (append_packet_queue stream dp ds) as Eq.
  cbv zeta in Eh. fold ds' in Eh, Eq. fold q in Eq.
  unfold forward, backbuffer, head_in_queue in *. rewrite Eh, Eq.
  destruct (ds_reader_head ds) as [i|]; cbn [is_some negb andb orb].
  - rewrite skipn_app, firstn_app.
    replace (i - length (ds_queue ds))%nat with O by lia.
    cbn [skipn firstn]. rewrite app_nil_r. repeat split.
  - destruct (negb (ds_skip_to_keyframe ds) || dp_keyframe dp);
      cbn [is_some].
    + rewrite skipn_app, firstn_app, skipn_all, firstn_all, Nat.sub_diag.
      cbn [skipn firstn app]. rewrite app_nil_r. repeat split.
    + repeat split.
Qed.

Lemma add_packet_ts_offset (stream : nat) (dp : demux_packet)
    (d : demux_internal) :
  in_ts_offset (demux_add_packet stream dp d) = in_ts_offset d.
Proof.
  unfold demux_add_packet.
  destruct (nth_error (in_streams d) stream) as [ds|]; [|reflexivity].
  cbv zeta.
  destruct (negb (ds_selected (refresh_test dp ds))
            || ds_need_refresh (refresh_test dp ds)
            || in_seeking (emit EvLock d) || ds_refreshing ds);
    reflexivity.
Qed.

(** The stream is one whose packets [demux_add_packet] queues. *)
Lemma add_packet_accepted (stream : nat) (dp : demux_packet)
    (d : demux_internal) (ds : demux_stream) :
  stream_at d stream = Some ds ->
  ds_selected ds = true -> ds_need_refresh ds = false ->
  ds_refreshing ds = false -> in_seeking d = false ->
  stream_at (demux_add_packet stream dp d) stream
  = Some (append_packet stream dp ds).
Proof.
  intros E Hs Hn Hr Hk. unfold stream_at.
  rewrite (stream_at_add_packet_queued stream dp d ds E)
    by (rewrite Hs, Hn, Hr, Hk; reflexivity).
  eapply nth_error_list_set_eq. exact E.
Qed.

(** X4: a packet that [demux_add_packet] queues (selected stream, no
    refresh pending or running, no seek queued) goes to the end of the
    forward buffer and is readable ([demux_has_packet]), unless the stream
    has no [reader_head] and waits for a keyframe ([skip_to_keyframe])
    that the packet is not: then the packet goes to the end of the back
    buffer, the stream keeps waiting and nothing is readable. *)
Theorem add_packet_forward_or_back (stream : nat) (dp : demux_packet)
    (d : demux_internal) (ds : demux_stream) :
  cache_ok d ->
  stream_at d stream = Some ds ->
  ds_selected ds = true -> ds_need_refresh ds = false ->
  ds_refreshing ds = false -> in_seeking d = false ->
  let q := queued_packet stream (ds_type ds) dp in
  let d' := demux_add_packet stream dp d in
  exists ds',
    stream_at d' stream = Some ds'
    /\ if is_some (ds_reader_head ds) || negb (ds_skip_to_keyframe ds)
          || dp_keyframe dp
       then forward ds' = forward ds ++ [q]
            /\ backbuffer ds' = backbuffer ds
            /\ fst (demux_has_packet stream d') = true
       else forward ds' = []
            /\ backbuffer ds' = backbuffer ds ++ [q]
            /\ ds_skip_to_keyframe ds' = true
            /\ fst (demux_has_packet stream d') = false.
Proof.
  intros Hok E Hs Hn Hr Hk q d'.
  pose proof (add_packet_accepted stream dp d ds E Hs Hn Hr Hk) as E'.
  fold d' in E'.
  pose proof (Forall_nth_error _ _ _ _ Hok E) as [Hh _].
  pose proof (append_packet_buffers stream dp ds Hh) as B.
  destruct (append_packet_frame stream dp ds) as [_ [Ek _]].
  cbv zeta in B. fold q in B.
  exists (append_packet stream dp ds). split; [exact E'|].
  unfold demux_has_packet. unfold stream_at in E'. rewrite E'. cbn [fst].
  destruct (is_some (ds_reader_head ds) || negb (ds_skip_to_keyframe ds)
            || dp_keyframe dp) eqn:C.
  - destruct B as [Bf [Bb Bh]]. repeat split; assumption.
  - destruct B as [Bf [Bb Bh]]. rewrite Bh. cbn [is_some].
    repeat split; try assumption.
    rewrite Ek.
    destruct (ds_reader_head ds); [discriminate|].
    cbn [is_some negb orb andb] in *.
    destruct (ds_skip_to_keyframe ds); [|discriminate].
    cbn [negb orb] in *. rewrite C. reflexivity.
Qed.

Lemma add_packet_forward_or_back_witness :
  exists ds',
    stream_at (demux_add_packet 0 (example_packet 3 true 100 40)
                 prune_example) 0 = Some ds'
    /\ map dp_pts (forward ds') = [0; 1; 2; 3]%Q
    /\ fst (demux_has_packet 0
              (demux_add_packet 0 (example_packet 3 true 100 40)
                 prune_example)) = true.
Proof.
  assert (Hok : cache_ok prune_example).
  { repeat constructor; vm_compute; try reflexivity; lia. }
  eassert (E : stream_at prune_example 0 = Some _)
    by (vm_compute; reflexivity).
  destruct (add_packet_forward_or_back 0 (example_packet 3 true 100 40)
              prune_example _ Hok E eq_refl eq_refl eq_refl eq_refl)
    as [ds' [E' [Hf [_ Hp]]]].
  exists ds'. split; [exact E'|]. split; [|exact Hp].
  rewrite Hf. vm_compute. reflexivity.
Defined.

(** The cache after [demux_add_packet] has queued a packet on a stream
    which is not waiting for a keyframe. *)
Lemma add_packet_then_forward (stream : nat) (dp : demux_packet)
    (d : demux_internal) (ds : demux_stream) :
  cache_ok d ->
  stream_at d stream = Some ds ->
  ds_selected ds = true -> ds_need_refresh ds = false ->
  ds_refreshing ds = false -> in_seeking d = false ->
  is_some (ds_reader_head ds) || negb (ds_skip_to_keyframe ds)
  || dp_keyframe dp = true ->
  exists ds1,
    cache_ok (demux_add_packet stream dp d)
    /\ nth_error (in_streams (demux_add_packet stream dp d)) stream
       = Some ds1
    /\ ds_attached_picture ds1 = ds_attached_picture ds
    /\ forward ds1 = forward ds ++ [queued_packet stream (ds_type ds) dp].
Proof.
  intros Hok E Hs Hn Hr Hk C.
  pose proof (add_packet_accepted stream dp d ds E Hs Hn Hr Hk) as E'.
  pose proof (Forall_nth_error _ _ _ _ Hok E) as [Hh _].
  pose proof (append_packet_buffers stream dp ds Hh) as B.
  cbv zeta in B. rewrite C in B. destruct B as [Bf _].
  destruct (append_packet_frame stream dp ds) as [Ep _].
  exists (append_packet stream dp ds).
  split; [apply cache_ok_add_packet; exact Hok|].
  split; [exact E'|]. split; [exact Ep|exact Bf].
Qed.

(** Reading all there is to read. *)
Lemma dequeue_run_all (n : nat) (d : demux_internal) (ds : demux_stream) :
  cache_ok d ->
  nth_error (in_streams d) n = Some ds ->
  ds_attached_picture ds = None ->
  exists d',
    dequeue_run n (length (forward ds)) d
    = Done (map (fun pkt => Some (returned_packet (in_ts_offset d) pkt))
              (forward ds), d')
    /\ fst (demux_has_packet n d') = false.
Proof.
  intros Hok E Hpic.
  destruct (dequeue_run_forward n (length (forward ds)) d ds Hok E Hpic
              (Nat.le_refl _))
    as [d' [ds' [R [Ok' [_ [N' [_ F']]]]]]].
  exists d'. rewrite R, firstn_all. split; [reflexivity|].
  unfold demux_has_packet. rewrite N'. cbn [fst].
  pose proof (Forall_nth_error _ _ _ _ Ok' N') as [Hh' _].
  rewrite skipn_all in F'.
  unfold forward, head_in_queue in *.
  destruct (ds_reader_head ds') as [i|]; [|reflexivity].
  apply (f_equal (@length _)) in F'. rewrite length_skipn in F'.
  cbn [length] in F'. lia.
Qed.

(** X5: what the producer queues is what the reader gets. After
    [demux_add_packet] has queued a packet on a stream that is not waiting
    for a keyframe, [dequeue_packet] returns the packets that were in the
    forward buffer, in their order, and then the new packet, each with
    [ts_offset] added to its timestamps; after that the stream has
    nothing to read. *)
Theorem add_then_dequeue (stream : nat) (dp : demux_packet)
    (d : demux_internal) (ds : demux_stream) :
  cache_ok d ->
  stream_at d stream = Some ds ->
  ds_attached_picture ds = None ->
  ds_selected ds = true -> ds_need_refresh ds = false ->
  ds_refreshing ds = false -> in_seeking d = false ->
  is_some (ds_reader_head ds) || negb (ds_skip_to_keyframe ds)
  || dp_keyframe dp = true ->
  exists d',
    dequeue_run stream (S (length (forward ds)))
      (demux_add_packet stream dp d)
    = Done (map (fun pkt => Some (returned_packet (in_ts_offset d) pkt))
              (forward ds ++ [queued_packet stream (ds_type ds) dp]), d')
    /\ fst (demux_has_packet stream d') = false.
Proof.
  intros Hok E Hpic Hs Hn Hr Hk C.
  destruct (add_packet_then_forward stream dp d ds Hok E Hs Hn Hr Hk C)
    as [ds1 [Ok1 [N1 [P1 F1]]]].
  rewrite Hpic in P1.
  destruct (dequeue_run_all stream (demux_add_packet stream dp d) ds1
              Ok1 N1 P1) as [d' [R H]].
  rewrite F1, length_app, Nat.add_comm, add_packet_ts_offset in R.
  exists d'. split; [exact R|exact H].
Qed.

Lemma add_then_dequeue_witness :
  exists d',
    dequeue_run 0 4
      (demux_add_packet 0 (example_packet 3 true 100 40) prune_example)
    = Done ([Some (example_packet 0 true 100 10);
             Some (example_packet 1 true 100 20);
             Some (example_packet 2 true 100 30);
             Some (example_packet 3 true 100 40)], d')
    /\ fst (demux_has_packet 0 d') = false.
Proof.
  assert (Hok : cache_ok prune_example).
  { repeat constructor; vm_compute; try reflexivity; lia. }
  eassert (E : stream_at prune_example 0 = Some _)
    by (vm_compute; reflexivity).
  exact (add_then_dequeue 0 (example_packet 3 true 100 40) prune_example _
           Hok E eq_refl eq_refl eq_refl eq_refl eq_refl eq_refl).
Defined.

(** ** Seeks that miss the cache *)

(** A log line of the seek code. *)
Lemma try_seek_cache_miss (d : demux_internal) (pts : Q) (flags : Z) :
  fst (try_seek_cache d pts flags) = false ->
  exists evs,
    snd (try_seek_cache d pts flags) = set_in_trace (evs ++ in_trace d) d
    /\ Forall (fun e => exists msg, e = EvLog MSGL_V msg) evs.
Proof.
  assert (Hd : d = set_in_trace ([] ++ in_trace d) d)
    by (destruct d; reflexivity).
  unfold try_seek_cache.
  destruct (has_flag flags SEEK_FACTOR || negb (in_seekable_cache d)).
  { intros _. exists []. split; [exact Hd|constructor]. }
  destruct (in_seeking d).
  { intros _. exists []. split; [exact Hd|constructor]. }
  cbv zeta.
  match goal with
  | |- context [if ?c then (false, _) else _] => destruct c
  end.
  - intros _. eexists [_]. split; [reflexivity|].
    repeat constructor. eexists. reflexivity.
  - set (d1 := clear_reader_state (emit _ d)).
    destruct (effective_seek d1 pts flags) as [pts' flags'].
    match goal with
    | |- context [seek_streams_loop ?a ?b ?c ?t] =>
        destruct (seek_streams_loop a b c t)
    end.
    cbn [fst]. discriminate.
Qed.

Lemma try_seek_cache_trace (d : demux_internal) (trace : list event)
    (pts : Q) (flags : Z) :
  fst (try_seek_cache (set_in_trace trace d) pts flags)
  = fst (try_seek_cache d pts flags).
Proof.
  unfold try_seek_cache.
  change (in_seekable_cache (set_in_trace trace d))
    with (in_seekable_cache d).
  change (in_seeking (set_in_trace trace d)) with (in_seeking d).
  destruct (has_flag flags SEEK_FACTOR || negb (in_seekable_cache d));
    [reflexivity|].
  destruct (in_seeking d); [reflexivity|].
  cbv zeta.
  change (cached_demux_control_reader_state (set_in_trace trace d))
    with (cached_demux_control_reader_state d).
  change (in_ts_offset (set_in_trace trace d)) with (in_ts_offset d).
  match goal with
  | |- context [if ?c then (false, _) else _] => destruct c
  end; [reflexivity|].
  repeat match goal with
  | |- context [effective_seek ?a ?b ?c] =>
      destruct (effective_seek a b c)
  end.
  repeat match goal with
  | |- context [seek_streams_loop ?a ?b ?c ?t] =>
      destruct (seek_streams_loop a b c t)
  end.
  reflexivity.
Qed.

Lemma ds_clear_demux_state_idem (ds : demux_stream) :
  ds_clear_demux_state (ds_clear_reader_state ds) = ds_clear_demux_state ds.
Proof. destruct ds. vm_compute. reflexivity. Qed.

(** A packet that arrives while a seek is queued is dropped. *)
Lemma add_packet_while_seeking (stream : nat) (dp : demux_packet)
    (d : demux_internal) :
  in_seeking d = true ->
  Forall (fun ds => ds_refreshing ds = false) (in_streams d) ->
  in_streams (demux_add_packet stream dp d) = in_streams d.
Proof.
  intros Hk Hr.
  destruct (nth_error (in_streams d) stream) as [ds|] eqn:E.
  - rewrite (stream_at_add_packet_dropped stream dp d ds E)
      by (rewrite Hk; destruct (ds_selected ds), (ds_need_refresh ds);
          reflexivity).
    apply list_set_same. rewrite E. f_equal.
    pose proof (Forall_nth_error _ _ _ _ Hr E) as R. cbv beta in R.
    destruct ds. cbn in R. subst. reflexivity.
  - unfold demux_add_packet. rewrite E. reflexivity.
Qed.

(** The target that [demux_seek] works with: the position in the
    timestamps of the file. *)
Lemma demux_seek_miss_eq (desc : demuxer_desc) (d : demux_internal)
    (seek_pts : Q) (flags : Z) :
  d_user_seekable d = true ->
  ~ (seek_pts == MP_NOPTS_VALUE)%Q ->
  in_threading d = true ->
  fst (try_seek_cache d (seek_target d seek_pts flags) flags) = false ->
  exists evs,
    demux_seek desc d seek_pts flags
    = (1, emit EvUnlock
            (emit EvCondSignal
               (set_in_seek_pts (seek_target d seek_pts flags)
                  (set_in_seek_flags flags
                     (set_in_seeking true
                        (clear_demux_state
                           (set_in_trace (evs ++ in_trace d) d))))))).
Proof.
  intros Hs Hp Ht Hmiss. unfold demux_seek. rewrite Hs.
  apply Qeq_bool_false_iff in Hp. rewrite Hp. cbn [negb]. cbv zeta.
  set (d1 := emit (EvLog MSGL_V "queuing seek to %f%s") (emit EvLock d)).
  change (in_ts_offset d1) with (in_ts_offset d).
  fold (seek_target d seek_pts flags).
  assert (Hmiss1 : fst (try_seek_cache d1 (seek_target d seek_pts flags)
                          flags) = false).
  { unfold d1, emit.
    change (set_in_trace ?t (set_in_trace ?u d)) with (set_in_trace t d).
    rewrite try_seek_cache_trace. exact Hmiss. }
  destruct (try_seek_cache_miss d1 _ _ Hmiss1) as [evs [E _]].
  destruct (try_seek_cache d1 (seek_target d seek_pts flags) flags)
    as [hit d2].
  cbn [fst snd] in *. subst hit d2.
  exists (evs ++ [EvLog MSGL_V "queuing seek to %f%s"; EvLock]).
  change (in_threading
            (set_in_seek_pts (seek_target d seek_pts flags)
               (set_in_seek_flags flags
                  (set_in_seeking true
                     (clear_demux_state
                        (set_in_trace (evs ++ in_trace d1) d1))))))
    with (in_threading d).
  rewrite Ht. cbn [negb].
  replace (set_in_trace (evs ++ in_trace d1) d1)
    with (set_in_trace
            ((evs ++ [EvLog MSGL_V "queuing seek to %f%s"; EvLock])
             ++ in_trace d) d).
  - reflexivity.
  - rewrite <- app_assoc. destruct d. reflexivity.
Qed.

(** X6: a seek that the cache cannot serve, on a seekable demuxer that
    runs in its thread: [demux_seek] returns 1, drops the packets of every
    stream and resets its state, queues the seek for the thread (target
    in the timestamps of the file, flags as given) and signals the thread;
    until the thread has run the seek, every packet that the demuxer adds
    is dropped. *)
Theorem demux_seek_queues_seek (desc : demuxer_desc) (d : demux_internal)
    (seek_pts : Q) (flags : Z) :
  d_user_seekable d = true ->
  ~ (seek_pts == MP_NOPTS_VALUE)%Q ->
  in_threading d = true ->
  fst (try_seek_cache d (seek_target d seek_pts flags) flags) = false ->
  let d' := snd (demux_seek desc d seek_pts flags) in
  fst (demux_seek desc d seek_pts flags) = 1
  /\ in_seeking d' = true
  /\ in_seek_pts d' = seek_target d seek_pts flags
  /\ in_seek_flags d' = flags
  /\ in_streams d' = map ds_clear_demux_state (in_streams d)
  /\ d_user_filepos d' = -1
  /\ (exists evs,
        in_trace d' = EvUnlock :: EvCondSignal :: evs ++ in_trace d)
  /\ forall stream dp,
       in_streams (demux_add_packet stream dp d') = in_streams d'.
Proof.
  intros Hs Hp Ht Hmiss d'.
  destruct (demux_seek_miss_eq desc d seek_pts flags Hs Hp Ht Hmiss)
    as [evs E].
  subst d'. rewrite E. cbn [fst snd].
  set (d0 := set_in_trace (evs ++ in_trace d) d).
  assert (Hstreams :
            in_streams
              (emit EvUnlock
                 (emit EvCondSignal
                    (set_in_seek_pts (seek_target d seek_pts flags)
                       (set_in_seek_flags flags
                          (set_in_seeking true (clear_demux_state d0))))))
            = map ds_clear_demux_state (in_streams d)).
  { change (in_streams
              (emit EvUnlock
                 (emit EvCondSignal
                    (set_in_seek_pts (seek_target d seek_pts flags)
                       (set_in_seek_flags flags
                          (set_in_seeking true (clear_demux_state d0)))))))
      with (map ds_clear_demux_state
              (map ds_clear_reader_state (in_streams d))).
    rewrite map_map. apply map_ext. apply ds_clear_demux_state_idem. }
  split; [reflexivity|]. split; [reflexivity|]. split; [reflexivity|].
  split; [reflexivity|]. split; [exact Hstreams|].
  split; [reflexivity|]. split.
  - exists evs. reflexivity.
  - intros stream dp. apply add_packet_while_seeking; [reflexivity|].
    rewrite Hstreams. apply Forall_forall. intros ds' Hin.
    apply in_map_iff in Hin. destruct Hin as [ds [<- _]]. reflexivity.
Qed.

Lemma demux_seek_queues_seek_witness :
  in_seeking (snd (demux_seek example_desc seek_example 20 SEEK_HR)) = true
  /\ (in_seek_pts (snd (demux_seek example_desc seek_example 20 SEEK_HR))
      == 20)%Q
  /\ map ds_queue
       (in_streams (snd (demux_seek example_desc seek_example 20 SEEK_HR)))
     = [[]; []].
Proof.
  assert (Hp : ~ (20 == MP_NOPTS_VALUE)%Q) by (vm_compute; discriminate).
  destruct (demux_seek_queues_seek example_desc seek_example 20 SEEK_HR
              eq_refl Hp eq_refl ltac:(vm_compute; reflexivity))
    as [_ [Hk [Hpts [_ [Hst _]]]]].
  split; [exact Hk|]. split.
  - rewrite Hpts. vm_compute. reflexivity.
  - rewrite Hst. vm_compute. reflexivity.
Defined.

(** ** What a seek in the cache leaves alone *)

Lemma seek_stream_demux_state (pts : Q) (flags : Z) (ds : demux_stream) :
  demux_state (seek_stream pts flags (ds_clear_reader_state ds))
  = demux_state ds.
Proof.
  unfold seek_stream.
  generalize (find_seek_target (ds_clear_reader_state ds) pts flags).
  intros target. unfold recompute_buffers.
  match goal with
  | |- context [recompute_buffers_loop ?q ?i ?h ?b ?x ?y ?z] =>
      destruct (recompute_buffers_loop q i h b x y z) as [[fp fb] bb]
  end.
  destruct ds. reflexivity.
Qed.

(** X7: [try_seek_cache] never drops, adds or reorders a packet, and it
    leaves the demuxer side of every stream as it was (selection, EOF,
    refresh state, last position and timestamps, start of the back
    buffer): a hit moves the readers only. A miss changes nothing at all
    but the log. *)
Theorem try_seek_cache_keeps_packets (d : demux_internal) (pts : Q)
    (flags : Z) :
  map demux_state (in_streams (snd (try_seek_cache d pts flags)))
  = map demux_state (in_streams d)
  /\ (fst (try_seek_cache d pts flags) = false ->
      exists evs,
        snd (try_seek_cache d pts flags)
        = set_in_trace (evs ++ in_trace d) d
        /\ Forall (fun e => exists msg, e = EvLog MSGL_V msg) evs).
Proof.
  split; [|apply try_seek_cache_miss].
  rewrite try_seek_cache_streams.
  destruct (fst (try_seek_cache d pts flags)); [|reflexivity].
  rewrite map_map. apply map_ext. intros ds.
  apply seek_stream_demux_state.
Qed.

(** ** The seek range that is reported *)

Lemma MP_PTS_MAX_cases (a b : Q) :
  ~ (b == MP_NOPTS_VALUE)%Q ->
  (b <= MP_PTS_MAX a b)%Q
  /\ ~ (MP_PTS_MAX a b == MP_NOPTS_VALUE)%Q
  /\ (~ (a == MP_NOPTS_VALUE)%Q -> (a <= MP_PTS_MAX a b)%Q)
  /\ (MP_PTS_MAX a b = a \/ MP_PTS_MAX a b = b).
Proof.
  intros Hb. unfold MP_PTS_MAX, PTS_OR_DEF, MPMAX.
  destruct (Qeq_bool b MP_NOPTS_VALUE) eqn:Eb; qprop; [contradiction|].
  destruct (Qeq_bool a MP_NOPTS_VALUE) eqn:Ea; qprop.
  - destruct (Qlt_bool b b) eqn:C; qprop;
      repeat split; try assumption; try lra; auto.
  - destruct (Qlt_bool b a) eqn:C; qprop;
      repeat split; try assumption; try lra; auto.
Qed.

(** The streams that DEMUXER_CTRL_GET_READER_STATE looks at all know
    where their packets start and end. *)
Lemma reader_scan_seek_ok (streams : list demux_stream) (a : reader_scan) :
  rs_seek_ok (fold_left reader_scan_step streams a)
  = rs_seek_ok a && forallb known_range streams.
Proof.
  revert a. induction streams as [|ds rest IH]; intros a.
  - cbn [fold_left forallb]. rewrite andb_true_r. reflexivity.
  - cbn [fold_left forallb]. rewrite IH. unfold reader_scan_step, known_range.
    destruct (contributes ds); cbn [negb orb rs_seek_ok].
    + destruct (Qeq_bool (ds_back_pts ds) MP_NOPTS_VALUE
                || Qeq_bool (ds_last_ts ds) MP_NOPTS_VALUE);
        cbn [negb andb]; [rewrite andb_false_r|]; reflexivity.
    + reflexivity.
Qed.

Lemma known_range_spec (ds : demux_stream) :
  known_range ds = true -> contributes ds = true ->
  ~ (ds_back_pts ds == MP_NOPTS_VALUE)%Q
  /\ ~ (ds_last_ts ds == MP_NOPTS_VALUE)%Q.
Proof.
  unfold known_range. intros H C. rewrite C in H. cbn [negb orb] in H.
  apply negb_true_iff, orb_false_iff in H. destruct H as [H1 H2].
  qprop. split; assumption.
Qed.

Lemma reader_scan_bounds (streams : list demux_stream) :
  forall a : reader_scan,
    forallb known_range streams = true ->
    let r := fold_left reader_scan_step streams a in
    (~ (rs_ts_min a == MP_NOPTS_VALUE)%Q ->
     ~ (rs_ts_min r == MP_NOPTS_VALUE)%Q /\ (rs_ts_min a <= rs_ts_min r)%Q)
    /\ (~ (rs_ts_max a == MP_NOPTS_VALUE)%Q ->
        ~ (rs_ts_max r == MP_NOPTS_VALUE)%Q
        /\ (rs_ts_max a <= rs_ts_max r)%Q)
    /\ (forall ds, In ds streams -> contributes ds = true ->
        ~ (rs_ts_min r == MP_NOPTS_VALUE)%Q
        /\ ~ (rs_ts_max r == MP_NOPTS_VALUE)%Q
        /\ (ds_back_pts ds <= rs_ts_min r)%Q
        /\ (ds_last_ts ds <= rs_ts_max r)%Q)
    /\ (rs_ts_min r = rs_ts_min a
        \/ exists ds, In ds streams /\ contributes ds = true
                      /\ rs_ts_min r = ds_back_pts ds)
    /\ (rs_ts_max r = rs_ts_max a
        \/ exists ds, In ds streams /\ contributes ds = true
                      /\ rs_ts_max r = ds_last_ts ds).
Proof.
  induction streams as [|ds rest IH]; intros a Hk r.
  - subst r. cbn [fold_left].
    split; [intros H; split; [exact H|lra]|].
    split; [intros H; split; [exact H|lra]|].
    split; [intros ds []|]. split; left; reflexivity.
  - cbn [forallb] in Hk. apply andb_true_iff in Hk. destruct Hk as [Hds Hk].
    subst r. cbn [fold_left].
    specialize (IH (reader_scan_step a ds) Hk). cbv zeta in IH.
    destruct IH as [Imin [Imax [Iall [Iwmin Iwmax]]]].
    set (r := fold_left reader_scan_step rest (reader_scan_step a ds)) in *.
    destruct (contributes ds) eqn:C.
    + destruct (known_range_spec ds Hds C) as [Hb Hl].
      assert (Ea : rs_ts_min (reader_scan_step a ds)
                   = MP_PTS_MAX (rs_ts_min a) (ds_back_pts ds)
                   /\ rs_ts_max (reader_scan_step a ds)
                      = MP_PTS_MAX (rs_ts_max a) (ds_last_ts ds)).
      { unfold reader_scan_step. rewrite C. split; reflexivity. }
      destruct Ea as [Emin Emax].
      destruct (MP_PTS_MAX_cases (rs_ts_min a) _ Hb)
        as [Hb1 [Hb2 [Hb3 Hb4]]].
      destruct (MP_PTS_MAX_cases (rs_ts_max a) _ Hl)
        as [Hl1 [Hl2 [Hl3 Hl4]]].
      rewrite Emin in Imin, Iwmin. rewrite Emax in Imax, Iwmax.
      specialize (Imin Hb2). specialize (Imax Hl2).
      destruct Imin as [Imin1 Imin2]. destruct Imax as [Imax1 Imax2].
      split; [intros Ha; split; [exact Imin1|]; specialize (Hb3 Ha); lra|].
      split; [intros Ha; split; [exact Imax1|]; specialize (Hl3 Ha); lra|].
      split.
      { intros ds' [<-|Hin] C'.
        - repeat split; try assumption; lra.
        - apply Iall; assumption. }
      split.
      { destruct Iwmin as [Iw|[ds' [Hin [C' Iw]]]].
        - destruct Hb4 as [Hb4|Hb4].
          + left. congruence.
          + right. exists ds. split; [left; reflexivity|].
            split; [exact C|]. congruence.
        - right. exists ds'. split; [right; exact Hin|].
          split; assumption. }
      { destruct Iwmax as [Iw|[ds' [Hin [C' Iw]]]].
        - destruct Hl4 as [Hl4|Hl4].
          + left. congruence.
          + right. exists ds. split; [left; reflexivity|].
            split; [exact C|]. congruence.
        - right. exists ds'. split; [right; exact Hin|].
          split; assumption. }
    + assert (Ea : reader_scan_step a ds = a).
      { unfold reader_scan_step. rewrite C. reflexivity. }
      rewrite Ea in *.
      split; [exact Imin|]. split; [exact Imax|]. split.
      { intros ds' [<-|Hin] C'; [congruence|]. apply Iall; assumption. }
      split.
      { destruct Iwmin as [Iw|[ds' [Hin [C' Iw]]]]; [left; exact Iw|].
        right. exists ds'. split; [right; exact Hin|]. split; assumption. }
      { destruct Iwmax as [Iw|[ds' [Hin [C' Iw]]]]; [left; exact Iw|].
        right. exists ds'. split; [right; exact Hin|]. split; assumption. }
Qed.

(** The seek range as the loop leaves it. *)
Lemma reader_state_range_eq (d : demux_internal) :
  let a := fold_left reader_scan_step (in_streams d) (reader_scan_init d) in
  let ts_min := MP_ADD_PTS (rs_ts_min a) (in_ts_offset d) in
  let ts_max := MP_ADD_PTS (rs_ts_max a) (in_ts_offset d) in
  r_seek_ranges (cached_demux_control_reader_state d)
  = (if rs_seek_ok a && negb (Qeq_bool ts_min MP_NOPTS_VALUE)
        && Qlt_bool ts_min ts_max
     then [ {| range_start := ts_min; range_end := ts_max |} ] else [])
  /\ r_ts_end (cached_demux_control_reader_state d) = ts_max.
Proof. split; reflexivity. Qed.

(** X8: a seek range that DEMUXER_CTRL_GET_READER_STATE reports is not
    empty, is reported only by a seekable cache with no seek queued, and
    lies inside the packets of every stream the state looks at (active,
    not at EOF with an empty queue): each such stream knows the start of
    its back buffer and its last timestamp, the range starts at the
    latest of these starts, which one of the streams has, and ends at
    the latest last timestamp, all shifted by [ts_offset]. *)
Theorem reader_state_seek_range (d : demux_internal)
    (r : demux_seek_range) :
  In r (r_seek_ranges (cached_demux_control_reader_state d)) ->
  r_seek_ranges (cached_demux_control_reader_state d) = [r]
  /\ in_seekable_cache d = true /\ in_seeking d = false
  /\ (range_start r < range_end r)%Q
  /\ range_end r = r_ts_end (cached_demux_control_reader_state d)
  /\ (forall ds, In ds (in_streams d) -> contributes ds = true ->
      ~ (ds_back_pts ds == MP_NOPTS_VALUE)%Q
      /\ ~ (ds_last_ts ds == MP_NOPTS_VALUE)%Q
      /\ (ds_back_pts ds + in_ts_offset d <= range_start r)%Q
      /\ (ds_last_ts ds + in_ts_offset d <= range_end r)%Q)
  /\ (exists ds, In ds (in_streams d) /\ contributes ds = true
                 /\ range_start r = (ds_back_pts ds + in_ts_offset d)%Q).
Proof.
  destruct (reader_state_range_eq d) as [E Eend]. cbv zeta in E, Eend.
  rewrite E, Eend. clear E Eend.
  pose proof (reader_scan_seek_ok (in_streams d) (reader_scan_init d)) as Hok.
  set (a := fold_left reader_scan_step (in_streams d) (reader_scan_init d))
    in *.
  destruct (rs_seek_ok a) eqn:Sok; [|intros []].
  symmetry in Hok. apply andb_true_iff in Hok. destruct Hok as [Hinit Hk].
  change (rs_seek_ok (reader_scan_init d))
    with (in_seekable_cache d && negb (in_seeking d)) in Hinit.
  apply andb_true_iff in Hinit. destruct Hinit as [Hsc Hsk].
  apply negb_true_iff in Hsk.
  destruct (reader_scan_bounds (in_streams d) (reader_scan_init d) Hk)
    as [_ [_ [Hall [Hwmin _]]]].
  fold a in Hall, Hwmin.
  cbn [andb].
  destruct (Qeq_bool (MP_ADD_PTS (rs_ts_min a) (in_ts_offset d))
              MP_NOPTS_VALUE) eqn:Emin; [intros []|].
  cbn [negb andb].
  destruct (Qlt_bool (MP_ADD_PTS (rs_ts_min a) (in_ts_offset d))
              (MP_ADD_PTS (rs_ts_max a) (in_ts_offset d))) eqn:Elt;
    [|intros []].
  intros [<-|[]]. cbn [range_start range_end].
  split; [reflexivity|]. split; [exact Hsc|]. split; [exact Hsk|].
  qprop. split; [exact Elt|]. split; [reflexivity|].
  assert (Wit : exists ds, In ds (in_streams d) /\ contributes ds = true
                           /\ rs_ts_min a = ds_back_pts ds).
  { destruct Hwmin as [Hw|Hw]; [|exact Hw].
    exfalso. apply Emin. rewrite Hw.
    change (rs_ts_min (reader_scan_init d)) with MP_NOPTS_VALUE.
    vm_compute. reflexivity. }
  destruct Wit as [ds0 [Hin0 [C0 Emin0]]].
  destruct (Hall ds0 Hin0 C0) as [Nmin [Nmax _]].
  assert (Amin : MP_ADD_PTS (rs_ts_min a) (in_ts_offset d)
                 = (rs_ts_min a + in_ts_offset d)%Q).
  { unfold MP_ADD_PTS. apply Qeq_bool_false_iff in Nmin. rewrite Nmin.
    reflexivity. }
  assert (Amax : MP_ADD_PTS (rs_ts_max a) (in_ts_offset d)
                 = (rs_ts_max a + in_ts_offset d)%Q).
  { unfold MP_ADD_PTS. apply Qeq_bool_false_iff in Nmax. rewrite Nmax.
    reflexivity. }
  rewrite Amin, Amax. split.
  - intros ds Hin C. destruct (Hall ds Hin C) as [_ [_ [Hb Hl]]].
    destruct (known_range_spec ds) as [Kb Kl]; [|exact C|].
    { rewrite forallb_forall in Hk. apply Hk. exact Hin. }
    repeat split; try assumption; lra.
  - exists ds0. split; [exact Hin0|]. split; [exact C0|].
    rewrite Emin0. reflexivity.
Qed.

Lemma reader_state_seek_range_witness :
  exists r,
    r_seek_ranges (cached_demux_control_reader_state seek_example) = [r]
    /\ (range_start r == 0)%Q /\ (range_end r == 10)%Q.
Proof.
  eassert (E : r_seek_ranges (cached_demux_control_reader_state seek_example)
               = [_]) by (vm_compute; reflexivity).
  eexists.
  destruct (reader_state_seek_range seek_example _
              ltac:(rewrite E; left; reflexivity)) as [H _].
  split; [exact H|]. split; vm_compute; reflexivity.
Defined.

(** [try_seek_cache] past its tests. *)
Lemma try_seek_cache_fst (d : demux_internal) (pts : Q) (flags : Z) :
  fst (try_seek_cache d pts flags)
  = negb (has_flag flags SEEK_FACTOR || negb (in_seekable_cache d))
    && negb (in_seeking d)
    && negb (Qlt_bool pts (cache_range_start d)
             || Qlt_bool (cache_range_end d) pts).
Proof.
  unfold try_seek_cache.
  destruct (has_flag flags SEEK_FACTOR || negb (in_seekable_cache d));
    [reflexivity|].
  destruct (in_seeking d); [reflexivity|].
  cbv zeta. fold (cache_range_start d). fold (cache_range_end d).
  destruct (Qlt_bool pts (cache_range_start d)
            || Qlt_bool (cache_range_end d) pts); [reflexivity|].
  repeat match goal with
  | |- context [effective_seek ?a ?b ?c] =>
      destruct (effective_seek a b c)
  end.
  repeat match goal with
  | |- context [seek_streams_loop ?a ?b ?c ?t] =>
      destruct (seek_streams_loop a b c t)
  end.
  reflexivity.
Qed.

(** X9: a seek is served from the cache exactly when it is not a seek to
    a fraction of the file (SEEK_FACTOR) and DEMUXER_CTRL_GET_READER_STATE
    reports a seek range that holds the target (the range taken back to
    the timestamps of the file). *)
Theorem try_seek_cache_hits_in_range (d : demux_internal) (pts : Q)
    (flags : Z) :
  ~ (pts == MP_NOPTS_VALUE)%Q ->
  (fst (try_seek_cache d pts flags) = true
   <-> has_flag flags SEEK_FACTOR = false
       /\ exists r,
            r_seek_ranges (cached_demux_control_reader_state d) = [r]
            /\ (MP_ADD_PTS (range_start r) (- in_ts_offset d) <= pts)%Q
            /\ (pts <= MP_ADD_PTS (range_end r) (- in_ts_offset d))%Q).
Proof.
  intros Hp. rewrite try_seek_cache_fst.
  unfold cache_range_start, cache_range_end.
  destruct (reader_state_range_eq d) as [E _]. cbv zeta in E.
  pose proof (reader_scan_seek_ok (in_streams d) (reader_scan_init d)) as Hok.
  set (a := fold_left reader_scan_step (in_streams d) (reader_scan_init d))
    in *.
  change (rs_seek_ok (reader_scan_init d))
    with (in_seekable_cache d && negb (in_seeking d)) in Hok.
  split.
  - intros H. apply andb_true_iff in H. destruct H as [H Hr].
    apply andb_true_iff in H. destruct H as [Hf Hk].
    apply negb_true_iff, orb_false_iff in Hf. destruct Hf as [Hf Hsc].
    apply negb_true_iff, orb_false_iff in Hr. destruct Hr as [Hr1 Hr2].
    split; [exact Hf|].
    destruct (r_seek_ranges (cached_demux_control_reader_state d))
      as [|r l] eqn:R.
    + cbn [range_start range_end] in Hr1, Hr2. exfalso. apply Hp.
      change (MP_ADD_PTS MP_NOPTS_VALUE (- in_ts_offset d))
        with MP_NOPTS_VALUE in Hr1, Hr2.
      qprop. lra.
    + exists r. qprop. split; [|split; assumption].
      destruct (rs_seek_ok a && _ && _) in E; [|discriminate].
      congruence.
  - intros [Hf [r [R [H1 H2]]]]. rewrite R in *.
    destruct (rs_seek_ok a) eqn:Sok; [|discriminate].
    symmetry in Hok. apply andb_true_iff in Hok. destruct Hok as [Hinit _].
    apply andb_true_iff in Hinit. destruct Hinit as [Hsc Hsk].
    rewrite Hf, Hsc, Hsk. cbn [negb orb andb].
    apply negb_true_iff, orb_false_iff.
    split; [apply Qlt_bool_false_iff|apply Qlt_bool_false_iff]; assumption.
Qed.

Lemma try_seek_cache_hits_in_range_witness :
  fst (try_seek_cache seek_example 3 SEEK_HR) = true
  /\ fst (try_seek_cache seek_example 20 SEEK_HR) = false.
Proof.
  assert (H3 : ~ (3 == MP_NOPTS_VALUE)%Q) by (vm_compute; discriminate).
  assert (H20 : ~ (20 == MP_NOPTS_VALUE)%Q) by (vm_compute; discriminate).
  eassert (E : r_seek_ranges (cached_demux_control_reader_state seek_example)
               = [_]) by (vm_compute; reflexivity).
  split.
  - apply (try_seek_cache_hits_in_range seek_example 3 SEEK_HR H3).
    split; [reflexivity|]. eexists. split; [exact E|].
    split; vm_compute; discriminate.
  - destruct (fst (try_seek_cache seek_example 20 SEEK_HR)) eqn:F;
      [|reflexivity].
    apply (try_seek_cache_hits_in_range seek_example 20 SEEK_HR H20) in F.
    destruct F as [_ [r [R [_ H2]]]].
    rewrite E in R. injection R as <-.
    exfalso. revert H2. vm_compute. intros H. apply H. reflexivity.
Defined.

(** ** One refresh seek per track switch *)

Lemma clear_need_refresh_done (ds : demux_stream) :
  ds_selected (clear_need_refresh ds)
  && ds_need_refresh (clear_need_refresh ds) = false.
Proof.
  unfold clear_need_refresh. destruct (ds_selected ds) eqn:S.
  - destruct ds. cbn in *. subst. reflexivity.
  - rewrite S. reflexivity.
Qed.

Lemma clear_need_refresh_id (ds : demux_stream) :
  ds_selected ds && ds_need_refresh ds = false -> clear_need_refresh ds = ds.
Proof.
  unfold clear_need_refresh. intros H.
  destruct (ds_selected ds); [|reflexivity].
  destruct ds. cbn in *. subst. reflexivity.
Qed.

Lemma mark_refreshing_need_refresh (ds : demux_stream) :
  ds_selected (mark_refreshing ds) && ds_need_refresh (mark_refreshing ds)
  = ds_selected ds && ds_need_refresh ds.
Proof. destruct ds. reflexivity. Qed.

Lemma refresh_streams_cases (desc : demuxer_desc) (d : demux_internal) :
  let cleared := map clear_need_refresh (in_streams d) in
  exists streams,
    (streams = cleared \/ streams = map mark_refreshing cleared)
    /\ in_streams (snd (get_refresh_seek_pts desc d)) = streams.
Proof.
  cbv zeta. unfold get_refresh_seek_pts.
  rewrite refresh_scan_spec. cbv iota beta.
  match goal with
  | |- context [if ?g then (MP_NOPTS_VALUE, _) else _] => destruct g
  end.
  { eexists. split; [left; reflexivity|reflexivity]. }
  match goal with
  | |- context [if ?g then _ else _] => destruct g
  end.
  { eexists. split; [left; reflexivity|reflexivity]. }
  match goal with
  | |- context [if ?g then _ else _] => destruct g
  end.
  { eexists. split; [left; reflexivity|reflexivity]. }
  eexists. split; [right; reflexivity|reflexivity].
Qed.

(** [get_refresh_seek_pts] when no selected stream waits for a refresh. *)
Lemma get_refresh_seek_pts_idle (desc : demuxer_desc) (d : demux_internal) :
  Forall (fun ds => ds_selected ds && ds_need_refresh ds = false)
    (in_streams d) ->
  get_refresh_seek_pts desc d = (MP_NOPTS_VALUE, d).
Proof.
  intros H. unfold get_refresh_seek_pts.
  rewrite refresh_scan_spec. cbv iota beta.
  assert (Hn : refresh_needed (in_streams d) = false).
  { unfold refresh_needed. apply not_true_is_false. intros C.
    apply existsb_exists in C. destruct C as [ds [Hin C]].
    rewrite Forall_forall in H. rewrite (H ds Hin) in C. discriminate. }
  rewrite Hn. cbn [orb negb]. f_equal.
  assert (Hs : map clear_need_refresh (in_streams d) = in_streams d).
  { rewrite <- (map_id (in_streams d)) at 2. apply map_ext_in.
    intros ds Hin. apply clear_need_refresh_id.
    rewrite Forall_forall in H. apply H. exact Hin. }
  rewrite Hs. destruct d. reflexivity.
Qed.

(** X10: [get_refresh_seek_pts] takes the request for a refresh from
    every selected stream, so it asks for at most one refresh seek per
    track switch: called again on the state it leaves, whatever the
    demuxer can do, it returns NOPTS and changes nothing. *)
Theorem refresh_seek_once (desc desc' : demuxer_desc) (d : demux_internal) :
  let d1 := snd (get_refresh_seek_pts desc d) in
  Forall (fun ds => ds_selected ds && ds_need_refresh ds = false)
    (in_streams d1)
  /\ get_refresh_seek_pts desc' d1 = (MP_NOPTS_VALUE, d1).
Proof.
  cbv zeta.
  assert (H : Forall (fun ds => ds_selected ds && ds_need_refresh ds = false)
                (in_streams (snd (get_refresh_seek_pts desc d)))).
  { destruct (refresh_streams_cases desc d) as [streams [[E|E] ->]];
      subst streams; apply Forall_forall; intros ds Hin.
    - apply in_map_iff in Hin. destruct Hin as [ds0 [<- _]].
      apply clear_need_refresh_done.
    - apply in_map_iff in Hin. destruct Hin as [ds1 [<- Hin]].
      apply in_map_iff in Hin. destruct Hin as [ds0 [<- _]].
      rewrite mark_refreshing_need_refresh.
      apply clear_need_refresh_done. }
  split; [exact H|]. apply get_refresh_seek_pts_idle. exact H.
Qed.

(** ** When the demuxer is asked for packets *)

Lemma read_scan_read_more (min_secs : Q) (streams : list demux_stream) :
  forall (active read_more : bool) (bytes : Z),
    snd (fst (read_scan min_secs streams active read_more bytes))
    = read_more || existsb (wants_data min_secs) streams.
Proof.
  induction streams as [|ds rest IH]; intros active read_more bytes.
  - cbn [read_scan existsb fst snd]. rewrite orb_false_r. reflexivity.
  - cbn [read_scan existsb]. cbv zeta. rewrite IH. unfold wants_data.
    destruct (ds_active ds && negb (Qeq_bool (ds_last_ts ds) MP_NOPTS_VALUE)
              && Qlt_bool 0 min_secs
              && Qle_bool (ds_base_ts ds) (ds_last_ts ds));
      cbn [andb]; rewrite ?orb_false_r, <- ?orb_assoc; reflexivity.
Qed.

(** [read_packet] below the forward cap, up to the read. *)
Lemma read_packet_below_cap (desc : demuxer_desc) (d : demux_internal) :
  forward_bytes (in_streams d) < to_size_t (in_max_bytes d) ->
  let d0 := set_in_idle true (set_in_eof false d) in
  let read_more :=
    existsb (wants_data (in_min_secs d)) (in_streams d)
    || negb (Qeq_bool (fst (get_refresh_seek_pts desc d0)) MP_NOPTS_VALUE) in
  fst (read_packet desc d) = read_more
  /\ (read_more = false ->
      read_packet desc d = (false, snd (get_refresh_seek_pts desc d0))).
Proof.
  intros Hcap.
  pose proof (read_scan_bytes (in_min_secs d) (in_streams d) false false 0)
    as Hb.
  change (to_size_t 0) with 0 in Hb. rewrite Z.add_0_l in Hb.
  fold (forward_bytes (in_streams d)) in Hb.
  pose proof (read_scan_read_more (in_min_secs d) (in_streams d) false false
                0) as Hm.
  cbn [orb] in Hm.
  cbv zeta. cbv delta [read_packet]. cbv beta zeta.
  change (in_min_secs (set_in_idle true (set_in_eof false d)))
    with (in_min_secs d).
  change (in_streams (set_in_idle true (set_in_eof false d)))
    with (in_streams d).
  change (in_max_bytes (set_in_idle true (set_in_eof false d)))
    with (in_max_bytes d).
  destruct (read_scan (in_min_secs d) (in_streams d) false false 0)
    as [[active read_more] bytes].
  cbn [fst snd] in Hb, Hm. subst bytes read_more.
  replace (to_size_t (in_max_bytes d) <=? forward_bytes (in_streams d))
    with false by (symmetry; apply Z.leb_gt; exact Hcap).
  destruct (get_refresh_seek_pts desc (set_in_idle true (set_in_eof false d)))
    as [seek_pts d1].
  cbn [fst snd].
  destruct (existsb (wants_data (in_min_secs d)) (in_streams d)
            || negb (Qeq_bool seek_pts MP_NOPTS_VALUE)).
  2:{ split; reflexivity. }
  cbn [negb]. split; [|discriminate].
  repeat match goal with
  | |- context [match ?x with Some _ => _ | None => _ end] => destruct x
  | |- context [if ?c then _ else _] => destruct c
  | |- context [let (_, _) := ?x in _] => destruct x
  end; reflexivity.
Qed.

(** What [get_refresh_seek_pts] returns depends on the streams, the
    reference position and the demuxer only. *)
Lemma get_refresh_seek_pts_fst (desc : demuxer_desc)
    (d d' : demux_internal) :
  in_streams d = in_streams d' -> in_ref_pts d = in_ref_pts d' ->
  d_thread_seekable d = d_thread_seekable d' ->
  d_thread_partially_seekable d = d_thread_partially_seekable d' ->
  fst (get_refresh_seek_pts desc d) = fst (get_refresh_seek_pts desc d').
Proof.
  intros Hs Hr Hk Hp. unfold get_refresh_seek_pts.
  rewrite !refresh_scan_spec. cbv iota beta.
  change (d_thread_seekable (set_in_streams ?s d)) with (d_thread_seekable d).
  change (d_thread_partially_seekable (set_in_streams ?s d))
    with (d_thread_partially_seekable d).
  change (d_thread_seekable (set_in_streams ?s d'))
    with (d_thread_seekable d').
  change (d_thread_partially_seekable (set_in_streams ?s d'))
    with (d_thread_partially_seekable d').
  rewrite <- Hs, <- Hr, <- Hk, <- Hp.
  repeat match goal with
  | |- context [if ?c then _ else _] => destruct c
  end; reflexivity.
Qed.

Lemma get_refresh_seek_pts_log (desc : demuxer_desc) (d : demux_internal) :
  let d' := snd (get_refresh_seek_pts desc d) in
  in_idle d' = in_idle d /\ in_eof d' = in_eof d
  /\ exists evs,
       in_trace d' = evs ++ in_trace d
       /\ Forall (fun e => exists msg, e = EvLog MSGL_V msg) evs.
Proof.
  cbv zeta. unfold get_refresh_seek_pts.
  destruct (refresh_scan (in_streams d) (in_ref_pts d) false true true)
    as [[[[start_ts needed] normal_seek] possible] streams].
  repeat match goal with
  | |- context [if ?c then _ else _] => destruct c
  end; cbn [snd]; (split; [reflexivity|]); (split; [reflexivity|]).
  1, 2, 4: exists []; split; [reflexivity|constructor].
  eexists [_]. split; [reflexivity|].
  repeat constructor. eexists. reflexivity.
Qed.

Lemma queue_overflow_trace (d : demux_internal) :
  in_idle (queue_overflow d) = in_idle d
  /\ exists evs,
       in_trace (queue_overflow d) = evs ++ in_trace d
       /\ Forall is_overflow_event evs.
Proof.
  destruct d as [streams wakeup_cb threading warned last_eof eof idle
                 min_secs max_bytes max_bytes_bw seekable_cache
                 initial_state tracks_switched seeking seek_flags seek_pts
                 ref_pts ts_offset thread_seekable partially user_seekable
                 filepos trace].
  cbv delta [queue_overflow]; record_cbv.
  destruct (overflow_warn_loop_spec streams (overflow_header :: trace))
    as [wevs [Ew Fw]].
  fold overflow_header. rewrite Ew. clear Ew.
  destruct warned; cbn [negb];
    match goal with
    | |- context [overflow_eof_loop ?w ?s ?t] =>
        destruct (overflow_eof_loop_spec w s t) as [E1 [evs [E2 F]]];
        destruct (overflow_eof_loop w s t) as [streams' trace']
    end;
    cbn [fst snd] in *; subst streams' trace'; (split; [reflexivity|]).
  - exists (EvCondSignal :: evs). split; [reflexivity|].
    constructor; [left; reflexivity|].
    eapply Forall_impl; [|exact F]. intros e ->. right; left; reflexivity.
  - exists (EvCondSignal :: evs ++ wevs ++ [overflow_header]). split.
    + cbn [app]. rewrite <- !app_assoc. reflexivity.
    + constructor; [left; reflexivity|].
      apply Forall_app. split.
      * eapply Forall_impl; [|exact F]. intros e ->. right; left; reflexivity.
      * apply Forall_app. split.
        -- eapply Forall_impl; [|exact Fw]. intros e H. right; right. exact H.
        -- constructor; [|constructor].
           right; right. eexists. reflexivity.
Qed.

(** X11: [read_packet] reads (and returns true) exactly when the forward
    buffers are below [max_bytes] and some stream asks for packets (it is
    active with nothing to read, or refreshing, or active with less than
    [min_secs] buffered ahead of the reader) or a refresh seek is due.
    When it returns false the cache is marked idle and the lock was never
    released: nothing was asked of the demuxer. *)
Theorem read_packet_reads_iff (desc : demuxer_desc) (d : demux_internal) :
  (fst (read_packet desc d) = true
   <-> forward_bytes (in_streams d) < to_size_t (in_max_bytes d)
       /\ (existsb (wants_data (in_min_secs d)) (in_streams d) = true
           \/ ~ (fst (get_refresh_seek_pts desc d) == MP_NOPTS_VALUE)%Q))
  /\ (fst (read_packet desc d) = false ->
      in_idle (snd (read_packet desc d)) = true
      /\ exists evs,
           in_trace (snd (read_packet desc d)) = evs ++ in_trace d
           /\ ~ In EvUnlock evs).
Proof.
  destruct (Z_lt_le_dec (forward_bytes (in_streams d))
              (to_size_t (in_max_bytes d))) as [Hcap|Hcap].
  - destruct (read_packet_below_cap desc d Hcap) as [F S].
    cbv zeta in F, S.
    assert (G : fst (get_refresh_seek_pts desc
                       (set_in_idle true (set_in_eof false d)))
                = fst (get_refresh_seek_pts desc d))
      by (apply get_refresh_seek_pts_fst; reflexivity).
    rewrite G in F, S.
    split.
    + rewrite F. split.
      * intros H. split; [exact Hcap|].
        apply orb_true_iff in H. destruct H as [H|H]; [left; exact H|].
        right. apply negb_true_iff in H. qprop. exact H.
      * intros [_ [H|H]]; [rewrite H; reflexivity|].
        apply Qeq_bool_false_iff in H. rewrite H. apply orb_true_r.
    + intros Hf. rewrite Hf in F. symmetry in F.
      rewrite (S F). cbn [snd].
      destruct (get_refresh_seek_pts_log desc
                  (set_in_idle true (set_in_eof false d)))
        as [Hi [_ [evs [Et Fe]]]].
      split; [exact Hi|].
      exists evs. split; [exact Et|].
      intros Hin. rewrite Forall_forall in Fe.
      destruct (Fe _ Hin) as [msg Hmsg]. discriminate.
  - split.
    + rewrite (read_packet_overflow_eq desc d Hcap). cbn [fst].
      split; [discriminate|]. intros [H _]. lia.
    + intros _. rewrite (read_packet_overflow_eq desc d Hcap). cbn [snd].
      destruct (queue_overflow_trace (set_in_idle true (set_in_eof false d)))
        as [Hi [evs [Et Fe]]].
      split; [exact Hi|].
      exists evs. split; [exact Et|].
      intros Hin. rewrite Forall_forall in Fe.
      destruct (Fe _ Hin) as [H|[H|[msg H]]]; discriminate.
Qed.

(** ** The end of the file *)

(** [read_packet] with a demuxer that has nothing to give. *)
Lemma read_packet_eof_eq (desc : demuxer_desc) (d : demux_internal) :
  forward_bytes (in_streams d) < to_size_t (in_max_bytes d) ->
  existsb (wants_data (in_min_secs d)) (in_streams d) = true ->
  Forall (fun ds => ds_selected ds && ds_need_refresh ds = false)
    (in_streams d) ->
  in_seeking d = false ->
  desc_fill_buffer desc = None \/ demux_cancel_test desc = true ->
  read_packet desc d = (true, read_eof_state d).
Proof.
  intros Hcap Hw Hr Hk Hfill.
  pose proof (read_scan_bytes (in_min_secs d) (in_streams d) false false 0)
    as Hb.
  change (to_size_t 0) with 0 in Hb. rewrite Z.add_0_l in Hb.
  fold (forward_bytes (in_streams d)) in Hb.
  pose proof (read_scan_read_more (in_min_secs d) (in_streams d) false false
                0) as Hm.
  cbn [orb] in Hm.
  unfold read_packet.
  set (d0 := set_in_idle true (set_in_eof false d)).
  assert (E0 : in_min_secs d0 = in_min_secs d /\ in_streams d0 = in_streams d
               /\ in_max_bytes d0 = in_max_bytes d)
    by (repeat split).
  destruct E0 as [E1 [E2 E3]]. rewrite E1, E2, E3.
  destruct (read_scan (in_min_secs d) (in_streams d) false false 0)
    as [[active read_more] bytes].
  cbn [fst snd] in Hb, Hm. subst bytes read_more.
  replace (to_size_t (in_max_bytes d) <=? forward_bytes (in_streams d))
    with false by (symmetry; apply Z.leb_gt; exact Hcap).
  rewrite (get_refresh_seek_pts_idle desc d0 Hr).
  rewrite Hw.
  change (Qeq_bool MP_NOPTS_VALUE MP_NOPTS_VALUE) with true.
  cbn [negb orb].
  set (d1 := emit EvUnlock
               (set_in_initial_state false (set_in_idle false d0))).
  assert (E : match desc_fill_buffer desc with
              | Some fill_buffer =>
                  if negb (demux_cancel_test desc)
                  then let (r, d) := fill_buffer d1 in (r <=? 0, d)
                  else (true, d1)
              | None => (true, d1)
              end = (true, d1)).
  { destruct Hfill as [->| ->]; [reflexivity|].
    destruct (desc_fill_buffer desc); reflexivity. }
  rewrite E. clear E.
  set (d2 := emit EvLock (update_cache d1)).
  assert (Es : in_seeking d2 = in_seeking d) by reflexivity.
  rewrite Es, Hk. reflexivity.
Qed.

Lemma read_eof_state_fields (d : demux_internal) :
  in_streams (read_eof_state d) = map (set_ds_eof true) (in_streams d)
  /\ in_eof (read_eof_state d) = true
  /\ in_last_eof (read_eof_state d) = true
  /\ in_idle (read_eof_state d) = false
  /\ in_trace (read_eof_state d)
     = (if in_last_eof d then []
        else EvLog MSGL_V "EOF reached." :: EvCondSignal
             :: (if in_wakeup_cb d then [EvWakeupCb] else []))
       ++ [EvLock; EvUnlock; EvLock; EvUnlock] ++ in_trace d.
Proof.
  destruct d as [streams wakeup_cb threading warned last_eof eof idle
                 min_secs max_bytes max_bytes_bw seekable_cache
                 initial_state tracks_switched seeking seek_flags seek_pts
                 ref_pts ts_offset thread_seekable partially user_seekable
                 filepos trace].
  destruct last_eof, wakeup_cb; repeat split.
Qed.

Lemma read_packet_eof_state (desc : demuxer_desc) (d : demux_internal) :
  forward_bytes (in_streams d) < to_size_t (in_max_bytes d) ->
  existsb (wants_data (in_min_secs d)) (in_streams d) = true ->
  Forall (fun ds => ds_selected ds && ds_need_refresh ds = false)
    (in_streams d) ->
  in_seeking d = false ->
  desc_fill_buffer desc = None \/ demux_cancel_test desc = true ->
  let d' := snd (read_packet desc d) in
  fst (read_packet desc d) = true
  /\ in_streams d' = map (set_ds_eof true) (in_streams d)
  /\ in_eof d' = true /\ in_last_eof d' = true /\ in_idle d' = false
  /\ in_trace d'
     = (if in_last_eof d then []
        else EvLog MSGL_V "EOF reached." :: EvCondSignal
             :: (if in_wakeup_cb d then [EvWakeupCb] else []))
       ++ [EvLock; EvUnlock; EvLock; EvUnlock] ++ in_trace d.
Proof.
  intros Hcap Hw Hr Hk Hfill. cbv zeta.
  rewrite (read_packet_eof_eq desc d Hcap Hw Hr Hk Hfill). cbn [fst snd].
  split; [reflexivity|]. apply read_eof_state_fields.
Qed.

(** X12: when [read_packet] is to read but the demuxer has nothing to give
    (it has no [fill_buffer], or the stream was cancelled), no refresh
    seek is due and no seek is queued, then the read ends the file: every
    stream is at EOF, the cache is at EOF and no longer idle, and the
    reader is woken (wakeup callback, condition) unless the cache was at
    EOF before already. [fill_buffer] is not called. From then on the
    reader state reports EOF and idle, and no underrun. *)
Theorem read_packet_eof (desc : demuxer_desc) (d : demux_internal) :
  forward_bytes (in_streams d) < to_size_t (in_max_bytes d) ->
  existsb (wants_data (in_min_secs d)) (in_streams d) = true ->
  Forall (fun ds => ds_selected ds && ds_need_refresh ds = false)
    (in_streams d) ->
  in_seeking d = false ->
  desc_fill_buffer desc = None \/ demux_cancel_test desc = true ->
  let d' := snd (read_packet desc d) in
  fst (read_packet desc d) = true
  /\ in_streams d' = map (set_ds_eof true) (in_streams d)
  /\ in_eof d' = true /\ in_last_eof d' = true /\ in_idle d' = false
  /\ in_trace d'
     = (if in_last_eof d then []
        else EvLog MSGL_V "EOF reached." :: EvCondSignal
             :: (if in_wakeup_cb d then [EvWakeupCb] else []))
       ++ [EvLock; EvUnlock; EvLock; EvUnlock] ++ in_trace d
  /\ r_eof (cached_demux_control_reader_state d') = true
  /\ r_idle (cached_demux_control_reader_state d') = true
  /\ r_underrun (cached_demux_control_reader_state d') = false.
Proof.
  intros Hcap Hw Hr Hk Hfill.
  destruct (read_packet_eof_state desc d Hcap Hw Hr Hk Hfill)
    as [H1 [H2 [H3 [H4 [H5 H6]]]]].
  cbv zeta in *.
  split; [exact H1|]. split; [exact H2|]. split; [exact H3|].
  split; [exact H4|]. split; [exact H5|]. split; [exact H6|].
  set (d' := snd (read_packet desc d)) in *.
  assert (Re : r_eof (cached_demux_control_reader_state d') = in_last_eof d')
    by reflexivity.
  assert (Ri : r_idle (cached_demux_control_reader_state d') = true).
  { unfold cached_demux_control_reader_state. cbn [r_idle].
    rewrite H4. apply orb_true_r. }
  split; [rewrite Re; exact H4|]. split; [exact Ri|].
  unfold cached_demux_control_reader_state. cbn [r_underrun].
  rewrite H4, orb_true_r. apply andb_false_r.
Qed.

Lemma read_packet_eof_witness :
  fst (read_packet example_desc underrun_example) = true
  /\ map ds_eof (in_streams (snd (read_packet example_desc underrun_example)))
     = [true]
  /\ in_last_eof (snd (read_packet example_desc underrun_example)) = true.
Proof.
  destruct (read_packet_eof example_desc underrun_example)
    as [H1 [H2 [_ [H4 _]]]].
  - vm_compute. reflexivity.
  - reflexivity.
  - repeat constructor.
  - reflexivity.
  - left. reflexivity.
  - split; [exact H1|]. split; [|exact H4].
    rewrite H2. reflexivity.
Defined.

(** ** Polling for a packet *)

Lemma pruner_frame_fields (ds ds' : demux_stream) :
  pruner_frame ds ds' ->
  ds_selected ds' = ds_selected ds /\ ds_eof ds' = ds_eof ds
  /\ ds_type ds' = ds_type ds /\ ds_active ds' = ds_active ds.
Proof.
  unfold pruner_frame. intros ->. destruct ds. repeat split.
Qed.

Lemma dequeue_head_frame (i : nat) (pkt : demux_packet)
    (ds : demux_stream) :
  ds_selected (dequeue_head i pkt ds) = ds_selected ds
  /\ ds_eof (dequeue_head i pkt ds) = ds_eof ds
  /\ ds_type (dequeue_head i pkt ds) = ds_type ds
  /\ ds_active (dequeue_head i pkt ds) = ds_active ds.
Proof. destruct ds, pkt. repeat split; reflexivity. Qed.

(** What [dequeue_packet] does to a stream without attached picture, and
    what it leaves alone. *)
Lemma dequeue_packet_plain (n : nat) (d : demux_internal)
    (ds : demux_stream) :
  cache_ok d ->
  nth_error (in_streams d) n = Some ds ->
  ds_attached_picture ds = None ->
  exists pkt d' ds',
    dequeue_packet n d = Done (pkt, d')
    /\ cache_ok d'
    /\ d' = set_in_streams (in_streams d')
              (set_d_user_filepos (d_user_filepos d') d)
    /\ nth_error (in_streams d') n = Some ds'
    /\ ds_attached_picture ds' = None
    /\ ds_selected ds' = ds_selected ds /\ ds_eof ds' = ds_eof ds
    /\ ds_type ds' = ds_type ds
    /\ pkt = option_map (returned_packet (in_ts_offset d)) (hd_error (forward ds))
    /\ forward ds' = tl (forward ds)
    /\ (pkt = None -> d' = d /\ ds_reader_head ds = None).
Proof.
  intros Hok E Hpic.
  destruct (forward ds) as [|p rest] eqn:Hfw.
  - rewrite (dequeue_packet_empty n d ds Hok E Hpic Hfw).
    exists None, d, ds. split; [reflexivity|]. split; [exact Hok|].
    split; [destruct d; reflexivity|]. split; [exact E|].
    split; [exact Hpic|]. repeat split; try assumption.
    pose proof (Forall_nth_error _ _ _ _ Hok E) as [Hh _].
    unfold forward, head_in_queue in *.
    destruct (ds_reader_head ds) as [i|]; [|reflexivity].
    apply (f_equal (@length _)) in Hfw. rewrite length_skipn in Hfw.
    cbn [length] in Hfw. lia.
  - destruct (forward_cons_head _ _ _ Hfw) as [i [Hr [Hn Hrest]]].
    pose proof (Forall_nth_error _ _ _ _ Hok E) as Hds.
    unfold dequeue_packet. rewrite E, Hpic, Hr, Hn. cbv zeta.
    set (d1 := set_stream n (dequeue_head i p ds) d).
    set (d2 := set_d_user_filepos _ d1).
    change (in_ts_offset d2) with (in_ts_offset d).
    assert (Hs2 : in_streams d2
                  = list_set n (dequeue_head i p ds) (in_streams d))
      by reflexivity.
    assert (Hok2 : cache_ok d2).
    { unfold cache_ok. rewrite Hs2.
      apply Forall_list_set; [exact Hok|].
      apply queue_ok_dequeue_head; assumption. }
    destruct (prune_old_packets_spec d2 Hok2) as [d3 [R [Ok3 [Pr Fr]]]].
    rewrite R.
    assert (N2 : nth_error (in_streams d2) n = Some (dequeue_head i p ds)).
    { rewrite Hs2. eapply nth_error_list_set_eq. exact E. }
    destruct (Forall2_nth_error _ _ _ _ _ Pr N2) as [ds3 [N3 P3]].
    unfold prune_old_packets in R. apply prune_loop_frame in R.
    destruct (Forall2_nth_error _ _ _ _ _ R N2) as [ds3' [N3' F3]].
    rewrite N3 in N3'. injection N3' as <-.
    destruct (pruner_frame_fields _ _ F3) as [Fs [Fe [Ft _]]].
    destruct (dequeue_head_frame i p ds) as [Ds [De [Dt _]]].
    exists (Some (returned_packet (in_ts_offset d) p)), d3, ds3.
    split; [reflexivity|]. split; [exact Ok3|]. split.
    { assert (Hfp : d_user_filepos d3 = d_user_filepos d2)
        by (rewrite Fr; reflexivity).
      rewrite Hfp. rewrite Fr at 1.
      generalize (in_streams d3). intros streams3.
      unfold d2, d1. destruct d. reflexivity. }
    split; [exact N3|]. split.
    { rewrite (pruner_frame_attached_picture _ _ F3).
      rewrite dequeue_head_attached_picture. exact Hpic. }
    split; [congruence|]. split; [congruence|]. split; [congruence|].
    split; [reflexivity|]. split.
    { destruct P3 as [dropped [_ [_ [Hf _]]]].
      rewrite Hf, forward_dequeue_head. symmetry. exact Hrest. }
    discriminate.
Qed.

Lemma existsb_nth_error {A : Type} (f : A -> bool) (l : list A) (n : nat)
    (x : A) :
  nth_error l n = Some x -> f x = true -> existsb f l = true.
Proof.
  intros E F. apply existsb_exists. exists x. split; [|exact F].
  eapply nth_error_In. exact E.
Qed.

(** X13: with a demuxer thread, [demux_read_packet_async] on a stream
    without attached picture never waits and asks nothing of the demuxer:
    it returns what [dequeue_packet] finds, the head of the forward
    buffer. The result is 1 exactly when there is a packet, and 0 (try
    again later) only for a selected stream that is not at EOF and not
    read lazily; then the stream has been made active with nothing to
    read, so that [read_packet] on the thread will read for it as long as
    the forward buffers are below [max_bytes]. *)
Theorem read_packet_async_threaded (desc : demuxer_desc)
    (cond_wait : demux_internal -> demux_internal) (fuel : nat)
    (n : nat) (d : demux_internal) (ds : demux_stream) :
  cache_ok d ->
  in_threading d = true ->
  stream_at d n = Some ds ->
  ds_attached_picture ds = None ->
  exists r d',
    (forall desc' cond_wait' fuel',
        demux_read_packet_async desc' cond_wait' fuel' n d
        = Done (r, option_map (returned_packet (in_ts_offset d))
                     (hd_error (forward ds)), d'))
    /\ (r = 1 <-> forward ds <> [])
    /\ (r = 1 \/ r = 0 \/ r = -1)
    /\ (r = 0 ->
        ds_selected ds = true /\ ds_eof ds = false
        /\ fst (demux_has_packet n d') = false
        /\ forall desc',
             forward_bytes (in_streams d') < to_size_t (in_max_bytes d') ->
             fst (read_packet desc' d') = true).
Proof.
  intros Hok Ht E Hpic. unfold stream_at in E.
  destruct (dequeue_packet_plain n (emit EvLock d) ds Hok E Hpic)
    as [pkt [d1 [ds1 [R [Ok1 [Fr [N1 [P1 [S1 [E1 [T1 [Hp [Hf Hnone]]]]]]]]]]]]].
  change (in_ts_offset (emit EvLock d)) with (in_ts_offset d) in Hp.
  subst pkt.
  assert (Hlazy1 : is_some (ds_attached_picture ds1) = false)
    by (rewrite P1; reflexivity).
  destruct (use_lazy_packet_reading ds1 d1) eqn:L.
  - (* a subtitle stream, read lazily *)
    exists (if is_some (hd_error (forward ds)) then 1 else -1),
      (emit EvUnlock d1).
    split.
    { intros desc' w' fuel'. unfold demux_read_packet_async.
      rewrite E, Ht. cbv zeta. rewrite R, N1, L.
      destruct (forward ds); reflexivity. }
    destruct (forward ds) as [|p rest]; cbn [hd_error is_some].
    + split; [split; [discriminate|congruence]|].
      split; [right; right; reflexivity|]. discriminate.
    + split; [split; [discriminate|reflexivity]|].
      split; [left; reflexivity|]. discriminate.
  - set (r := if is_some (hd_error (forward ds)) then 1
              else if ds_eof ds1 || negb (ds_selected ds1) then -1 else 0).
    set (d2 := emit EvUnlock
                 (emit EvCondSignal
                    (set_in_eof false
                       (set_stream n
                          (set_ds_active (ds_selected ds1) ds1) d1)))).
    exists r, d2.
    split.
    { intros desc' w' fuel'. unfold demux_read_packet_async.
      rewrite E, Ht. cbv zeta. rewrite R, N1, L.
      unfold r, d2. destruct (forward ds); reflexivity. }
    unfold r. destruct (forward ds) as [|p rest] eqn:Hfw;
      cbn [hd_error is_some option_map] in *.
    2:{ split; [split; [discriminate|reflexivity]|].
        split; [left; reflexivity|]. discriminate. }
    destruct (Hnone eq_refl) as [-> Hhead].
    change (in_streams (emit EvLock d)) with (in_streams d) in N1.
    rewrite E in N1. injection N1 as <-.
    destruct (ds_eof ds || negb (ds_selected ds)) eqn:C.
    { split; [split; [discriminate|congruence]|].
      split; [right; right; reflexivity|]. discriminate. }
    apply orb_false_iff in C. destruct C as [Ce Cs].
    apply negb_false_iff in Cs.
    split; [split; [discriminate|congruence]|].
    split; [right; left; reflexivity|]. intros _.
    split; [exact Cs|]. split; [exact Ce|].
    assert (N2 : nth_error (in_streams d2) n
                 = Some (set_ds_active (ds_selected ds) ds)).
    { unfold d2.
      change (in_streams
                (emit EvUnlock
                   (emit EvCondSignal
                      (set_in_eof false
                         (set_stream n (set_ds_active (ds_selected ds) ds)
                            (emit EvLock d))))))
        with (list_set n (set_ds_active (ds_selected ds) ds) (in_streams d)).
      eapply nth_error_list_set_eq. exact E. }
    split.
    { unfold demux_has_packet. rewrite N2. cbn [fst].
      change (ds_reader_head (set_ds_active (ds_selected ds) ds))
        with (ds_reader_head ds).
      rewrite Hhead. reflexivity. }
    intros desc' Hcap.
    destruct (read_packet_below_cap desc' d2 Hcap) as [F _].
    cbv zeta in F. rewrite F. apply orb_true_iff. left.
    apply (existsb_nth_error _ _ n _ N2).
    unfold wants_data.
    change (ds_active (set_ds_active (ds_selected ds) ds))
      with (ds_selected ds).
    change (ds_reader_head (set_ds_active (ds_selected ds) ds))
      with (ds_reader_head ds).
    rewrite Cs, Hhead. reflexivity.
Qed.

Lemma read_packet_async_threaded_witness :
  exists d',
    demux_read_packet_async example_desc (fun d => d) 0 0 prune_example
    = Done (1, Some (example_packet 0 true 100 10), d').
Proof.
  assert (Hok : cache_ok prune_example).
  { repeat constructor; vm_compute; try reflexivity; lia. }
  eassert (E : stream_at prune_example 0 = Some _)
    by (vm_compute; reflexivity).
  destruct (read_packet_async_threaded example_desc (fun d => d) 0 0
              prune_example _ Hok eq_refl E eq_refl)
    as [r [d' [R [[_ H1] _]]]].
  exists d'. rewrite R. rewrite H1 by (vm_compute; discriminate).
  reflexivity.
Defined.

(** ** Reading a packet, waiting for it if need be *)

Lemma read_wait_loop_ready (desc : demuxer_desc)
    (cond_wait : demux_internal -> demux_internal) (fuel : nat) (n : nat)
    (d : demux_internal) (ds : demux_stream) :
  nth_error (in_streams d) n = Some ds ->
  ds_selected ds && negb (is_some (ds_reader_head ds)) = false ->
  read_wait_loop desc cond_wait fuel n d = Done d.
Proof.
  intros E C. destruct fuel; cbn [read_wait_loop]; rewrite E, C; reflexivity.
Qed.

(** X14: [demux_read_packet] on a stream (without attached picture) that
    has a packet to read, or that is not selected, neither waits for the
    demuxer thread nor reads from the demuxer, with or without a thread:
    it returns the head of the forward buffer with [ts_offset] added to
    its timestamps (NULL if there is none), and signals the condition so
    that the thread may read more. *)
Theorem demux_read_packet_ready (desc : demuxer_desc)
    (cond_wait : demux_internal -> demux_internal) (fuel : nat) (n : nat)
    (d : demux_internal) (ds : demux_stream) :
  cache_ok d ->
  stream_at d n = Some ds ->
  ds_attached_picture ds = None ->
  forward ds <> [] \/ ds_selected ds = false ->
  exists d' ds',
    demux_read_packet desc cond_wait fuel n d
    = Done (option_map (returned_packet (in_ts_offset d))
              (hd_error (forward ds)), d')
    /\ stream_at d' n = Some ds'
    /\ forward ds' = tl (forward ds)
    /\ in_trace d' = EvUnlock :: EvCondSignal :: EvLock :: in_trace d.
Proof.
  intros Hok E Hpic Hready. unfold stream_at in E.
  assert (C : ds_selected ds && negb (is_some (ds_reader_head ds)) = false).
  { destruct Hready as [Hf| ->]; [|reflexivity].
    unfold forward in Hf. destruct (ds_reader_head ds); [|contradiction].
    apply andb_false_r. }
  unfold demux_read_packet. rewrite E. cbv zeta.
  assert (W : (if negb (use_lazy_packet_reading ds (emit EvLock d))
               then read_wait_loop desc cond_wait fuel n
                      (set_in_eof false (emit EvLock d))
               else Done (emit EvLock d))
              = Done (if negb (use_lazy_packet_reading ds (emit EvLock d))
                      then set_in_eof false (emit EvLock d)
                      else emit EvLock d)).
  { destruct (negb (use_lazy_packet_reading ds (emit EvLock d)));
      [|reflexivity].
    apply (read_wait_loop_ready desc cond_wait fuel n _ ds); assumption. }
  rewrite W. clear W.
  set (d0 := if negb (use_lazy_packet_reading ds (emit EvLock d))
             then set_in_eof false (emit EvLock d) else emit EvLock d).
  assert (S0 : in_streams d0 = in_streams d)
    by (unfold d0;
        destruct (negb (use_lazy_packet_reading ds (emit EvLock d)));
        reflexivity).
  assert (T0 : in_ts_offset d0 = in_ts_offset d)
    by (unfold d0;
        destruct (negb (use_lazy_packet_reading ds (emit EvLock d)));
        reflexivity).
  assert (R0 : in_trace d0 = EvLock :: in_trace d)
    by (unfold d0;
        destruct (negb (use_lazy_packet_reading ds (emit EvLock d)));
        reflexivity).
  assert (Ok0 : cache_ok d0) by (unfold cache_ok; rewrite S0; exact Hok).
  assert (E0 : nth_error (in_streams d0) n = Some ds)
    by (rewrite S0; exact E).
  destruct (dequeue_packet_plain n d0 ds Ok0 E0 Hpic)
    as [pkt [d1 [ds1 [R [Ok1 [Fr [N1 [_ [_ [_ [_ [Hp [Hf _]]]]]]]]]]]]].
  rewrite R, Hp, T0.
  exists (emit EvUnlock (emit EvCondSignal d1)), ds1.
  split; [reflexivity|]. split; [exact N1|]. split; [exact Hf|].
  rewrite Fr. cbn [emit]. rewrite <- R0. reflexivity.
Qed.

Lemma demux_read_packet_ready_witness :
  exists d',
    demux_read_packet example_desc (fun d => d) 0 0 prune_example
    = Done (Some (example_packet 0 true 100 10), d').
Proof.
  assert (Hok : cache_ok prune_example).
  { repeat constructor; vm_compute; try reflexivity; lia. }
  eassert (E : stream_at prune_example 0 = Some _)
    by (vm_compute; reflexivity).
  destruct (demux_read_packet_ready example_desc (fun d => d) 0 0
              prune_example _ Hok E eq_refl
              ltac:(left; vm_compute; discriminate))
    as [d' [ds' [R _]]].
  exists d'. exact R.
Defined.

Lemma forward_bytes_list_set (streams : list demux_stream) (n : nat)
    (ds ds' : demux_stream) :
  nth_error streams n = Some ds -> ds_fw_bytes ds' = ds_fw_bytes ds ->
  forward_bytes (list_set n ds' streams) = forward_bytes streams.
Proof.
  intros E F. unfold forward_bytes. f_equal. revert n E.
  induction streams as [|h t IH]; intros [|n] E; try discriminate.
  - injection E as ->. cbn [list_set fold_right]. rewrite F. reflexivity.
  - cbn [list_set fold_right]. rewrite (IH n E). reflexivity.
Qed.

(** X15: "Returns NULL on EOF". Without a demuxer thread,
    [demux_read_packet] on a selected stream that has nothing to read and
    is not read lazily runs the demuxer itself; if the demuxer has nothing
    to give (no [fill_buffer], or the stream was cancelled; no refresh
    pending, no seek queued, forward buffers below [max_bytes]) the first
    read ends the wait: the function returns NULL, with every stream and
    the cache at EOF. *)
Theorem demux_read_packet_eof (desc : demuxer_desc)
    (cond_wait : demux_internal -> demux_internal) (fuel : nat) (n : nat)
    (d : demux_internal) (ds : demux_stream) :
  in_threading d = false ->
  stream_at d n = Some ds ->
  ds_attached_picture ds = None ->
  ds_selected ds = true ->
  ds_reader_head ds = None ->
  use_lazy_packet_reading ds d = false ->
  forward_bytes (in_streams d) < to_size_t (in_max_bytes d) ->
  Forall (fun ds => ds_selected ds && ds_need_refresh ds = false)
    (in_streams d) ->
  in_seeking d = false ->
  desc_fill_buffer desc = None \/ demux_cancel_test desc = true ->
  exists d',
    demux_read_packet desc cond_wait (S fuel) n d = Done (None, d')
    /\ in_streams d'
       = map (set_ds_eof true)
           (list_set n (set_ds_active true ds) (in_streams d))
    /\ in_eof d' = true /\ in_last_eof d' = true.
Proof.
  intros Ht E Hpic Hs Hh Hlazy Hcap Hr Hk Hfill. unfold stream_at in E.
  unfold demux_read_packet. rewrite E. cbv zeta.
  change (use_lazy_packet_reading ds (emit EvLock d))
    with (use_lazy_packet_reading ds d).
  rewrite Hlazy. cbn [negb].
  set (d0 := set_in_eof false (emit EvLock d)).
  cbn [read_wait_loop].
  change (in_streams d0) with (in_streams d).
  rewrite E, Hs, Hh. cbn [is_some negb andb]. cbv zeta.
  set (da := set_stream n (set_ds_active true ds) d0).
  change (in_threading da) with (in_threading d). rewrite Ht.
  assert (Sa : in_streams da
               = list_set n (set_ds_active true ds) (in_streams d))
    by reflexivity.
  assert (Na : nth_error (in_streams da) n = Some (set_ds_active true ds)).
  { rewrite Sa. eapply nth_error_list_set_eq. exact E. }
  destruct (read_packet_eof_state desc da) as [_ [Hb [He [Hl _]]]].
  - rewrite Sa, (forward_bytes_list_set _ _ ds) by (exact E || reflexivity).
    exact Hcap.
  - apply (existsb_nth_error _ _ n _ Na). unfold wants_data.
    change (ds_active (set_ds_active true ds)) with true.
    change (ds_reader_head (set_ds_active true ds)) with (ds_reader_head ds).
    rewrite Hh. reflexivity.
  - rewrite Sa. apply Forall_list_set; [exact Hr|].
    change (ds_selected (set_ds_active true ds)) with (ds_selected ds).
    change (ds_need_refresh (set_ds_active true ds))
      with (ds_need_refresh ds).
    apply (Forall_nth_error _ _ _ _ Hr E).
  - exact Hk.
  - exact Hfill.
  - cbv zeta in Hb, He, Hl.
    set (db := snd (read_packet desc da)) in *.
    assert (Nb : nth_error (in_streams db) n
                 = Some (set_ds_eof true (set_ds_active true ds))).
    { rewrite Hb. rewrite nth_error_map, Na. reflexivity. }
    rewrite Nb.
    change (ds_eof (set_ds_eof true (set_ds_active true ds))) with true.
    cbv iota.
    unfold dequeue_packet. rewrite Nb.
    change (ds_attached_picture (set_ds_eof true (set_ds_active true ds)))
      with (ds_attached_picture ds).
    change (ds_reader_head (set_ds_eof true (set_ds_active true ds)))
      with (ds_reader_head ds).
    rewrite Hpic, Hh.
    exists (emit EvUnlock (emit EvCondSignal db)).
    split; [reflexivity|].
    split; [rewrite <- Sa; exact Hb|]. split; [exact He|exact Hl].
Qed.

Lemma demux_read_packet_eof_witness :
  exists d',
    demux_read_packet example_desc (fun d => d) 1 0 unthreaded_example
    = Done (None, d')
    /\ map ds_eof (in_streams d') = [true].
Proof.
  eassert (E : stream_at unthreaded_example 0 = Some _)
    by (vm_compute; reflexivity).
  destruct (demux_read_packet_eof example_desc (fun d => d) 0 0
              unthreaded_example _ eq_refl E eq_refl eq_refl eq_refl eq_refl
              ltac:(vm_compute; reflexivity) ltac:(repeat constructor)
              eq_refl ltac:(left; reflexivity))
    as [d' [R [S _]]].
  exists d'. split; [exact R|]. rewrite S. reflexivity.
Defined.

(** ** Flushing *)

Lemma reader_scan_skip (streams : list demux_stream) (a : reader_scan) :
  Forall (fun ds => contributes ds = false) streams ->
  fold_left reader_scan_step streams a = a.
Proof.
  intros H. revert a. induction H as [|ds rest Hds _ IH]; intros a.
  - reflexivity.
  - cbn [fold_left]. unfold reader_scan_step at 2. rewrite Hds. apply IH.
Qed.

Lemma ds_clear_demux_state_fields (ds : demux_stream) :
  let ds' := ds_clear_demux_state ds in
  ds_queue ds' = [] /\ ds_reader_head ds' = None
  /\ ds_selected ds' = ds_selected ds
  /\ ds_attached_picture ds' = ds_attached_picture ds
  /\ ds_type ds' = ds_type ds
  /\ ds_active ds' = false /\ ds_eof ds' = false
  /\ ds_need_refresh ds' = false /\ ds_refreshing ds' = false
  /\ ds_skip_to_keyframe ds' = false.
Proof. cbv zeta. repeat split. Qed.

(** X16: [demux_flush] leaves every queue empty, with consistent
    accounts, and no stream selected or unselected by it. After it no
    stream has a packet to read, and the reader state reports no
    underrun, no buffered duration and no seek range. The next packet that
    the demuxer adds to a selected stream (with no seek queued) is the
    next packet read from it: nothing from before the flush is left. *)
Theorem demux_flush_empties (d : demux_internal) :
  let d' := demux_flush d in
  in_streams d' = map ds_clear_demux_state (in_streams d)
  /\ cache_ok d'
  /\ Forall (fun ds => ds_queue ds = [] /\ ds_reader_head ds = None)
       (in_streams d')
  /\ map ds_selected (in_streams d') = map ds_selected (in_streams d)
  /\ (forall n, fst (demux_has_packet n d') = false)
  /\ r_underrun (cached_demux_control_reader_state d') = false
  /\ r_ts_duration (cached_demux_control_reader_state d') = 0%Q
  /\ r_seek_ranges (cached_demux_control_reader_state d') = []
  /\ (forall n ds dp,
         stream_at d n = Some ds -> ds_selected ds = true ->
         ds_attached_picture ds = None -> in_seeking d = false ->
         exists d'',
           dequeue_run n 1 (demux_add_packet n dp d')
           = Done ([Some (returned_packet (in_ts_offset d)
                            (queued_packet n (ds_type ds) dp))], d'')).
Proof.
  cbv zeta.
  assert (Hs : in_streams (demux_flush d)
               = map ds_clear_demux_state (in_streams d)).
  { change (in_streams (demux_flush d))
      with (map ds_clear_demux_state
              (map ds_clear_reader_state (in_streams d))).
    rewrite map_map. apply map_ext. apply ds_clear_demux_state_idem. }
  assert (Hok : cache_ok (demux_flush d)).
  { unfold cache_ok. rewrite Hs. apply Forall_forall. intros ds' Hin.
    apply in_map_iff in Hin. destruct Hin as [ds [<- _]].
    apply queue_ok_clear_demux_state. }
  assert (Hc : Forall (fun ds => contributes ds = false)
                 (in_streams (demux_flush d))).
  { rewrite Hs. apply Forall_forall. intros ds' Hin.
    apply in_map_iff in Hin. destruct Hin as [ds [<- _]]. reflexivity. }
  split; [exact Hs|]. split; [exact Hok|]. split.
  { rewrite Hs. apply Forall_forall. intros ds' Hin.
    apply in_map_iff in Hin. destruct Hin as [ds [<- _]].
    split; reflexivity. }
  split.
  { rewrite Hs, map_map. apply map_ext. reflexivity. }
  split.
  { intros n. unfold demux_has_packet.
    destruct (nth_error (in_streams (demux_flush d)) n) as [ds'|] eqn:E;
      [|reflexivity].
    cbn [fst]. rewrite Hs in E. rewrite nth_error_map in E.
    destruct (nth_error (in_streams d) n) as [ds|]; [|discriminate].
    injection E as <-. reflexivity. }
  unfold cached_demux_control_reader_state.
  rewrite (reader_scan_skip _ _ Hc). cbn [rs_underrun rs_any_packets
    rs_seek_ok rs_ts_min rs_ts_max rs_ts_reader r_underrun r_ts_duration
    r_seek_ranges negb andb].
  split; [reflexivity|]. split; [rewrite orb_true_r; reflexivity|]. split.
  { change (MP_ADD_PTS MP_NOPTS_VALUE (in_ts_offset (demux_flush d)))
      with MP_NOPTS_VALUE.
    change (Qeq_bool MP_NOPTS_VALUE MP_NOPTS_VALUE) with true.
    cbn [negb andb]. rewrite andb_false_r. reflexivity. }
  intros n ds dp E Hsel Hpic Hk.
  assert (E' : stream_at (demux_flush d) n = Some (ds_clear_demux_state ds)).
  { unfold stream_at in *. rewrite Hs, nth_error_map, E. reflexivity. }
  destruct (add_packet_then_forward n dp (demux_flush d)
              (ds_clear_demux_state ds) Hok E' Hsel eq_refl eq_refl Hk
              eq_refl)
    as [ds1 [Ok1 [N1 [P1 F1]]]].
  change (ds_attached_picture (ds_clear_demux_state ds))
    with (ds_attached_picture ds) in P1.
  rewrite Hpic in P1.
  destruct (dequeue_run_all n (demux_add_packet n dp (demux_flush d)) ds1
              Ok1 N1 P1) as [d'' [R _]].
  rewrite F1, add_packet_ts_offset in R.
  exists d''. exact R.
Qed.

Lemma demux_flush_empties_witness :
  exists d'',
    dequeue_run 0 1
      (demux_add_packet 0 (example_packet 7 true 100 70)
         (demux_flush prune_example))
    = Done ([Some (example_packet 7 true 100 70)], d'').
Proof.
  destruct (demux_flush_empties prune_example)
    as [_ [_ [_ [_ [_ [_ [_ [_ H]]]]]]]].
  eassert (E : stream_at prune_example 0 = Some _)
    by (vm_compute; reflexivity).
  exact (H 0%nat _ (example_packet 7 true 100 70) E eq_refl eq_refl eq_refl).
Defined.

(** ** Switching tracks *)

Lemma eqb_false_neq (a b : bool) : Bool.eqb a b = false <-> a <> b.
Proof. destruct a, b; cbn; split; intros H; congruence. Qed.

(** The stream and the cache after a track was switched, with a demuxer
    thread. *)
Lemma demuxer_select_track_threaded (ctrl : demuxer_control) (n : nat)
    (ref_pts : Q) (selected : bool) (d : demux_internal)
    (ds : demux_stream) :
  nth_error (in_streams d) n = Some ds ->
  ds_selected ds <> selected ->
  in_threading d = true ->
  let ds' := switched_stream selected (in_initial_state d) ds in
  demuxer_select_track ctrl n ref_pts selected d
  = emit EvUnlock
      (emit EvCondSignal
         (set_in_ref_pts
            (if ds_need_refresh ds'
             then MP_ADD_PTS ref_pts (- in_ts_offset d) else in_ref_pts d)
            (set_stream n ds'
               (set_in_tracks_switched true (emit EvLock d))))).
Proof.
  intros E Hne Ht. cbv zeta. unfold demuxer_select_track. rewrite E.
  apply eqb_false_neq in Hne. rewrite Hne. cbn [negb]. cbv zeta.
  change (in_initial_state (set_in_tracks_switched true (emit EvLock d)))
    with (in_initial_state d).
  fold (switched_stream selected (in_initial_state d) ds).
  set (ds' := switched_stream selected (in_initial_state d) ds).
  change (in_threading
            (set_in_ref_pts
               (if ds_need_refresh ds'
                then MP_ADD_PTS ref_pts
                       (- in_ts_offset
                            (set_stream n ds'
                               (set_in_tracks_switched true
                                  (emit EvLock d))))
                else in_ref_pts
                       (set_stream n ds'
                          (set_in_tracks_switched true (emit EvLock d))))
               (set_stream n ds'
                  (set_in_tracks_switched true (emit EvLock d)))))
    with (in_threading d).
  rewrite Ht. reflexivity.
Qed.

Lemma switched_stream_fields (selected initial_state : bool)
    (ds : demux_stream) :
  let ds' := switched_stream selected initial_state ds in
  ds_selected ds' = selected
  /\ ds_need_refresh ds' = selected && negb initial_state
  /\ ds_queue ds' = [] /\ ds_reader_head ds' = None
  /\ ds_refreshing ds' = false
  /\ ds_attached_picture ds' = ds_attached_picture ds
  /\ ds_type ds' = ds_type ds
  /\ ds_base_ts ds' = MP_NOPTS_VALUE
  /\ queue_ok ds'.
Proof. cbv zeta. repeat split. Qed.

(** X17: [demuxer_select_track] with the selection the stream has already
    does nothing (but take the lock): no buffer is flushed. With the
    other selection, and a demuxer thread, it flushes the queue of that
    stream alone, records the selection, marks the stream as enabled
    mid-stream ([need_refresh]) if it was selected when the cache is no
    longer in its initial state, and tells the thread
    ([tracks_switched], condition signalled); the reference position is
    stored, in the timestamps of the file, only in that case. *)
Theorem demuxer_select_track_switches (ctrl : demuxer_control) (n : nat)
    (ref_pts : Q) (selected : bool) (d : demux_internal)
    (ds : demux_stream) :
  stream_at d n = Some ds ->
  let d' := demuxer_select_track ctrl n ref_pts selected d in
  (ds_selected ds = selected -> d' = emit EvUnlock (emit EvLock d))
  /\ (ds_selected ds <> selected -> in_threading d = true ->
      exists ds',
        stream_at d' n = Some ds'
        /\ ds_selected ds' = selected
        /\ ds_queue ds' = [] /\ ds_reader_head ds' = None
        /\ ds_need_refresh ds' = selected && negb (in_initial_state d)
        /\ (forall m, m <> n -> stream_at d' m = stream_at d m)
        /\ in_tracks_switched d' = true
        /\ in_ref_pts d'
           = (if selected && negb (in_initial_state d)
              then MP_ADD_PTS ref_pts (- in_ts_offset d) else in_ref_pts d)
        /\ in_trace d' = EvUnlock :: EvCondSignal :: EvLock :: in_trace d).
Proof.
  intros E. cbv zeta. unfold stream_at in E. split.
  - intros Hs. unfold demuxer_select_track. rewrite E, Hs.
    rewrite Bool.eqb_reflx. reflexivity.
  - intros Hne Ht.
    rewrite (demuxer_select_track_threaded ctrl n ref_pts selected d ds
               E Hne Ht).
    cbv zeta.
    destruct (switched_stream_fields selected (in_initial_state d) ds)
      as [F1 [F2 [F3 [F4 _]]]].
    set (ds' := switched_stream selected (in_initial_state d) ds) in *.
    exists ds'. unfold stream_at.
    change (in_streams
              (emit EvUnlock
                 (emit EvCondSignal
                    (set_in_ref_pts
                       (if ds_need_refresh ds'
                        then MP_ADD_PTS ref_pts (- in_ts_offset d)
                        else in_ref_pts d)
                       (set_stream n ds'
                          (set_in_tracks_switched true (emit EvLock d)))))))
      with (list_set n ds' (in_streams d)).
    split; [eapply nth_error_list_set_eq; exact E|].
    split; [exact F1|]. split; [exact F3|]. split; [exact F4|].
    split; [exact F2|]. split.
    { intros m Hm. apply nth_error_list_set_neq. congruence. }
    split; [reflexivity|]. split; [rewrite <- F2; reflexivity|].
    reflexivity.
Qed.

Lemma demuxer_select_track_switches_witness :
  exists ds',
    stream_at
      (demuxer_select_track example_control 0 5 false prune_example) 0
    = Some ds'
    /\ ds_selected ds' = false /\ ds_queue ds' = [].
Proof.
  eassert (E : stream_at prune_example 0 = Some _)
    by (vm_compute; reflexivity).
  destruct (demuxer_select_track_switches example_control 0 5 false
              prune_example _ E) as [_ H].
  destruct (H ltac:(discriminate) eq_refl) as [ds' [H1 [H2 [H3 _]]]].
  exists ds'. split; [exact H1|]. split; [exact H2|exact H3].
Defined.

(** A packet for a stream that is not selected, or that waits for its
    refresh seek, is dropped. *)
Lemma add_packet_unwanted (stream : nat) (dp : demux_packet)
    (d : demux_internal) (ds : demux_stream) :
  nth_error (in_streams d) stream = Some ds ->
  ds_selected ds = false \/ ds_need_refresh ds = true ->
  ds_refreshing ds = false ->
  in_streams (demux_add_packet stream dp d) = in_streams d.
Proof.
  intros E Hu Hr.
  rewrite (stream_at_add_packet_dropped stream dp d ds E).
  - apply list_set_same. rewrite E. f_equal.
    destruct ds. cbn in Hr. subst. reflexivity.
  - destruct Hu as [-> | ->]; [reflexivity|].
    destruct (ds_selected ds); reflexivity.
Qed.

Lemma add_packets_unwanted (stream : nat) (dps : list demux_packet) :
  forall (d : demux_internal) (ds : demux_stream),
    nth_error (in_streams d) stream = Some ds ->
    ds_selected ds = false \/ ds_need_refresh ds = true ->
    ds_refreshing ds = false ->
    in_streams (add_packets stream dps d) = in_streams d.
Proof.
  induction dps as [|dp rest IH]; intros d ds E Hu Hr; [reflexivity|].
  cbn [add_packets fold_left].
  pose proof (add_packet_unwanted stream dp d ds E Hu Hr) as S1.
  fold (add_packets stream rest (demux_add_packet stream dp d)).
  rewrite (IH (demux_add_packet stream dp d) ds); [exact S1| |exact Hu|exact Hr].
  rewrite S1. exact E.
Qed.

(** X18: once a track is unselected (with a demuxer thread), whatever the
    demuxer still adds to its stream is dropped: the queue of the stream
    stays empty, it has nothing to read, and no other stream's queue is
    touched by these packets. *)
Theorem unselected_track_stays_empty (ctrl : demuxer_control) (n : nat)
    (ref_pts : Q) (d : demux_internal) (ds : demux_stream)
    (dps : list demux_packet) :
  stream_at d n = Some ds ->
  ds_selected ds = true ->
  in_threading d = true ->
  let d' := demuxer_select_track ctrl n ref_pts false d in
  let d'' := add_packets n dps d' in
  in_streams d'' = in_streams d'
  /\ (exists ds', stream_at d'' n = Some ds' /\ ds_queue ds' = []
                  /\ ds_selected ds' = false)
  /\ fst (demux_has_packet n d'') = false
  /\ (ds_attached_picture ds = None ->
      dequeue_packet n d'' = Done (None, d'')).
Proof.
  intros E Hs Ht. cbv zeta. unfold stream_at in E.
  assert (Hne : ds_selected ds <> false) by congruence.
  pose proof (demuxer_select_track_threaded ctrl n ref_pts false d ds
                E Hne Ht) as Eq.
  cbv zeta in Eq.
  set (ds' := switched_stream false (in_initial_state d) ds) in *.
  assert (N' : nth_error
                 (in_streams (demuxer_select_track ctrl n ref_pts false d))
                 n = Some ds').
  { rewrite Eq.
    change (in_streams
              (emit EvUnlock
                 (emit EvCondSignal
                    (set_in_ref_pts
                       (if ds_need_refresh ds'
                        then MP_ADD_PTS ref_pts (- in_ts_offset d)
                        else in_ref_pts d)
                       (set_stream n ds'
                          (set_in_tracks_switched true (emit EvLock d)))))))
      with (list_set n ds' (in_streams d)).
    eapply nth_error_list_set_eq. exact E. }
  pose proof (add_packets_unwanted n dps _ ds' N'
                ltac:(left; reflexivity) eq_refl) as S.
  assert (N'' : nth_error
                  (in_streams
                     (add_packets n dps
                        (demuxer_select_track ctrl n ref_pts false d)))
                  n = Some ds') by (rewrite S; exact N').
  split; [exact S|]. split.
  { exists ds'. split; [exact N''|]. split; reflexivity. }
  split.
  { unfold demux_has_packet. rewrite N''. reflexivity. }
  intros Hpic. unfold dequeue_packet. rewrite N''.
  change (ds_attached_picture ds') with (ds_attached_picture ds).
  rewrite Hpic. reflexivity.
Qed.

Lemma unselected_track_stays_empty_witness :
  in_streams
    (add_packets 0
       [example_packet 3 true 100 40; example_packet 4 true 100 50]
       (demuxer_select_track example_control 0 5 false prune_example))
  = in_streams
      (demuxer_select_track example_control 0 5 false prune_example).
Proof.
  eassert (E : stream_at prune_example 0 = Some _)
    by (vm_compute; reflexivity).
  destruct (unselected_track_stays_empty example_control 0 5 prune_example
              _ [example_packet 3 true 100 40; example_packet 4 true 100 50]
              E eq_refl eq_refl) as [H _].
  exact H.
Defined.

Lemma MP_PTS_MIN_nopts (a : Q) :
  ~ (a == MP_NOPTS_VALUE)%Q -> MP_PTS_MIN a MP_NOPTS_VALUE = a.
Proof.
  intros H. unfold MP_PTS_MIN, PTS_OR_DEF, MPMIN.
  apply Qeq_bool_false_iff in H. rewrite H.
  change (Qeq_bool MP_NOPTS_VALUE MP_NOPTS_VALUE) with true. cbv iota.
  destruct (Qlt_bool a a); reflexivity.
Qed.

(** The streams of a cache in which the stream with index [n] is the only
    one selected. *)
Lemma only_selected_scan (streams : list demux_stream) :
  forall (n : nat) (ds ds' : demux_stream) (start_ts : Q),
    nth_error streams n = Some ds ->
    (forall m s, m <> n -> nth_error streams m = Some s ->
                 ds_selected s = false) ->
    ds_selected ds' = true -> ds_need_refresh ds' = true ->
    ds_base_ts ds' = MP_NOPTS_VALUE ->
    ~ (start_ts == MP_NOPTS_VALUE)%Q ->
    fold_left
      (fun ts s =>
         if ds_selected s
            && (stream_type_eqb (ds_type s) STREAM_VIDEO
                || stream_type_eqb (ds_type s) STREAM_AUDIO)
         then MP_PTS_MIN ts (ds_base_ts s) else ts)
      (list_set n ds' streams) start_ts = start_ts
    /\ refresh_needed (list_set n ds' streams) = true
    /\ refresh_normal_seek (list_set n ds' streams) = true.
Proof.
  induction streams as [|h t IH]; intros [|n] ds ds' start_ts E Ho Hs Hn Hb Hp;
    try discriminate.
  - cbn [list_set fold_left refresh_needed refresh_normal_seek existsb
         forallb].
    rewrite Hs, Hn, Hb. cbn [andb orb negb].
    assert (Hf : forall ts,
               fold_left
                 (fun ts s =>
                    if ds_selected s
                       && (stream_type_eqb (ds_type s) STREAM_VIDEO
                           || stream_type_eqb (ds_type s) STREAM_AUDIO)
                    then MP_PTS_MIN ts (ds_base_ts s) else ts) t ts = ts
               /\ forallb (fun s => negb (ds_selected s)
                                    || ds_need_refresh s) t = true).
    { assert (Ht : forall m s, nth_error t m = Some s ->
                               ds_selected s = false).
      { intros m s Hm. apply (Ho (S m) s); [discriminate|exact Hm]. }
      clear - Ht. induction t as [|a t IHt]; intros ts.
      - split; reflexivity.
      - cbn [fold_left forallb].
        rewrite (Ht O a eq_refl). cbn [andb negb orb].
        apply IHt. intros m s Hm. apply (Ht (S m) s Hm). }
    destruct (Hf (if stream_type_eqb (ds_type ds') STREAM_VIDEO
                     || stream_type_eqb (ds_type ds') STREAM_AUDIO
                  then MP_PTS_MIN start_ts MP_NOPTS_VALUE else start_ts))
      as [F1 F2].
    rewrite F1.
    split; [|split; [reflexivity|exact F2]].
    destruct (stream_type_eqb (ds_type ds') STREAM_VIDEO
              || stream_type_eqb (ds_type ds') STREAM_AUDIO);
      [apply MP_PTS_MIN_nopts; exact Hp|reflexivity].
  - cbn [list_set fold_left refresh_needed refresh_normal_seek existsb
         forallb].
    rewrite (Ho O h ltac:(discriminate) eq_refl). cbn [andb negb orb].
    apply (IH n ds ds' start_ts E); try assumption.
    intros m s Hm Em. apply (Ho (S m) s); [congruence|exact Em].
Qed.

(** X19: selecting a track (with a demuxer thread). In the initial state
    of the cache no refresh seek is asked for ("avoid a redundant initial
    seek after enabling streams"): the stream takes packets at once. Later
    on the stream is marked as enabled mid-stream, so that its packets
    are dropped until [get_refresh_seek_pts] has seen the request; and if
    it is the only selected stream of a seekable demuxer, what
    [get_refresh_seek_pts] then asks for is a plain seek to the reference
    position, taken to the timestamps of the file. *)
Theorem select_track_refresh (ctrl : demuxer_control) (desc : demuxer_desc)
    (n : nat) (ref_pts : Q) (d : demux_internal) (ds : demux_stream) :
  stream_at d n = Some ds ->
  ds_selected ds = false ->
  in_threading d = true ->
  let d' := demuxer_select_track ctrl n ref_pts true d in
  (in_initial_state d = true ->
   in_seeking d = false ->
   forall dp, exists ds',
     stream_at (demux_add_packet n dp d') n = Some ds'
     /\ ds_queue ds' = [queued_packet n (ds_type ds) dp])
  /\ (in_initial_state d = false ->
      refresh_needed (in_streams d') = true
      /\ (forall dps, in_streams (add_packets n dps d') = in_streams d')
      /\ ((forall m s, m <> n -> stream_at d m = Some s ->
                       ds_selected s = false) ->
          can_seek desc d = true ->
          ~ (MP_ADD_PTS ref_pts (- in_ts_offset d) == MP_NOPTS_VALUE)%Q ->
          fst (get_refresh_seek_pts desc d')
          = MP_ADD_PTS ref_pts (- in_ts_offset d))).
Proof.
  intros E Hs Ht. cbv zeta. unfold stream_at in E.
  assert (Hne : ds_selected ds <> true) by congruence.
  pose proof (demuxer_select_track_threaded ctrl n ref_pts true d ds
                E Hne Ht) as Eq.
  cbv zeta in Eq. rewrite Eq. clear Eq.
  set (ds' := switched_stream true (in_initial_state d) ds).
  set (d' := emit EvUnlock
               (emit EvCondSignal
                  (set_in_ref_pts
                     (if ds_need_refresh ds'
                      then MP_ADD_PTS ref_pts (- in_ts_offset d)
                      else in_ref_pts d)
                     (set_stream n ds'
                        (set_in_tracks_switched true (emit EvLock d)))))).
  assert (S' : in_streams d' = list_set n ds' (in_streams d)) by reflexivity.
  assert (N' : nth_error (in_streams d') n = Some ds').
  { rewrite S'. eapply nth_error_list_set_eq. exact E. }
  split.
  - intros Hi Hk dp. unfold stream_at.
    rewrite (stream_at_add_packet_queued n dp d' ds' N').
    + exists (append_packet n dp ds').
      split; [eapply nth_error_list_set_eq; exact N'|].
      rewrite append_packet_queue. reflexivity.
    + change (in_seeking d') with (in_seeking d). rewrite Hk.
      unfold ds'. rewrite Hi. reflexivity.
  - intros Hi.
    assert (Hnr : ds_need_refresh ds' = true)
      by (unfold ds'; rewrite Hi; reflexivity).
    split.
    { unfold refresh_needed. apply (existsb_nth_error _ _ n _ N').
      rewrite Hnr. reflexivity. }
    split.
    { intros dps. apply (add_packets_unwanted n dps d' ds' N');
        [right; exact Hnr|reflexivity]. }
    intros Ho Hc Hp.
    unfold can_seek in Hc. apply andb_true_iff in Hc.
    destruct Hc as [Hc Hc3]. apply andb_true_iff in Hc.
    destruct Hc as [Hc1 Hc2]. apply negb_true_iff in Hc3.
    unfold get_refresh_seek_pts. rewrite refresh_scan_spec.
    cbv iota beta.
    change (d_thread_seekable (set_in_streams ?s d'))
      with (d_thread_seekable d).
    change (d_thread_partially_seekable (set_in_streams ?s d'))
      with (d_thread_partially_seekable d).
    change (in_ref_pts d')
      with (if ds_need_refresh ds'
            then MP_ADD_PTS ref_pts (- in_ts_offset d) else in_ref_pts d).
    rewrite Hnr, S'.
    destruct (only_selected_scan (in_streams d) n ds ds'
                (MP_ADD_PTS ref_pts (- in_ts_offset d)) E Ho eq_refl Hnr
                eq_refl Hp) as [F1 [F2 F3]].
    rewrite F1, F2, F3, Hc1, Hc2, Hc3.
    apply Qeq_bool_false_iff in Hp. rewrite Hp. reflexivity.
Qed.

Lemma select_track_refresh_witness :
  fst (get_refresh_seek_pts example_desc
         (demuxer_select_track example_control 0 5 true unselected_example))
  = MP_ADD_PTS 5 (- 0).
Proof.
  eassert (E : stream_at unselected_example 0 = Some _)
    by (vm_compute; reflexivity).
  destruct (select_track_refresh example_control example_desc 0 5
              unselected_example _ E eq_refl eq_refl) as [_ H].
  destruct (H eq_refl) as [_ [_ H3]].
  apply H3.
  - intros [|m] s Hm Es; [congruence|].
    destruct m; discriminate.
  - reflexivity.
  - vm_compute. discriminate.
Defined.

(** ** The timestamp of a keyframe range *)

Lemma MP_PTS_MIN_cases (a b : Q) :
  (MP_PTS_MIN a b = a \/ MP_PTS_MIN a b = b)
  /\ (~ (a == MP_NOPTS_VALUE)%Q ->
      ~ (MP_PTS_MIN a b == MP_NOPTS_VALUE)%Q /\ (MP_PTS_MIN a b <= a)%Q)
  /\ (~ (b == MP_NOPTS_VALUE)%Q ->
      ~ (MP_PTS_MIN a b == MP_NOPTS_VALUE)%Q /\ (MP_PTS_MIN a b <= b)%Q).
Proof.
  unfold MP_PTS_MIN, PTS_OR_DEF, MPMIN.
  destruct (Qeq_bool a MP_NOPTS_VALUE) eqn:Ea,
    (Qeq_bool b MP_NOPTS_VALUE) eqn:Eb; qprop.
  - destruct (Qlt_bool a b) eqn:C; qprop;
      (split; [auto|]); split; intros H; contradiction.
  - destruct (Qlt_bool b b) eqn:C; qprop;
      (split; [auto|]); (split; [intros H; contradiction|]);
      intros _; split; try assumption; lra.
  - destruct (Qlt_bool a a) eqn:C; qprop;
      (split; [auto|]); (split; [|intros H; contradiction]);
      intros _; split; try assumption; lra.
  - destruct (Qlt_bool b a) eqn:C; qprop;
      (split; [auto|]); split; intros _; split; try assumption; lra.
Qed.

(** The loop of [recompute_keyframe_target_pts] takes the smallest of the
    timestamps of a list of packets. *)
Lemma range_min_spec (l : list demux_packet) :
  forall res : Q,
    let r := fold_left (fun res p => MP_PTS_MIN res (range_ts p)) l res in
    (~ (res == MP_NOPTS_VALUE)%Q ->
     ~ (r == MP_NOPTS_VALUE)%Q /\ (r <= res)%Q)
    /\ (forall p, In p l -> ~ (range_ts p == MP_NOPTS_VALUE)%Q ->
        ~ (r == MP_NOPTS_VALUE)%Q /\ (r <= range_ts p)%Q)
    /\ (r = res \/ exists p, In p l /\ r = range_ts p).
Proof.
  induction l as [|p l IH]; intros res r.
  - subst r. cbn [fold_left]. split; [intros H; split; [exact H|lra]|].
    split; [intros p []|left; reflexivity].
  - subst r. cbn [fold_left].
    specialize (IH (MP_PTS_MIN res (range_ts p))). cbv zeta in IH.
    destruct IH as [I1 [I2 I3]].
    destruct (MP_PTS_MIN_cases res (range_ts p)) as [M1 [M2 M3]].
    set (r := fold_left (fun res p => MP_PTS_MIN res (range_ts p)) l
                (MP_PTS_MIN res (range_ts p))) in *.
    split.
    { intros H. destruct (M2 H) as [Ma Mb]. destruct (I1 Ma) as [Ia Ib].
      split; [exact Ia|lra]. }
    split.
    { intros q [<-|Hin] Hq.
      - destruct (M3 Hq) as [Ma Mb]. destruct (I1 Ma) as [Ia Ib].
        split; [exact Ia|lra].
      - apply I2; assumption. }
    destruct I3 as [I3|[q [Hin I3]]].
    + destruct M1 as [M1|M1].
      * left. congruence.
      * right. exists p. split; [left; reflexivity|congruence].
    + right. exists q. split; [right; exact Hin|exact I3].
Qed.

Lemma keyframe_target_loop_in_range (dp : list demux_packet) (res : Q) :
  keyframe_target_loop dp true res
  = fold_left (fun res p => MP_PTS_MIN res (range_ts p)) (until_keyframe dp)
      res.
Proof.
  revert res. induction dp as [|p next IH]; intros res; [reflexivity|].
  cbn [keyframe_target_loop until_keyframe].
  destruct (dp_keyframe p); cbn [andb orb]; [reflexivity|].
  cbv zeta. cbn [fold_left]. rewrite IH. reflexivity.
Qed.

Lemma keyframe_target_loop_spec (dp : list demux_packet) (res : Q) :
  keyframe_target_loop dp false res
  = fold_left (fun res p => MP_PTS_MIN res (range_ts p))
      (first_keyframe_range dp) res.
Proof.
  revert res. induction dp as [|p next IH]; intros res; [reflexivity|].
  cbn [keyframe_target_loop first_keyframe_range].
  rewrite andb_false_r. cbn [orb]. cbv zeta.
  destruct (dp_keyframe p).
  - cbn [fold_left]. apply keyframe_target_loop_in_range.
  - apply IH.
Qed.

(** X20: [recompute_keyframe_target_pts] returns the smallest timestamp in
    the keyframe range that starts at or follows the packet (the first
    keyframe and the packets up to the next keyframe), where the
    timestamp of a packet is its PTS, else its DTS, and a segmented
    packet whose timestamp lies outside its segment has none: the result
    is the timestamp of a packet of the range and is not above any
    timestamp of the range; it is NOPTS only if no packet of the range
    has a timestamp. *)
Theorem keyframe_target_pts_is_minimum (dp : list demux_packet) :
  let r := recompute_keyframe_target_pts dp in
  (forall p, In p (first_keyframe_range dp) ->
             ~ (range_ts p == MP_NOPTS_VALUE)%Q ->
             ~ (r == MP_NOPTS_VALUE)%Q /\ (r <= range_ts p)%Q)
  /\ (~ (r == MP_NOPTS_VALUE)%Q ->
      exists p, In p (first_keyframe_range dp) /\ r = range_ts p).
Proof.
  cbv zeta. unfold recompute_keyframe_target_pts.
  rewrite keyframe_target_loop_spec.
  destruct (range_min_spec (first_keyframe_range dp) MP_NOPTS_VALUE)
    as [_ [H2 H3]].
  cbv zeta in H2, H3. split; [exact H2|].
  intros Hr. destruct H3 as [H3|H3]; [|exact H3].
  exfalso. apply Hr. rewrite H3. reflexivity.
Qed.

(** ** The nearest keyframe *)

(** The loop of [find_seek_target] on one queue, for one target none of
    whose candidates has a [diff] equal to the value of MP_NOPTS_VALUE. *)
Section SeekBest.

Variables (pts : Q) (flags : Z) (queue : list demux_packet).
Hypothesis no_sentinel : no_sentinel_diff queue pts flags.

Lemma seek_best_skip (i : nat) (target : option nat) (td : Q) :
  seek_best queue pts flags i target td ->
  ~ seek_candidate queue pts flags i ->
  seek_best queue pts flags (S i) target td.
Proof.
  unfold seek_best. destruct target as [j|].
  - intros [Hj [Hc [Ht Hm]]] Hn. repeat split; try lia; try assumption;
      destruct (Nat.eq_dec k i) as [->|Hne]; try contradiction;
      apply Hm; try assumption; lia.
  - intros [Ht Hm] Hn. split; [exact Ht|].
    intros k Hk. destruct (Nat.eq_dec k i) as [->|Hne]; [exact Hn|].
    apply Hm. lia.
Qed.

Lemma find_seek_target_loop_best :
  forall (dp pre : list demux_packet) (target : option nat) (td : Q),
    queue = pre ++ dp ->
    seek_best queue pts flags (length pre) target td ->
    exists td',
      seek_best queue pts flags (length queue)
        (find_seek_target_loop pts flags dp (length pre) target td) td'.
Proof.
  induction dp as [|p next IH]; intros pre target td Hq Hinv.
  - exists td. rewrite app_nil_r in Hq. subst queue. exact Hinv.
  - assert (Hq' : queue = (pre ++ [p]) ++ next)
      by (rewrite <- app_assoc; exact Hq).
    assert (Hl : S (length pre) = length (pre ++ [p]))
      by (rewrite length_app; cbn; lia).
    pose proof (seek_candidate_at pre p next pts flags) as Hcand.
    rewrite <- Hq in Hcand.
    assert (Hr : range_pts queue (length pre)
                 = recompute_keyframe_target_pts (p :: next))
      by (unfold range_pts; rewrite Hq, skipn_middle; reflexivity).
    cbn [find_seek_target_loop]. rewrite Hl.
    destruct (dp_keyframe p) eqn:K; cbn [negb].
    2:{ apply IH; [exact Hq'|]. rewrite <- Hl.
        apply seek_best_skip; [exact Hinv|].
        intros C. apply Hcand in C. destruct C as [C _]. discriminate. }
    destruct (Qeq_bool (recompute_keyframe_target_pts (p :: next))
                MP_NOPTS_VALUE) eqn:N.
    { apply IH; [exact Hq'|]. rewrite <- Hl.
      apply seek_best_skip; [exact Hinv|].
      intros C. apply Hcand in C. destruct C as [_ [C _]].
      apply Qeq_bool_iff in N. contradiction. }
    cbv zeta.
    fold (seek_diff pts flags (recompute_keyframe_target_pts (p :: next))).
    rewrite <- Hr.
    set (diff := seek_diff pts flags (range_pts queue (length pre))).
    destruct (has_flag flags SEEK_FORWARD && Qlt_bool 0 diff) eqn:F.
    { apply IH; [exact Hq'|]. rewrite <- Hl.
      apply seek_best_skip; [exact Hinv|].
      intros C. apply Hcand in C. destruct C as [_ [_ C]].
      apply andb_true_iff in F. destruct F as [F1 F2].
      specialize (C F1). apply Qlt_bool_iff in F2.
      unfold diff, seek_diff in F2. rewrite F1, Hr in F2. lra. }
    assert (Hc : seek_candidate queue pts flags (length pre)).
    { apply Hcand. split; [reflexivity|]. split.
      - apply Qeq_bool_false_iff. exact N.
      - intros F1. rewrite F1 in F. cbn [andb] in F.
        apply Qlt_bool_false_iff in F.
        unfold diff, seek_diff in F. rewrite F1, Hr in F. lra. }
    destruct target as [j|].
    2:{ (* the first candidate *)
      destruct Hinv as [Ht Hm]. subst td.
      change (Qeq_bool MP_NOPTS_VALUE MP_NOPTS_VALUE) with true.
      cbn [negb andb].
      apply IH; [exact Hq'|]. rewrite <- Hl. unfold seek_best.
      split; [lia|]. split; [exact Hc|]. split; [reflexivity|].
      intros k Hk Hck.
      destruct (Nat.eq_dec k (length pre)) as [->|Hne].
      - fold diff. split; intros H; [left|]; lra.
      - exfalso. apply (Hm k); [lia|exact Hck]. }
    destruct Hinv as [Hj [Hcj [Ht Hm]]].
    assert (Hne : Qeq_bool td MP_NOPTS_VALUE = false).
    { apply Qeq_bool_false_iff. rewrite Ht. apply no_sentinel. exact Hcj. }
    rewrite Hne. cbn [negb andb].
    destruct (Qle_bool diff 0) eqn:D.
    + (* the candidate is at or before the position *)
      apply Qle_bool_iff in D.
      destruct (Qle_bool td 0 && Qle_bool diff td) eqn:R.
      * apply andb_true_iff in R. destruct R as [R1 R2].
        apply Qle_bool_iff in R1. apply Qle_bool_iff in R2.
        apply IH; [exact Hq'|]. rewrite <- Hl. unfold seek_best.
        split; [lia|]. split; [exact Hcj|]. split; [exact Ht|].
        intros k Hk Hck.
        destruct (Nat.eq_dec k (length pre)) as [->|Hnk].
        -- fold diff. split; intros H; [left; exact R2|lra].
        -- apply Hm; [lia|exact Hck].
      * apply IH; [exact Hq'|]. rewrite <- Hl. unfold seek_best.
        split; [lia|]. split; [exact Hc|]. split; [reflexivity|].
        fold diff. intros k Hk Hck.
        destruct (Nat.eq_dec k (length pre)) as [->|Hnk].
        -- fold diff. split; intros H; [left|]; lra.
        -- split; [intros _|intros H; lra].
           destruct (Hm k ltac:(lia) Hck) as [Hm1 Hm2].
           apply andb_false_iff in R. destruct R as [R|R]; qprop.
           ++ specialize (Hm2 R). right. lra.
           ++ destruct (Qlt_le_dec 0 td) as [Hp|Hp].
              ** specialize (Hm2 Hp). right. lra.
              ** destruct (Hm1 Hp) as [H1|H1]; [left; lra|right; exact H1].
    + (* the candidate is after the position *)
      apply Qle_bool_false_iff in D.
      destruct (Qle_bool td diff) eqn:R; qprop.
      * apply IH; [exact Hq'|]. rewrite <- Hl. unfold seek_best.
        split; [lia|]. split; [exact Hcj|]. split; [exact Ht|].
        intros k Hk Hck.
        destruct (Nat.eq_dec k (length pre)) as [->|Hnk].
        -- fold diff. split; intros H; [right; exact D|exact R].
        -- apply Hm; [lia|exact Hck].
      * apply IH; [exact Hq'|]. rewrite <- Hl. unfold seek_best.
        split; [lia|]. split; [exact Hc|]. split; [reflexivity|].
        fold diff. intros k Hk Hck.
        destruct (Nat.eq_dec k (length pre)) as [->|Hnk].
        -- fold diff. split; intros H; [left|]; lra.
        -- split; [intros H; lra|intros _].
           destruct (Hm k ltac:(lia) Hck) as [_ Hm2].
           specialize (Hm2 ltac:(lra)). lra.
Qed.

End SeekBest.

(** X21: of the keyframes whose range has a timestamp, [find_seek_target]
    picks the one nearest to the position: for a seek that is not
    SEEK_FORWARD the last range at or before the position (no range lies
    between it and the position), and if there is none, the first range
    after it; for SEEK_FORWARD the first range at or after the position.
    It finds no target exactly when there is no such keyframe. (For
    positions at which no distance to a range equals the value of
    MP_NOPTS_VALUE, which the loop takes for "no target yet".) *)
Theorem find_seek_target_nearest (ds : demux_stream) (pts : Q) (flags : Z) :
  no_sentinel_diff (ds_queue ds) pts flags ->
  match find_seek_target ds pts flags with
  | None => forall k, ~ seek_candidate (ds_queue ds) pts flags k
  | Some j =>
      seek_candidate (ds_queue ds) pts flags j
      /\ forall k,
           seek_candidate (ds_queue ds) pts flags k ->
           let rj := range_pts (ds_queue ds) j in
           let rk := range_pts (ds_queue ds) k in
           if has_flag flags SEEK_FORWARD then (rj <= rk)%Q
           else ((rj <= pts)%Q -> (rk <= rj)%Q \/ (pts < rk)%Q)
                /\ ((pts < rj)%Q -> (rj <= rk)%Q)
  end.
Proof.
  intros Hs. unfold find_seek_target.
  destruct (find_seek_target_loop_best pts flags (ds_queue ds) Hs
              (ds_queue ds) [] None MP_NOPTS_VALUE eq_refl) as [td' H].
  { split; [reflexivity|]. intros k Hk. cbn in Hk. lia. }
  cbn [length] in H.
  assert (Hlt : forall k, seek_candidate (ds_queue ds) pts flags k ->
                          (k < length (ds_queue ds))%nat).
  { intros k [p [Hn _]]. apply nth_error_Some. rewrite Hn. discriminate. }
  destruct (find_seek_target_loop pts flags (ds_queue ds) 0 None
              MP_NOPTS_VALUE) as [j|].
  - destruct H as [Hj [Hc [Ht Hm]]].
    split; [exact Hc|]. intros k Hck. cbv zeta.
    destruct (Hm k (Hlt k Hck) Hck) as [H1 H2]. subst td'.
    destruct Hc as [pj [_ [_ [_ Fj]]]].
    destruct Hck as [pk [_ [_ [_ Fk]]]].
    unfold seek_diff in H1, H2.
    destruct (has_flag flags SEEK_FORWARD).
    + specialize (Fj eq_refl). specialize (Fk eq_refl).
      destruct H1 as [H1|H1]; lra.
    + split; intros H.
      * destruct H1 as [H1|H1]; [lra|left; lra|right; lra].
      * specialize (H2 ltac:(lra)). lra.
  - destruct H as [_ Hm]. intros k Hck. apply (Hm k (Hlt k Hck) Hck).
Qed.

Lemma find_seek_target_nearest_witness :
  exists ds,
    stream_at seek_example 0 = Some ds
    /\ find_seek_target ds 5 SEEK_HR = Some 0%nat
    /\ forall k, seek_candidate (ds_queue ds) 5 SEEK_HR k ->
                 (range_pts (ds_queue ds) k <= range_pts (ds_queue ds) 0)%Q
                 \/ (5 < range_pts (ds_queue ds) k)%Q.
Proof.
  eassert (E : stream_at seek_example 0 = Some _)
    by (vm_compute; reflexivity).
  eexists. split; [exact E|].
  match type of E with _ = Some ?ds => set (ds0 := ds) end.
  assert (Hs : no_sentinel_diff (ds_queue ds0) 5 SEEK_HR).
  { intros k [p [Hn _]].
    destruct k as [|[|k]];
      [vm_compute; discriminate|vm_compute; discriminate|].
    destruct k; discriminate. }
  pose proof (find_seek_target_nearest ds0 5 SEEK_HR Hs) as H.
  assert (F : find_seek_target ds0 5 SEEK_HR = Some 0%nat)
    by (vm_compute; reflexivity).
  rewrite F in H. destruct H as [_ H].
  split; [exact F|].
  intros k Hck. specialize (H k Hck). cbv zeta in H.
  change (has_flag SEEK_HR SEEK_FORWARD) with false in H.
  destruct H as [H _]. apply H. vm_compute. discriminate.
Defined.

(** ** Bitrates *)

Lemma stream_type_eqb_eq (a b : stream_type) :
  stream_type_eqb a b = true <-> a = b.
Proof. destruct a, b; split; intros H; try reflexivity; discriminate. Qed.

Lemma sum_bitrates_rated (type : stream_type) (streams : list demux_stream) :
  (0 <= sum_bitrates (filter (rated type) streams))%Q.
Proof.
  induction streams as [|ds rest IH]; [cbn; lra|].
  cbn [filter]. destruct (rated type ds) eqn:R; [|exact IH].
  cbn [sum_bitrates fold_right].
  fold (sum_bitrates (filter (rated type) rest)).
  unfold rated in R. apply andb_true_iff in R. destruct R as [_ R].
  qprop. lra.
Qed.

Lemma bitrate_stats_fold (type : stream_type)
    (streams : list demux_stream) :
  forall rates : stream_type -> Q,
    let r := fold_left bitrate_stats_step streams rates type in
    (filter (rated type) streams = [] -> r = rates type)
    /\ (filter (rated type) streams <> [] ->
        (r == MPMAX 0 (rates type)
              + sum_bitrates (filter (rated type) streams))%Q).
Proof.
  induction streams as [|ds rest IH]; intros rates r.
  - subst r. split; [reflexivity|]. intros H. contradiction.
  - subst r. cbn [fold_left filter].
    specialize (IH (bitrate_stats_step rates ds)). cbv zeta in IH.
    destruct IH as [I1 I2].
    assert (Hstep : bitrate_stats_step rates ds type
                    = if rated type ds
                      then (MPMAX 0 (rates type) + ds_bitrate ds)%Q
                      else rates type).
    { unfold bitrate_stats_step, rated, set_rate.
      destruct (ds_selected ds && Qle_bool 0 (ds_bitrate ds)) eqn:C.
      - destruct (stream_type_eqb (ds_type ds) type) eqn:T.
        + apply stream_type_eqb_eq in T. subst type.
          rewrite (proj2 (stream_type_eqb_eq _ _) eq_refl).
          rewrite <- andb_assoc, C. reflexivity.
        + assert (T' : stream_type_eqb type (ds_type ds) = false).
          { destruct type, (ds_type ds); try reflexivity; discriminate. }
          rewrite T'. reflexivity.
      - rewrite <- andb_assoc, C, andb_false_r. reflexivity. }
    rewrite Hstep in I1, I2.
    destruct (rated type ds) eqn:R.
    + split; [discriminate|]. intros _.
      cbn [sum_bitrates fold_right].
      fold (sum_bitrates (filter (rated type) rest)).
      unfold rated in R. apply andb_true_iff in R. destruct R as [_ R].
      qprop.
      assert (Hm : (0 <= MPMAX 0 (rates type))%Q).
      { unfold MPMAX. destruct (Qlt_bool (rates type) 0) eqn:L;
          qprop; lra. }
      destruct (filter (rated type) rest) as [|x l] eqn:Fl.
      * rewrite (I1 eq_refl). cbn [sum_bitrates fold_right]. lra.
      * rewrite (I2 ltac:(discriminate)).
        assert (Hx : MPMAX 0 (MPMAX 0 (rates type) + ds_bitrate ds)
                     = (MPMAX 0 (rates type) + ds_bitrate ds)%Q).
        { unfold MPMAX at 1.
          destruct (Qlt_bool (MPMAX 0 (rates type) + ds_bitrate ds) 0)
            eqn:L; qprop; [lra|reflexivity]. }
        rewrite Hx. lra.
    + split; [exact I1|exact I2].
Qed.

(** X22: DEMUXER_CTRL_GET_BITRATE_STATS reports, for every stream type,
    the sum of the bitrates of the selected streams of that type whose
    bitrate is known (not negative), and -1 if there is no such stream;
    so a reported rate is -1 or not negative. *)
Theorem bitrate_stats_sum (d : demux_internal) (type : stream_type) :
  let rate := cached_demux_control_bitrate_stats d type in
  let counted := filter (rated type) (in_streams d) in
  (counted = [] -> rate = (-1)%Q)
  /\ (counted <> [] -> (rate == sum_bitrates counted)%Q /\ (0 <= rate)%Q).
Proof.
  cbv zeta. unfold cached_demux_control_bitrate_stats.
  destruct (bitrate_stats_fold type (in_streams d) (fun _ => (-1)%Q))
    as [H1 H2].
  cbv zeta in H1, H2. split; [exact H1|].
  intros Hne. specialize (H2 Hne).
  change (MPMAX 0 (-1)) with 0%Q in H2.
  pose proof (sum_bitrates_rated type (in_streams d)) as Hs.
  split; [rewrite H2; lra|]. rewrite H2. lra.
Qed.

(** ** Chapters *)

Lemma add_chapters_index (added : list (string * Q * Z)) :
  forall (chapters : list demux_chapter),
    (forall i c, nth_error chapters i = Some c ->
                 ch_original_index c = Z.of_nat i) ->
    let chapters' :=
      fold_left
        (fun chapters '(name, pts, demuxer_id) =>
           snd (demuxer_add_chapter chapters name pts demuxer_id))
        added chapters in
    length chapters' = (length chapters + length added)%nat
    /\ forall i c, nth_error chapters' i = Some c ->
                   ch_original_index c = Z.of_nat i.
Proof.
  induction added as [|[[name pts] id] rest IH]; intros chapters H.
  - cbn [fold_left length]. split; [lia|exact H].
  - cbn [fold_left length]. cbv zeta in IH.
    destruct (IH (snd (demuxer_add_chapter chapters name pts id)))
      as [L I].
    + unfold demuxer_add_chapter. cbn [snd]. intros i c E.
      destruct (Nat.lt_ge_cases i (length chapters)) as [Hi|Hi].
      * rewrite nth_error_app1 in E by exact Hi. apply H. exact E.
      * rewrite nth_error_app2 in E by exact Hi.
        destruct (i - length chapters)%nat as [|k] eqn:K.
        -- injection E as <-. cbn [ch_original_index]. f_equal. lia.
        -- destruct k; discriminate.
    + split; [|exact I]. rewrite L. unfold demuxer_add_chapter.
      cbn [snd]. rewrite length_app. cbn [length]. lia.
Qed.

(** X23: [demuxer_add_chapter] returns the position of the new chapter and
    gives it that position as [original_index]; on chapters added that
    way [chapter_compare] is a strict total order, by time and, for equal
    times, by the order in which the chapters were added: it never
    returns 0, it returns -1 for two different chapters exactly when the
    first is earlier (or as early and added before the second), swapping
    its arguments negates it, and it is transitive. *)
Theorem chapter_compare_total (added : list (string * Q * Z)) :
  let chapters := add_chapters added in
  length chapters = length added
  /\ (forall name pts id,
         fst (demuxer_add_chapter chapters name pts id)
         = Z.of_nat (length chapters))
  /\ forall i j k ci cj ck,
       nth_error chapters i = Some ci ->
       nth_error chapters j = Some cj ->
       nth_error chapters k = Some ck ->
       ch_original_index ci = Z.of_nat i
       /\ (chapter_compare ci cj = 1 \/ chapter_compare ci cj = -1)
       /\ (i <> j ->
           (chapter_compare ci cj = -1
            <-> (ch_pts ci < ch_pts cj)%Q
                \/ ((ch_pts ci == ch_pts cj)%Q /\ (i < j)%nat))
           /\ chapter_compare cj ci = - chapter_compare ci cj)
       /\ (i <> j -> j <> k ->
           chapter_compare ci cj = -1 -> chapter_compare cj ck = -1 ->
           chapter_compare ci ck = -1).
Proof.
  cbv zeta. unfold add_chapters.
  destruct (add_chapters_index added []) as [L I].
  { intros [|i] c E; discriminate. }
  cbv zeta in L, I. cbn [length] in L.
  set (chapters := fold_left _ added []) in *.
  split; [exact L|]. split.
  { intros name pts id. unfold demuxer_add_chapter. cbn [fst].
    rewrite length_app. cbn [length]. lia. }
  intros i j k ci cj ck Ei Ej Ek.
  pose proof (I i ci Ei) as Hi. pose proof (I j cj Ej) as Hj.
  pose proof (I k ck Ek) as Hk.
  split; [exact Hi|].
  unfold chapter_compare. rewrite Hi, Hj, Hk.
  split.
  { repeat match goal with
    | |- context [if ?c then _ else _] => destruct c
    end; auto. }
  split.
  - intros Hne.
    destruct (Qlt_bool (ch_pts cj) (ch_pts ci)) eqn:A,
      (Qlt_bool (ch_pts ci) (ch_pts cj)) eqn:B; qprop; try lra.
    + split; [|reflexivity]. split; [discriminate|].
      intros [H|[H _]]; lra.
    + split; [|reflexivity]. split; [intros _; left; exact B|reflexivity].
    + destruct (Z.of_nat j <? Z.of_nat i) eqn:C,
        (Z.of_nat i <? Z.of_nat j) eqn:D;
        try (apply Z.ltb_lt in C); try (apply Z.ltb_lt in D);
        try (apply Z.ltb_ge in C); try (apply Z.ltb_ge in D); try lia.
      * split; [|reflexivity]. split; [discriminate|].
        intros [H|[_ H]]; [lra|lia].
      * split; [|reflexivity]. split; [|reflexivity].
        intros _. right. split; [lra|lia].
  - intros Hij Hjk.
    destruct (Qlt_bool (ch_pts cj) (ch_pts ci)) eqn:A1;
      [discriminate|].
    destruct (Qlt_bool (ch_pts ck) (ch_pts cj)) eqn:A2;
      [intros _; discriminate|].
    destruct (Qlt_bool (ch_pts ci) (ch_pts cj)) eqn:B1,
      (Qlt_bool (ch_pts cj) (ch_pts ck)) eqn:B2; qprop.
    + intros _ _.
      replace (Qlt_bool (ch_pts ck) (ch_pts ci)) with false
        by (symmetry; apply Qlt_bool_false_iff; lra).
      replace (Qlt_bool (ch_pts ci) (ch_pts ck)) with true
        by (symmetry; apply Qlt_bool_iff; lra).
      reflexivity.
    + intros _ _.
      replace (Qlt_bool (ch_pts ck) (ch_pts ci)) with false
        by (symmetry; apply Qlt_bool_false_iff; lra).
      replace (Qlt_bool (ch_pts ci) (ch_pts ck)) with true
        by (symmetry; apply Qlt_bool_iff; lra).
      reflexivity.
    + intros _ _.
      replace (Qlt_bool (ch_pts ck) (ch_pts ci)) with false
        by (symmetry; apply Qlt_bool_false_iff; lra).
      replace (Qlt_bool (ch_pts ci) (ch_pts ck)) with true
        by (symmetry; apply Qlt_bool_iff; lra).
      reflexivity.
    + replace (Qlt_bool (ch_pts ck) (ch_pts ci)) with false
        by (symmetry; apply Qlt_bool_false_iff; lra).
      replace (Qlt_bool (ch_pts ci) (ch_pts ck)) with false
        by (symmetry; apply Qlt_bool_false_iff; lra).
      destruct (Z.of_nat j <? Z.of_nat i) eqn:C1; [discriminate|].
      destruct (Z.of_nat k <? Z.of_nat j) eqn:C2; [intros _; discriminate|].
      apply Z.ltb_ge in C1. apply Z.ltb_ge in C2. intros _ _.
      replace (Z.of_nat k <? Z.of_nat i) with false
        by (symmetry; apply Z.ltb_ge; lia).
      reflexivity.
Qed.

(** ** Replaygain *)

Section ReplaygainFacts.

Variable mp_tags : Type.
Variable mp_tags_get_str : mp_tags -> string -> option string.
Variable strtod : string -> strtod_result.


Lemma decode_gain_spec (log : list string) (tags : mp_tags) (tag : string)
    (out : Q) :
  exists log',
    decode_gain mp_tags mp_tags_get_str strtod log tags tag out
    = match tag_gain mp_tags mp_tags_get_str strtod tags tag with
      | Some v => (0, v, log')
      | None => (-1, out, log')
      end.
Proof.
  unfold decode_gain, tag_gain, decode_float.
  destruct (mp_tags_get_str tags tag) as [tag_val|];
    [|eexists; reflexivity].
  destruct (strtod tag_val); eexists; reflexivity.
Qed.

Lemma decode_peak_spec (log : list string) (tags : mp_tags) (tag : string)
    (out : Q) :
  decode_peak mp_tags mp_tags_get_str strtod log tags tag out
  = match tag_peak mp_tags mp_tags_get_str strtod tags tag with
    | Some v => (0, v, log)
    | None => (-1, 1%Q, log)
    end.
Proof.
  unfold decode_peak, tag_peak, decode_float.
  destruct (mp_tags_get_str tags tag) as [tag_val|]; [|reflexivity].
  destruct (strtod tag_val) as [| |v]; try reflexivity.
  cbn [Z.ltb Z.compare orb]. destruct (Qle_bool v 0); reflexivity.
Qed.

Lemma tag_peak_positive (tags : mp_tags) (tag : string) (v : Q) :
  tag_peak mp_tags mp_tags_get_str strtod tags tag = Some v -> (0 < v)%Q.
Proof.
  unfold tag_peak.
  destruct (mp_tags_get_str tags tag) as [tag_val|].
  - destruct (strtod tag_val) as [| |w]; try discriminate.
    destruct (Qle_bool w 0) eqn:C; [discriminate|].
    intros H. injection H as <-. qprop. exact C.
  - intros H. injection H as <-. reflexivity.
Qed.

(** What [decode_rgain] returns, in terms of what the tags give. *)
Lemma decode_rgain_spec (log : list string) (tags : mp_tags) :
  fst (decode_rgain mp_tags mp_tags_get_str strtod log tags)
  = match tag_gain mp_tags mp_tags_get_str strtod tags "REPLAYGAIN_TRACK_GAIN",
          tag_peak mp_tags mp_tags_get_str strtod tags "REPLAYGAIN_TRACK_PEAK" with
    | Some tg, Some tp =>
        match tag_gain mp_tags mp_tags_get_str strtod tags "REPLAYGAIN_ALBUM_GAIN",
              tag_peak mp_tags mp_tags_get_str strtod tags "REPLAYGAIN_ALBUM_PEAK" with
        | Some ag, Some ap =>
            Some {| track_gain := tg; track_peak := tp;
                    album_gain := ag; album_peak := ap |}
        | _, _ =>
            Some {| track_gain := tg; track_peak := tp;
                    album_gain := tg; album_peak := tp |}
        end
    | _, _ =>
        match tag_gain mp_tags mp_tags_get_str strtod tags "REPLAYGAIN_GAIN",
              tag_peak mp_tags mp_tags_get_str strtod tags "REPLAYGAIN_PEAK" with
        | Some g, Some p =>
            Some {| track_gain := g; track_peak := p;
                    album_gain := g; album_peak := p |}
        | _, _ => None
        end
    end.
Proof.
  unfold decode_rgain.
  cbn [track_gain track_peak album_gain album_peak].
  destruct (decode_gain_spec log tags "REPLAYGAIN_TRACK_GAIN" 0)
    as [log1 E1].
  rewrite E1. clear E1.
  destruct (tag_gain mp_tags mp_tags_get_str strtod tags "REPLAYGAIN_TRACK_GAIN") as [tg|].
  - cbn [Z.leb Z.compare]. rewrite decode_peak_spec.
    destruct (tag_peak mp_tags mp_tags_get_str strtod tags "REPLAYGAIN_TRACK_PEAK") as [tp|].
    + cbn [Z.leb Z.compare track_gain track_peak album_gain album_peak].
      destruct (decode_gain_spec log1 tags "REPLAYGAIN_ALBUM_GAIN" 0)
        as [log2 E2].
      rewrite E2. clear E2.
      destruct (tag_gain mp_tags mp_tags_get_str strtod tags "REPLAYGAIN_ALBUM_GAIN") as [ag|].
      * cbn [Z.ltb Z.compare track_gain track_peak album_gain album_peak].
        rewrite decode_peak_spec.
        destruct (tag_peak mp_tags mp_tags_get_str strtod tags "REPLAYGAIN_ALBUM_PEAK") as [ap|];
          reflexivity.
      * reflexivity.
    + cbn [Z.leb Z.compare track_gain track_peak album_gain album_peak].
      destruct (decode_gain_spec log1 tags "REPLAYGAIN_GAIN" tg)
        as [log2 E2].
      rewrite E2. clear E2.
      destruct (tag_gain mp_tags mp_tags_get_str strtod tags "REPLAYGAIN_GAIN") as [g|].
      * cbn [Z.leb Z.compare track_gain track_peak album_gain album_peak].
        rewrite decode_peak_spec.
        destruct (tag_peak mp_tags mp_tags_get_str strtod tags "REPLAYGAIN_PEAK") as [p|]; reflexivity.
      * reflexivity.
  - cbn [Z.leb Z.compare track_gain track_peak album_gain album_peak].
    destruct (decode_gain_spec log1 tags "REPLAYGAIN_GAIN" 0)
      as [log2 E2].
    rewrite E2. clear E2.
    destruct (tag_gain mp_tags mp_tags_get_str strtod tags "REPLAYGAIN_GAIN") as [g|].
    + cbn [Z.leb Z.compare track_gain track_peak album_gain album_peak].
      rewrite decode_peak_spec.
      destruct (tag_peak mp_tags mp_tags_get_str strtod tags "REPLAYGAIN_PEAK") as [p|];
        [reflexivity|].
      destruct (tag_peak mp_tags mp_tags_get_str strtod tags "REPLAYGAIN_TRACK_PEAK"); reflexivity.
    + destruct (tag_peak mp_tags mp_tags_get_str strtod tags "REPLAYGAIN_TRACK_PEAK"); reflexivity.
Qed.

End ReplaygainFacts.

(** X24: replaygain data that [decode_rgain] returns has positive peaks.
    Its track values are those of REPLAYGAIN_TRACK_GAIN and
    REPLAYGAIN_TRACK_PEAK when these are valid (a gain tag must be there
    and hold a finite number; a peak tag, if there, must hold a positive
    finite number, and a missing one gives the peak 1), with the album
    values from REPLAYGAIN_ALBUM_GAIN and REPLAYGAIN_ALBUM_PEAK, or equal
    to the track values if these are not both valid; else all values
    come from REPLAYGAIN_GAIN and REPLAYGAIN_PEAK. *)
Theorem decode_rgain_valid (mp_tags : Type)
    (mp_tags_get_str : mp_tags -> string -> option string)
    (strtod : string -> strtod_result) (log : list string)
    (tags : mp_tags) (rg : replaygain_data) :
  let gain := tag_gain mp_tags mp_tags_get_str strtod tags in
  let peak := tag_peak mp_tags mp_tags_get_str strtod tags in
  fst (decode_rgain mp_tags mp_tags_get_str strtod log tags) = Some rg ->
  (0 < track_peak rg)%Q /\ (0 < album_peak rg)%Q
  /\ ((gain "REPLAYGAIN_TRACK_GAIN"%string = Some (track_gain rg)
       /\ peak "REPLAYGAIN_TRACK_PEAK"%string = Some (track_peak rg)
       /\ ((gain "REPLAYGAIN_ALBUM_GAIN"%string = Some (album_gain rg)
            /\ peak "REPLAYGAIN_ALBUM_PEAK"%string = Some (album_peak rg))
           \/ ((gain "REPLAYGAIN_ALBUM_GAIN"%string = None
                \/ peak "REPLAYGAIN_ALBUM_PEAK"%string = None)
               /\ album_gain rg = track_gain rg
               /\ album_peak rg = track_peak rg)))
      \/ ((gain "REPLAYGAIN_TRACK_GAIN"%string = None
           \/ peak "REPLAYGAIN_TRACK_PEAK"%string = None)
          /\ gain "REPLAYGAIN_GAIN"%string = Some (track_gain rg)
          /\ peak "REPLAYGAIN_PEAK"%string = Some (track_peak rg)
          /\ album_gain rg = track_gain rg
          /\ album_peak rg = track_peak rg)).
Proof.
  cbv zeta. rewrite decode_rgain_spec.
  pose proof (tag_peak_positive mp_tags mp_tags_get_str strtod tags) as P.
  destruct (tag_gain mp_tags mp_tags_get_str strtod tags
              "REPLAYGAIN_TRACK_GAIN") as [tg|] eqn:G1;
    destruct (tag_peak mp_tags mp_tags_get_str strtod tags
                "REPLAYGAIN_TRACK_PEAK") as [tp|] eqn:P1.
  1:{ destruct (tag_gain mp_tags mp_tags_get_str strtod tags
                  "REPLAYGAIN_ALBUM_GAIN") as [ag|] eqn:G2;
        destruct (tag_peak mp_tags mp_tags_get_str strtod tags
                    "REPLAYGAIN_ALBUM_PEAK") as [ap|] eqn:P2;
        intros H; injection H as <-;
        cbn [track_gain track_peak album_gain album_peak];
        (split; [eapply P; eassumption|]);
        (split; [eapply P; eassumption|]);
        left; (split; [reflexivity|]); (split; [reflexivity|]);
        try (left; split; reflexivity);
        right; (split; [|split; reflexivity]); auto. }
  all: destruct (tag_gain mp_tags mp_tags_get_str strtod tags
                   "REPLAYGAIN_GAIN") as [g|] eqn:G3;
    destruct (tag_peak mp_tags mp_tags_get_str strtod tags
                "REPLAYGAIN_PEAK") as [p|] eqn:P3;
    intros H; try discriminate; injection H as <-;
    cbn [track_gain track_peak album_gain album_peak];
    (split; [eapply P; eassumption|]);
    (split; [eapply P; eassumption|]);
    right; (split; [auto|]); repeat split; reflexivity.
Qed.

Lemma decode_rgain_valid_witness :
  fst (decode_rgain _ example_tags_get_str example_strtod []
         [("REPLAYGAIN_TRACK_GAIN", "-6.5 dB");
          ("REPLAYGAIN_ALBUM_PEAK", "0.9")]%string)
  = Some {| track_gain := - (13 # 2); track_peak := 1;
            album_gain := - (13 # 2); album_peak := 1 |}.
Proof.
  destruct (fst (decode_rgain _ example_tags_get_str example_strtod []
                   [("REPLAYGAIN_TRACK_GAIN", "-6.5 dB");
                    ("REPLAYGAIN_ALBUM_PEAK", "0.9")]%string))
    as [rg|] eqn:E; [|vm_compute in E; discriminate].
  destruct (decode_rgain_valid _ example_tags_get_str example_strtod []
              _ rg E) as [_ [_ [[H1 [H2 [[H3 _]|[_ [H4 H5]]]]]|[[H1|H1] _]]]].
  - vm_compute in H3. discriminate.
  - vm_compute in H1, H2. injection H1 as H1. injection H2 as H2.
    destruct rg as [tg tp ag ap]. cbn in *. subst. reflexivity.
  - vm_compute in H1. discriminate.
  - vm_compute in H1. discriminate.
Defined.

Lemma update_replaygain_fold (mp_tags : Type)
    (mp_tags_get_str : mp_tags -> string -> option string)
    (strtod : string -> strtod_result) (metadata : mp_tags)
    (streams : list (sh_stream mp_tags)) :
  forall (done : list (sh_stream mp_tags)) (log : list string),
  exists streams',
    fst (fold_left (update_replaygain mp_tags mp_tags_get_str strtod metadata)
           streams (done, log)) = done ++ streams'
    /\ Forall2
         (fun sh sh' =>
            sh_type sh' = sh_type sh /\ sh_tags sh' = sh_tags sh
            /\ if stream_type_eqb (sh_type sh) STREAM_AUDIO
                  && negb (is_some (sh_replaygain_data sh))
               then sh_replaygain_data sh'
                    = match fst (decode_rgain mp_tags mp_tags_get_str
                                   strtod [] (sh_tags sh)) with
                      | Some rg => Some rg
                      | None =>
                          fst (decode_rgain mp_tags mp_tags_get_str strtod
                                 [] metadata)
                      end
               else sh' = sh)
         streams streams'.
Proof.
  induction streams as [|sh rest IH]; intros done log.
  - exists []. cbn [fold_left fst]. rewrite app_nil_r.
    split; [reflexivity|constructor].
  - cbn [fold_left]. unfold update_replaygain at 2.
    destruct (stream_type_eqb (sh_type sh) STREAM_AUDIO
              && negb (is_some (sh_replaygain_data sh))) eqn:C.
    + pose proof (decode_rgain_spec mp_tags mp_tags_get_str strtod log
                    (sh_tags sh)) as E1.
      rewrite <- (decode_rgain_spec mp_tags mp_tags_get_str strtod []
                    (sh_tags sh)) in E1.
      destruct (decode_rgain mp_tags mp_tags_get_str strtod log (sh_tags sh))
        as [rg1 log1].
      cbn [fst] in E1. subst rg1.
      destruct (fst (decode_rgain mp_tags mp_tags_get_str strtod []
                       (sh_tags sh))) as [rg|] eqn:R1.
      * match goal with
        | |- context [fold_left _ rest (done ++ [?x], log1)] =>
            destruct (IH (done ++ [x]) log1) as [streams' [E F]];
            exists (x :: streams')
        end.
        rewrite E, <- app_assoc.
        split; [reflexivity|]. constructor; [|exact F].
        rewrite C, R1. repeat split.
      * pose proof (decode_rgain_spec mp_tags mp_tags_get_str strtod log1
                      metadata) as E2.
        rewrite <- (decode_rgain_spec mp_tags mp_tags_get_str strtod []
                      metadata) in E2.
        destruct (decode_rgain mp_tags mp_tags_get_str strtod log1 metadata)
          as [rg2 log2].
        cbn [fst] in E2. subst rg2.
        match goal with
        | |- context [fold_left _ rest (done ++ [?x], log2)] =>
            destruct (IH (done ++ [x]) log2) as [streams' [E F]];
            exists (x :: streams')
        end.
        rewrite E, <- app_assoc. split; [reflexivity|].
        constructor; [|exact F]. rewrite C, R1.
        destruct (fst (decode_rgain mp_tags mp_tags_get_str strtod []
                         metadata)); repeat split.
        apply andb_true_iff in C. destruct C as [_ C].
        destruct (sh_replaygain_data sh); [discriminate|reflexivity].
    + destruct (IH (done ++ [sh]) log) as [streams' [E F]].
      exists (sh :: streams'). rewrite E, <- app_assoc.
      split; [reflexivity|]. constructor; [|exact F].
      rewrite C. repeat split.
Qed.

(** X25: [demux_update_replaygain] touches the replaygain data of audio
    streams that have none, and nothing else: a stream that is not audio,
    or that has replaygain data already, stays as it is. An audio stream
    without data gets what [decode_rgain] makes of its own tags and, only
    if these give nothing, what it makes of the metadata of the file; if
    both give nothing it stays without data. *)
Theorem demux_update_replaygain_fills (mp_tags : Type)
    (mp_tags_get_str : mp_tags -> string -> option string)
    (strtod : string -> strtod_result) (metadata : mp_tags)
    (streams : list (sh_stream mp_tags)) (log : list string) :
  Forall2
    (fun sh sh' =>
       sh_type sh' = sh_type sh /\ sh_tags sh' = sh_tags sh
       /\ if stream_type_eqb (sh_type sh) STREAM_AUDIO
             && negb (is_some (sh_replaygain_data sh))
          then sh_replaygain_data sh'
               = match fst (decode_rgain mp_tags mp_tags_get_str strtod []
                              (sh_tags sh)) with
                 | Some rg => Some rg
                 | None =>
                     fst (decode_rgain mp_tags mp_tags_get_str strtod []
                            metadata)
                 end
          else sh' = sh)
    streams
    (fst (demux_update_replaygain mp_tags mp_tags_get_str strtod metadata
            streams log)).
Proof.
  unfold demux_update_replaygain.
  destruct (update_replaygain_fold mp_tags mp_tags_get_str strtod metadata
              streams [] log) as [streams' [E F]].
  rewrite E. exact F.
Qed.

(** ** The streams of the demuxer *)

Section StreamFacts.

Variable mp_tags : Type.
Variable no_tags : mp_tags.
Variable DEMUX_EVENT_STREAMS : Z.

Lemma count_type_spec (type : stream_type)
    (streams : list (sh_stream mp_tags)) (demuxer_id : Z) :
  count_type mp_tags type streams demuxer_id
  = demuxer_id + streams_of_type mp_tags type streams.
Proof.
  revert demuxer_id. unfold streams_of_type.
  induction streams as [|s rest IH]; intros demuxer_id.
  - cbn. lia.
  - cbn [count_type filter]. rewrite IH.
    destruct (stream_type_eqb (sh_type s) type); cbn [length]; lia.
Qed.

Lemma streams_of_type_app (type : stream_type)
    (l1 l2 : list (sh_stream mp_tags)) :
  streams_of_type mp_tags type (l1 ++ l2)
  = streams_of_type mp_tags type l1 + streams_of_type mp_tags type l2.
Proof.
  unfold streams_of_type. rewrite filter_app, length_app. lia.
Qed.

Lemma streams_of_type_nonneg (type : stream_type)
    (l : list (sh_stream mp_tags)) :
  0 <= streams_of_type mp_tags type l.
Proof. unfold streams_of_type. lia. Qed.

(** A stream of the type has more streams of the type before every later
    position than before its own. *)
Lemma streams_of_type_before (streams : list (sh_stream mp_tags))
    (i j : nat) (s : sh_stream mp_tags) :
  (j < i)%nat -> nth_error streams j = Some s ->
  streams_of_type mp_tags (sh_type s) (firstn j streams)
  < streams_of_type mp_tags (sh_type s) (firstn i streams).
Proof.
  intros Hji E.
  assert (Hs : streams = firstn j streams ++ s :: skipn (S j) streams).
  { rewrite <- (skipn_nth_error _ _ _ E). symmetry. apply firstn_skipn. }
  assert (Hl : length (firstn j streams) = j).
  { apply firstn_length_le. apply Nat.lt_le_incl. apply nth_error_Some.
    rewrite E. discriminate. }
  rewrite Hs at 2. rewrite firstn_app, Hl.
  rewrite (firstn_all2 (n := i)) by (rewrite Hl; lia).
  replace (i - j)%nat with (S (i - j - 1)) by lia.
  cbn [firstn]. rewrite streams_of_type_app.
  change (s :: firstn (i - j - 1) (skipn (S j) streams))
    with ([s] ++ firstn (i - j - 1) (skipn (S j) streams)).
  rewrite streams_of_type_app.
  pose proof (streams_of_type_nonneg (sh_type s)
                (firstn (i - j - 1) (skipn (S j) streams))).
  assert (H1 : streams_of_type mp_tags (sh_type s) [s] = 1).
  { unfold streams_of_type. cbn [filter].
    rewrite (proj2 (stream_type_eqb_eq _ _) eq_refl). reflexivity. }
  lia.
Qed.

Lemma find_first {A : Type} (f : A -> bool) (l : list A) :
  forall (i : nat) (x : A),
    nth_error l i = Some x -> f x = true ->
    (forall j y, (j < i)%nat -> nth_error l j = Some y -> f y = false) ->
    find f l = Some x.
Proof.
  induction l as [|h t IH]; intros [|i] x E F Hb; try discriminate.
  - injection E as ->. cbn [find]. rewrite F. reflexivity.
  - cbn [find]. rewrite (Hb O h ltac:(lia) eq_refl).
    apply (IH i x E F). intros j y Hj Ey.
    apply (Hb (S j) y); [lia|exact Ey].
Qed.

Lemma table_ok_lookup (tab : stream_table mp_tags) (i : nat)
    (s : sh_stream mp_tags) :
  table_ok (tab_streams tab) ->
  nth_error (tab_streams tab) i = Some s ->
  demuxer_stream_by_demuxer_id mp_tags tab (sh_type s) (sh_demuxer_id s)
  = Some s.
Proof.
  intros Hok E. unfold demuxer_stream_by_demuxer_id.
  apply (find_first _ _ i s E).
  - rewrite (proj2 (stream_type_eqb_eq _ _) eq_refl), Z.eqb_refl.
    reflexivity.
  - intros j y Hj Ey.
    destruct (stream_type_eqb (sh_type y) (sh_type s)) eqn:T;
      [|reflexivity].
    apply stream_type_eqb_eq in T. cbn [andb]. apply Z.eqb_neq.
    destruct (Hok i s E) as [_ [_ Hi]].
    destruct (Hok j y Ey) as [_ [_ Hy]].
    pose proof (streams_of_type_before (tab_streams tab) i j y Hj Ey) as Hlt.
    rewrite Hi, Hy, <- T. lia.
Qed.

Lemma table_ok_add (streams : list (sh_stream mp_tags))
    (type : stream_type) (tags : mp_tags)
    (rg : option replaygain_data) :
  table_ok streams ->
  table_ok
    (streams
     ++ [{| sh_type := type; sh_index := Z.of_nat (length streams);
            sh_ff_index := Z.of_nat (length streams);
            sh_demuxer_id := streams_of_type mp_tags type streams;
            sh_tags := tags; sh_replaygain_data := rg |}]).
Proof.
  intros Hok i s E.
  destruct (Nat.lt_ge_cases i (length streams)) as [Hi|Hi].
  - rewrite nth_error_app1 in E by exact Hi.
    rewrite firstn_app.
    replace (i - length streams)%nat with O by lia.
    cbn [firstn]. rewrite app_nil_r. apply Hok. exact E.
  - rewrite nth_error_app2 in E by exact Hi.
    destruct (i - length streams)%nat as [|k] eqn:K.
    + injection E as <-.
      assert (i = length streams) by lia. subst i.
      cbn [sh_index sh_ff_index sh_demuxer_id sh_type].
      rewrite firstn_app, firstn_all, Nat.sub_diag. cbn [firstn].
      rewrite app_nil_r. repeat split.
    + destruct k; discriminate.
Qed.

(** One stream added as [demux_alloc_sh_stream] made it. *)
Lemma add_stream_alloc (tab : stream_table mp_tags) (d : demux_internal)
    (type : stream_type) :
  let r :=
    demux_add_sh_stream mp_tags DEMUX_EVENT_STREAMS (tab, d)
      (demux_alloc_sh_stream mp_tags no_tags type) in
  tab_streams (fst r)
  = tab_streams tab
    ++ [{| sh_type := type;
           sh_index := Z.of_nat (length (tab_streams tab));
           sh_ff_index := Z.of_nat (length (tab_streams tab));
           sh_demuxer_id := streams_of_type mp_tags type (tab_streams tab);
           sh_tags := no_tags; sh_replaygain_data := None |}]
  /\ tab_events (fst r) = Z.lor (tab_events tab) DEMUX_EVENT_STREAMS
  /\ tab_autoselect (fst r) = tab_autoselect tab
  /\ in_streams (snd r)
     = in_streams d ++ [new_demux_stream type (tab_autoselect tab)].
Proof.
  cbv zeta. unfold demux_add_sh_stream, demux_add_sh_stream_locked,
    demux_alloc_sh_stream.
  cbn [sh_type sh_index sh_ff_index sh_demuxer_id sh_tags
       sh_replaygain_data Z.ltb Z.compare].
  rewrite count_type_spec, Z.add_0_l.
  destruct (in_wakeup_cb
              (set_in_streams
                 (in_streams (emit EvLock d)
                  ++ [new_demux_stream type (tab_autoselect tab)])
                 (emit EvLock d))); repeat split.
Qed.

Lemma add_streams_spec (types : list stream_type) :
  forall (tab : stream_table mp_tags) (d : demux_internal),
    table_ok (tab_streams tab) ->
    let r := add_streams mp_tags no_tags DEMUX_EVENT_STREAMS types (tab, d) in
    table_ok (tab_streams (fst r))
    /\ map sh_type (tab_streams (fst r))
       = map sh_type (tab_streams tab) ++ types
    /\ in_streams (snd r)
       = in_streams d
         ++ map (fun t => new_demux_stream t (tab_autoselect tab)) types
    /\ tab_events (fst r)
       = (if is_nil types then tab_events tab
          else Z.lor (tab_events tab) DEMUX_EVENT_STREAMS).
Proof.
  induction types as [|type rest IH]; intros tab d Hok.
  - cbv zeta. unfold add_streams.
    cbn [fold_left fst snd map is_nil]. rewrite !app_nil_r.
    split; [exact Hok|]. split; [reflexivity|]. split; reflexivity.
  - cbv zeta. unfold add_streams. cbn [fold_left].
    destruct (add_stream_alloc tab d type) as [S1 [S2 [S3 S4]]].
    cbv zeta in S1, S2, S3, S4.
    destruct (demux_add_sh_stream mp_tags DEMUX_EVENT_STREAMS (tab, d)
                (demux_alloc_sh_stream mp_tags no_tags type))
      as [tab1 d1].
    cbn [fst snd] in S1, S2, S3, S4.
    fold (add_streams mp_tags no_tags DEMUX_EVENT_STREAMS rest (tab1, d1)).
    destruct (IH tab1 d1) as [I1 [I2 [I3 I4]]].
    { rewrite S1. apply table_ok_add. exact Hok. }
    cbv zeta in I1, I2, I3, I4.
    split; [exact I1|]. split.
    { rewrite I2, S1, map_app, <- app_assoc. reflexivity. }
    split.
    { rewrite I3, S4, S3, <- app_assoc. reflexivity. }
    rewrite I4, S2. cbn [is_nil].
    destruct (is_nil rest); [reflexivity|].
    rewrite <- Z.lor_assoc, Z.lor_diag. reflexivity.
Qed.

End StreamFacts.

(** X26: the streams that a demuxer adds with [demux_add_sh_stream], each
    as [demux_alloc_sh_stream] made it, are numbered by
    [demux_add_sh_stream_locked]: [index] and [ff_index] are the position
    of the stream, [demuxer_id] is the number of streams of its type
    before it. So [demuxer_stream_by_demuxer_id] with the type and the
    [demuxer_id] of a stream finds that stream. Every stream gets a
    [demux_stream] of its type that is selected as [autoselect] says,
    with an empty queue; the streams event is raised. *)
Theorem add_streams_numbered (mp_tags : Type) (no_tags : mp_tags)
    (DEMUX_EVENT_STREAMS : Z) (types : list stream_type) (events : Z)
    (autoselect : bool) (d : demux_internal) :
  let r :=
    add_streams mp_tags no_tags DEMUX_EVENT_STREAMS types
      ({| tab_streams := []; tab_events := events;
          tab_autoselect := autoselect |}, d) in
  map sh_type (tab_streams (fst r)) = types
  /\ in_streams (snd r)
     = in_streams d ++ map (fun t => new_demux_stream t autoselect) types
  /\ (types <> [] ->
      tab_events (fst r) = Z.lor events DEMUX_EVENT_STREAMS)
  /\ forall i s,
       nth_error (tab_streams (fst r)) i = Some s ->
       sh_index s = Z.of_nat i /\ sh_ff_index s = Z.of_nat i
       /\ sh_demuxer_id s
          = streams_of_type mp_tags (sh_type s)
              (firstn i (tab_streams (fst r)))
       /\ demuxer_stream_by_demuxer_id mp_tags (fst r) (sh_type s)
            (sh_demuxer_id s) = Some s.
Proof.
  cbv zeta.
  destruct (add_streams_spec mp_tags no_tags DEMUX_EVENT_STREAMS types
              {| tab_streams := []; tab_events := events;
                 tab_autoselect := autoselect |} d)
    as [I1 [I2 [I3 I4]]].
  { intros [|i] s E; discriminate. }
  cbv zeta in I1, I2, I3, I4.
  split; [exact I2|]. split; [exact I3|]. split.
  { intros Hne. rewrite I4. destruct types; [contradiction|reflexivity]. }
  intros i s E. destruct (I1 i s E) as [H1 [H2 H3]].
  split; [exact H1|]. split; [exact H2|]. split; [exact H3|].
  apply (table_ok_lookup mp_tags _ i s I1 E).
Qed.

(** ** The bitrate of a stream *)










(** ** Asking for a packet *)

(** X28: [demux_has_packet] answers, for a stream without attached
    picture, whether the next [dequeue_packet] returns a packet. It only
    takes the lock: the cache is as before, and nothing is asked of the
    demuxer. *)
Theorem demux_has_packet_iff (n : nat) (d : demux_internal)
    (ds : demux_stream) :
  cache_ok d ->
  stream_at d n = Some ds ->
  ds_attached_picture ds = None ->
  (fst (demux_has_packet n d) = true
   <-> exists pkt d', dequeue_packet n d = Done (Some pkt, d'))
  /\ (fst (demux_has_packet n d) = false
      <-> dequeue_packet n d = Done (None, d))
  /\ snd (demux_has_packet n d) = emit EvUnlock (emit EvLock d).
Proof.
  intros Hok E Hpic. unfold stream_at in E.
  destruct (dequeue_packet_plain n d ds Hok E Hpic)
    as [pkt [d' [ds' [R [_ [_ [_ [_ [_ [_ [_ [Hp [_ Hnone]]]]]]]]]]]]].
  pose proof (Forall_nth_error _ _ _ _ Hok E) as [Hh _].
  assert (Hhas : fst (demux_has_packet n d) = is_some (ds_reader_head ds)).
  { unfold demux_has_packet. rewrite E. reflexivity. }
  assert (Hfw : is_some (ds_reader_head ds) = is_some (hd_error (forward ds))).
  { unfold forward, head_in_queue in *.
    destruct (ds_reader_head ds) as [i|]; [|reflexivity].
    destruct (skipn i (ds_queue ds)) eqn:S; [|reflexivity].
    apply (f_equal (@length _)) in S. rewrite length_skipn in S.
    cbn [length] in S. lia. }
  rewrite Hhas, Hfw, R.
  split; [|split].
  - split.
    + intros H. destruct (hd_error (forward ds)) as [p|]; [|discriminate].
      subst pkt. eexists. exists d'. reflexivity.
    + intros [pkt0 [d0 H]]. injection H as H _. rewrite H in Hp.
      destruct (hd_error (forward ds)); [reflexivity|discriminate].
  - split.
    + intros H. destruct (hd_error (forward ds)) as [p|]; [discriminate|].
      cbn [option_map] in Hp. destruct (Hnone Hp) as [-> _]. subst pkt.
      reflexivity.
    + intros H. injection H as H _. rewrite H in Hp.
      destruct (hd_error (forward ds)); [discriminate|reflexivity].
  - unfold demux_has_packet. rewrite E. reflexivity.
Qed.

Lemma demux_has_packet_iff_witness :
  fst (demux_has_packet 0 prune_example) = true
  /\ exists pkt d', dequeue_packet 0 prune_example = Done (Some pkt, d').
Proof.
  assert (Hok : cache_ok prune_example).
  { repeat constructor; vm_compute; try reflexivity; lia. }
  eassert (E : stream_at prune_example 0 = Some _)
    by (vm_compute; reflexivity).
  destruct (demux_has_packet_iff 0 prune_example _ Hok E eq_refl)
    as [[H _] _].
  split; [reflexivity|]. apply H. reflexivity.
Defined.

(** ** The seek that the thread executes *)

(** X29: while a seek is queued, a further [demux_seek] (seekable
    demuxer, demuxer thread, position other than NOPTS) is never served
    from the cache: it replaces the queued seek, and the seek that
    [execute_seek] then runs on the thread is this last one. The demuxer
    is called once, with the target (in the timestamps of the file) and
    the flags of the last [demux_seek], on a cache whose queues are all
    empty and in which no seek is queued any more, so that the packets
    the demuxer adds from then on are taken. *)
Theorem queued_seek_is_replaced (desc : demuxer_desc)
    (seek : Q -> Z -> demux_internal -> demux_internal)
    (d : demux_internal) (seek_pts : Q) (flags : Z) :
  desc_seek desc = Some seek ->
  d_user_seekable d = true ->
  ~ (seek_pts == MP_NOPTS_VALUE)%Q ->
  in_threading d = true ->
  in_seeking d = true ->
  let d' := snd (demux_seek desc d seek_pts flags) in
  in_seeking d' = true
  /\ in_seek_pts d' = seek_target d seek_pts flags
  /\ in_seek_flags d' = flags
  /\ exists pre,
       execute_seek desc d'
       = emit EvLock
           (emit (EvLog MSGL_V "seek done")
              (seek (seek_target d seek_pts flags) flags pre))
       /\ in_seeking pre = false
       /\ in_initial_state pre = false
       /\ in_streams pre = map ds_clear_demux_state (in_streams d).
Proof.
  intros Hseek Hs Hp Ht Hk.
  assert (Hmiss : fst (try_seek_cache d (seek_target d seek_pts flags) flags)
                  = false).
  { rewrite try_seek_cache_fst, Hk. cbn [negb]. rewrite andb_false_r.
    reflexivity. }
  destruct (demux_seek_miss_eq desc d seek_pts flags Hs Hp Ht Hmiss)
    as [evs E].
  cbv zeta. rewrite E. cbn [snd].
  set (d0 := set_in_trace (evs ++ in_trace d) d).
  split; [reflexivity|]. split; [reflexivity|]. split; [reflexivity|].
  eexists. unfold execute_seek. rewrite Hseek. cbv zeta.
  split; [reflexivity|]. split; [reflexivity|]. split; [reflexivity|].
  change (in_streams
            (emit (EvLog MSGL_V "execute seek (to %f flags %d)")
               (emit EvUnlock
                  (set_in_initial_state false
                     (set_in_seeking false
                        (emit EvUnlock
                           (emit EvCondSignal
                              (set_in_seek_pts
                                 (seek_target d seek_pts flags)
                                 (set_in_seek_flags flags
                                    (set_in_seeking true
                                       (clear_demux_state d0)))))))))))
    with (map ds_clear_demux_state
            (map ds_clear_reader_state (in_streams d))).
  rewrite map_map. apply map_ext. apply ds_clear_demux_state_idem.
Qed.

Lemma queued_seek_is_replaced_witness :
  in_seeking queued_seek_example = true
  /\ (in_seek_pts queued_seek_example == 20)%Q
  /\ (in_seek_pts (snd (demux_seek example_desc queued_seek_example 5 0))
      == 5)%Q
  /\ in_seek_flags (snd (demux_seek example_desc queued_seek_example 5 0))
     = 0.
Proof.
  assert (Hp : ~ (5 == MP_NOPTS_VALUE)%Q) by (vm_compute; discriminate).
  destruct (queued_seek_is_replaced example_desc (fun _ _ d => d)
              queued_seek_example 5 0 eq_refl eq_refl Hp eq_refl eq_refl)
    as [_ [Hpts [Hfl _]]].
  split; [reflexivity|]. split; [vm_compute; reflexivity|]. split.
  - rewrite Hpts. vm_compute. reflexivity.
  - exact Hfl.
Defined.

(** ** Reading any packet *)

Lemma read_any_loop_eq (desc : demuxer_desc) (fuel : nat)
    (d : demux_internal) :
  read_any_loop desc fuel d
  = match read_any_scan (length (in_streams d)) 0 d with
    | Done (Some pkt, d) => Done (Some pkt, d)
    | Done (None, d) =>
        let d := emit EvLock d in
        let (read_more, d) := read_packet desc d in
        let read_more := read_more && negb (in_eof d) in
        let d := emit EvUnlock d in
        if read_more then
          match fuel with
          | O => OutOfFuel
          | S fuel => read_any_loop desc fuel d
          end
        else Done (None, d)
    | AssertFail => AssertFail
    | OutOfFuel => OutOfFuel
    end.
Proof. destruct fuel; reflexivity. Qed.

(** One step of the scan, seen stream by stream: [P] and [Q] tell which
    streams were marked before and after the stream with index [s]. *)
Lemma mark_active_step (l : list demux_stream) (s : nat)
    (ds : demux_stream) (P Q : nat -> bool) :
  nth_error l s = Some ds ->
  (forall i, i <> s -> P i = Q i) -> P s = false -> Q s = true ->
  forall i,
    option_map
      (fun x => if P i then set_ds_active (ds_selected x) x else x)
      (nth_error (list_set s (set_ds_active (ds_selected ds) ds) l) i)
    = option_map
        (fun x => if Q i then set_ds_active (ds_selected x) x else x)
        (nth_error l i).
Proof.
  intros E HPQ HP HQ i. destruct (Nat.eq_dec i s) as [->|Hne].
  - rewrite (nth_error_list_set_eq _ _ _ _ E), E. cbn [option_map].
    rewrite HP, HQ. reflexivity.
  - rewrite nth_error_list_set_neq by congruence. rewrite (HPQ i Hne).
    reflexivity.
Qed.

Lemma set_in_streams_same (d : demux_internal) :
  set_in_streams (in_streams d) d = d.
Proof. destruct d. reflexivity. Qed.

(** The scan over streams that have nothing to read: each is marked
    active if and only if it is selected, and nothing else happens. *)
Lemma read_any_scan_empty (k : nat) :
  forall (n : nat) (d : demux_internal),
    cache_ok d ->
    (forall i ds, (n <= i < n + k)%nat ->
       nth_error (in_streams d) i = Some ds ->
       ds_attached_picture ds = None /\ ds_reader_head ds = None) ->
    exists streams,
      read_any_scan k n d = Done (None, set_in_streams streams d)
      /\ Forall queue_ok streams
      /\ forall i,
           nth_error streams i
           = option_map
               (fun x => if (n <=? i)%nat && (i <? n + k)%nat
                         then set_ds_active (ds_selected x) x else x)
               (nth_error (in_streams d) i).
Proof.
  induction k as [|k IH]; intros n d Hok Hempty.
  - exists (in_streams d). cbn [read_any_scan].
    rewrite set_in_streams_same. split; [reflexivity|].
    split; [exact Hok|]. intros i.
    replace ((n <=? i)%nat && (i <? n + 0)%nat) with false.
    + destruct (nth_error (in_streams d) i); reflexivity.
    + symmetry. apply andb_false_iff.
      destruct (Nat.leb_spec n i); [right|left; reflexivity].
      apply Nat.ltb_ge. lia.
  - cbn [read_any_scan].
    destruct (nth_error (in_streams d) n) as [ds|] eqn:E.
    + destruct (Hempty n ds ltac:(lia) E) as [Hpic Hh]. cbv zeta.
      set (d1 := set_stream n (set_ds_active (ds_selected ds) ds) d).
      assert (Hok1 : cache_ok d1).
      { apply Forall_list_set; [exact Hok|].
        exact (Forall_nth_error _ _ _ _ Hok E). }
      assert (E1 : nth_error (in_streams d1) n
                   = Some (set_ds_active (ds_selected ds) ds))
        by (eapply nth_error_set_stream; exact E).
      rewrite (dequeue_packet_empty n d1 _ Hok1 E1 Hpic)
        by (unfold forward;
            change (ds_reader_head (set_ds_active (ds_selected ds) ds))
              with (ds_reader_head ds);
            rewrite Hh; reflexivity).
      destruct (IH (S n) d1 Hok1) as [streams [R [Hq Hp]]].
      { intros i x Hi Ex. apply (Hempty i x); [lia|].
        change (in_streams d1)
          with (list_set n (set_ds_active (ds_selected ds) ds)
                  (in_streams d)) in Ex.
        rewrite nth_error_list_set_neq in Ex by lia. exact Ex. }
      exists streams. rewrite R.
      split; [destruct d; reflexivity|]. split; [exact Hq|].
      intros i. rewrite Hp.
      change (in_streams d1)
        with (list_set n (set_ds_active (ds_selected ds) ds) (in_streams d)).
      apply (mark_active_step (in_streams d) n ds
               (fun i => (S n <=? i)%nat && (i <? S n + k)%nat)
               (fun i => (n <=? i)%nat && (i <? n + S k)%nat) E).
      * intros j Hj.
        destruct (Nat.leb_spec (S n) j), (Nat.leb_spec n j),
          (Nat.ltb_spec j (S n + k)), (Nat.ltb_spec j (n + S k));
          try reflexivity; lia.
      * apply andb_false_iff. left. apply Nat.leb_gt. lia.
      * apply andb_true_iff. split; [apply Nat.leb_le|apply Nat.ltb_lt]; lia.
    + exists (in_streams d). rewrite set_in_streams_same.
      split; [reflexivity|]. split; [exact Hok|]. intros i.
      destruct (nth_error (in_streams d) i) as [x|] eqn:Ex; [|reflexivity].
      cbn [option_map].
      assert (i < length (in_streams d))%nat
        by (apply nth_error_Some; congruence).
      assert (length (in_streams d) <= n)%nat
        by (apply nth_error_None; exact E).
      replace (n <=? i)%nat with false by (symmetry; apply Nat.leb_gt; lia).
      reflexivity.
Qed.

(** The scan up to the first stream that has a packet to read. *)
Lemma read_any_scan_first (n : nat) (ds : demux_stream) (k : nat) :
  forall (start : nat) (d : demux_internal),
    cache_ok d ->
    (start <= n < start + k)%nat ->
    nth_error (in_streams d) n = Some ds ->
    ds_attached_picture ds = None ->
    forward ds <> [] ->
    (forall i x, (start <= i < n)%nat ->
       nth_error (in_streams d) i = Some x ->
       ds_attached_picture x = None /\ ds_reader_head x = None) ->
    exists streams,
      read_any_scan k start d = dequeue_packet n (set_in_streams streams d)
      /\ Forall queue_ok streams
      /\ forall i,
           nth_error streams i
           = option_map
               (fun x => if (start <=? i)%nat && (i <=? n)%nat
                         then set_ds_active (ds_selected x) x else x)
               (nth_error (in_streams d) i).
Proof.
  induction k as [|k IH]; intros start d Hok Hr E Hpic Hfw Hempty; [lia|].
  cbn [read_any_scan].
  destruct (Nat.eq_dec start n) as [->|Hne].
  - rewrite E. cbv zeta.
    set (d1 := set_stream n (set_ds_active (ds_selected ds) ds) d).
    assert (Hok1 : cache_ok d1).
    { apply Forall_list_set; [exact Hok|].
      exact (Forall_nth_error _ _ _ _ Hok E). }
    assert (E1 : nth_error (in_streams d1) n
                 = Some (set_ds_active (ds_selected ds) ds))
      by (eapply nth_error_set_stream; exact E).
    destruct (dequeue_packet_plain n d1 _ Hok1 E1 Hpic)
      as [pkt [d' [ds' [R [_ [_ [_ [_ [_ [_ [_ [Hp _]]]]]]]]]]]].
    change (forward (set_ds_active (ds_selected ds) ds)) with (forward ds)
      in Hp.
    exists (in_streams d1).
    replace (set_in_streams (in_streams d1) d) with d1
      by (destruct d; reflexivity).
    rewrite R. destruct (forward ds) as [|p rest]; [contradiction|].
    cbn [hd_error option_map] in Hp. subst pkt.
    split; [reflexivity|]. split; [exact Hok1|].
    intros i.
    change (in_streams d1)
      with (list_set n (set_ds_active (ds_selected ds) ds) (in_streams d)).
    destruct (Nat.eq_dec i n) as [->|Hi].
    + rewrite (nth_error_list_set_eq _ _ _ _ E), E. cbn [option_map].
      rewrite Nat.leb_refl. reflexivity.
    + rewrite nth_error_list_set_neq by congruence.
      destruct (nth_error (in_streams d) i); [|reflexivity].
      cbn [option_map].
      destruct (Nat.leb_spec n i), (Nat.leb_spec i n);
        try reflexivity; lia.
  - destruct (nth_error (in_streams d) start) as [x|] eqn:Ex.
    2:{ apply nth_error_None in Ex.
        assert (n < length (in_streams d))%nat
          by (apply nth_error_Some; congruence).
        lia. }
    destruct (Hempty start x ltac:(lia) Ex) as [Hpx Hhx]. cbv zeta.
    set (d1 := set_stream start (set_ds_active (ds_selected x) x) d).
    assert (Hok1 : cache_ok d1).
    { apply Forall_list_set; [exact Hok|].
      exact (Forall_nth_error _ _ _ _ Hok Ex). }
    assert (E1 : nth_error (in_streams d1) start
                 = Some (set_ds_active (ds_selected x) x))
      by (eapply nth_error_set_stream; exact Ex).
    rewrite (dequeue_packet_empty start d1 _ Hok1 E1 Hpx)
      by (unfold forward;
          change (ds_reader_head (set_ds_active (ds_selected x) x))
            with (ds_reader_head x);
          rewrite Hhx; reflexivity).
    destruct (IH (S start) d1 Hok1 ltac:(lia)) as [streams [R [Hq Hp]]].
    { change (in_streams d1)
        with (list_set start (set_ds_active (ds_selected x) x)
                (in_streams d)).
      rewrite nth_error_list_set_neq by congruence. exact E. }
    { exact Hpic. }
    { exact Hfw. }
    { intros i y Hi Ey. apply (Hempty i y); [lia|].
      change (in_streams d1)
        with (list_set start (set_ds_active (ds_selected x) x)
                (in_streams d)) in Ey.
      rewrite nth_error_list_set_neq in Ey by lia. exact Ey. }
    exists streams. rewrite R.
    split; [destruct d; reflexivity|]. split; [exact Hq|].
    intros i. rewrite Hp.
    change (in_streams d1)
      with (list_set start (set_ds_active (ds_selected x) x) (in_streams d)).
    apply (mark_active_step (in_streams d) start x
             (fun i => (S start <=? i)%nat && (i <=? n)%nat)
             (fun i => (start <=? i)%nat && (i <=? n)%nat) Ex).
    + intros j Hj.
      destruct (Nat.leb_spec (S start) j), (Nat.leb_spec start j);
        try reflexivity; lia.
    + apply andb_false_iff. left. apply Nat.leb_gt. lia.
    + apply andb_true_iff. split; apply Nat.leb_le; lia.
Qed.

Lemma forward_bytes_map_active (l : list demux_stream) :
  forward_bytes (map (fun x => set_ds_active (ds_selected x) x) l)
  = forward_bytes l.
Proof.
  unfold forward_bytes. f_equal.
  induction l as [|h t IH]; [reflexivity|].
  cbn [map fold_right]. rewrite IH. reflexivity.
Qed.

(** X30: [demux_read_any_packet] "doesn't work with threading": with a
    demuxer thread the assertion fails. Without one, on a cache without
    attached pictures: (1) if some stream has a packet to read, the
    function returns the next packet of the first such stream, with the
    offset of the timestamps added, as [dequeue_packet] does after the
    streams up to that one were marked active if and only if they are
    selected; the demuxer is not asked for anything, whatever the fuel.
    (2) "NULL means EOF": if no stream has a packet to read, some stream
    is selected, and the demuxer has nothing to give (no refresh pending,
    no seek queued), one [read_packet] ends the loop: the function
    returns NULL, with the cache and every stream at EOF and every stream
    active if and only if it is selected. *)
Theorem demux_read_any_packet_scan (desc : demuxer_desc) (fuel : nat)
    (d : demux_internal) :
  cache_ok d ->
  Forall (fun ds => ds_attached_picture ds = None) (in_streams d) ->
  (in_threading d = true -> demux_read_any_packet desc fuel d = AssertFail)
  /\ (in_threading d = false ->
      forall (n : nat) (ds : demux_stream) (p : demux_packet)
             (rest : list demux_packet),
        stream_at d n = Some ds ->
        forward ds = p :: rest ->
        (forall i x, (i < n)%nat -> stream_at d i = Some x ->
           ds_reader_head x = None) ->
        exists d0 d',
          demux_read_any_packet desc fuel d = dequeue_packet n d0
          /\ dequeue_packet n d0
             = Done (Some (returned_packet (in_ts_offset d) p), d')
          /\ in_trace d' = in_trace d
          /\ d0 = set_in_streams (in_streams d0) d
          /\ forall i,
               stream_at d0 i
               = option_map
                   (fun x => if (i <=? n)%nat
                             then set_ds_active (ds_selected x) x else x)
                   (stream_at d i))
  /\ (in_threading d = false ->
      Forall (fun ds => ds_reader_head ds = None) (in_streams d) ->
      (exists i ds, stream_at d i = Some ds /\ ds_selected ds = true) ->
      Forall (fun ds => ds_selected ds && ds_need_refresh ds = false)
        (in_streams d) ->
      in_seeking d = false ->
      forward_bytes (in_streams d) < to_size_t (in_max_bytes d) ->
      desc_fill_buffer desc = None \/ demux_cancel_test desc = true ->
      exists d',
        demux_read_any_packet desc fuel d = Done (None, d')
        /\ in_eof d' = true
        /\ in_streams d'
           = map (fun x => set_ds_eof true
                             (set_ds_active (ds_selected x) x))
               (in_streams d)).
Proof.
  intros Hok Hpics. unfold stream_at. split; [|split].
  - intros Ht. unfold demux_read_any_packet. rewrite Ht. reflexivity.
  - intros Ht n ds p rest E Hfw Hempty.
    assert (Hn : (n < length (in_streams d))%nat)
      by (apply nth_error_Some; congruence).
    destruct (read_any_scan_first n ds (length (in_streams d)) 0 d Hok
                ltac:(lia) E (Forall_nth_error _ _ _ _ Hpics E)
                ltac:(rewrite Hfw; discriminate))
      as [streams [R [Hq Hp]]].
    { intros i x Hi Ex. split.
      - exact (Forall_nth_error _ _ _ _ Hpics Ex).
      - apply (Hempty i x); [lia|exact Ex]. }
    set (d0 := set_in_streams streams d) in *.
    assert (E0 : nth_error (in_streams d0) n
                 = Some (set_ds_active (ds_selected ds) ds)).
    { change (in_streams d0) with streams. rewrite Hp, E.
      cbn [option_map Nat.leb]. rewrite Nat.leb_refl. reflexivity. }
    destruct (dequeue_packet_plain n d0 _ Hq E0
                (Forall_nth_error _ _ _ _ Hpics E))
      as [pkt [d' [ds' [R' [_ [Hd' [_ [_ [_ [_ [_ [Hpkt _]]]]]]]]]]]].
    change (forward (set_ds_active (ds_selected ds) ds)) with (forward ds)
      in Hpkt.
    rewrite Hfw in Hpkt. cbn [hd_error option_map] in Hpkt. subst pkt.
    exists d0, d'.
    split.
    { unfold demux_read_any_packet. rewrite Ht, read_any_loop_eq, R, R'.
      reflexivity. }
    split; [exact R'|]. split; [rewrite Hd'; reflexivity|].
    split; [reflexivity|]. intros i. exact (Hp i).
  - intros Ht Hheads [j [sel [Ej Hsel]]] Hr Hk Hcap Hfill.
    destruct (read_any_scan_empty (length (in_streams d)) 0 d Hok)
      as [streams [R [_ Hp]]].
    { intros i x _ Ex. split.
      - exact (Forall_nth_error _ _ _ _ Hpics Ex).
      - exact (Forall_nth_error _ _ _ _ Hheads Ex). }
    assert (Hs : streams
                 = map (fun x => set_ds_active (ds_selected x) x)
                     (in_streams d)).
    { apply nth_error_ext. intros i. rewrite Hp, nth_error_map.
      destruct (nth_error (in_streams d) i) as [x|] eqn:Ex; [|reflexivity].
      cbn [option_map Nat.leb].
      replace (i <? 0 + length (in_streams d))%nat with true; [reflexivity|].
      symmetry. apply Nat.ltb_lt. cbn [Nat.add]. apply nth_error_Some.
      congruence. }
    subst streams.
    set (d1 := set_in_streams
                 (map (fun x => set_ds_active (ds_selected x) x)
                    (in_streams d)) d) in *.
    assert (Eeof : read_packet desc (emit EvLock d1)
                   = (true, read_eof_state (emit EvLock d1))).
    { apply read_packet_eof_eq.
      - change (in_streams (emit EvLock d1))
          with (map (fun x => set_ds_active (ds_selected x) x)
                  (in_streams d)).
        rewrite forward_bytes_map_active. exact Hcap.
      - change (in_streams (emit EvLock d1))
          with (map (fun x => set_ds_active (ds_selected x) x)
                  (in_streams d)).
        apply (existsb_nth_error _ _ j
                 (set_ds_active (ds_selected sel) sel)).
        + rewrite nth_error_map, Ej. reflexivity.
        + unfold wants_data.
          change (ds_active (set_ds_active (ds_selected sel) sel))
            with (ds_selected sel).
          change (ds_reader_head (set_ds_active (ds_selected sel) sel))
            with (ds_reader_head sel).
          rewrite Hsel, (Forall_nth_error _ _ _ _ Hheads Ej). reflexivity.
      - change (in_streams (emit EvLock d1))
          with (map (fun x => set_ds_active (ds_selected x) x)
                  (in_streams d)).
        apply Forall_map. exact Hr.
      - exact Hk.
      - exact Hfill. }
    destruct (read_eof_state_fields (emit EvLock d1)) as [Fs [Fe _]].
    exists (emit EvUnlock (read_eof_state (emit EvLock d1))).
    split.
    { unfold demux_read_any_packet.
      rewrite Ht, read_any_loop_eq, R. cbv zeta. rewrite Eeof.
      rewrite Fe. reflexivity. }
    generalize dependent (read_eof_state (emit EvLock d1)).
    intros d2 _ Fs Fe.
    split; [exact Fe|].
    change (in_streams (emit EvUnlock d2)) with (in_streams d2).
    rewrite Fs.
    change (in_streams (emit EvLock d1))
      with (map (fun x => set_ds_active (ds_selected x) x) (in_streams d)).
    rewrite map_map. reflexivity.
Qed.

Lemma demux_read_any_packet_scan_witness :
  (exists pkt d',
     demux_read_any_packet example_desc 0 read_any_example
     = Done (Some pkt, d')
     /\ dp_stream pkt = 1 /\ (dp_pts pkt == 8)%Q)
  /\ (exists d',
        demux_read_any_packet example_desc 0 unthreaded_example
        = Done (None, d')
        /\ in_eof d' = true).
Proof.
  split.
  - assert (Hok : cache_ok read_any_example).
    { repeat constructor; vm_compute; try reflexivity; lia. }
    assert (Hpics : Forall (fun ds => ds_attached_picture ds = None)
                      (in_streams read_any_example))
      by (repeat constructor).
    eassert (E : stream_at read_any_example 1 = Some _)
      by (vm_compute; reflexivity).
    match type of E with
    | _ = Some ?ds =>
        eassert (Hfw : forward ds = _ :: _) by (vm_compute; reflexivity)
    end.
    assert (Hempty : forall i x, (i < 1)%nat ->
                       stream_at read_any_example i = Some x ->
                       ds_reader_head x = None).
    { intros [|i] x Hi Ex; [|lia]. vm_compute in Ex.
      injection Ex as <-. reflexivity. }
    destruct (demux_read_any_packet_scan example_desc 0 read_any_example
                Hok Hpics) as [_ [H _]].
    destruct (H eq_refl 1%nat _ _ _ E Hfw Hempty)
      as [d0 [d' [R [R' _]]]].
    eexists. exists d'. split; [rewrite R; exact R'|].
    split; vm_compute; reflexivity.
  - assert (Hok : cache_ok unthreaded_example).
    { repeat constructor; vm_compute; try reflexivity; lia. }
    assert (Hpics : Forall (fun ds => ds_attached_picture ds = None)
                      (in_streams unthreaded_example))
      by (repeat constructor).
    destruct (demux_read_any_packet_scan example_desc 0 unthreaded_example
                Hok Hpics) as [_ [_ H]].
    eassert (E : stream_at unthreaded_example 0 = Some _)
      by (vm_compute; reflexivity).
    destruct (H eq_refl ltac:(repeat constructor)
                ltac:(eexists 0%nat, _; split; [exact E|reflexivity])
                ltac:(repeat constructor) eq_refl
                ltac:(vm_compute; reflexivity) ltac:(left; reflexivity))
      as [d' [R [He _]]].
    exists d'. split; [exact R|exact He].
Defined.
